(** * SharedDDPG: multitask replay, batched update and shared-weight lifecycle

    A shallow embedding of [mushroom_rl_meta/algorithms/shared_ddpg.py] and of
    the set-up and the epoch loop of
    [examples/shared/ddpg/exp_shared_bullet.py].

    Conventions of the embedding.
    - Python floats and numpy float arrays are idealised as exact rationals
      ([Q]); equalities between computed numbers are stated with [==].
    - A Python exception is an outcome [Raised e]; the mutations done before
      the exception stay in the state, as in Python.
    - The approximators ([Regressor] over the actor and critic networks) are
      external collaborators, given as section variables: a forward pass
      is a function of the network and of its inputs, and a [fit] call
      yields the parameters that it leaves and may raise. Every call that
      [fit] makes on them is recorded as an event.
    - Task ids are Python integers of any magnitude; [np.array] keeps them
      as integers or converts them to floats, as numpy does.
    - The scratch tensors are those of [history_length = 1] and of a
      one-dimensional observation space, the configuration of the example
      runner, with a floating-point [dtype]. *)

From Stdlib Require Import String List ZArith QArith Bool Lia Arith Sorted
  Permutation Lqa Qabs.
Import ListNotations.

(* ===================================================================== *)
(** * Exceptions and the state-and-exception monad *)
(* ===================================================================== *)

(** The exceptions that the modelled code can raise, plus the error names
    of the specification ([InvalidTaskIdError] is named by the
    specification only: no statement of the source raises it). *)
Inductive exn : Type :=
| IndexError
| ValueError
| TypeError
| ZeroDivisionError
| InsufficientDataError
| InvalidTaskIdError
| ShapeMismatchError
| ApproximatorError.

Inductive outcome (A : Type) : Type :=
| Returned (a : A)
| Raised (e : exn).

Arguments Returned {A} a.
Arguments Raised {A} e.

(** A computation over a mutable state [S]: it always yields the final
    state, also when it raises. *)
Definition M (S A : Type) : Type := S -> outcome A * S.

Definition ret {S A} (a : A) : M S A := fun s => (Returned a, s).

Definition raise {S A} (e : exn) : M S A := fun s => (Raised e, s).

Definition bind {S A B} (m : M S A) (f : A -> M S B) : M S B :=
  fun s => match m s with
           | (Returned a, s') => f a s'
           | (Raised e, s') => (Raised e, s')
           end.

Definition gets {S A} (f : S -> A) : M S A := fun s => (Returned (f s), s).

Definition modify {S} (f : S -> S) : M S unit := fun s => (Returned tt, f s).

(** Lift a pure fallible value. *)
Definition lift {S A} (o : outcome A) : M S A := fun s => (o, s).

Declare Scope py_scope.
Delimit Scope py_scope with py.
Notation "x <- m ;; k" := (bind m (fun x => k))
  (at level 61, m at next level, right associativity) : py_scope.
Notation "m ;; k" := (bind m (fun _ => k))
  (at level 61, right associativity) : py_scope.

(** [for x in xs: body x] *)
Fixpoint for_ {S A} (xs : list A) (body : A -> M S unit) : M S unit :=
  match xs with
  | [] => ret tt
  | x :: rest => bind (body x) (fun _ => for_ rest body)
  end.

(* ===================================================================== *)
(** * Python lists and numpy arrays *)
(* ===================================================================== *)

(** An integer of 64 bits, signed: the range of numpy's [int64] and of
    the index type of a Python list. *)
Definition fits_int64 (g : Z) : bool :=
  ((- 9223372036854775808 <=? g) && (g <? 9223372036854775808))%Z.

(** An integer from [2^63] up to [2^64 - 1]: numpy holds it as an
    [uint64]. *)
Definition only_uint64 (g : Z) : bool :=
  ((9223372036854775808 <=? g) && (g <? 18446744073709551616))%Z.

(** [l[g]] for a Python list of length [len] and an integer [g]: a
    non-negative index below [len] selects position [g], a negative one
    down to [-len] selects [len + g], anything else is an [IndexError],
    and so is an integer that does not fit the index type. *)
Definition py_index (len : nat) (g : Z) : option nat :=
  let n := Z.of_nat len in
  if negb (fits_int64 g) then None
  else if ((0 <=? g) && (g <? n))%Z then Some (Z.to_nat g)
  else if ((- n <=? g) && (g <? 0))%Z then Some (Z.to_nat (n + g))
  else None.

(** [l[i]] for a loop index [i : nat]. *)
Definition py_get {A} (l : list A) (i : nat) : outcome A :=
  match nth_error l i with
  | Some x => Returned x
  | None => Raised IndexError
  end.

(** In-place update of the object stored at position [j] of a list. *)
Fixpoint update_at {A} (j : nat) (f : A -> A) (l : list A) : list A :=
  match l, j with
  | [], _ => []
  | x :: r, O => f x :: r
  | x :: r, S j' => x :: update_at j' f r
  end.

(** [np.array] on a list of Python integers of several magnitudes: an
    integer of 64 bits is an [int64] and one from [2^63] up to [2^64 - 1]
    an [uint64], and a list that holds both kinds, and nothing larger, is
    converted to [float64]. (A list of one kind keeps its integers, and so
    does a list with an integer beyond [2^64 - 1], whose array holds Python
    objects.) *)
Definition as_float64 (s : list Z) : bool :=
  existsb fits_int64 s && existsb only_uint64 s
  && forallb (fun g => fits_int64 g || only_uint64 g) s.

(** [np.unique]: the distinct values, ascending. *)
Fixpoint insert_unique (z : Z) (l : list Z) : list Z :=
  match l with
  | [] => [z]
  | x :: r => if (z <? x)%Z then z :: l
              else if (z =? x)%Z then l
              else x :: insert_unique z r
  end.

Definition np_unique (s : list Z) : list Z := fold_right insert_unique [] s.

(** [np.argwhere(s == g).ravel()]: the positions of [g] in [s], ascending. *)
Fixpoint argwhere_from (k : nat) (s : list Z) (g : Z) : list nat :=
  match s with
  | [] => []
  | x :: r => if (x =? g)%Z then k :: argwhere_from (S k) r g
              else argwhere_from (S k) r g
  end.

Definition argwhere_eq (s : list Z) (g : Z) : list nat := argwhere_from 0 s g.

(** [[dataset[idx] for idx in idxs]] *)
Definition take_at {A} (dataset : list A) (idxs : list nat) : list A :=
  flat_map (fun idx => match nth_error dataset idx with
                       | Some d => [d]
                       | None => []
                       end) idxs.

Definition np_zeros (n : nat) : list Q := repeat 0%Q n.

(** [a[start:stop]] (numpy clips the bounds to the length). *)
Definition slice {A} (start stop : nat) (a : list A) : list A :=
  firstn (stop - start) (skipn start a).

(** Broadcasting of a one-dimensional value [v] to length [n]: the length
    is [n], or [v] has one element, which is repeated. *)
Definition bcast {A} (n : nat) (v : list A) : option (list A) :=
  if (length v =? n)%nat then Some v
  else match v with
       | [x] => Some (repeat x n)
       | _ => None
       end.

(** [a[start:stop] = v] on a one-dimensional array. *)
Definition set_slice {A} (start stop : nat) (v a : list A)
  : outcome (list A) :=
  let n := length a in
  let s := Nat.min start n in
  let e := Nat.max s (Nat.min stop n) in
  match bcast (e - s) v with
  | Some v' => Returned (firstn s a ++ v' ++ skipn e a)
  | None => Raised ValueError
  end.

(** Elementwise binary operation with broadcasting ([a + b], [a * b]). *)
Definition np_zip (op : Q -> Q -> Q) (a b : list Q) : outcome (list Q) :=
  if (length a =? length b)%nat
  then Returned (map (fun p => op (fst p) (snd p)) (combine a b))
  else match a, b with
       | [x], _ => Returned (map (op x) b)
       | _, [y] => Returned (map (fun u => op u y) a)
       | _, _ => Raised ValueError
       end.

(** [a += b]: the shape of [a] is kept, so only [b] may be broadcast. *)
Definition np_iadd (a b : list Q) : outcome (list Q) :=
  match bcast (length a) b with
  | Some b' => Returned (map (fun p => (fst p + snd p)%Q) (combine a b'))
  | None => Raised ValueError
  end.

(** [np.any] on a float array. *)
Definition np_any (a : list Q) : bool :=
  existsb (fun x => negb (Qeq_bool x 0)) a.

(** Two-dimensional float array, [ncols] columns. *)
Record matrix : Type := { ncols : nat; mrows : list (list Q) }.

Definition zeros2 (n w : nat) : matrix :=
  {| ncols := w; mrows := repeat (np_zeros w) n |}.

(** All rows of a list of rows have the same width. *)
Definition uniform (V : list (list Q)) : bool :=
  match V with
  | [] => true
  | r0 :: rest => forallb (fun r => (length r =? length r0)%nat) rest
  end.

Fixpoint sequence {A} (l : list (option A)) : option (list A) :=
  match l with
  | [] => Some []
  | None :: _ => None
  | Some x :: r => match sequence r with
                   | Some xs => Some (x :: xs)
                   | None => None
                   end
  end.

(** [m[start:stop, :k] = V]: the target block has the clipped rows and the
    first [min k ncols] columns; [V] is broadcast to it along both axes. A
    ragged [V] or a shape that does not broadcast is a [ValueError]. *)
Definition set_block (start stop k : nat) (V : list (list Q)) (m : matrix)
  : outcome matrix :=
  let n := length (mrows m) in
  let s := Nat.min start n in
  let e := Nat.max s (Nat.min stop n) in
  let kk := Nat.min k (ncols m) in
  if negb (uniform V) then Raised ValueError
  else match bcast (e - s) V with
       | None => Raised ValueError
       | Some V1 =>
           match sequence (map (bcast kk) V1) with
           | None => Raised ValueError
           | Some V2 =>
               Returned
                 {| ncols := ncols m;
                    mrows := firstn s (mrows m)
                             ++ map (fun p => fst p ++ skipn kk (snd p))
                                  (combine V2 (slice s e (mrows m)))
                             ++ skipn e (mrows m) |}
           end
       end.

(** The result of [np.zeros((n, 1, w)).squeeze()]: every axis of size one
    is dropped, so the array is two-dimensional only when [n <> 1] and
    [w <> 1]. *)
Inductive ndarray : Type :=
| Nd0 (x : Q)
| Nd1 (v : list Q)
| Nd2 (m : matrix).

Definition squeezed_zeros (n w : nat) : ndarray :=
  match (n =? 1)%nat, (w =? 1)%nat with
  | true, true => Nd0 0
  | true, false => Nd1 (np_zeros w)
  | false, true => Nd1 (np_zeros n)
  | false, false => Nd2 (zeros2 n w)
  end.

(** [a[start:stop, :k] = V] on a squeezed array: two indices on an array
    of fewer than two axes are an [IndexError]. *)
Definition set_block_nd (start stop k : nat) (V : list (list Q)) (a : ndarray)
  : outcome ndarray :=
  match a with
  | Nd2 m => match set_block start stop k V m with
             | Returned m' => Returned (Nd2 m')
             | Raised e => Raised e
             end
  | _ => Raised IndexError
  end.

(* ===================================================================== *)
(** * Datasets and the per-task replay buffer *)
(* ===================================================================== *)

(** One element [d] of a dataset: the tuple
    [(state, action, reward, next_state, absorbing, last)]. The state and
    the next state are pairs whose first component is the task index, so
    that [d[0][0]] is the task id read by [fit]. *)
Record Sample : Type := {
  s_state : Z * list Q;
  s_action : list Q;
  s_reward : Q;
  s_next_state : Z * list Q;
  s_absorbing : bool;
  s_last : bool
}.

(** [d[0][0]] *)
Definition task_of (d : Sample) : Z := fst (s_state d).

Module ReplayMemoryMulty.

(** Modelled from the spec: the class [ReplayMemoryMulty] of
    [mushroom_rl_meta/replay_memory.py], which is not among the sources.
    Following sections 3 and 4.1 of the specification: a transition is
    [(task_id, state, action, reward, next_state, absorbing)]; the buffer
    is an ordered circular store with a [capacity], a [min_size] and an
    [initialized] flag that becomes true once the stored count reaches
    [min_size] and never resets. *)
Record Transition : Type := {
  task_id : Z;
  state : list Q;
  action : list Q;
  reward : Q;
  next_state : list Q;
  absorbing : bool
}.

Record t : Type := {
  min_size : nat;
  capacity : nat;
  stored : list Transition;
  initialized : bool
}.

Definition of_sample (d : Sample) : Transition :=
  {| task_id := fst (s_state d);
     state := snd (s_state d);
     action := s_action d;
     reward := s_reward d;
     next_state := snd (s_next_state d);
     absorbing := s_absorbing d |}.

(** Modelled from the spec: [add] appends the transitions and overwrites
    the oldest entries once [capacity] is exceeded. *)
Definition add (ds : list Sample) (m : t) : t :=
  let all := stored m ++ map of_sample ds in
  let kept := skipn (length all - capacity m) all in
  {| min_size := min_size m;
     capacity := capacity m;
     stored := kept;
     initialized := initialized m || (min_size m <=? length kept)%nat |}.

(** The parallel arrays returned by [get]. *)
Record batch : Type := {
  b_state : list (list Q);
  b_action : list (list Q);
  b_reward : list Q;
  b_next_state : list (list Q);
  b_absorbing : list bool;
  b_task_id : list Z
}.

Definition to_batch (l : list Transition) : batch :=
  {| b_state := map state l;
     b_action := map action l;
     b_reward := map reward l;
     b_next_state := map next_state l;
     b_absorbing := map absorbing l;
     b_task_id := map task_id l |}.

(** The [n] transitions drawn with replacement; [pick k] is the outcome
    of the [k]-th uniform draw, reduced to the stored range. *)
Definition draw (n : nat) (pick : nat -> nat) (m : t) : list Transition :=
  match stored m with
  | [] => []
  | t0 :: _ =>
      map (fun k => nth (pick k mod length (stored m)) (stored m) t0)
          (seq 0 n)
  end.

(** Modelled from the spec: [get n] fails with [InsufficientDataError]
    before [initialized], and otherwise returns [n] transitions sampled
    uniformly with replacement, as parallel arrays. The specification is
    silent on an initialized buffer that stores nothing (possible only
    with [min_size = 0]): the draw from an empty range is the sampler's
    [ValueError]. *)
Definition get (n : nat) (pick : nat -> nat) (m : t) : outcome batch :=
  if negb (initialized m) then Raised InsufficientDataError
  else match stored m with
       | [] => Raised ValueError
       | _ :: _ => Returned (to_batch (draw n pick m))
       end.

(** Modelled from the spec: a new buffer stores nothing, and it is
    [initialized] exactly when its empty store already holds [min_size]
    entries. *)
Definition create (initial_size max_size : nat) : t :=
  {| min_size := initial_size;
     capacity := max_size;
     stored := [];
     initialized := (initial_size <=? 0)%nat |}.

End ReplayMemoryMulty.

(* ===================================================================== *)
(** * Networks and their shared weights *)
(* ===================================================================== *)

Module Network.

(** Modelled from the spec: the actor and critic networks of
    [examples/shared/ddpg/networks.py], which are not among the sources.
    Following section 4.3 of the specification, the parameters carry a
    static partition into shared and per-task ones ([shared_mask], true
    on the shared positions; positions past the mask are per-task), and
    the shared subset carries a trainable flag. [weights] is the flat
    parameter vector that [get_weights()] returns. *)
Record t : Type := {
  weights : list Q;
  shared_mask : list bool;
  shared_trainable : bool
}.

Definition with_weights (w : list Q) (net : t) : t :=
  {| weights := w;
     shared_mask := shared_mask net;
     shared_trainable := shared_trainable net |}.

(** The values at the shared positions, in order. *)
Fixpoint select (mask : list bool) (w : list Q) : list Q :=
  match mask, w with
  | true :: mask', x :: w' => x :: select mask' w'
  | false :: mask', _ :: w' => select mask' w'
  | _, _ => []
  end.

(** The values at the per-task positions, in order. *)
Fixpoint unselect (mask : list bool) (w : list Q) : list Q :=
  match mask, w with
  | true :: mask', _ :: w' => unselect mask' w'
  | false :: mask', x :: w' => x :: unselect mask' w'
  | [], _ => w
  | _, [] => []
  end.

(** Overwrite the shared positions with the values of [s], in order. *)
Fixpoint overwrite (mask : list bool) (w s : list Q) : list Q :=
  match mask, w with
  | true :: mask', x :: w' =>
      match s with
      | y :: s' => y :: overwrite mask' w' s'
      | [] => x :: overwrite mask' w' []
      end
  | false :: mask', x :: w' => x :: overwrite mask' w' s
  | _, _ => w
  end.

(** Modelled from the spec: export returns a copy of the shared
    parameters only. *)
Definition get_shared_weights (net : t) : list Q :=
  select (shared_mask net) (weights net).

(** Modelled from the spec: import overwrites the shared parameters in
    place; the shapes must match exactly or it fails with
    [ShapeMismatchError] before any overwrite. *)
Definition set_shared_weights (s : list Q) (net : t) : outcome t :=
  if (length s =? length (get_shared_weights net))%nat
  then Returned (with_weights (overwrite (shared_mask net) (weights net) s)
                              net)
  else Raised ShapeMismatchError.

Definition freeze_shared_weights (net : t) : t :=
  {| weights := weights net;
     shared_mask := shared_mask net;
     shared_trainable := false |}.

Definition unfreeze_shared_weights (net : t) : t :=
  {| weights := weights net;
     shared_mask := shared_mask net;
     shared_trainable := true |}.

(** [Regressor.get_weights()] *)
Definition get_weights (net : t) : list Q := weights net.

(** [Regressor.set_weights(w)]: the approximator copies [w] into its
    parameters and fails when the sizes differ. *)
Definition set_weights (w : list Q) (net : t) : outcome t :=
  if (length w =? length (weights net))%nat
  then Returned (with_weights w net)
  else Raised ApproximatorError.

End Network.

(** What a [fit] call on an approximator ([Regressor.fit]) leaves behind:
    the parameters that the network holds when the call ends, and whether
    the call returned or raised. A call that raises may have changed the
    parameters already. *)
Inductive fit_result : Type :=
| Fitted (w : list Q)
| FitRaised (w : list Q).

Definition fit_weights (r : fit_result) : list Q :=
  match r with
  | Fitted w => w
  | FitRaised w => w
  end.

(* ===================================================================== *)
(** * The agent: [SharedDDPG] *)
(* ===================================================================== *)

(** The pre-allocated working arrays of [_allocate_memory] (in the source
    they are attributes of the agent itself; they are grouped here). *)
Record Scratch : Type := {
  _state_idxs : list Z;
  _state : ndarray;
  _action : matrix;
  _reward : list Q;
  _next_state_idxs : list Z;
  _next_state : ndarray;
  _absorbing : list Q
}.

(** The attributes of a [SharedDDPG] object. [_n_input_per_mdp] and
    [_n_actions_per_head] hold the first component of each shape tuple (the
    source reads them as [[i][0]]); [obs_width] is
    [mdp_info.observation_space.shape[0]] and [gamma] is [mdp_info.gamma],
    one discount factor per task. *)
Record SharedDDPG : Type := {
  _batch_size : nat;
  _n_games : nat;
  _n_input_per_mdp : list nat;
  _n_actions_per_head : list nat;
  _max_actions : nat;
  _tau : Q;
  obs_width : nat;
  gamma : list Q;
  _replay_memory : list ReplayMemoryMulty.t;
  _n_updates : nat;
  _critic_approximator : Network.t;
  _target_critic_approximator : Network.t;
  _actor_approximator : Network.t;
  _target_actor_approximator : Network.t;
  scratch : Scratch
}.

Definition with_replay_memory (rm : list ReplayMemoryMulty.t)
  (a : SharedDDPG) : SharedDDPG :=
  {| _batch_size := _batch_size a; _n_games := _n_games a;
     _n_input_per_mdp := _n_input_per_mdp a;
     _n_actions_per_head := _n_actions_per_head a;
     _max_actions := _max_actions a; _tau := _tau a;
     obs_width := obs_width a; gamma := gamma a;
     _replay_memory := rm;
     _n_updates := _n_updates a;
     _critic_approximator := _critic_approximator a;
     _target_critic_approximator := _target_critic_approximator a;
     _actor_approximator := _actor_approximator a;
     _target_actor_approximator := _target_actor_approximator a;
     scratch := scratch a |}.

Definition with_n_updates (n : nat) (a : SharedDDPG) : SharedDDPG :=
  {| _batch_size := _batch_size a; _n_games := _n_games a;
     _n_input_per_mdp := _n_input_per_mdp a;
     _n_actions_per_head := _n_actions_per_head a;
     _max_actions := _max_actions a; _tau := _tau a;
     obs_width := obs_width a; gamma := gamma a;
     _replay_memory := _replay_memory a;
     _n_updates := n;
     _critic_approximator := _critic_approximator a;
     _target_critic_approximator := _target_critic_approximator a;
     _actor_approximator := _actor_approximator a;
     _target_actor_approximator := _target_actor_approximator a;
     scratch := scratch a |}.

Definition with_critic (net : Network.t) (a : SharedDDPG) : SharedDDPG :=
  {| _batch_size := _batch_size a; _n_games := _n_games a;
     _n_input_per_mdp := _n_input_per_mdp a;
     _n_actions_per_head := _n_actions_per_head a;
     _max_actions := _max_actions a; _tau := _tau a;
     obs_width := obs_width a; gamma := gamma a;
     _replay_memory := _replay_memory a;
     _n_updates := _n_updates a;
     _critic_approximator := net;
     _target_critic_approximator := _target_critic_approximator a;
     _actor_approximator := _actor_approximator a;
     _target_actor_approximator := _target_actor_approximator a;
     scratch := scratch a |}.

Definition with_target_critic (net : Network.t) (a : SharedDDPG)
  : SharedDDPG :=
  {| _batch_size := _batch_size a; _n_games := _n_games a;
     _n_input_per_mdp := _n_input_per_mdp a;
     _n_actions_per_head := _n_actions_per_head a;
     _max_actions := _max_actions a; _tau := _tau a;
     obs_width := obs_width a; gamma := gamma a;
     _replay_memory := _replay_memory a;
     _n_updates := _n_updates a;
     _critic_approximator := _critic_approximator a;
     _target_critic_approximator := net;
     _actor_approximator := _actor_approximator a;
     _target_actor_approximator := _target_actor_approximator a;
     scratch := scratch a |}.

Definition with_actor (net : Network.t) (a : SharedDDPG) : SharedDDPG :=
  {| _batch_size := _batch_size a; _n_games := _n_games a;
     _n_input_per_mdp := _n_input_per_mdp a;
     _n_actions_per_head := _n_actions_per_head a;
     _max_actions := _max_actions a; _tau := _tau a;
     obs_width := obs_width a; gamma := gamma a;
     _replay_memory := _replay_memory a;
     _n_updates := _n_updates a;
     _critic_approximator := _critic_approximator a;
     _target_critic_approximator := _target_critic_approximator a;
     _actor_approximator := net;
     _target_actor_approximator := _target_actor_approximator a;
     scratch := scratch a |}.

Definition with_target_actor (net : Network.t) (a : SharedDDPG)
  : SharedDDPG :=
  {| _batch_size := _batch_size a; _n_games := _n_games a;
     _n_input_per_mdp := _n_input_per_mdp a;
     _n_actions_per_head := _n_actions_per_head a;
     _max_actions := _max_actions a; _tau := _tau a;
     obs_width := obs_width a; gamma := gamma a;
     _replay_memory := _replay_memory a;
     _n_updates := _n_updates a;
     _critic_approximator := _critic_approximator a;
     _target_critic_approximator := _target_critic_approximator a;
     _actor_approximator := _actor_approximator a;
     _target_actor_approximator := net;
     scratch := scratch a |}.

Definition with_scratch (sc : Scratch) (a : SharedDDPG) : SharedDDPG :=
  {| _batch_size := _batch_size a; _n_games := _n_games a;
     _n_input_per_mdp := _n_input_per_mdp a;
     _n_actions_per_head := _n_actions_per_head a;
     _max_actions := _max_actions a; _tau := _tau a;
     obs_width := obs_width a; gamma := gamma a;
     _replay_memory := _replay_memory a;
     _n_updates := _n_updates a;
     _critic_approximator := _critic_approximator a;
     _target_critic_approximator := _target_critic_approximator a;
     _actor_approximator := _actor_approximator a;
     _target_actor_approximator := _target_actor_approximator a;
     scratch := sc |}.

Definition set_state_idxs (x : list Z) (sc : Scratch) : Scratch :=
  {| _state_idxs := x; _state := _state sc; _action := _action sc;
     _reward := _reward sc; _next_state_idxs := _next_state_idxs sc;
     _next_state := _next_state sc; _absorbing := _absorbing sc |}.

Definition set_state (x : ndarray) (sc : Scratch) : Scratch :=
  {| _state_idxs := _state_idxs sc; _state := x; _action := _action sc;
     _reward := _reward sc; _next_state_idxs := _next_state_idxs sc;
     _next_state := _next_state sc; _absorbing := _absorbing sc |}.

Definition set_action (x : matrix) (sc : Scratch) : Scratch :=
  {| _state_idxs := _state_idxs sc; _state := _state sc; _action := x;
     _reward := _reward sc; _next_state_idxs := _next_state_idxs sc;
     _next_state := _next_state sc; _absorbing := _absorbing sc |}.

Definition set_reward (x : list Q) (sc : Scratch) : Scratch :=
  {| _state_idxs := _state_idxs sc; _state := _state sc;
     _action := _action sc; _reward := x;
     _next_state_idxs := _next_state_idxs sc;
     _next_state := _next_state sc; _absorbing := _absorbing sc |}.

Definition set_next_state_idxs (x : list Z) (sc : Scratch) : Scratch :=
  {| _state_idxs := _state_idxs sc; _state := _state sc;
     _action := _action sc; _reward := _reward sc; _next_state_idxs := x;
     _next_state := _next_state sc; _absorbing := _absorbing sc |}.

Definition set_next_state (x : ndarray) (sc : Scratch) : Scratch :=
  {| _state_idxs := _state_idxs sc; _state := _state sc;
     _action := _action sc; _reward := _reward sc;
     _next_state_idxs := _next_state_idxs sc;
     _next_state := x; _absorbing := _absorbing sc |}.

Definition set_absorbing (x : list Q) (sc : Scratch) : Scratch :=
  {| _state_idxs := _state_idxs sc; _state := _state sc;
     _action := _action sc; _reward := _reward sc;
     _next_state_idxs := _next_state_idxs sc;
     _next_state := _next_state sc; _absorbing := x |}.

(** The calls that [fit] makes on its collaborators, in order. *)
Inductive event : Type :=
| EvAdd (j : nat) (d : list Sample)
    (* [self._replay_memory[g].add(d)], [j] the position selected by [g] *)
| EvGet (i : nat) (n : nat)
    (* [self._replay_memory[i].get(n)] *)
| EvTargetActor (st : ndarray) (idx : list Z)
    (* [self._target_actor_approximator(next_state, idx=idx)] *)
| EvTargetCritic (st : ndarray) (ac : list (list Q)) (idx : list Z)
    (* [self._target_critic_approximator(next_state, a, idx=idx)] *)
| EvCriticFit (st : ndarray) (ac : matrix) (q : list Q) (idx : list Z)
    (* [self._critic_approximator.fit(state, action, q, idx=idx)] *)
| EvActorFit (st : ndarray) (idx : list Z)
    (* [self._actor_approximator.fit(state, state, idx, idx=idx)] *)
| EvUpdateTarget.
    (* [self._update_target()] *)

(** The agent together with the calls made so far. *)
Definition world : Type := (SharedDDPG * list event)%type.

Definition agent (w : world) : SharedDDPG := fst w.
Definition calls (w : world) : list event := snd w.

Definition emit (e : event) : M world unit :=
  fun w => (Returned tt, (fst w, snd w ++ [e])).

Definition update (f : SharedDDPG -> SharedDDPG) : M world unit :=
  fun w => (Returned tt, (f (fst w), snd w)).

Definition read {A} (f : SharedDDPG -> A) : M world A :=
  fun w => (Returned (f (fst w)), w).

(** An assignment to one scratch array: [op] computes the new array from
    the old one, or raises and leaves it untouched. *)
Definition assign {X} (proj : Scratch -> X) (put : X -> Scratch -> Scratch)
  (op : X -> outcome X) : M world unit :=
  fun w => match op (proj (scratch (fst w))) with
           | Returned x =>
               (Returned tt,
                (with_scratch (put x (scratch (fst w))) (fst w), snd w))
           | Raised e => (Raised e, w)
           end.

Definition b2q (b : bool) : Q := if b then 1%Q else 0%Q.

Local Open Scope py_scope.

(** [_allocate_memory]: every working array is allocated zero-filled, with
    [n_samples = batch_size * n_games] rows. *)
Definition _allocate_memory (a : SharedDDPG) : SharedDDPG :=
  let n_samples := (_batch_size a * _n_games a)%nat in
  with_scratch
    {| _state_idxs := repeat 0%Z n_samples;
       _state := squeezed_zeros n_samples (obs_width a);
       _action := zeros2 n_samples (_max_actions a);
       _reward := np_zeros n_samples;
       _next_state_idxs := repeat 0%Z n_samples;
       _next_state := squeezed_zeros n_samples (obs_width a);
       _absorbing := np_zeros n_samples |}
    a.

(** The routing phase of [fit], for one distinct task id [g] (lines
    100-105). When numpy has converted the ids to floats, [g] is a
    [numpy.float64], and indexing the list of buffers with it is a
    [TypeError]. *)
Definition route_game (dataset : list Sample) (s : list Z) (g : Z)
  : M world unit :=
  let idxs := argwhere_eq s g in
  let d := take_at dataset idxs in
  rm <- read _replay_memory ;;
  if as_float64 s then raise TypeError
  else
    match py_index (length rm) g with
    | None => raise IndexError
    | Some j =>
        emit (EvAdd j d) ;;
        update (fun a =>
                  with_replay_memory
                    (update_at j (ReplayMemoryMulty.add d) (_replay_memory a))
                    a)
    end.

(** Lines 97-105 of [fit]. *)
Definition route (dataset : list Sample) : M world unit :=
  let s := map task_of dataset in
  let games := np_unique s in
  for_ games (route_game dataset s).

(** [fit_condition] *)
Definition all_initialized (a : SharedDDPG) : bool :=
  forallb ReplayMemoryMulty.initialized (_replay_memory a).

(** One iteration of the loop of [_next_q], on the local array [out_q]. *)
Definition next_q_game (a : SharedDDPG) (q : list Q) (i : nat)
  : M (list Q) unit :=
  let start := (_batch_size a * i)%nat in
  let stop := (start + _batch_size a)%nat in
  g <- lift (py_get (gamma a) i) ;;
  (out_q <- gets (fun o => o) ;;
   out1 <- lift (set_slice start stop
                   (map (fun x => (x * g)%Q) (slice start stop q)) out_q) ;;
   modify (fun _ => out1)) ;;
  if np_any (slice start stop (_absorbing (scratch a))) then
    out_q <- gets (fun o => o) ;;
    v <- lift (np_zip Qmult (slice start stop out_q)
                 (map (fun x => (1 - x)%Q)
                      (slice start stop (_absorbing (scratch a))))) ;;
    out2 <- lift (set_slice start stop v out_q) ;;
    modify (fun _ => out2)
  else ret tt.

(** [_update_target] for one pair of networks:
    [w = tau * live.get_weights(); w += (1 - tau) * target.get_weights();
     target.set_weights(w)]. *)
Definition soft_update (tau : Q) (live target : Network.t)
  : outcome Network.t :=
  let w := map (fun x => (tau * x)%Q) (Network.get_weights live) in
  match np_iadd w (map (fun x => ((1 - tau) * x)%Q)
                       (Network.get_weights target)) with
  | Returned w' => Network.set_weights w' target
  | Raised e => Raised e
  end.

Definition _update_target : M world unit :=
  a <- read (fun a => a) ;;
  tc <- lift (soft_update (_tau a) (_critic_approximator a)
                (_target_critic_approximator a)) ;;
  update (with_target_critic tc) ;;
  a <- read (fun a => a) ;;
  ta <- lift (soft_update (_tau a) (_actor_approximator a)
                (_target_actor_approximator a)) ;;
  update (with_target_actor ta).

(** [get_shared_weights]: the two-element list [[cw, aw]]. *)
Definition get_shared_weights (a : SharedDDPG) : list (list Q) :=
  let cw := Network.get_shared_weights (_critic_approximator a) in
  let aw := Network.get_shared_weights (_actor_approximator a) in
  [cw; aw].

(** [set_shared_weights(weights)]: [weights[0]] goes to the critic, then
    [weights[1]] to the actor. *)
Definition set_shared_weights (weights : list (list Q))
  : M SharedDDPG unit :=
  w0 <- lift (py_get weights 0) ;;
  c <- (a <- gets (fun a => a) ;;
        lift (Network.set_shared_weights w0 (_critic_approximator a))) ;;
  modify (with_critic c) ;;
  w1 <- lift (py_get weights 1) ;;
  n <- (a <- gets (fun a => a) ;;
        lift (Network.set_shared_weights w1 (_actor_approximator a))) ;;
  modify (with_actor n).

Definition freeze_shared_weights (a : SharedDDPG) : SharedDDPG :=
  with_actor (Network.freeze_shared_weights (_actor_approximator a))
    (with_critic (Network.freeze_shared_weights (_critic_approximator a)) a).

Definition unfreeze_shared_weights (a : SharedDDPG) : SharedDDPG :=
  with_actor (Network.unfreeze_shared_weights (_actor_approximator a))
    (with_critic (Network.unfreeze_shared_weights (_critic_approximator a))
       a).

(** Python's [<] on tuples of integers: lexicographic, a proper prefix
    being the smaller. *)
Fixpoint tuple_lt (s t : list nat) : bool :=
  match s, t with
  | _, [] => false
  | [], _ :: _ => true
  | x :: s', y :: t' => (x <? y)%nat || ((x =? y)%nat && tuple_lt s' t')
  end.

(** A shape tuple [(t0, rest)]: the shapes that the class indexes with
    [[0]] have at least one component. *)
Definition shape : Type := (nat * list nat)%type.

Definition shape_lt (s t : shape) : bool :=
  tuple_lt (fst s :: snd s) (fst t :: snd t).

(** The loop of [max]: [best] is replaced by an item only when the item
    is greater, so that the first of the greatest items is kept. *)
Fixpoint max_from (best : shape) (l : list shape) : shape :=
  match l with
  | [] => best
  | item :: rest => max_from (if shape_lt best item then item else best) rest
  end.

(** [max(l)] on a list of tuples. *)
Definition py_max (l : list shape) : outcome shape :=
  match l with
  | [] => Raised ValueError
  | x :: rest => Returned (max_from x rest)
  end.

Module Init.

(** The arguments of [SharedDDPG.__init__] that the class keeps. The
    observation space of [mdp_info] has the shape [(obs_width,)];
    [critic], [target_critic], [actor] and [target_actor] are the networks
    that the four [Regressor] constructions build, in the order of the
    source. *)
Record Args : Type := {
  observation_width : nat;
  mdp_gamma : list Q;
  batch_size : nat;
  initial_replay_size : nat;
  max_replay_size : nat;
  tau : Q;
  n_actions_per_head : list shape;
  n_input_per_mdp : option (list shape);
  n_games : nat;
  critic : Network.t;
  target_critic : Network.t;
  actor : Network.t;
  target_actor : Network.t
}.

End Init.

(** The working arrays before [_allocate_memory] has run. *)
Definition no_scratch : Scratch :=
  {| _state_idxs := []; _state := Nd0 0; _action := zeros2 0 0;
     _reward := []; _next_state_idxs := []; _next_state := Nd0 0;
     _absorbing := [] |}.

(** [SharedDDPG.__init__] (lines 27-94). The record keeps the first
    component of every shape tuple, the only one that the class reads. *)
Definition __init__ (args : Init.Args) : outcome SharedDDPG :=
  let n_input :=
    match Init.n_input_per_mdp args with
    | None => repeat (Init.observation_width args, []) (Init.n_games args)
    | Some l => l
    end in
  match py_max (Init.n_actions_per_head args) with
  | Raised e => Raised e
  | Returned m =>
      let rm := repeat (ReplayMemoryMulty.create
                          (Init.initial_replay_size args)
                          (Init.max_replay_size args))
                       (Init.n_games args) in
      match Network.set_weights (Network.get_weights (Init.actor args))
              (Init.target_actor args) with
      | Raised e => Raised e
      | Returned ta =>
          match Network.set_weights (Network.get_weights (Init.critic args))
                  (Init.target_critic args) with
          | Raised e => Raised e
          | Returned tc =>
              Returned
                (_allocate_memory
                   {| _batch_size := Init.batch_size args;
                      _n_games := Init.n_games args;
                      _n_input_per_mdp := map fst n_input;
                      _n_actions_per_head :=
                        map fst (Init.n_actions_per_head args);
                      _max_actions := fst m;
                      _tau := Init.tau args;
                      obs_width := Init.observation_width args;
                      gamma := Init.mdp_gamma args;
                      _replay_memory := rm;
                      _n_updates := 0;
                      _critic_approximator := Init.critic args;
                      _target_critic_approximator := tc;
                      _actor_approximator := Init.actor args;
                      _target_actor_approximator := ta;
                      scratch := no_scratch |})
          end
      end
  end.

(** [_post_load]: the actor is taken back from the policy, whose
    approximator is [policy_approximator], and the working arrays, which
    are not saved with the agent, are allocated anew. *)
Definition _post_load (policy_approximator : Network.t) (a : SharedDDPG)
  : SharedDDPG :=
  _allocate_memory (with_actor policy_approximator a).

(** [np.mean] / [Tensor.mean] of a flat array; the mean of no element is
    [nan], rendered [None]. *)
Definition mean (l : list Q) : option Q :=
  match l with
  | [] => None
  | _ :: _ =>
      Some (fold_right Qplus 0%Q l / inject_Z (Z.of_nat (length l)))%Q
  end.

(* ===================================================================== *)
(** * The runner loop of [exp_shared_bullet.py] *)
(* ===================================================================== *)

Module Runner.

(** The command-line arguments read by lines 78-89 and 185-228. *)
Record Args : Type := {
  debug : bool;
  max_steps : Z;
  evaluation_frequency : Z;
  unfreeze_epoch : Z;
  save_shared : string;
  save : bool
}.

(** Truth value of a Python string: false only for the empty one. *)
Definition truthy (s : string) : bool :=
  match s with
  | EmptyString => false
  | String _ _ => true
  end.

(** The calls of the loop on its collaborators, in order. *)
Inductive event : Type :=
| Freeze                               (* [agent.freeze_shared_weights()] *)
| Unfreeze (n_epoch : Z)               (* [agent.unfreeze_shared_weights()] *)
| Learn (n_epoch : Z)                  (* [core.learn(...)] *)
| Evaluate (n_epoch : Z)               (* [core.evaluate(...)] *)
| Export (n_epoch : Z)                 (* [agent.get_shared_weights()] *)
| LogAgent (n_epoch : Z)               (* [logger.log_agent(agent)] *)
| Dump (w : option (list (list Q))).   (* [pickle.dump(best_weights, ...)] *)

(** The variables of [experiment] that the loop mutates; [None] stands
    for [-np.inf] in [best_score_sum] and for Python's [None] in
    [best_weights]. *)
Record state : Type := {
  the_agent : SharedDDPG;
  best_score_sum : option Q;
  best_weights : option (list (list Q));
  trace : list event
}.

Definition log (e : event) : M state unit :=
  modify (fun s => {| the_agent := the_agent s;
                      best_score_sum := best_score_sum s;
                      best_weights := best_weights s;
                      trace := trace s ++ [e] |}).

Definition on_agent (f : SharedDDPG -> SharedDDPG) : M state unit :=
  modify (fun s => {| the_agent := f (the_agent s);
                      best_score_sum := best_score_sum s;
                      best_weights := best_weights s;
                      trace := trace s |}).

Definition set_best (score : option Q) (w : option (list (list Q)))
  : M state unit :=
  modify (fun s => {| the_agent := the_agent s;
                      best_score_sum := score;
                      best_weights := w;
                      trace := trace s |}).

(** [np.sum(current_score)] *)
Definition np_sum (l : list Q) : Q := fold_right Qplus 0%Q l.

(** [current_score_sum >= best_score_sum] *)
Definition ge_best (current : Q) (best : option Q) : bool :=
  match best with
  | None => true
  | Some b => Qle_bool b current
  end.

(** [range(lo, hi)] *)
Definition py_range (lo hi : Z) : list Z :=
  map (fun k => (lo + Z.of_nat k)%Z) (seq 0 (Z.to_nat (hi - lo))).

(** Lines 78-89: the settings in force. *)
Definition evaluation_frequency_of (args : Args) : Z :=
  if debug args then 50%Z else evaluation_frequency args.

Definition max_steps_of (args : Args) : Z :=
  if debug args then 1000%Z else max_steps args.

(** [a // b] on Python integers. *)
Definition floordiv (a b : Z) : outcome Z :=
  if (b =? 0)%Z then Raised ZeroDivisionError else Returned (a / b)%Z.

Section Loop.

(** [core.learn] and the evaluation of lines 202-213 belong to
    collaborators: [learn n a] is the agent after the learning steps of
    epoch [n], [evaluate n a] the array [current_score] of the per-task
    mean returns measured at epoch [n]. *)
Variable learn : Z -> SharedDDPG -> SharedDDPG.
Variable evaluate : Z -> SharedDDPG -> list Q.

(** Lines 217-220. *)
Definition track_best (args : Args) (n_epoch : Z)
  (current_score_sum : Q) : M state unit :=
  best <- gets best_score_sum ;;
  if truthy (save_shared args) && ge_best current_score_sum best then
    a <- gets the_agent ;;
    log (Export n_epoch) ;;
    set_best (Some current_score_sum) (Some (get_shared_weights a))
  else ret tt.

(** The body of the loop, lines 194-225. *)
Definition epoch (args : Args) (n_epoch : Z) : M state unit :=
  (if (n_epoch >=? unfreeze_epoch args)%Z
      && (unfreeze_epoch args >? 0)%Z
   then log (Unfreeze n_epoch) ;; on_agent unfreeze_shared_weights
   else ret tt) ;;
  log (Learn n_epoch) ;;
  on_agent (learn n_epoch) ;;
  log (Evaluate n_epoch) ;;
  a <- gets the_agent ;;
  let current_score := evaluate n_epoch a in
  let current_score_sum := np_sum current_score in
  track_best args n_epoch current_score_sum ;;
  if save args then log (LogAgent n_epoch) else ret tt.

(** Lines 185-228. *)
Definition loop (args : Args) : M state unit :=
  (if (unfreeze_epoch args >? 0)%Z
   then log Freeze ;; on_agent freeze_shared_weights
   else ret tt) ;;
  set_best None None ;;
  n <- lift (floordiv (max_steps_of args) (evaluation_frequency_of args)) ;;
  for_ (py_range 1 (n + 1)) (epoch args) ;;
  if truthy (save_shared args)
  then w <- gets best_weights ;; log (Dump w)
  else ret tt.

(** The state in which line 185 is reached: the initial evaluation of
    epoch 0 (lines 170-183) has been done on [a]. *)
Definition start (a : SharedDDPG) : state :=
  {| the_agent := a;
     best_score_sum := None;
     best_weights := None;
     trace := [Evaluate 0] |}.

Definition run (args : Args) (a : SharedDDPG) : outcome unit * state :=
  loop args (start a).

End Loop.

Definition count_unfreeze (tr : list event) : nat :=
  length (filter (fun e => match e with Unfreeze _ => true | _ => false end)
                 tr).

Definition count_freeze (tr : list event) : nat :=
  length (filter (fun e => match e with Freeze => true | _ => false end)
                 tr).

(** The number of epochs of a run. *)
Definition n_epochs (args : Args) : Z :=
  (max_steps_of args / evaluation_frequency_of args)%Z.

(** The freeze, unfreeze and learn calls of a trace, in order. *)
Definition schedule (tr : list event) : list event :=
  filter (fun e => match e with
                   | Freeze | Unfreeze _ | Learn _ => true
                   | _ => false
                   end) tr.

(** The condition of line 194. *)
Definition unfreeze_due (args : Args) (n_epoch : Z) : bool :=
  (n_epoch >=? unfreeze_epoch args)%Z && (unfreeze_epoch args >? 0)%Z.

(** The schedule that the loop follows: a freeze first when the threshold
    is positive, then for every epoch an unfreeze when it is due, and the
    learning phase. *)
Definition loop_schedule (args : Args) : list event :=
  (if (unfreeze_epoch args >? 0)%Z then [Freeze] else [])
  ++ flat_map (fun n => (if unfreeze_due args n then [Unfreeze n] else [])
                        ++ [Learn n])
       (py_range 1 (n_epochs args + 1)).

Definition is_dump (e : event) : bool :=
  match e with Dump _ => true | _ => false end.

End Runner.

(* ===================================================================== *)
(** * The set-up of [experiment] in [exp_shared_bullet.py] *)
(* ===================================================================== *)

(** [list(s)]: the characters of [s], each as a string of length one; it
    is what [type=list] makes of a game name on the command line. *)
Fixpoint py_list (s : string) : list string :=
  match s with
  | EmptyString => []
  | String c r => String c EmptyString :: py_list r
  end.

(** [''.join(l)] *)
Definition join (l : list string) : string :=
  fold_right append EmptyString l.

(** Line 29: [domains = [''.join(g) for g in args.games]]. *)
Definition domains (games : list (list string)) : list string :=
  map join games.

(** [l[i::n]] for a step [n >= 1]: the elements at positions
    [i, i + n, i + 2n, ...]; [skip] counts the elements to pass over
    before the next one is taken. *)
Fixpoint every {A} (n skip : nat) (l : list A) : list A :=
  match l with
  | [] => []
  | x :: r => match skip with
              | O => x :: every n (n - 1) r
              | S k => every n k r
              end
  end.

Definition stride {A} (i n : nat) (l : list A) : list A := every n i l.

(** Lines 178-179 and 209-210: the slices [dataset[i::len(mdp)]] for
    [i] in [range(len(mdp))]. *)
Definition per_task {A} (n_mdp : nat) (dataset : list A) : list (list A) :=
  map (fun i => stride i n_mdp dataset) (seq 0 n_mdp).

(** [np.unique] on a float array. *)
Fixpoint insert_unique_q (z : Q) (l : list Q) : list Q :=
  match l with
  | [] => [z]
  | x :: r => if negb (Qle_bool x z) then z :: l
              else if Qeq_bool z x then l
              else x :: insert_unique_q z r
  end.

Definition np_unique_q (l : list Q) : list Q :=
  fold_right insert_unique_q [] l.

Module Experiment.

(** A task as [experiment] reads it: the observation space has the shape
    [(observation_dim,)]; [action_shape] is the shape tuple of the action
    space, [action_low] and [action_high] the elements of its two bound
    arrays, in row-major order. *)
Record Mdp : Type := {
  observation_dim : nat;
  action_shape : shape;
  action_low : list Q;
  action_high : list Q;
  mdp_gamma : Q;
  mdp_horizon : nat
}.

(** The failures of the set-up that are not exceptions of the agent. *)
Inductive failure : Type :=
| UnboundLocalError
| AssertionError
| Python (e : exn).

Inductive result (A : Type) : Type :=
| Ok (a : A)
| Fail (f : failure).

Arguments Ok {A} a.
Arguments Fail {A} f.

(** Lines 49-50. *)
Definition n_input_per_mdp (mdp : list Mdp) : list shape :=
  map (fun m => (observation_dim m, [])) mdp.

Definition n_actions_per_head (mdp : list Mdp) : list shape :=
  map (fun m => (fst (action_shape m), [])) mdp.

(** The four variables of the loop of lines 52-62; an index is [None]
    until its first assignment. *)
Record Largest : Type := {
  max_obs_dim : nat;
  max_act_n : nat;
  max_obs_idx : option nat;
  max_act_idx : option nat
}.

(** [len(shape)] *)
Definition axes (s : shape) : nat := S (length (snd s)).

(** One iteration of the loop of lines 54-62. *)
Definition largest_step (st : Largest) (im : nat * Mdp) : Largest :=
  let i := fst im in
  let n := observation_dim (snd im) in
  let m := axes (action_shape (snd im)) in
  let st1 := if (max_obs_dim st <? n)%nat
             then {| max_obs_dim := n; max_act_n := max_act_n st;
                     max_obs_idx := Some i; max_act_idx := max_act_idx st |}
             else st in
  if (max_act_n st1 <? m)%nat
  then {| max_obs_dim := max_obs_dim st1; max_act_n := m;
          max_obs_idx := max_obs_idx st1; max_act_idx := Some i |}
  else st1.

(** Lines 52-62. *)
Definition largest (mdp : list Mdp) : Largest :=
  fold_left largest_step (combine (seq 0 (length mdp)) mdp)
    {| max_obs_dim := 0; max_act_n := 0;
       max_obs_idx := None; max_act_idx := None |}.

(** The [MDPInfo] of line 65: an observation space, an action space, the
    discount factors and the horizons. *)
Record MDPInfo : Type := {
  info_observation_dim : nat;
  info_action_shape : shape;
  info_gamma : list Q;
  info_horizon : list nat
}.

(** Lines 63-66. Reading an index that the loop never assigned is an
    [UnboundLocalError]. *)
Definition make_mdp_info (mdp : list Mdp) : result MDPInfo :=
  let L := largest mdp in
  let gammas := map mdp_gamma mdp in
  let horizons := map mdp_horizon mdp in
  match max_obs_idx L with
  | None => Fail UnboundLocalError
  | Some i =>
      match nth_error mdp i with
      | None => Fail (Python IndexError)
      | Some mo =>
          match max_act_idx L with
          | None => Fail UnboundLocalError
          | Some j =>
              match nth_error mdp j with
              | None => Fail (Python IndexError)
              | Some ma =>
                  Ok {| info_observation_dim := observation_dim mo;
                        info_action_shape := action_shape ma;
                        info_gamma := gammas;
                        info_horizon := horizons |}
              end
          end
      end
  end.

(** The number of elements of [low[0]] and of [high[0]]: with an action
    space of one axis they are numbers; with more axes they are arrays of
    the remaining components of the shape. *)
Definition row_size (s : shape) : nat := fold_right Nat.mul 1%nat (snd s).

(** Lines 69-73 for one task: the three assertions, then [high[0]].
    [np.unique] flattens its argument. The third assertion tests
    [abs(low[0]) == high[0]], which is an array when the action space has
    several axes: numpy refuses the truth value of an array of more than
    one element with a [ValueError], and takes an empty array as false. *)
Definition bound_of (m : Mdp) : result Q :=
  if negb (length (np_unique_q (action_low m)) =? 1)%nat
  then Fail AssertionError
  else if negb (length (np_unique_q (action_high m)) =? 1)%nat
  then Fail AssertionError
  else match action_low m, action_high m with
       | l0 :: _, h0 :: _ =>
           match row_size (action_shape m) with
           | O => Fail AssertionError
           | S O =>
               if Qeq_bool (Qabs l0) h0 then Ok h0 else Fail AssertionError
           | S (S _) => Fail (Python ValueError)
           end
       | _, _ => Fail (Python IndexError)
       end.

(** Lines 67-73: [max_action_value]. *)
Fixpoint max_action_value (mdp : list Mdp) : result (list Q) :=
  match mdp with
  | [] => Ok []
  | m :: rest =>
      match bound_of m with
      | Fail f => Fail f
      | Ok h => match max_action_value rest with
                | Fail f => Fail f
                | Ok hs => Ok (h :: hs)
                end
      end
  end.

(** The command-line arguments that size the agent. *)
Record Sizes : Type := {
  batch_size : nat;
  initial_replay_size : nat;
  max_replay_size : nat;
  tau : Q
}.

(** Lines 78-89, for the replay memory. *)
Definition initial_replay_size_of (args : Runner.Args) (sz : Sizes) : nat :=
  if Runner.debug args then batch_size sz else initial_replay_size sz.

Definition max_replay_size_of (args : Runner.Args) (sz : Sizes) : nat :=
  if Runner.debug args then 500%nat else max_replay_size sz.

(** Lines 132-148: the arguments with which the agent is constructed;
    [c], [tc], [p] and [tp] are the networks that the approximators
    build. *)
Definition algorithm_params (args : Runner.Args) (sz : Sizes)
  (mdp : list Mdp) (info : MDPInfo) (c tc p tp : Network.t) : Init.Args :=
  {| Init.observation_width := info_observation_dim info;
     Init.mdp_gamma := info_gamma info;
     Init.batch_size := batch_size sz;
     Init.initial_replay_size := initial_replay_size_of args sz;
     Init.max_replay_size := max_replay_size_of args sz;
     Init.tau := tau sz;
     Init.n_actions_per_head := n_actions_per_head mdp;
     Init.n_input_per_mdp := Some (n_input_per_mdp mdp);
     Init.n_games := length mdp;
     Init.critic := c;
     Init.target_critic := tc;
     Init.actor := p;
     Init.target_actor := tp |}.

(** Lines 63-73 and 146-148: the agent of the experiment. *)
Definition make_agent (args : Runner.Args) (sz : Sizes) (mdp : list Mdp)
  (c tc p tp : Network.t) : result SharedDDPG :=
  match make_mdp_info mdp with
  | Fail f => Fail f
  | Ok info =>
      match max_action_value mdp with
      | Fail f => Fail f
      | Ok _ =>
          match __init__ (algorithm_params args sz mdp info c tc p tp) with
          | Raised e => Fail (Python e)
          | Returned a => Ok a
          end
      end
  end.

(** The first position of the greatest value of [vals] that exceeds
    [best], searched from position [i] on: the loop of lines 54-62 for one
    of its two quantities. *)
Fixpoint first_max_from (i best : nat) (idx : option nat) (vals : list nat)
  : nat * option nat :=
  match vals with
  | [] => (best, idx)
  | v :: r => if (best <? v)%nat then first_max_from (S i) v (Some i) r
              else first_max_from (S i) best idx r
  end.

End Experiment.

(* ===================================================================== *)
(** * Predicates used by the statements *)
(* ===================================================================== *)

(** [new] is the soft update of [old] towards [live] with coefficient
    [tau]: parameter by parameter, [new = tau * live + (1 - tau) * old]. *)
Definition soft_updated (tau : Q) (live old new : list Q) : Prop :=
  length new = length old
  /\ forall k l t,
       nth_error live k = Some l -> nth_error old k = Some t ->
       nth_error new k = Some (tau * l + (1 - tau) * t)%Q.

(** Hoare triples for computations that may raise: from a state in [P],
    a normal return ends in [Q], an exception in [E]. *)
Definition hoare {S A} (P : S -> Prop) (m : M S A)
  (Q : A -> S -> Prop) (E : exn -> S -> Prop) : Prop :=
  forall s, P s ->
    match m s with
    | (Returned a, s') => Q a s'
    | (Raised e, s') => E e s'
    end.

(** [g] selects a buffer of a list of [n] buffers. *)
Definition resolvable (n : nat) (g : Z) : bool :=
  match py_index n g with Some _ => true | None => false end.

(** The position that [g] selects ([0] stands in when there is none). *)
Definition position (n : nat) (g : Z) : nat :=
  match py_index n g with Some j => j | None => O end.

(** The ids that the routing loop handles: those before the first id that
    selects no buffer. *)
Fixpoint handled (n : nat) (games : list Z) : list Z :=
  match games with
  | [] => []
  | g :: r => if resolvable n g then g :: handled n r else []
  end.

(** The ids of a dataset for which the routing loop makes its [add]:
    none when the ids are floats, since the first iteration raises;
    otherwise those before the first id that selects no buffer. *)
Definition routed_ids (n : nat) (dataset : list Sample) : list Z :=
  let s := map task_of dataset in
  if as_float64 s then [] else handled n (np_unique s).

(** How the routing loop ends. *)
Definition route_outcome (n : nat) (dataset : list Sample) : outcome unit :=
  let s := map task_of dataset in
  if as_float64 s then Raised TypeError
  else if forallb (resolvable n) (np_unique s) then Returned tt
  else Raised IndexError.

(** The transitions of the dataset tagged with [g], in dataset order. *)
Definition sub_batch (dataset : list Sample) (g : Z) : list Sample :=
  filter (fun d => (task_of d =? g)%Z) dataset.

Definition route_add (dataset : list Sample)
  (rm : list ReplayMemoryMulty.t) (g : Z) : list ReplayMemoryMulty.t :=
  update_at (position (length rm) g)
    (ReplayMemoryMulty.add (sub_batch dataset g)) rm.

(** The buffers after the routing phase. *)
Definition routed_memory (dataset : list Sample)
  (rm : list ReplayMemoryMulty.t) : list ReplayMemoryMulty.t :=
  fold_left (route_add dataset) (routed_ids (length rm) dataset) rm.

(** The [add] calls of the routing phase. *)
Definition routing_calls (dataset : list Sample) (n : nat) : list event :=
  map (fun g => EvAdd (position n g) (sub_batch dataset g))
      (routed_ids n dataset).

(** Every task id of the dataset is one of [0 .. n-1], and a position of
    a Python list, which lies below [2^63]. *)
Definition valid_task_ids (n : nat) (dataset : list Sample) : bool :=
  forallb (fun d => (0 <=? task_of d)%Z && (task_of d <? Z.of_nat n)%Z
                    && fits_int64 (task_of d))
          dataset.

(** Some task id of the dataset selects no buffer: it is [>= n] or
    [< -n], or it does not fit the index type. *)
Definition has_unindexable_id (n : nat) (dataset : list Sample) : bool :=
  existsb (fun d => negb (resolvable n (task_of d))) dataset.

Definition occurs (i : nat) (dataset : list Sample) : bool :=
  existsb (fun d => (task_of d =? Z.of_nat i)%Z) dataset.

Definition is_add (e : event) : bool :=
  match e with EvAdd _ _ => true | _ => false end.

Definition is_get (e : event) : bool :=
  match e with EvGet _ _ => true | _ => false end.

(** The rows of a squeezed array (none when it has fewer than two axes). *)
Definition nd_rows (a : ndarray) : list (list Q) :=
  match a with Nd2 m => mrows m | _ => [] end.

Definition all_zero (row : list Q) : Prop := Forall (fun x => x = 0%Q) row.

(** Every entry of [row] at a column [>= k] is exactly zero. *)
Definition zero_beyond (k : nat) (row : list Q) : Prop :=
  all_zero (skipn k row).

(** Row [r] lies in the block of task [i]: rows [B*i .. B*(i+1)-1]. *)
Definition in_block (B i r : nat) : Prop :=
  (B * i <= r < B * i + B)%nat.

(** The padding invariant of one padded array, with its per-row tags and
    its per-task widths: a row of block [i] is zero beyond the width of
    task [i], and a row whose tag is not the task of its block has never
    been written. *)
Definition channel (B : nat) (dims : list nat) (tags : list Z)
  (rows : list (list Q)) : Prop :=
  forall r row, nth_error rows r = Some row ->
    (forall i k, in_block B i r -> nth_error dims i = Some k ->
                 zero_beyond k row)
    /\ (forall tag, nth_error tags r = Some tag ->
          (forall i, in_block B i r -> tag <> Z.of_nat i) -> all_zero row).

Definition padded (a : SharedDDPG) : Prop :=
  let sc := scratch a in
  channel (_batch_size a) (_n_input_per_mdp a) (_state_idxs sc)
    (nd_rows (_state sc))
  /\ channel (_batch_size a) (_n_actions_per_head a) (_state_idxs sc)
       (mrows (_action sc))
  /\ channel (_batch_size a) (_n_input_per_mdp a) (_next_state_idxs sc)
       (nd_rows (_next_state sc)).

(** The tags of block [i] are [i]. *)
Definition tagged (B i : nat) (tags : list Z) : Prop :=
  forall r tag, in_block B i r -> nth_error tags r = Some tag ->
                tag = Z.of_nat i.

(** The statement of the padding property on the combined batch: a row
    tagged with task [i] is zero beyond the widths of task [i]. *)
Definition padding_holds (a : SharedDDPG) : Prop :=
  let sc := scratch a in
  forall r i,
    nth_error (_state_idxs sc) r = Some (Z.of_nat i) ->
    (forall k row, nth_error (_n_input_per_mdp a) i = Some k ->
       nth_error (nd_rows (_state sc)) r = Some row -> zero_beyond k row)
    /\ (forall k row, nth_error (_n_actions_per_head a) i = Some k ->
          nth_error (mrows (_action sc)) r = Some row -> zero_beyond k row).

(** Shapes of the working arrays as [_allocate_memory] makes them, for an
    agent with one buffer per game. *)
Definition matrix_ok (n w : nat) (m : matrix) : bool :=
  (ncols m =? w)%nat && (length (mrows m) =? n)%nat.

Definition nd_ok (n w : nat) (a : ndarray) : bool :=
  match a with Nd2 m => matrix_ok n w m | _ => true end.

Definition shaped (a : SharedDDPG) : bool :=
  let n := (_batch_size a * _n_games a)%nat in
  let sc := scratch a in
  (_n_games a =? length (_replay_memory a))%nat
  && (length (_state_idxs sc) =? n)%nat
  && nd_ok n (obs_width a) (_state sc)
  && matrix_ok n (_max_actions a) (_action sc)
  && (length (_reward sc) =? n)%nat
  && (length (_next_state_idxs sc) =? n)%nat
  && nd_ok n (obs_width a) (_next_state sc)
  && (length (_absorbing sc) =? n)%nat.

Definition is_nd2 (a : ndarray) : bool :=
  match a with Nd2 _ => true | _ => false end.

(** The transitions stored for task [i] have the widths that the slices of
    task [i] expect. *)
Definition transition_fits (a : SharedDDPG) (i : nat)
  (t : ReplayMemoryMulty.Transition) : bool :=
  match nth_error (_n_input_per_mdp a) i,
        nth_error (_n_actions_per_head a) i with
  | Some n_in, Some n_act =>
      (length (ReplayMemoryMulty.state t)
       =? Nat.min n_in (obs_width a))%nat
      && (length (ReplayMemoryMulty.next_state t)
          =? Nat.min n_in (obs_width a))%nat
      && (length (ReplayMemoryMulty.action t)
          =? Nat.min n_act (_max_actions a))%nat
  | _, _ => false
  end.

Definition buffer_fits (a : SharedDDPG) (i : nat) : bool :=
  match nth_error (_replay_memory a) i with
  | Some m =>
      negb (length (ReplayMemoryMulty.stored m) =? 0)%nat
      && forallb (transition_fits a i) (ReplayMemoryMulty.stored m)
  | None => false
  end.

(** The conditions under which an update cycle runs to its end: allocated
    two-dimensional working arrays, one width and one discount factor per
    task, stored transitions of the expected widths, and target networks
    with as many parameters as the live ones. *)
Definition cycle_ready (a : SharedDDPG) : bool :=
  shaped a
  && is_nd2 (_state (scratch a)) && is_nd2 (_next_state (scratch a))
  && (_n_games a <=? length (gamma a))%nat
  && forallb (buffer_fits a) (seq 0 (length (_replay_memory a)))
  && (length (Network.weights (_critic_approximator a))
      =? length (Network.weights (_target_critic_approximator a)))%nat
  && (length (Network.weights (_actor_approximator a))
      =? length (Network.weights (_target_actor_approximator a)))%nat.

(** An assignment to one working array, on the arrays alone. *)
Definition sassign {X} (proj : Scratch -> X) (put : X -> Scratch -> Scratch)
  (op : X -> outcome X) : M Scratch unit :=
  fun sc => match op (proj sc) with
            | Returned x => (Returned tt, put x sc)
            | Raised e => (Raised e, sc)
            end.

(** The seven assignments of one iteration of the assembling loop, on the
    arrays alone ([a] gives the batch size and the widths). *)
Definition fill (a : SharedDDPG) (i : nat) (b : ReplayMemoryMulty.batch)
  : M Scratch unit :=
  let B := _batch_size a in
  let start := (B * i)%nat in
  let stop := (start + B)%nat in
  sassign _state_idxs set_state_idxs
    (set_slice start stop (repeat (Z.of_nat i) B)) ;;
  n_in <- lift (py_get (_n_input_per_mdp a) i) ;;
  sassign _state set_state
    (set_block_nd start stop n_in (ReplayMemoryMulty.b_state b)) ;;
  n_act <- lift (py_get (_n_actions_per_head a) i) ;;
  sassign _action set_action
    (set_block start stop n_act (ReplayMemoryMulty.b_action b)) ;;
  sassign _reward set_reward
    (set_slice start stop (ReplayMemoryMulty.b_reward b)) ;;
  sassign _next_state_idxs set_next_state_idxs
    (set_slice start stop (repeat (Z.of_nat i) B)) ;;
  n_in' <- lift (py_get (_n_input_per_mdp a) i) ;;
  sassign _next_state set_next_state
    (set_block_nd start stop n_in' (ReplayMemoryMulty.b_next_state b)) ;;
  sassign _absorbing set_absorbing
    (set_slice start stop (map b2q (ReplayMemoryMulty.b_absorbing b))).

(** The exceptions that [fit] can raise. *)
Definition benign (e : exn) : Prop :=
  e = IndexError \/ e = ValueError \/ e = TypeError
  \/ e = ApproximatorError.

(** The batch that the [get] of task [i] returns in a cycle. *)
Definition batch_of (a : SharedDDPG) (rnd : nat -> nat -> nat) (i : nat)
  : ReplayMemoryMulty.batch :=
  match nth_error (_replay_memory a) i with
  | Some m =>
      ReplayMemoryMulty.to_batch
        (ReplayMemoryMulty.draw (_batch_size a) (rnd i) m)
  | None => ReplayMemoryMulty.to_batch []
  end.

(** The [get] calls of a cycle over [n] buffers. *)
Definition get_calls (B n : nat) : list event :=
  map (fun i => EvGet i B) (seq 0 n).

(** [a'] differs from [a] at most in its four networks and its update
    counter. *)
Definition same_frame (a a' : SharedDDPG) : Prop :=
  _batch_size a' = _batch_size a
  /\ _n_games a' = _n_games a
  /\ _n_input_per_mdp a' = _n_input_per_mdp a
  /\ _n_actions_per_head a' = _n_actions_per_head a
  /\ _max_actions a' = _max_actions a
  /\ _tau a' = _tau a
  /\ obs_width a' = obs_width a
  /\ gamma a' = gamma a
  /\ _replay_memory a' = _replay_memory a
  /\ scratch a' = scratch a.

(** The padding property of the next-state array, tagged by
    [_next_state_idxs]. *)
Definition next_padding_holds (a : SharedDDPG) : Prop :=
  let sc := scratch a in
  forall r i k row,
    nth_error (_next_state_idxs sc) r = Some (Z.of_nat i) ->
    nth_error (_n_input_per_mdp a) i = Some k ->
    nth_error (nd_rows (_next_state sc)) r = Some row -> zero_beyond k row.

(** Row [r] of [rows] holds [x] in its first [kk] entries ([x] itself when
    it has [kk] entries, its single entry repeated when numpy broadcasts
    it). *)
Definition row_holds (kk : nat) (x : list Q) (rows : list (list Q))
  (r : nat) : Prop :=
  exists v row,
    bcast kk x = Some v /\ nth_error rows r = Some row /\ firstn kk row = v.

(** Block [i] of the working arrays holds the transitions [ts], one per
    row, in order, tagged with [i]. *)
Definition block_filled (a : SharedDDPG) (i : nat)
  (ts : list ReplayMemoryMulty.Transition) (sc : Scratch) : Prop :=
  forall k t, (k < _batch_size a)%nat -> nth_error ts k = Some t ->
    let r := (_batch_size a * i + k)%nat in
    nth_error (_state_idxs sc) r = Some (Z.of_nat i)
    /\ nth_error (_next_state_idxs sc) r = Some (Z.of_nat i)
    /\ nth_error (_reward sc) r = Some (ReplayMemoryMulty.reward t)
    /\ nth_error (_absorbing sc) r
       = Some (b2q (ReplayMemoryMulty.absorbing t))
    /\ exists n_in n_act,
         nth_error (_n_input_per_mdp a) i = Some n_in
         /\ nth_error (_n_actions_per_head a) i = Some n_act
         /\ row_holds (Nat.min n_in (obs_width a))
              (ReplayMemoryMulty.state t) (nd_rows (_state sc)) r
         /\ row_holds (Nat.min n_act (_max_actions a))
              (ReplayMemoryMulty.action t) (mrows (_action sc)) r
         /\ row_holds (Nat.min n_in (obs_width a))
              (ReplayMemoryMulty.next_state t) (nd_rows (_next_state sc)) r.

(** The transitions that the [get] of task [i] draws in a cycle. *)
Definition drawn (a : SharedDDPG) (rnd : nat -> nat -> nat) (i : nat)
  : list ReplayMemoryMulty.Transition :=
  match nth_error (_replay_memory a) i with
  | Some m => ReplayMemoryMulty.draw (_batch_size a) (rnd i) m
  | None => []
  end.

(** Contracts of the approximator collaborator: the critic's forward pass
    yields one value per row of its batch; a [fit] call keeps the number of
    parameters of the network, whether it returns or raises; and a [fit]
    call returns. *)
Definition one_value_per_row
  (critic_forward : Network.t -> ndarray -> list (list Q) -> list Z -> list Q)
  : Prop :=
  forall net s act idx, length (critic_forward net s act idx) = length idx.

Definition critic_step_keeps_size
  (critic_step :
     Network.t -> ndarray -> matrix -> list Q -> list Z -> fit_result)
  : Prop :=
  forall net s ac q idx,
    length (fit_weights (critic_step net s ac q idx))
    = length (Network.weights net).

Definition actor_step_keeps_size
  (actor_step : Network.t -> Network.t -> ndarray -> list Z -> fit_result)
  : Prop :=
  forall net c s idx,
    length (fit_weights (actor_step net c s idx))
    = length (Network.weights net).

Definition critic_step_returns
  (critic_step :
     Network.t -> ndarray -> matrix -> list Q -> list Z -> fit_result)
  : Prop :=
  forall net s ac q idx,
    critic_step net s ac q idx
    = Fitted (fit_weights (critic_step net s ac q idx)).

Definition actor_step_returns
  (actor_step : Network.t -> Network.t -> ndarray -> list Z -> fit_result)
  : Prop :=
  forall net c s idx,
    actor_step net c s idx = Fitted (fit_weights (actor_step net c s idx)).

(** Block [i] of [out] is block [i] of [q] times the discount factor of
    task [i], and, when some row of the block is absorbing, times
    [1 - absorbing] row by row: lines 199-203 of [_next_q]. *)
Definition discounted (a : SharedDDPG) (q out : list Q) (i : nat) : Prop :=
  let B := _batch_size a in
  let ab := _absorbing (scratch a) in
  forall k, (k < B)%nat ->
    exists qv g abv,
      nth_error q (B * i + k) = Some qv
      /\ nth_error (gamma a) i = Some g
      /\ nth_error ab (B * i + k) = Some abv
      /\ nth_error out (B * i + k)
         = Some (if np_any (slice (B * i) (B * i + B) ab)
                 then (qv * g * (1 - abv))%Q
                 else (qv * g)%Q).

(** The transitions that an [add] call carries. *)
Definition added (e : event) : list Sample :=
  match e with EvAdd _ d => d | _ => [] end.

(** The state in which the loop of line 193 is entered: lines 185-189
    have run from [s]. *)
Definition loop_entry (args : Runner.Args) (s : Runner.state)
  : Runner.state :=
  snd (((if (Runner.unfreeze_epoch args >? 0)%Z
         then Runner.log Runner.Freeze ;;
              Runner.on_agent freeze_shared_weights
         else ret tt) ;;
        Runner.set_best None None) s).

(** The state of a run on [a] when the epochs [1 .. k] are done. *)
Definition after_epochs (learn : Z -> SharedDDPG -> SharedDDPG)
  (evaluate : Z -> SharedDDPG -> list Q) (args : Runner.Args)
  (a : SharedDDPG) (k : nat) : Runner.state :=
  snd (for_ (Runner.py_range 1 (Z.of_nat k + 1))
         (Runner.epoch learn evaluate args)
         (loop_entry args (Runner.start a))).

(** The agent that epoch [k] evaluates, and the sum of the per-task
    returns that it measures. *)
Definition agent_at (learn : Z -> SharedDDPG -> SharedDDPG)
  (evaluate : Z -> SharedDDPG -> list Q) (args : Runner.Args)
  (a : SharedDDPG) (k : nat) : SharedDDPG :=
  Runner.the_agent (after_epochs learn evaluate args a k).

Definition score_at (learn : Z -> SharedDDPG -> SharedDDPG)
  (evaluate : Z -> SharedDDPG -> list Q) (args : Runner.Args)
  (a : SharedDDPG) (k : nat) : Q :=
  Runner.np_sum (evaluate (Z.of_nat k) (agent_at learn evaluate args a k)).

(** The learning, evaluation and agent-logging calls of a trace. *)
Definition activity (tr : list Runner.event) : list Runner.event :=
  filter (fun e => match e with
                   | Runner.Learn _ | Runner.Evaluate _
                   | Runner.LogAgent _ => true
                   | _ => false
                   end) tr.

Definition with_trace (tr : list Runner.event) (s : Runner.state)
  : Runner.state :=
  {| Runner.the_agent := Runner.the_agent s;
     Runner.best_score_sum := Runner.best_score_sum s;
     Runner.best_weights := Runner.best_weights s;
     Runner.trace := tr |}.

(** The events of one epoch that do not depend on the scores. *)
Definition epoch_activity (args : Runner.Args) (n : Z) : list Runner.event :=
  [Runner.Learn n; Runner.Evaluate n]
  ++ (if Runner.save args then [Runner.LogAgent n] else []).

(** The agent that the learning phase of epoch [k >= 1] receives: the
    agent of the end of epoch [k - 1], unfrozen when line 194 says so. *)
Definition handed_to_learn (learn : Z -> SharedDDPG -> SharedDDPG)
  (evaluate : Z -> SharedDDPG -> list Q) (args : Runner.Args)
  (a : SharedDDPG) (k : nat) : SharedDDPG :=
  let prev := agent_at learn evaluate args a (k - 1) in
  if Runner.unfreeze_due args (Z.of_nat k)
  then unfreeze_shared_weights prev else prev.

(** The trainable flags of the shared weights of the critic and of the
    actor. *)
Definition shared_trainable (a : SharedDDPG) : bool * bool :=
  (Network.shared_trainable (_critic_approximator a),
   Network.shared_trainable (_actor_approximator a)).

(* ===================================================================== *)
(** * A concrete agent, used to run the model *)
(* ===================================================================== *)

Module Examples.

Definition net (w : list Q) : Network.t :=
  {| Network.weights := w;
     Network.shared_mask := [true; false];
     Network.shared_trainable := true |}.

Definition empty_memory : ReplayMemoryMulty.t :=
  {| ReplayMemoryMulty.min_size := 2;
     ReplayMemoryMulty.capacity := 3;
     ReplayMemoryMulty.stored := [];
     ReplayMemoryMulty.initialized := false |}.

(** Two tasks with observation widths 2 and 3 and action widths 1 and 2,
    batch size 2, [tau = 1/2], discount factors 1/2 and 1/4. *)
Definition agent0 : SharedDDPG :=
  _allocate_memory
    {| _batch_size := 2; _n_games := 2;
       _n_input_per_mdp := [2; 3]%nat; _n_actions_per_head := [1; 2]%nat;
       _max_actions := 2; _tau := 1 # 2;
       obs_width := 3; gamma := [1 # 2; 1 # 4];
       _replay_memory := [empty_memory; empty_memory];
       _n_updates := 0;
       _critic_approximator := net [1; 2];
       _target_critic_approximator := net [3; 4];
       _actor_approximator := net [5; 6];
       _target_actor_approximator := net [7; 8];
       scratch := {| _state_idxs := []; _state := Nd0 0;
                     _action := zeros2 0 0; _reward := [];
                     _next_state_idxs := []; _next_state := Nd0 0;
                     _absorbing := [] |} |}.

Definition world0 : world := (agent0, []).

Definition sample (g : Z) (obs act : list Q) (r : Q) (ab : bool) : Sample :=
  {| s_state := (g, obs); s_action := act; s_reward := r;
     s_next_state := (g, obs); s_absorbing := ab; s_last := ab |}.

(** Two transitions for each of the two tasks. *)
Definition dataset0 : list Sample :=
  [sample 1 [1; 2; 3] [4; 5] 10 false;
   sample 0 [6; 7] [8] 20 true;
   sample 1 [9; 10; 11] [12; 13] 30 true;
   sample 0 [14; 15] [16] 40 false].




(** Collaborators: the target critic answers 8 on every row, and each
    optimisation step returns and adds 1 to every weight. *)
Definition actor_forward0 (n : Network.t) (s : ndarray) (idx : list Z)
  : list (list Q) := map (fun _ => [1]) idx.

Definition critic_forward0 (n : Network.t) (s : ndarray)
  (act : list (list Q)) (idx : list Z) : list Q := map (fun _ => 8) idx.

Definition critic_step0 (n : Network.t) (s : ndarray) (ac : matrix)
  (q : list Q) (idx : list Z) : fit_result :=
  Fitted (map (Qplus 1) (Network.weights n)).

Definition actor_step0 (n c : Network.t) (s : ndarray) (idx : list Z)
  : fit_result := Fitted (map (Qplus 1) (Network.weights n)).

(** An actor whose [fit] raises, leaving its weights as they were. *)
Definition actor_step_raising (n c : Network.t) (s : ndarray)
  (idx : list Z) : fit_result := FitRaised (Network.weights n).

(** The [k]-th draw of every [get] picks the [k]-th stored transition. *)
Definition rnd0 (i k : nat) : nat := k.

(** One transition, of task 0. *)
Definition dataset_single : list Sample :=
  [sample 0 [6; 7] [8] 20 true].

(** Runner collaborators: learning leaves the agent as it is, and every
    evaluation measures the returns 1 and 2. *)
Definition learn0 (n : Z) (a : SharedDDPG) : SharedDDPG := a.

Definition evaluate0 (n : Z) (a : SharedDDPG) : list Q := [1; 2].

(** Three epochs, unfreeze threshold 1, shared weights saved. *)
Definition args_unfreeze : Runner.Args :=
  {| Runner.debug := false;
     Runner.max_steps := 3;
     Runner.evaluation_frequency := 1;
     Runner.unfreeze_epoch := 1;
     Runner.save_shared := "best.pkl";
     Runner.save := false |}.

(** One epoch, nothing frozen, shared weights not saved. *)
Definition args_no_save : Runner.Args :=
  {| Runner.debug := false;
     Runner.max_steps := 1;
     Runner.evaluation_frequency := 1;
     Runner.unfreeze_epoch := 0;
     Runner.save_shared := EmptyString;
     Runner.save := false |}.

(** No epoch at all ([max_steps < evaluation_frequency]), shared weights
    saved. *)
Definition args_no_epoch : Runner.Args :=
  {| Runner.debug := false;
     Runner.max_steps := 0;
     Runner.evaluation_frequency := 1;
     Runner.unfreeze_epoch := 0;
     Runner.save_shared := "best.pkl";
     Runner.save := false |}.

(** One task with batch size 1: the state arrays are squeezed to one
    axis. The buffer is initialized by its first transition. *)
Definition agent_single : SharedDDPG :=
  _allocate_memory
    {| _batch_size := 1; _n_games := 1;
       _n_input_per_mdp := [2]%nat; _n_actions_per_head := [1]%nat;
       _max_actions := 1; _tau := 1 # 2;
       obs_width := 2; gamma := [1 # 2];
       _replay_memory := [ReplayMemoryMulty.create 1 3];
       _n_updates := 0;
       _critic_approximator := net [1; 2];
       _target_critic_approximator := net [3; 4];
       _actor_approximator := net [5; 6];
       _target_actor_approximator := net [7; 8];
       scratch := no_scratch |}.

(** The two tasks of [agent0] with a single discount factor. *)
Definition agent_short_gamma : SharedDDPG :=
  _allocate_memory
    {| _batch_size := 2; _n_games := 2;
       _n_input_per_mdp := [2; 3]%nat; _n_actions_per_head := [1; 2]%nat;
       _max_actions := 2; _tau := 1 # 2;
       obs_width := 3; gamma := [1 # 2];
       _replay_memory := [empty_memory; empty_memory];
       _n_updates := 0;
       _critic_approximator := net [1; 2];
       _target_critic_approximator := net [3; 4];
       _actor_approximator := net [5; 6];
       _target_actor_approximator := net [7; 8];
       scratch := no_scratch |}.

(** [agent0] with a target critic of three parameters. *)
Definition agent_mismatch : SharedDDPG :=
  with_target_critic (net [3; 4; 5]) agent0.

(** The transitions of [dataset0], the tasks interleaved differently. *)
Definition dataset_interleaved : list Sample :=
  [sample 0 [6; 7] [8] 20 true;
   sample 1 [1; 2; 3] [4; 5] 10 false;
   sample 0 [14; 15] [16] 40 false;
   sample 1 [9; 10; 11] [12; 13] 30 true].

(** The arguments with which [agent0] is constructed. *)
Definition init_args : Init.Args :=
  {| Init.observation_width := 3;
     Init.mdp_gamma := [1 # 2; 1 # 4];
     Init.batch_size := 2;
     Init.initial_replay_size := 2;
     Init.max_replay_size := 3;
     Init.tau := 1 # 2;
     Init.n_actions_per_head := [(1%nat, []); (2%nat, [])];
     Init.n_input_per_mdp := Some [(2%nat, []); (3%nat, [])];
     Init.n_games := 2;
     Init.critic := net [1; 2];
     Init.target_critic := net [3; 4];
     Init.actor := net [5; 6];
     Init.target_actor := net [7; 8] |}.

(** Two tasks: observations of 2 and 3 components, 1 and 2 actions
    bounded by 1 and by 2. *)
Definition mdps : list Experiment.Mdp :=
  [{| Experiment.observation_dim := 2;
      Experiment.action_shape := (1%nat, []);
      Experiment.action_low := [-(1)];
      Experiment.action_high := [1];
      Experiment.mdp_gamma := 1 # 2;
      Experiment.mdp_horizon := 10 |};
   {| Experiment.observation_dim := 3;
      Experiment.action_shape := (2%nat, []);
      Experiment.action_low := [-(2); -(2)];
      Experiment.action_high := [2; 2];
      Experiment.mdp_gamma := 1 # 4;
      Experiment.mdp_horizon := 20 |}].

(** A task whose action space has the shape [(2, 3)], with the bounds
    [-1] and [1] everywhere. *)
Definition mdp_two_axes : Experiment.Mdp :=
  {| Experiment.observation_dim := 2;
     Experiment.action_shape := (2%nat, [3%nat]);
     Experiment.action_low := [-(1); -(1); -(1); -(1); -(1); -(1)];
     Experiment.action_high := [1; 1; 1; 1; 1; 1];
     Experiment.mdp_gamma := 1 # 2;
     Experiment.mdp_horizon := 10 |}.

Definition sizes : Experiment.Sizes :=
  {| Experiment.batch_size := 2;
     Experiment.initial_replay_size := 2;
     Experiment.max_replay_size := 3;
     Experiment.tau := 1 # 2 |}.

(** The returns of the epochs 1, 2 and 3 sum to 3, 5 and 5. *)
Definition evaluate1 (n : Z) (a : SharedDDPG) : list Q :=
  if (n =? 1)%Z then [1; 2] else [2; 3].

(** An evaluation frequency of 0, with a positive unfreeze threshold. *)
Definition args_zero_frequency : Runner.Args :=
  {| Runner.debug := false;
     Runner.max_steps := 3;
     Runner.evaluation_frequency := 0;
     Runner.unfreeze_epoch := 1;
     Runner.save_shared := "best.pkl";
     Runner.save := false |}.

End Examples.

(* ===================================================================== *)
(** * [fit] and its parts *)
(* ===================================================================== *)

Section Agent.

(** The approximator collaborator. [actor_forward net s idx] and
    [critic_forward net s a idx] are the forward passes (the critic's
    output already flattened by [ravel]); [critic_step] and [actor_step]
    give the outcome of one [fit] call: the weights that it leaves, and
    whether it returned or raised. The actor's loss evaluates the live
    critic, so [actor_step] also receives the critic network. *)
Variable actor_forward : Network.t -> ndarray -> list Z -> list (list Q).
Variable critic_forward :
  Network.t -> ndarray -> list (list Q) -> list Z -> list Q.
Variable critic_step :
  Network.t -> ndarray -> matrix -> list Q -> list Z -> fit_result.
Variable actor_step :
  Network.t -> Network.t -> ndarray -> list Z -> fit_result.

(** The output of the target critic on the current scratch arrays. *)
Definition target_q (a : SharedDDPG) : list Q :=
  let sc := scratch a in
  let act := actor_forward (_target_actor_approximator a)
               (_next_state sc) (_next_state_idxs sc) in
  critic_forward (_target_critic_approximator a)
    (_next_state sc) act (_next_state_idxs sc).

(** [_next_q] *)
Definition _next_q (a : SharedDDPG) : outcome (list Q) :=
  let q := target_q a in
  let out_q := np_zeros (_batch_size a * _n_games a) in
  match for_ (seq 0 (_n_games a)) (next_q_game a q) out_q with
  | (Returned _, out) => Returned out
  | (Raised e, _) => Raised e
  end.

(** One iteration of the assembling loop of [fit] (lines 111-124);
    [pick] gives the outcomes of the uniform draws of this [get]. *)
Definition assemble (rnd : nat -> nat -> nat) (i : nat) : M world unit :=
  B <- read _batch_size ;;
  rm <- read _replay_memory ;;
  mem <- lift (py_get rm i) ;;
  emit (EvGet i B) ;;
  b <- lift (ReplayMemoryMulty.get B (rnd i) mem) ;;
  let start := (B * i)%nat in
  let stop := (start + B)%nat in
  assign _state_idxs set_state_idxs
    (set_slice start stop (repeat (Z.of_nat i) B)) ;;
  n_in <- (dims <- read _n_input_per_mdp ;; lift (py_get dims i)) ;;
  assign _state set_state
    (set_block_nd start stop n_in (ReplayMemoryMulty.b_state b)) ;;
  n_act <- (dims <- read _n_actions_per_head ;; lift (py_get dims i)) ;;
  assign _action set_action
    (set_block start stop n_act (ReplayMemoryMulty.b_action b)) ;;
  assign _reward set_reward
    (set_slice start stop (ReplayMemoryMulty.b_reward b)) ;;
  assign _next_state_idxs set_next_state_idxs
    (set_slice start stop (repeat (Z.of_nat i) B)) ;;
  n_in' <- (dims <- read _n_input_per_mdp ;; lift (py_get dims i)) ;;
  assign _next_state set_next_state
    (set_block_nd start stop n_in' (ReplayMemoryMulty.b_next_state b)) ;;
  assign _absorbing set_absorbing
    (set_slice start stop (map b2q (ReplayMemoryMulty.b_absorbing b))).

(** The call [self._next_q()] of line 126: the two forward passes of
    lines 189-192 are recorded in the order in which [_next_q] makes them,
    before its loop runs. *)
Definition call_next_q : M world (list Q) :=
  a <- read (fun a => a) ;;
  let sc := scratch a in
  emit (EvTargetActor (_next_state sc) (_next_state_idxs sc)) ;;
  emit (EvTargetCritic (_next_state sc)
          (actor_forward (_target_actor_approximator a)
             (_next_state sc) (_next_state_idxs sc))
          (_next_state_idxs sc)) ;;
  lift (_next_q a).

(** A [fit] call on one approximator: the network holds the weights that
    the call leaves, and a call that raised ends [fit] with the
    approximator's failure. *)
Definition approximator_fit (r : fit_result) (net : Network.t)
  (put : Network.t -> SharedDDPG -> SharedDDPG) : M world unit :=
  update (put (Network.with_weights (fit_weights r) net)) ;;
  match r with
  | Fitted _ => ret tt
  | FitRaised _ => raise ApproximatorError
  end.

(** Lines 126-137 of [fit]. *)
Definition learn_step : M world unit :=
  q_next <- call_next_q ;;
  rw <- read (fun a => _reward (scratch a)) ;;
  q <- lift (np_zip Qplus rw q_next) ;;
  sc <- read scratch ;;
  emit (EvCriticFit (_state sc) (_action sc) q (_state_idxs sc)) ;;
  (a <- read (fun a => a) ;;
   approximator_fit
     (critic_step (_critic_approximator a) (_state sc) (_action sc) q
        (_state_idxs sc))
     (_critic_approximator a) with_critic) ;;
  emit (EvActorFit (_state sc) (_state_idxs sc)) ;;
  (a <- read (fun a => a) ;;
   approximator_fit
     (actor_step (_actor_approximator a) (_critic_approximator a)
        (_state sc) (_state_idxs sc))
     (_actor_approximator a) with_actor) ;;
  update (fun a => with_n_updates (S (_n_updates a)) a) ;;
  emit EvUpdateTarget ;;
  _update_target.

(** The update cycle: lines 110-137 of [fit]. *)
Definition update_cycle (rnd : nat -> nat -> nat) : M world unit :=
  rm <- read _replay_memory ;;
  for_ (seq 0 (length rm)) (assemble rnd) ;;
  learn_step.

(** [fit(dataset)]; [rnd i k] is the outcome of the [k]-th uniform draw
    of the [get] on buffer [i]. *)
Definition fit (dataset : list Sample) (rnd : nat -> nat -> nat)
  : M world unit :=
  route dataset ;;
  fit_condition <- read all_initialized ;;
  if fit_condition then update_cycle rnd else ret tt.

(** The agents that exist at run time: the working arrays were allocated
    by [_allocate_memory] (at construction or in [_post_load]), and then
    any number of [fit], [set_shared_weights], [freeze_shared_weights]
    and [unfreeze_shared_weights] calls were made, whatever their
    outcome. *)
Inductive reachable : world -> Prop :=
| reach_allocate (a : SharedDDPG) (log : list event) :
    reachable (_allocate_memory a, log)
| reach_fit (w : world) (ds : list Sample) (rnd : nat -> nat -> nat) :
    reachable w ->
    reachable (snd (fit ds rnd w))
| reach_set_shared (w : world) (bundle : list (list Q)) :
    reachable w ->
    reachable (snd (set_shared_weights bundle (agent w)), calls w)
| reach_freeze (w : world) :
    reachable w -> reachable (freeze_shared_weights (agent w), calls w)
| reach_unfreeze (w : world) :
    reachable w -> reachable (unfreeze_shared_weights (agent w), calls w).

(** [ActorLoss.forward(arg, state, idxs)] for the critic network
    [critic]: the actor's output [arg] is the action at which the critic
    is evaluated, and the loss is the negated mean of its values. *)
Definition ActorLoss_forward (critic : Network.t) (arg : list (list Q))
  (state : ndarray) (idxs : list Z) : option Q :=
  let action := arg in
  let q := critic_forward critic state action idxs in
  option_map Qopp (mean q).

(** A sequence of [fit] calls, one per collected dataset, as the learning
    phase of an epoch makes them; an exception ends the sequence. *)
Definition fits (steps : list (list Sample * (nat -> nat -> nat)))
  : M world unit :=
  for_ steps (fun step => fit (fst step) (snd step)).

(** The two forward passes that [_next_q] makes on the working arrays of
    [a]: the target actor on the next states, then the target critic on
    the next states and the actions of the target actor. *)
Definition forward_calls (a : SharedDDPG) : list event :=
  let sc := scratch a in
  [EvTargetActor (_next_state sc) (_next_state_idxs sc);
   EvTargetCritic (_next_state sc)
     (actor_forward (_target_actor_approximator a)
        (_next_state sc) (_next_state_idxs sc))
     (_next_state_idxs sc)].

(** The calls that need no approximator to learn: [add], [get] and
    forward passes. *)
Definition is_forward (e : event) : bool :=
  match e with
  | EvTargetActor _ _ | EvTargetCritic _ _ _ => true
  | _ => false
  end.

Definition no_fit_call (e : event) : bool :=
  is_add e || is_get e || is_forward e.

(* ===================================================================== *)
(** * Properties: the monad and the array operations *)
(* ===================================================================== *)

Lemma bcast_exact {A} (n : nat) (v : list A) :
  length v = n -> bcast n v = Some v.
Proof.
  intros H. unfold bcast. rewrite (proj2 (Nat.eqb_eq _ _) H). reflexivity.
Qed.

Lemma bcast_length {A} (n : nat) (v v' : list A) :
  bcast n v = Some v' -> length v' = n.
Proof.
  unfold bcast. destruct (Nat.eqb_spec (length v) n) as [E | E].
  - intros H. injection H as <-. exact E.
  - destruct v as [| x [| y r]]; try discriminate.
    intros H. injection H as <-. apply repeat_length.
Qed.

(** Every value of a broadcast array is a value of the source. *)
Lemma bcast_In {A} (n : nat) (v v' : list A) x :
  bcast n v = Some v' -> In x v' -> In x v.
Proof.
  unfold bcast. destruct (Nat.eqb_spec (length v) n) as [E | E].
  - intros H. injection H as <-. auto.
  - destruct v as [| y [| z r]]; try discriminate.
    intros H. injection H as <-. intros Hin.
    apply repeat_spec in Hin. subst. now left.
Qed.

(* ===================================================================== *)
(** * Properties: shared weights (C6) *)
(* ===================================================================== *)

Lemma overwrite_select (mask : list bool) (w : list Q) :
  Network.overwrite mask w (Network.select mask w) = w.
Proof.
  revert w. induction mask as [| b mask IH]; intros [| x w]; simpl; auto;
    destruct b; simpl; rewrite ?IH; reflexivity.
Qed.

(** An import changes no per-task parameter, whatever the bundle. *)
Lemma unselect_overwrite (mask : list bool) (w s : list Q) :
  Network.unselect mask (Network.overwrite mask w s) = Network.unselect mask w.
Proof.
  revert w s. induction mask as [| b mask IH]; intros [| x w] s; simpl; auto;
    destruct b; try destruct s; simpl; rewrite ?IH; reflexivity.
Qed.

(** After an import of matching size the export is the imported bundle. *)
Lemma select_overwrite (mask : list bool) (w s : list Q) :
  length s = length (Network.select mask w) ->
  Network.select mask (Network.overwrite mask w s) = s.
Proof.
  revert w s. induction mask as [| b mask IH]; intros [| x w] s; simpl.
  - destruct s; simpl; [auto | discriminate].
  - destruct s; simpl; [auto | discriminate].
  - destruct b; destruct s; simpl; auto; discriminate.
  - destruct b; simpl.
    + destruct s as [| y s]; simpl; [discriminate |].
      intros H. injection H as H. now rewrite IH.
    + intros H. now rewrite IH.
Qed.

Lemma network_set_shared_round_trip (net : Network.t) :
  Network.set_shared_weights (Network.get_shared_weights net) net
  = Returned net.
Proof.
  unfold Network.set_shared_weights. rewrite Nat.eqb_refl.
  unfold Network.get_shared_weights, Network.with_weights.
  destruct net as [w mask tr]. simpl. now rewrite overwrite_select.
Qed.

Lemma with_critic_same (a : SharedDDPG) :
  with_critic (_critic_approximator a) a = a.
Proof. now destruct a. Qed.

Lemma with_actor_same (a : SharedDDPG) :
  with_actor (_actor_approximator a) a = a.
Proof. now destruct a. Qed.

(** C6. [get_shared_weights] returns the two-element list
    [[critic_shared, actor_shared]], and
    [set_shared_weights(get_shared_weights())] returns normally and leaves
    the agent exactly as it was: every shared parameter and every per-task
    parameter of the critic and of the actor keeps its value. *)
Theorem shared_weights_round_trip (a : SharedDDPG) :
  get_shared_weights a
  = [Network.get_shared_weights (_critic_approximator a);
     Network.get_shared_weights (_actor_approximator a)]
  /\ set_shared_weights (get_shared_weights a) a = (Returned tt, a)
  /\ (let a' := snd (set_shared_weights (get_shared_weights a) a) in
      Network.weights (_critic_approximator a')
      = Network.weights (_critic_approximator a)
      /\ Network.weights (_actor_approximator a')
         = Network.weights (_actor_approximator a)
      /\ Network.get_shared_weights (_critic_approximator a')
         = Network.get_shared_weights (_critic_approximator a)
      /\ Network.get_shared_weights (_actor_approximator a')
         = Network.get_shared_weights (_actor_approximator a)
      /\ Network.unselect (Network.shared_mask (_critic_approximator a'))
           (Network.weights (_critic_approximator a'))
         = Network.unselect (Network.shared_mask (_critic_approximator a))
             (Network.weights (_critic_approximator a))
      /\ Network.unselect (Network.shared_mask (_actor_approximator a'))
           (Network.weights (_actor_approximator a'))
         = Network.unselect (Network.shared_mask (_actor_approximator a))
             (Network.weights (_actor_approximator a))).
Proof.
  assert (E : set_shared_weights (get_shared_weights a) a = (Returned tt, a)).
  { unfold set_shared_weights, get_shared_weights, bind, lift, gets, modify.
    simpl. rewrite network_set_shared_round_trip. rewrite with_critic_same.
    rewrite network_set_shared_round_trip. now rewrite with_actor_same. }
  split; [reflexivity |]. split; [exact E |].
  rewrite E. simpl. repeat split; reflexivity.
Qed.

(** An import of any bundle of matching sizes installs the bundle in the
    shared positions and leaves the per-task parameters of both networks
    as they were. *)
Lemma set_shared_weights_frame (a : SharedDDPG) (cw aw : list Q) :
  length cw = length (Network.get_shared_weights (_critic_approximator a)) ->
  length aw = length (Network.get_shared_weights (_actor_approximator a)) ->
  exists a',
    set_shared_weights [cw; aw] a = (Returned tt, a')
    /\ get_shared_weights a' = [cw; aw]
    /\ Network.unselect (Network.shared_mask (_critic_approximator a'))
         (Network.weights (_critic_approximator a'))
       = Network.unselect (Network.shared_mask (_critic_approximator a))
           (Network.weights (_critic_approximator a))
    /\ Network.unselect (Network.shared_mask (_actor_approximator a'))
         (Network.weights (_actor_approximator a'))
       = Network.unselect (Network.shared_mask (_actor_approximator a))
           (Network.weights (_actor_approximator a)).
Proof.
  intros Hc Ha.
  unfold set_shared_weights, bind, lift, gets, modify. simpl.
  unfold Network.set_shared_weights.
  rewrite (proj2 (Nat.eqb_eq _ _) Hc). simpl.
  rewrite (proj2 (Nat.eqb_eq _ _) Ha).
  eexists. split; [reflexivity |].
  unfold get_shared_weights, Network.get_shared_weights. simpl.
  rewrite !unselect_overwrite.
  rewrite (select_overwrite _ _ _ Hc), (select_overwrite _ _ _ Ha).
  repeat split; reflexivity.
Qed.

(* ===================================================================== *)
(** * Properties: the soft update of the target networks (C3) *)
(* ===================================================================== *)

Lemma map_combine_map (f g : Q -> Q) (l t : list Q) :
  map (fun p => (fst p + snd p)%Q) (combine (map f l) (map g t))
  = map (fun p => (f (fst p) + g (snd p))%Q) (combine l t).
Proof.
  revert t. induction l as [| x l IH]; intros [| y t]; simpl; auto.
  now rewrite IH.
Qed.

Lemma nth_error_map_combine {A B C} (h : A * B -> C) (l : list A)
  (t : list B) k x y :
  nth_error l k = Some x -> nth_error t k = Some y ->
  nth_error (map h (combine l t)) k = Some (h (x, y)).
Proof.
  revert t k. induction l as [| a l IH]; intros [| b t] [| k]; simpl;
    try discriminate.
  - intros [= ->] [= ->]. reflexivity.
  - apply IH.
Qed.

Lemma soft_update_returns (tau : Q) (live target : Network.t) :
  length (Network.weights live) = length (Network.weights target) ->
  soft_update tau live target
  = Returned
      (Network.with_weights
         (map (fun p => (tau * fst p + (1 - tau) * snd p)%Q)
              (combine (Network.weights live) (Network.weights target)))
         target).
Proof.
  intros Hlen. unfold soft_update, np_iadd, Network.get_weights.
  rewrite bcast_exact by (now rewrite !length_map).
  rewrite map_combine_map. unfold Network.set_weights.
  rewrite length_map, length_combine, Hlen, Nat.min_id, Nat.eqb_refl.
  reflexivity.
Qed.

Lemma blend_soft_updated (tau : Q) (l t : list Q) :
  length l = length t ->
  soft_updated tau l t
    (map (fun p => (tau * fst p + (1 - tau) * snd p)%Q) (combine l t)).
Proof.
  intros Hlen. split.
  - now rewrite length_map, length_combine, Hlen, Nat.min_id.
  - intros k x y Hx Hy.
    now rewrite (nth_error_map_combine _ _ _ _ _ _ Hx Hy).
Qed.

(** With [tau = 1] the soft update copies the live weights. *)
Lemma blend_tau_one (tau : Q) (l t : list Q) :
  tau == 1 -> length l = length t ->
  Forall2 Qeq
    (map (fun p => (tau * fst p + (1 - tau) * snd p)%Q) (combine l t)) l.
Proof.
  intros Htau. revert t. induction l as [| x l IH]; intros [| y t] Hlen;
    simpl in *; try discriminate; constructor.
  - rewrite Htau. ring.
  - apply IH. now injection Hlen.
Qed.

(** With [tau = 0] the soft update keeps the target weights. *)
Lemma blend_tau_zero (tau : Q) (l t : list Q) :
  tau == 0 -> length l = length t ->
  Forall2 Qeq
    (map (fun p => (tau * fst p + (1 - tau) * snd p)%Q) (combine l t)) t.
Proof.
  intros Htau. revert t. induction l as [| x l IH]; intros [| y t] Hlen;
    simpl in *; try discriminate; constructor.
  - rewrite Htau. ring.
  - apply IH. now injection Hlen.
Qed.

(** C3. One call of [_update_target], on networks whose live and target
    parameter vectors have the same size, returns normally and replaces
    every parameter of the target critic and of the target actor by
    [tau * live + (1 - tau) * old_target]; nothing else changes. Hence with
    [tau = 1] every target weight equals its live counterpart, and with
    [tau = 0] every target weight is unchanged. *)
Theorem soft_update_rule (w : world) :
  let a := agent w in
  let tau := _tau a in
  let c := Network.weights (_critic_approximator a) in
  let tc := Network.weights (_target_critic_approximator a) in
  let p := Network.weights (_actor_approximator a) in
  let tp := Network.weights (_target_actor_approximator a) in
  length c = length tc ->
  length p = length tp ->
  exists tc' tp',
    _update_target w
    = (Returned tt,
       (with_target_actor
          (Network.with_weights tp' (_target_actor_approximator a))
          (with_target_critic
             (Network.with_weights tc' (_target_critic_approximator a)) a),
        calls w))
    /\ soft_updated tau c tc tc'
    /\ soft_updated tau p tp tp'
    /\ (tau == 1 -> Forall2 Qeq tc' c /\ Forall2 Qeq tp' p)
    /\ (tau == 0 -> Forall2 Qeq tc' tc /\ Forall2 Qeq tp' tp).
Proof.
  intros a tau c tc p tp Hc Hp.
  exists (map (fun q => (tau * fst q + (1 - tau) * snd q)%Q) (combine c tc)),
         (map (fun q => (tau * fst q + (1 - tau) * snd q)%Q) (combine p tp)).
  split.
  - unfold _update_target, bind, read, lift, update. simpl.
    fold a. rewrite (soft_update_returns _ _ _ Hc). simpl.
    rewrite (soft_update_returns _ _ _ Hp). reflexivity.
  - split; [now apply blend_soft_updated |].
    split; [now apply blend_soft_updated |].
    split; intros Htau; split;
      (now apply blend_tau_one) || (now apply blend_tau_zero).
Qed.

(* ===================================================================== *)
(** * Properties: rules of the Hoare triples *)
(* ===================================================================== *)

Section HoareRules.

Context {S : Type}.
Implicit Types (P : S -> Prop) (E : exn -> S -> Prop).

Lemma hoare_ret {A} P (a : A) (Q : A -> S -> Prop) E :
  (forall s, P s -> Q a s) -> hoare P (ret a) Q E.
Proof. intros H s Hs. simpl. auto. Qed.

Lemma hoare_bind {A B} P (m : M S A) (f : A -> M S B)
  (R : A -> S -> Prop) (Q : B -> S -> Prop) E :
  hoare P m R E -> (forall a, hoare (R a) (f a) Q E) ->
  hoare P (bind m f) Q E.
Proof.
  intros Hm Hf s Hs. unfold bind. specialize (Hm s Hs).
  destruct (m s) as [[a | e] s']; [apply (Hf a s' Hm) | exact Hm].
Qed.

(** The loop rule: [I done] holds after the iterations on [done]. *)
Lemma hoare_for {A} (I : list A -> S -> Prop) E (xs : list A)
  (body : A -> M S unit) :
  (forall done x rest, xs = done ++ x :: rest ->
     hoare (I done) (body x) (fun _ => I (done ++ [x])) E) ->
  hoare (I []) (for_ xs body) (fun _ => I xs) E.
Proof.
  intros Hbody.
  assert (G : forall rest done, xs = done ++ rest ->
            hoare (I done) (for_ rest body) (fun _ => I xs) E).
  { induction rest as [| x rest IH]; intros done Hxs.
    - rewrite app_nil_r in Hxs. subst. now apply hoare_ret.
    - simpl. eapply hoare_bind.
      + apply (Hbody done x rest Hxs).
      + intros u. apply IH. now rewrite <- app_assoc. }
  now apply G.
Qed.

End HoareRules.

(* ===================================================================== *)
(** * Properties: the routing phase of [fit] *)
(* ===================================================================== *)

Lemma insert_unique_In (z y : Z) (l : list Z) :
  In y (insert_unique z l) <-> y = z \/ In y l.
Proof.
  induction l as [| x l IH]; simpl.
  - intuition.
  - destruct (Z.ltb_spec z x); [simpl; intuition |].
    destruct (Z.eqb_spec z x); simpl; [subst; intuition |].
    rewrite IH. intuition.
Qed.

Lemma np_unique_In (y : Z) (s : list Z) : In y (np_unique s) <-> In y s.
Proof.
  induction s as [| x s IH]; simpl; [reflexivity |].
  rewrite insert_unique_In, IH. intuition.
Qed.

Lemma insert_unique_sorted (z : Z) (l : list Z) :
  StronglySorted Z.lt l -> StronglySorted Z.lt (insert_unique z l).
Proof.
  induction 1 as [| x l Hs IH Hx]; simpl.
  - repeat constructor.
  - destruct (Z.ltb_spec z x).
    + constructor; [now constructor |].
      constructor; [assumption |].
      eapply Forall_impl; [| exact Hx]. intros; lia.
    + destruct (Z.eqb_spec z x); [now constructor |].
      constructor; [assumption |].
      apply Forall_forall. intros y Hy.
      apply insert_unique_In in Hy as [-> | Hy]; [lia |].
      now apply (proj1 (Forall_forall _ _) Hx).
Qed.

(** [np.unique] returns the distinct values in ascending order. *)
Lemma np_unique_sorted (s : list Z) : StronglySorted Z.lt (np_unique s).
Proof.
  induction s; simpl; [constructor | now apply insert_unique_sorted].
Qed.

Lemma sorted_NoDup (l : list Z) : StronglySorted Z.lt l -> NoDup l.
Proof.
  induction 1 as [| x l Hs IH Hx]; constructor; auto.
  intros Hin. apply (proj1 (Forall_forall _ _) Hx) in Hin. lia.
Qed.

Lemma np_unique_NoDup (s : list Z) : NoDup (np_unique s).
Proof. apply sorted_NoDup, np_unique_sorted. Qed.

(** Collecting the positions of [g] and reading the dataset there is the
    filter on the task id. *)
Lemma take_at_argwhere_from (pre ds : list Sample) (g : Z) :
  take_at (pre ++ ds) (argwhere_from (length pre) (map task_of ds) g)
  = sub_batch ds g.
Proof.
  revert pre. induction ds as [| d ds IH]; intros pre; simpl; auto.
  assert (E : take_at (pre ++ d :: ds)
                (argwhere_from (Datatypes.S (length pre)) (map task_of ds) g)
              = sub_batch ds g).
  { specialize (IH (pre ++ [d])).
    rewrite <- app_assoc, length_app, Nat.add_1_r in IH. exact IH. }
  destruct (Z.eqb_spec (task_of d) g); [| exact E].
  unfold take_at in *. simpl. rewrite E.
  rewrite nth_error_app2, Nat.sub_diag by lia. reflexivity.
Qed.

Lemma take_at_argwhere (ds : list Sample) (g : Z) :
  take_at ds (argwhere_eq (map task_of ds) g) = sub_batch ds g.
Proof. exact (take_at_argwhere_from [] ds g). Qed.

Lemma update_at_length {A} (j : nat) (f : A -> A) (l : list A) :
  length (update_at j f l) = length l.
Proof.
  revert j. induction l as [| x l IH]; intros [| j]; simpl; auto.
Qed.

Lemma update_at_same {A} (j : nat) (f : A -> A) (l : list A) :
  nth_error (update_at j f l) j = option_map f (nth_error l j).
Proof.
  revert j. induction l as [| x l IH]; intros [| j]; simpl; auto.
Qed.

Lemma update_at_other {A} (j k : nat) (f : A -> A) (l : list A) :
  j <> k -> nth_error (update_at j f l) k = nth_error l k.
Proof.
  revert j k. induction l as [| x l IH]; intros [| j] [| k] H; simpl; auto.
  congruence.
Qed.

Lemma with_replay_memory_same (a : SharedDDPG) :
  with_replay_memory (_replay_memory a) a = a.
Proof. now destruct a. Qed.

Lemma route_add_length ds rm g : length (route_add ds rm g) = length rm.
Proof. apply update_at_length. Qed.

Lemma fold_route_add_length ds games rm :
  length (fold_left (route_add ds) games rm) = length rm.
Proof.
  revert rm. induction games as [| g games IH]; intros rm; simpl; auto.
  now rewrite IH, route_add_length.
Qed.

Lemma routed_memory_length ds rm : length (routed_memory ds rm) = length rm.
Proof. apply fold_route_add_length. Qed.

Lemma fits_int64_spec (g : Z) :
  fits_int64 g = true
  <-> (- 9223372036854775808 <= g < 9223372036854775808)%Z.
Proof.
  unfold fits_int64. rewrite andb_true_iff, Z.leb_le, Z.ltb_lt. tauto.
Qed.

Lemma only_uint64_not_int64 (g : Z) :
  only_uint64 g = true -> fits_int64 g = false.
Proof.
  unfold only_uint64, fits_int64. rewrite andb_true_iff, Z.leb_le, Z.ltb_lt.
  intros [H _]. apply andb_false_iff. right. apply Z.ltb_ge. exact H.
Qed.

(** Ids of 64 bits make an integer array. *)
Lemma int64_not_float (s : list Z) :
  forallb fits_int64 s = true -> as_float64 s = false.
Proof.
  intros H. unfold as_float64.
  destruct (existsb only_uint64 s) eqn:E.
  - apply existsb_exists in E as (g & Hg & Hu).
    rewrite forallb_forall in H. specialize (H g Hg).
    rewrite (only_uint64_not_int64 _ Hu) in H. discriminate H.
  - now rewrite andb_false_r.
Qed.

Lemma resolvable_fits (n : nat) (g : Z) :
  resolvable n g = true -> fits_int64 g = true.
Proof.
  unfold resolvable, py_index. destruct (fits_int64 g); [reflexivity |].
  discriminate.
Qed.

(** The routing loop over any list of ids that numpy keeps as integers:
    it handles the ids in order up to the first one that selects no
    buffer, where it raises [IndexError]. *)
Lemma route_games_run (ds : list Sample) (games : list Z) (a : SharedDDPG)
  (log : list event) :
  let n := length (_replay_memory a) in
  as_float64 (map task_of ds) = false ->
  for_ games (route_game ds (map task_of ds)) (a, log)
  = (if forallb (resolvable n) games then Returned tt else Raised IndexError,
     (with_replay_memory
        (fold_left (route_add ds) (handled n games) (_replay_memory a)) a,
      log ++ map (fun g => EvAdd (position n g) (sub_batch ds g))
                 (handled n games))).
Proof.
  intros n Hf. subst n. revert a log.
  induction games as [| g games IH]; intros a log.
  - simpl. now rewrite with_replay_memory_same, app_nil_r.
  - set (n := length (_replay_memory a)).
    assert (Hr : resolvable n g
                 = match py_index n g with Some _ => true | None => false end)
      by reflexivity.
    assert (Hp : position n g
                 = match py_index n g with Some j => j | None => O end)
      by reflexivity.
    simpl. unfold bind at 1. unfold route_game at 1.
    unfold bind at 1. unfold read at 1. simpl. rewrite Hf. fold n.
    destruct (py_index n g) as [j |] eqn:Ej; rewrite Hr.
    + unfold bind at 1. unfold emit at 1. unfold update at 1. simpl.
      rewrite IH. simpl. rewrite update_at_length. fold n.
      rewrite take_at_argwhere.
      assert (Ea : route_add ds (_replay_memory a) g
                   = update_at j (ReplayMemoryMulty.add (sub_batch ds g))
                       (_replay_memory a)).
      { unfold route_add. fold n. now rewrite Hp. }
      rewrite Ea, Hp, <- app_assoc. reflexivity.
    + simpl. now rewrite with_replay_memory_same, app_nil_r.
Qed.

(** The routing loop over ids that numpy has converted to floats: its
    first iteration raises [TypeError], and nothing has changed. *)
Lemma route_games_float (ds : list Sample) (g : Z) (games : list Z)
  (w : world) :
  as_float64 (map task_of ds) = true ->
  for_ (g :: games) (route_game ds (map task_of ds)) w
  = (Raised TypeError, w).
Proof.
  intros Hf. simpl. unfold bind at 1. unfold route_game at 1.
  unfold bind at 1. unfold read at 1. simpl. rewrite Hf. reflexivity.
Qed.

Lemma float_ids_unique (s : list Z) :
  as_float64 s = true -> exists g games, np_unique s = g :: games.
Proof.
  intros H. unfold as_float64 in H.
  apply andb_prop in H as [H _]. apply andb_prop in H as [H _].
  apply existsb_exists in H as (g & Hg & _).
  apply np_unique_In in Hg.
  destruct (np_unique s) as [| x r]; [destruct Hg | eauto].
Qed.

(** The routing phase, in closed form. *)
Lemma route_run (ds : list Sample) (w : world) :
  let n := length (_replay_memory (agent w)) in
  route ds w
  = (route_outcome n ds,
     (with_replay_memory (routed_memory ds (_replay_memory (agent w)))
        (agent w),
      calls w ++ routing_calls ds n)).
Proof.
  destruct w as [a log].
  unfold route, route_outcome, routed_memory, routing_calls, routed_ids.
  unfold agent, calls. simpl fst. simpl snd. cbv zeta.
  destruct (as_float64 (map task_of ds)) eqn:Ef.
  - destruct (float_ids_unique _ Ef) as (g & games & ->).
    rewrite (route_games_float _ _ _ _ Ef). simpl.
    now rewrite with_replay_memory_same, app_nil_r.
  - now apply route_games_run.
Qed.


Lemma route_outcome_raises (n : nat) (ds : list Sample) (e : exn) :
  route_outcome n ds = Raised e ->
  (e = TypeError /\ as_float64 (map task_of ds) = true)
  \/ (e = IndexError /\ as_float64 (map task_of ds) = false
      /\ forallb (resolvable n) (np_unique (map task_of ds)) = false).
Proof.
  unfold route_outcome. destruct (as_float64 _).
  - intros [= <-]. now left.
  - destruct (forallb _ _); [discriminate |]. intros [= <-]. now right.
Qed.

Lemma forallb_resolvable_unique (n : nat) (ds : list Sample) :
  forallb (resolvable n) (np_unique (map task_of ds))
  = negb (has_unindexable_id n ds).
Proof.
  unfold has_unindexable_id.
  destruct (forallb _ _) eqn:E1; destruct (existsb _ _) eqn:E2; auto.
  - rewrite forallb_forall in E1. apply existsb_exists in E2 as (d & Hd & Hr).
    rewrite (E1 (task_of d)) in Hr; [discriminate |].
    apply np_unique_In, in_map, Hd.
  - assert (F : forallb (resolvable n) (np_unique (map task_of ds)) = true).
    { apply forallb_forall. intros g Hg.
      apply np_unique_In, in_map_iff in Hg as (d & <- & Hd).
      destruct (resolvable n (task_of d)) eqn:Er; auto.
      assert (X : existsb (fun d => negb (resolvable n (task_of d))) ds
                  = true).
      { apply existsb_exists. exists d. now rewrite Er. }
      congruence. }
    congruence.
Qed.

Lemma handled_all (n : nat) (games : list Z) :
  forallb (resolvable n) games = true -> handled n games = games.
Proof.
  induction games as [| g games IH]; simpl; auto.
  intros H. apply andb_prop in H as [Hg Hr]. now rewrite Hg, IH.
Qed.


(** Frame of the routing phase: a buffer that no handled id selects is
    left as it was. *)
Lemma fold_route_add_frame ds games rm j :
  (forall g, In g games -> position (length rm) g <> j) ->
  nth_error (fold_left (route_add ds) games rm) j = nth_error rm j.
Proof.
  revert rm. induction games as [| g games IH]; intros rm H; simpl; auto.
  rewrite IH.
  - unfold route_add. apply update_at_other. apply H. now left.
  - intros g' Hg'. rewrite route_add_length. apply H. now right.
Qed.

(** The buffer selected by one id of a duplicate-free list receives
    exactly the sub-batch of that id. *)
Lemma fold_route_add_hit ds games rm g :
  In g games -> NoDup games ->
  (forall g', In g' games -> g' <> g ->
     position (length rm) g' <> position (length rm) g) ->
  nth_error (fold_left (route_add ds) games rm) (position (length rm) g)
  = option_map (ReplayMemoryMulty.add (sub_batch ds g))
      (nth_error rm (position (length rm) g)).
Proof.
  revert rm. induction games as [| x games IH]; intros rm Hin Hnd Hinj;
    [contradiction |].
  simpl. inversion Hnd as [| ? ? Hx Hnd']; subst.
  destruct Hin as [-> | Hin].
  - rewrite fold_route_add_frame.
    + unfold route_add. apply update_at_same.
    + intros g' Hg'. rewrite route_add_length. apply Hinj; [now right |].
      intros ->. contradiction.
  - assert (Hxg : x <> g) by (intros ->; contradiction).
    specialize (IH (route_add ds rm x)).
    rewrite route_add_length in IH. rewrite IH; auto.
    + unfold route_add at 1. rewrite update_at_other; auto.
      apply Hinj; [now left | assumption].
    + intros g' Hg' Hne. apply Hinj; [now right | assumption].
Qed.

Lemma py_index_valid (n : nat) (g : Z) :
  (0 <= g < Z.of_nat n)%Z -> fits_int64 g = true ->
  py_index n g = Some (Z.to_nat g).
Proof.
  intros H Hf. unfold py_index. rewrite Hf. simpl.
  destruct (Z.leb_spec 0 g); [| lia].
  destruct (Z.ltb_spec g (Z.of_nat n)); [| lia]. reflexivity.
Qed.


(** An id selects no buffer exactly when it is [>= n] or [< -n], or does
    not fit the index type. *)
Lemma resolvable_false_iff (n : nat) (g : Z) :
  resolvable n g = false
  <-> (g < - Z.of_nat n \/ Z.of_nat n <= g)%Z \/ fits_int64 g = false.
Proof.
  unfold resolvable, py_index. destruct (fits_int64 g); simpl.
  - destruct (Z.leb_spec 0 g); destruct (Z.ltb_spec g (Z.of_nat n)); simpl;
      destruct (Z.leb_spec (- Z.of_nat n) g); destruct (Z.ltb_spec g 0);
      simpl; split; intros; try discriminate; try lia; auto;
      match goal with
      | H : _ \/ true = false |- _ => destruct H; [lia | discriminate]
      | _ => left; lia
      end.
  - split; auto.
Qed.

Lemma valid_task_ids_spec (n : nat) (ds : list Sample) :
  valid_task_ids n ds = true <->
  forall d, In d ds ->
    (0 <= task_of d < Z.of_nat n)%Z /\ fits_int64 (task_of d) = true.
Proof.
  unfold valid_task_ids. rewrite forallb_forall.
  split; intros H d Hd; specialize (H d Hd).
  - apply andb_prop in H as [H H3]. apply andb_prop in H as [H1 H2].
    apply Z.leb_le in H1. apply Z.ltb_lt in H2. split; [lia | exact H3].
  - destruct H as [H H3]. rewrite H3, andb_true_r.
    apply andb_true_intro. split; [apply Z.leb_le | apply Z.ltb_lt]; lia.
Qed.

Lemma valid_ids_resolvable (n : nat) (ds : list Sample) :
  valid_task_ids n ds = true ->
  forallb (resolvable n) (np_unique (map task_of ds)) = true.
Proof.
  intros H. rewrite valid_task_ids_spec in H.
  apply forallb_forall. intros g Hg.
  apply np_unique_In, in_map_iff in Hg as (d & <- & Hd).
  destruct (H d Hd) as [H1 H2].
  unfold resolvable. now rewrite (py_index_valid _ _ H1 H2).
Qed.

(** Ids that all select a buffer are kept as integers by numpy. *)
Lemma resolvable_not_float (n : nat) (ds : list Sample) :
  forallb (resolvable n) (np_unique (map task_of ds)) = true ->
  as_float64 (map task_of ds) = false.
Proof.
  intros H. apply int64_not_float. apply forallb_forall. intros g Hg.
  rewrite forallb_forall in H. apply (resolvable_fits n).
  apply H. now apply np_unique_In.
Qed.

Lemma valid_ids_not_float (n : nat) (ds : list Sample) :
  valid_task_ids n ds = true -> as_float64 (map task_of ds) = false.
Proof.
  intros H. eapply resolvable_not_float, valid_ids_resolvable, H.
Qed.

(** The routing of a dataset whose ids all select a buffer. *)
Lemma route_all_resolvable (n : nat) (ds : list Sample) :
  forallb (resolvable n) (np_unique (map task_of ds)) = true ->
  route_outcome n ds = Returned tt
  /\ routed_ids n ds = np_unique (map task_of ds).
Proof.
  intros H. unfold route_outcome, routed_ids.
  rewrite (resolvable_not_float _ _ H), H. split; [reflexivity |].
  now apply handled_all.
Qed.


Lemma occurs_spec (i : nat) (ds : list Sample) :
  occurs i ds = true <-> In (Z.of_nat i) (map task_of ds).
Proof.
  unfold occurs. rewrite existsb_exists, in_map_iff.
  split; intros (d & H1 & H2); exists d.
  - apply Z.eqb_eq in H2. auto.
  - split; [assumption |]. now apply Z.eqb_eq.
Qed.

(** Routing of a dataset whose ids are task ids: buffer [i] receives one
    [add] with the transitions tagged [i] when there are some, and is left
    as it was otherwise. *)
Lemma routed_memory_valid (ds : list Sample) (rm : list ReplayMemoryMulty.t)
  (i : nat) (m : ReplayMemoryMulty.t) :
  valid_task_ids (length rm) ds = true ->
  nth_error rm i = Some m ->
  nth_error (routed_memory ds rm) i
  = Some (if occurs i ds
          then ReplayMemoryMulty.add (sub_batch ds (Z.of_nat i)) m
          else m).
Proof.
  intros Hv Hm. unfold routed_memory.
  rewrite (proj2 (route_all_resolvable _ _ (valid_ids_resolvable _ _ Hv))).
  rewrite valid_task_ids_spec in Hv.
  assert (Hpos : forall g, In g (np_unique (map task_of ds)) ->
                   position (length rm) g = Z.to_nat g /\ (0 <= g)%Z).
  { intros g Hg. apply np_unique_In, in_map_iff in Hg as (d & <- & Hd).
    destruct (Hv d Hd) as [H1 H2].
    unfold position. rewrite (py_index_valid _ _ H1 H2).
    split; [reflexivity |]. apply H1. }
  destruct (occurs i ds) eqn:Eo.
  - apply occurs_spec in Eo. apply np_unique_In in Eo.
    destruct (Hpos _ Eo) as [Hp _]. rewrite Nat2Z.id in Hp.
    rewrite <- Hp at 1. rewrite fold_route_add_hit.
    + now rewrite Hp, Hm.
    + exact Eo.
    + apply np_unique_NoDup.
    + intros g' Hg' Hne. destruct (Hpos _ Hg') as [Hp' Hnn].
      rewrite Hp, Hp'. intros Heq. apply Hne.
      rewrite <- (Z2Nat.id g') by assumption. now rewrite Heq.
  - rewrite fold_route_add_frame; [exact Hm |].
    intros g Hg. destruct (Hpos _ Hg) as [Hp Hnn]. rewrite Hp.
    intros Heq. apply (proj1 (np_unique_In _ _)) in Hg.
    assert (X : occurs i ds = true).
    { apply occurs_spec. subst i. rewrite Z2Nat.id by exact Hnn. exact Hg. }
    congruence.
Qed.

(* ===================================================================== *)
(** * Properties: slice and block assignment *)
(* ===================================================================== *)

Local Open Scope nat_scope.

Lemma nth_error_lt {A} (l : list A) r x :
  nth_error l r = Some x -> r < length l.
Proof. intros H. apply nth_error_Some. congruence. Qed.

Lemma splice_length {A} (s e : nat) (a mid : list A) :
  s <= e -> e <= length a -> length mid = e - s ->
  length (firstn s a ++ mid ++ skipn e a) = length a.
Proof.
  intros. rewrite !length_app, length_firstn, length_skipn. lia.
Qed.

Lemma splice_nth_lo {A} (s r : nat) (a t : list A) :
  r < s -> s <= length a ->
  nth_error (firstn s a ++ t) r = nth_error a r.
Proof.
  intros. rewrite nth_error_app1 by (rewrite length_firstn; lia).
  rewrite nth_error_firstn. destruct (Nat.ltb_spec r s); [reflexivity | lia].
Qed.

Lemma splice_nth_mid {A} (s r : nat) (a mid t : list A) :
  s <= length a -> s <= r < s + length mid ->
  nth_error (firstn s a ++ mid ++ t) r = nth_error mid (r - s).
Proof.
  intros. rewrite nth_error_app2 by (rewrite length_firstn; lia).
  rewrite length_firstn, Nat.min_l by lia.
  apply nth_error_app1. lia.
Qed.

Lemma splice_nth_hi {A} (s e r : nat) (a mid : list A) :
  s <= e -> e <= length a -> length mid = e - s -> e <= r ->
  nth_error (firstn s a ++ mid ++ skipn e a) r = nth_error a r.
Proof.
  intros. rewrite nth_error_app2 by (rewrite length_firstn; lia).
  rewrite length_firstn, Nat.min_l by lia.
  rewrite nth_error_app2 by lia.
  rewrite nth_error_skipn. f_equal. lia.
Qed.

(** The clipped bounds of a slice. *)
Lemma clip_bounds (start stop n : nat) :
  let s := Nat.min start n in
  let e := Nat.max s (Nat.min stop n) in
  s <= e /\ e <= n /\
  forall r, ~ (start <= r < stop) -> r < s \/ e <= r.
Proof. intros s e. subst s e. split; [lia |]. split; lia. Qed.

Lemma clip_exact (start stop n : nat) :
  start <= stop -> stop <= n ->
  Nat.min start n = start /\ Nat.max (Nat.min start n) (Nat.min stop n) = stop.
Proof. lia. Qed.

Lemma set_slice_raises {A} (start stop : nat) (v a : list A) e :
  set_slice start stop v a = Raised e -> e = ValueError.
Proof.
  unfold set_slice. destruct (bcast _ v); [discriminate |]. now intros [= <-].
Qed.

Lemma set_slice_length {A} (start stop : nat) (v a a' : list A) :
  set_slice start stop v a = Returned a' -> length a' = length a.
Proof.
  unfold set_slice. destruct (bcast _ v) as [v' |] eqn:Ev; [| discriminate].
  intros [= <-]. destruct (clip_bounds start stop (length a)) as (H1 & H2 & _).
  apply splice_length; auto. now apply bcast_length in Ev.
Qed.

(** An entry outside [start:stop] is not touched. *)
Lemma set_slice_outside {A} (start stop : nat) (v a a' : list A) r :
  set_slice start stop v a = Returned a' ->
  ~ (start <= r < stop) -> nth_error a' r = nth_error a r.
Proof.
  unfold set_slice. destruct (bcast _ v) as [v' |] eqn:Ev; [| discriminate].
  intros [= <-] Hr.
  destruct (clip_bounds start stop (length a)) as (H1 & H2 & H3).
  apply bcast_length in Ev.
  destruct (H3 r Hr).
  - apply splice_nth_lo; lia.
  - apply splice_nth_hi; auto.
Qed.

(** An entry inside [start:stop] holds one of the assigned values. *)
Lemma set_slice_inside {A} (start stop : nat) (v a a' : list A) r x :
  set_slice start stop v a = Returned a' ->
  start <= r < stop -> nth_error a' r = Some x -> In x v.
Proof.
  unfold set_slice. destruct (bcast _ v) as [v' |] eqn:Ev; [| discriminate].
  intros [= <-] Hr Hx.
  destruct (clip_bounds start stop (length a)) as (H1 & H2 & H3).
  pose proof (bcast_length _ _ _ Ev) as Hl.
  assert (Hrn : r < length a).
  { apply nth_error_lt in Hx. rewrite splice_length in Hx; auto. }
  rewrite splice_nth_mid in Hx by lia.
  apply nth_error_In in Hx. now apply (bcast_In _ _ _ _ Ev).
Qed.

(** With exact shapes the slice assignment returns and copies [v]. *)
Lemma set_slice_exact {A} (start stop : nat) (v a : list A) :
  start <= stop -> stop <= length a -> length v = stop - start ->
  set_slice start stop v a = Returned (firstn start a ++ v ++ skipn stop a).
Proof.
  intros H1 H2 H3. unfold set_slice.
  destruct (clip_exact start stop (length a) H1 H2) as [-> ->].
  now rewrite bcast_exact.
Qed.

Lemma set_slice_exact_nth {A} (start stop : nat) (v a a' : list A) k :
  start <= stop -> stop <= length a -> length v = stop - start ->
  set_slice start stop v a = Returned a' ->
  k < stop - start ->
  nth_error a' (start + k) = nth_error v k.
Proof.
  intros H1 H2 H3 Hs Hk. rewrite set_slice_exact in Hs by assumption.
  injection Hs as <-. rewrite splice_nth_mid by lia. f_equal. lia.
Qed.

Lemma sequence_length {A} (l : list (option A)) (l' : list A) :
  sequence l = Some l' -> length l' = length l.
Proof.
  revert l'. induction l as [| [x |] l IH]; simpl; intros l'.
  - now intros [= <-].
  - destruct (sequence l); [| discriminate]. intros [= <-]. simpl.
    f_equal. now apply IH.
  - discriminate.
Qed.

Lemma sequence_nth {A} (l : list (option A)) (l' : list A) k y :
  sequence l = Some l' -> nth_error l' k = Some y ->
  nth_error l k = Some (Some y).
Proof.
  revert l' k. induction l as [| [x |] l IH]; simpl; intros l' k.
  - intros [= <-]. now destruct k.
  - destruct (sequence l) as [xs |]; [| discriminate]. intros [= <-].
    destruct k; simpl; [now intros [= ->] | now apply IH].
  - discriminate.
Qed.

Lemma sequence_map_id {A} (f : A -> option A) (l : list A) :
  (forall x, In x l -> f x = Some x) -> sequence (map f l) = Some l.
Proof.
  induction l as [| x l IH]; simpl; intros H; auto.
  rewrite (H x) by now left. rewrite IH; auto.
Qed.

Lemma set_block_raises (start stop k : nat) V m e :
  set_block start stop k V m = Raised e -> e = ValueError.
Proof.
  unfold set_block. destruct (negb (uniform V)); [now intros [= <-] |].
  destruct (bcast _ V); [| now intros [= <-]].
  destruct (sequence _); [discriminate | now intros [= <-]].
Qed.

Lemma set_block_nd_raises (start stop k : nat) V a e :
  set_block_nd start stop k V a = Raised e ->
  e = IndexError \/ e = ValueError.
Proof.
  destruct a as [x | v | m]; simpl; try (intros [= <-]; now left).
  destruct (set_block start stop k V m) eqn:E; [discriminate |].
  intros [= <-]. right. eapply set_block_raises, E.
Qed.

(** What a returned block assignment did: the rows outside [start:stop] are
    untouched; a row inside keeps its entries from column [min k ncols] on
    and receives one (broadcast) row of [V] before. *)
Lemma set_block_returned (start stop k : nat) V m m' :
  set_block start stop k V m = Returned m' ->
  ncols m' = ncols m
  /\ length (mrows m') = length (mrows m)
  /\ (forall r, ~ (start <= r < stop) ->
        nth_error (mrows m') r = nth_error (mrows m) r)
  /\ (forall r row', start <= r < stop ->
        nth_error (mrows m') r = Some row' ->
        exists V1 x v old,
          bcast (Nat.max (Nat.min start (length (mrows m)))
                         (Nat.min stop (length (mrows m)))
                 - Nat.min start (length (mrows m))) V = Some V1
          /\ nth_error V1 (r - Nat.min start (length (mrows m))) = Some x
          /\ bcast (Nat.min k (ncols m)) x = Some v
          /\ nth_error (mrows m) r = Some old
          /\ row' = v ++ skipn (Nat.min k (ncols m)) old).
Proof.
  unfold set_block.
  destruct (negb (uniform V)); [discriminate |].
  set (n := length (mrows m)). set (s := Nat.min start n).
  set (e := Nat.max s (Nat.min stop n)). set (kk := Nat.min k (ncols m)).
  destruct (bcast (e - s) V) as [V1 |] eqn:E1; [| discriminate].
  destruct (sequence (map (bcast kk) V1)) as [V2 |] eqn:E2; [| discriminate].
  intros [= <-]. simpl.
  destruct (clip_bounds start stop n) as (H1 & H2 & H3). fold s e in H1, H2, H3.
  pose proof (bcast_length _ _ _ E1) as L1.
  pose proof (sequence_length _ _ E2) as L2. rewrite length_map in L2.
  assert (Ls : length (slice s e (mrows m)) = e - s).
  { unfold slice. rewrite length_firstn, length_skipn. fold n. lia. }
  assert (Lmid : length (map (fun p : list Q * list Q =>
                                fst p ++ skipn kk (snd p))
                             (combine V2 (slice s e (mrows m)))) = e - s).
  { rewrite length_map, length_combine. lia. }
  split; [reflexivity |]. split; [| split].
  - apply splice_length; auto.
  - intros r Hr. destruct (H3 r Hr).
    + apply splice_nth_lo; fold n; lia.
    + apply splice_nth_hi; auto.
  - intros r row' Hr Hrow.
    assert (Hrn : r < n).
    { apply nth_error_lt in Hrow.
      rewrite splice_length in Hrow; auto. }
    assert (Hse : s <= r < e) by (subst s e; lia).
    rewrite splice_nth_mid in Hrow by (fold n; lia).
    rewrite nth_error_map in Hrow.
    destruct (nth_error (combine V2 (slice s e (mrows m))) (r - s))
      as [[v old] |] eqn:Ec; [| discriminate].
    injection Hrow as <-. simpl.
    assert (Hv : nth_error V2 (r - s) = Some v
                 /\ nth_error (slice s e (mrows m)) (r - s) = Some old).
    { clear - Ec. revert Ec. generalize (r - s) as j.
      generalize (slice s e (mrows m)) as t.
      induction V2 as [| a V2 IH]; intros [| b t] [| j]; simpl;
        try discriminate.
      - intros [= -> ->]. auto.
      - apply IH. }
    destruct Hv as [Hv Hold].
    pose proof (sequence_nth _ _ _ _ E2 Hv) as Hx.
    rewrite nth_error_map in Hx.
    destruct (nth_error V1 (r - s)) as [x |] eqn:Ex; [| discriminate].
    injection Hx as Hx.
    exists V1, x, v, old. repeat split; auto.
    unfold slice in Hold. rewrite nth_error_firstn in Hold.
    destruct (Nat.ltb_spec (r - s) (e - s)); [| discriminate].
    rewrite nth_error_skipn in Hold. rewrite <- Hold. f_equal. lia.
Qed.

(** With exact shapes the block assignment returns. *)
Lemma set_block_exact (start stop k : nat) V m :
  start <= stop -> stop <= length (mrows m) ->
  length V = stop - start ->
  (forall x, In x V -> length x = Nat.min k (ncols m)) ->
  exists m', set_block start stop k V m = Returned m'.
Proof.
  intros H1 H2 H3 H4. unfold set_block.
  assert (U : uniform V = true).
  { destruct V as [| r0 V]; simpl; auto.
    apply forallb_forall. intros x Hx. apply Nat.eqb_eq.
    rewrite (H4 x), (H4 r0); simpl; auto. }
  rewrite U. simpl.
  destruct (clip_exact start stop _ H1 H2) as [-> ->].
  rewrite bcast_exact by assumption.
  rewrite sequence_map_id.
  - eexists. reflexivity.
  - intros x Hx. apply bcast_exact. now apply H4.
Qed.

(* ===================================================================== *)
(** * Properties: the assembling loop of [fit] *)
(* ===================================================================== *)

Ltac clean_outcomes :=
  repeat match goal with
         | H : Returned _ = Returned _ |- _ => injection H as H; subst
         | H : Raised _ = Raised _ |- _ => injection H as H; subst
         | H : Returned _ = Raised _ |- _ => discriminate H
         | H : Raised _ = Returned _ |- _ => discriminate H
         | H1 : ?t = Returned _, H2 : ?t = _ |- _ => rewrite H1 in H2
         | H1 : ?t = Raised _, H2 : ?t = _ |- _ => rewrite H1 in H2
         end.

Lemma with_scratch_same (a : SharedDDPG) : with_scratch (scratch a) a = a.
Proof. now destruct a. Qed.

Ltac step_outcomes :=
  repeat match goal with
         | |- context [match ?o with Returned _ => _ | Raised _ => _ end] =>
             destruct o eqn:?; simpl
         end.

(** One iteration of the assembling loop, seen from outside: the [get]
    call, then the seven assignments on the working arrays. *)
Lemma assemble_run (rnd : nat -> nat -> nat) (i : nat) (a : SharedDDPG)
  (log : list event) :
  assemble rnd i (a, log)
  = match py_get (_replay_memory a) i with
    | Raised e => (Raised e, (a, log))
    | Returned mem =>
        match ReplayMemoryMulty.get (_batch_size a) (rnd i) mem with
        | Raised e => (Raised e, (a, log ++ [EvGet i (_batch_size a)]))
        | Returned b =>
            (fst (fill a i b (scratch a)),
             (with_scratch (snd (fill a i b (scratch a))) a,
              log ++ [EvGet i (_batch_size a)]))
        end
    end.
Proof.
  unfold assemble, fill, bind, read, lift, emit, assign, sassign. simpl.
  destruct (py_get (_replay_memory a) i) as [mem | e]; [| reflexivity].
  simpl.
  destruct (ReplayMemoryMulty.get (_batch_size a) (rnd i) mem) as [b | e];
    [| reflexivity].
  simpl. step_outcomes; try reflexivity.
  all: clean_outcomes; try reflexivity.
  all: rewrite with_scratch_same; reflexivity.
Qed.

(** [fill] returns exactly when each of its seven assignments returns, and
    then the final arrays are the results of these assignments. *)
Lemma fill_returned (a : SharedDDPG) (i : nat) (b : ReplayMemoryMulty.batch)
  (sc sc' : Scratch) :
  let B := _batch_size a in
  let start := B * i in
  let stop := start + B in
  fill a i b sc = (Returned tt, sc') <->
  exists n_in n_act,
    nth_error (_n_input_per_mdp a) i = Some n_in
    /\ nth_error (_n_actions_per_head a) i = Some n_act
    /\ set_slice start stop (repeat (Z.of_nat i) B) (_state_idxs sc)
       = Returned (_state_idxs sc')
    /\ set_block_nd start stop n_in (ReplayMemoryMulty.b_state b) (_state sc)
       = Returned (_state sc')
    /\ set_block start stop n_act (ReplayMemoryMulty.b_action b) (_action sc)
       = Returned (_action sc')
    /\ set_slice start stop (ReplayMemoryMulty.b_reward b) (_reward sc)
       = Returned (_reward sc')
    /\ set_slice start stop (repeat (Z.of_nat i) B) (_next_state_idxs sc)
       = Returned (_next_state_idxs sc')
    /\ set_block_nd start stop n_in (ReplayMemoryMulty.b_next_state b)
         (_next_state sc)
       = Returned (_next_state sc')
    /\ set_slice start stop (map b2q (ReplayMemoryMulty.b_absorbing b))
         (_absorbing sc)
       = Returned (_absorbing sc').
Proof.
  intros B start stop. subst B start stop.
  unfold fill, bind, lift, sassign, py_get. simpl. split.
  - destruct (nth_error (_n_input_per_mdp a) i) as [n_in |] eqn:E1;
      destruct (nth_error (_n_actions_per_head a) i) as [n_act |] eqn:E2;
      simpl; step_outcomes; intros H; try discriminate H.
    injection H as <-. simpl. exists n_in, n_act. repeat split; assumption.
  - intros (n_in & n_act & E1 & E2 & H1 & H2 & H3 & H4 & H5 & H6 & H7).
    rewrite E1, E2, H1. simpl. rewrite H2. simpl. rewrite H3. simpl.
    rewrite H4. simpl. rewrite H5. simpl. rewrite H6. simpl. rewrite H7.
    simpl. destruct sc'; reflexivity.
Qed.

Lemma fill_raises (a : SharedDDPG) (i : nat) (b : ReplayMemoryMulty.batch)
  (sc sc' : Scratch) e :
  fill a i b sc = (Raised e, sc') -> e = IndexError \/ e = ValueError.
Proof.
  unfold fill, bind, lift, sassign, py_get. simpl.
  destruct (nth_error (_n_input_per_mdp a) i) as [n_in |] eqn:E1;
    destruct (nth_error (_n_actions_per_head a) i) as [n_act |] eqn:E2;
    simpl; step_outcomes; intros H; try discriminate H;
    injection H as <- <-;
    repeat match goal with
      | H : set_slice _ _ _ _ = Raised _ |- _ =>
          apply set_slice_raises in H; subst
      | H : set_block _ _ _ _ _ = Raised _ |- _ =>
          apply set_block_raises in H; subst
      | H : set_block_nd _ _ _ _ _ = Raised _ |- _ =>
          apply set_block_nd_raises in H; destruct H; subst
      end; auto.
Qed.

(* ===================================================================== *)
(** * Properties: the padding invariant (C4) *)
(* ===================================================================== *)

Lemma in_block_unique (B i j r : nat) :
  in_block B i r -> in_block B j r -> i = j.
Proof.
  unfold in_block. intros Hi Hj.
  destruct (lt_eq_lt_dec i j) as [[H | H] | H]; [nia | assumption | nia].
Qed.

Lemma all_zero_skipn (k : nat) (row : list Q) :
  all_zero row -> zero_beyond k row.
Proof.
  unfold zero_beyond, all_zero. intros H.
  rewrite <- (firstn_skipn k row) in H. now apply Forall_app in H.
Qed.

Lemma all_zero_zeros (w : nat) : all_zero (np_zeros w).
Proof.
  unfold all_zero, np_zeros. apply Forall_forall. intros x Hx.
  now apply repeat_spec in Hx.
Qed.

(** Writing a prefix of at most [k] entries keeps the row zero from
    column [k] on. *)
Lemma zero_beyond_write (k kk : nat) (v old : list Q) :
  length v = kk -> kk <= k -> zero_beyond k old ->
  zero_beyond k (v ++ skipn kk old).
Proof.
  unfold zero_beyond. intros Hv Hk Hz.
  rewrite skipn_app, Hv.
  rewrite (skipn_all2 v) by lia. simpl.
  rewrite skipn_skipn. now replace (k - kk + kk) with k by lia.
Qed.

(** The assignment of the tags of block [i] keeps the invariant of every
    array tagged by them, and sets the tags of the block. *)
Lemma channel_tags (B i : nat) (dims : list nat) (tags tags' : list Z)
  (rows : list (list Q)) :
  channel B dims tags rows ->
  set_slice (B * i) (B * i + B) (repeat (Z.of_nat i) B) tags = Returned tags' ->
  channel B dims tags' rows /\ tagged B i tags'.
Proof.
  intros Hc Hs. split.
  - intros r row Hrow. destruct (Hc r row Hrow) as [H1 H2].
    split; [exact H1 |]. intros tag Htag Hne.
    destruct (le_lt_dec (B * i) r) as [Hlo |];
      [destruct (le_lt_dec (B * i + B) r) as [| Hhi] |].
    + rewrite (set_slice_outside _ _ _ _ _ r Hs) in Htag by lia. eauto.
    + exfalso. apply (Hne i); [split; assumption |].
      apply (set_slice_inside _ _ _ _ _ r tag Hs) in Htag; [| lia].
      now apply repeat_spec in Htag.
    + rewrite (set_slice_outside _ _ _ _ _ r Hs) in Htag by lia. eauto.
  - intros r tag Hr Htag.
    apply (set_slice_inside _ _ _ _ _ r tag Hs) in Htag; [| exact Hr].
    now apply repeat_spec in Htag.
Qed.

(** The assignment of the rows of block [i], limited to the width of task
    [i], keeps the invariant once the tags of the block are set. *)
Lemma channel_rows (B i k : nat) (dims : list nat) (tags : list Z)
  (V : list (list Q)) (m m' : matrix) :
  channel B dims tags (mrows m) ->
  tagged B i tags ->
  nth_error dims i = Some k ->
  set_block (B * i) (B * i + B) k V m = Returned m' ->
  channel B dims tags (mrows m').
Proof.
  intros Hc Ht Hk Hs.
  destruct (set_block_returned _ _ _ _ _ _ Hs) as (_ & _ & Hout & Hin).
  intros r row' Hrow'.
  destruct (le_lt_dec (B * i) r) as [Hlo |];
    [destruct (le_lt_dec (B * i + B) r) as [| Hhi] |].
  - rewrite Hout in Hrow' by lia. now apply Hc.
  - assert (Hb : in_block B i r) by (split; assumption).
    destruct (Hin r row' Hb Hrow')
      as (V1 & x & v & old & _ & _ & Hv & Hold & ->).
    destruct (Hc r old Hold) as [H1 H2]. split.
    + intros j k' Hj Hk'. rewrite (in_block_unique _ _ _ _ Hj Hb) in Hk'.
      rewrite Hk in Hk'. injection Hk' as <-.
      apply zero_beyond_write.
      * now apply bcast_length in Hv.
      * apply Nat.le_min_l.
      * apply (H1 i k Hb Hk).
    + intros tag Htag Hne. exfalso. apply (Hne i Hb).
      apply (Ht r tag Hb Htag).
  - rewrite Hout in Hrow' by lia. now apply Hc.
Qed.

Lemma channel_rows_nd (B i k : nat) (dims : list nat) (tags : list Z)
  (V : list (list Q)) (a a' : ndarray) :
  channel B dims tags (nd_rows a) ->
  tagged B i tags ->
  nth_error dims i = Some k ->
  set_block_nd (B * i) (B * i + B) k V a = Returned a' ->
  channel B dims tags (nd_rows a').
Proof.
  destruct a as [x | v | m]; simpl; try discriminate.
  intros Hc Ht Hk Hs.
  destruct (set_block (B * i) (B * i + B) k V m) as [m' |] eqn:E;
    [| discriminate].
  injection Hs as <-. simpl. eapply channel_rows; eassumption.
Qed.

(** One iteration of the assembling loop keeps the padding invariant,
    whether it returns or raises midway. *)
Lemma fill_padded (a : SharedDDPG) (i : nat) (b : ReplayMemoryMulty.batch)
  (sc : Scratch) :
  padded (with_scratch sc a) ->
  padded (with_scratch (snd (fill a i b sc)) a).
Proof.
  unfold padded. simpl. intros (Hs & Ha & Hn).
  unfold fill, bind, lift, sassign, py_get. simpl.
  destruct (set_slice _ _ _ (_state_idxs sc)) as [t1 |] eqn:E1; simpl;
    [| split; [| split]; assumption].
  destruct (channel_tags _ _ _ _ _ _ Hs E1) as [Hs1 T1].
  destruct (channel_tags _ _ _ _ _ _ Ha E1) as [Ha1 _].
  destruct (nth_error (_n_input_per_mdp a) i) as [n_in |] eqn:D1; simpl;
    [| split; [| split]; assumption].
  destruct (set_block_nd _ _ _ _ (_state sc)) as [s2 |] eqn:E2; simpl;
    [| split; [| split]; assumption].
  pose proof (channel_rows_nd _ _ _ _ _ _ _ _ Hs1 T1 D1 E2) as Hs2.
  destruct (nth_error (_n_actions_per_head a) i) as [n_act |] eqn:D2; simpl;
    [| split; [| split]; assumption].
  destruct (set_block _ _ _ _ (_action sc)) as [a3 |] eqn:E3; simpl;
    [| split; [| split]; assumption].
  pose proof (channel_rows _ _ _ _ _ _ _ _ Ha1 T1 D2 E3) as Ha3.
  destruct (set_slice _ _ _ (_reward sc)) as [r4 |] eqn:E4; simpl;
    [| split; [| split]; assumption].
  destruct (set_slice _ _ _ (_next_state_idxs sc)) as [t5 |] eqn:E5; simpl;
    [| split; [| split]; assumption].
  destruct (channel_tags _ _ _ _ _ _ Hn E5) as [Hn5 T5].
  destruct (set_block_nd _ _ _ _ (_next_state sc)) as [s6 |] eqn:E6; simpl;
    [| split; [| split]; assumption].
  pose proof (channel_rows_nd _ _ _ _ _ _ _ _ Hn5 T5 D1 E6) as Hn6.
  destruct (set_slice _ _ _ (_absorbing sc)) as [r7 |] eqn:E7; simpl;
    (split; [| split]; assumption).
Qed.

(** The invariant gives the padding property in the form of the
    specification. *)
Lemma padded_padding_holds (a : SharedDDPG) : padded a -> padding_holds a.
Proof.
  intros (Hs & Ha & _) r i Htag.
  assert (G : forall dims rows, channel (_batch_size a) dims
                (_state_idxs (scratch a)) rows ->
              forall k row, nth_error dims i = Some k ->
                nth_error rows r = Some row -> zero_beyond k row).
  { intros dims rows Hc k row Hk Hrow. destruct (Hc r row Hrow) as [H1 H2].
    destruct (le_lt_dec (_batch_size a * i) r) as [Hlo |];
      [destruct (le_lt_dec (_batch_size a * i + _batch_size a) r)
         as [| Hhi] |].
    - apply all_zero_skipn, (H2 _ Htag). intros j Hj Heq.
      apply Nat2Z.inj in Heq. subst j. unfold in_block in Hj. lia.
    - apply (H1 i k); [split; assumption | assumption].
    - apply all_zero_skipn, (H2 _ Htag). intros j Hj Heq.
      apply Nat2Z.inj in Heq. subst j. unfold in_block in Hj. lia. }
  split; intros k row Hk Hrow;
    [apply (G _ _ Hs k row Hk Hrow) | apply (G _ _ Ha k row Hk Hrow)].
Qed.

Lemma channel_zero_rows (B : nat) (dims : list nat) (tags : list Z)
  (rows : list (list Q)) :
  (forall row, In row rows -> all_zero row) -> channel B dims tags rows.
Proof.
  intros H r row Hrow. apply nth_error_In in Hrow. split.
  - intros. now apply all_zero_skipn, H.
  - intros. now apply H.
Qed.

Lemma zeros2_rows_zero (n w : nat) row :
  In row (mrows (zeros2 n w)) -> all_zero row.
Proof.
  simpl. intros H. apply repeat_spec in H. subst. apply all_zero_zeros.
Qed.

Lemma squeezed_zeros_rows_zero (n w : nat) row :
  In row (nd_rows (squeezed_zeros n w)) -> all_zero row.
Proof.
  unfold squeezed_zeros. destruct (n =? 1), (w =? 1); simpl; try tauto.
  intros H. apply repeat_spec in H. subst. apply all_zero_zeros.
Qed.

(** [_allocate_memory] establishes the invariant. *)
Lemma allocate_padded (a : SharedDDPG) : padded (_allocate_memory a).
Proof.
  unfold padded, _allocate_memory. simpl.
  split; [| split]; apply channel_zero_rows; intros row;
    (apply squeezed_zeros_rows_zero || apply zeros2_rows_zero).
Qed.

(* ===================================================================== *)
(** * Properties: [fit] as a whole *)
(* ===================================================================== *)

Lemma for_raises {S A} (P : exn -> Prop) (xs : list A)
  (body : A -> M S unit) :
  (forall x s e s', body x s = (Raised e, s') -> P e) ->
  forall s e s', for_ xs body s = (Raised e, s') -> P e.
Proof.
  intros Hb. induction xs as [| x xs IH]; intros s e s'; simpl.
  - discriminate.
  - unfold bind. destruct (body x s) as [[u | e0] s0] eqn:E.
    + apply IH.
    + intros [= <- <-]. eapply Hb, E.
Qed.

Lemma np_zip_raises op a b e : np_zip op a b = Raised e -> e = ValueError.
Proof.
  unfold np_zip. destruct (length a =? length b); [discriminate |].
  destruct a as [| x [| y a]]; destruct b as [| u [| v b]];
    try discriminate; now intros [= <-].
Qed.

Lemma py_get_raises {A} (l : list A) i e :
  py_get l i = Raised e -> e = IndexError.
Proof. unfold py_get. destruct (nth_error l i); [discriminate |]. now intros [= <-]. Qed.

Lemma next_q_game_raises a q i out e out' :
  next_q_game a q i out = (Raised e, out') ->
  e = IndexError \/ e = ValueError.
Proof.
  unfold next_q_game, bind, lift, gets, modify, ret. simpl.
  destruct (py_get (gamma a) i) eqn:E0; simpl.
  - repeat (step_outcomes;
            try match goal with
                | |- context [if np_any ?x then _ else _] =>
                    destruct (np_any x); simpl
                end);
      intros H; try discriminate H; injection H as <- <-;
      repeat match goal with
        | H : set_slice _ _ _ _ = Raised _ |- _ =>
            apply set_slice_raises in H; subst
        | H : np_zip _ _ _ = Raised _ |- _ =>
            apply np_zip_raises in H; subst
        end; auto.
  - intros [= <- <-]. apply py_get_raises in E0. auto.
Qed.

Lemma soft_update_raises tau live target e :
  soft_update tau live target = Raised e ->
  e = ValueError \/ e = ApproximatorError.
Proof.
  unfold soft_update, np_iadd, Network.set_weights.
  destruct (bcast _ _); [| intros [= <-]; now left].
  destruct (_ =? _); [discriminate | intros [= <-]; now right].
Qed.

(** A soft update that returns was made on parameter vectors of the same
    size, and has blended them. *)
Lemma soft_update_returned tau live target t' :
  soft_update tau live target = Returned t' ->
  length (Network.weights live) = length (Network.weights target)
  /\ t' = Network.with_weights
            (map (fun p => (tau * fst p + (1 - tau) * snd p)%Q)
                 (combine (Network.weights live) (Network.weights target)))
            target.
Proof.
  intros H.
  destruct (Nat.eq_dec (length (Network.weights live))
              (length (Network.weights target))) as [E | NE].
  - split; [exact E |]. rewrite (soft_update_returns _ _ _ E) in H.
    now injection H as <-.
  - exfalso. revert H.
    unfold soft_update, np_iadd, bcast, Network.get_weights,
      Network.set_weights.
    rewrite !length_map.
    destruct (Nat.eqb_spec (length (Network.weights target))
                (length (Network.weights live))); [congruence |].
    destruct (Network.weights target) as [| x [| y r]] eqn:Et; simpl;
      try discriminate.
    rewrite length_map, length_combine, length_map, repeat_length,
      Nat.min_id.
    destruct (Nat.eqb_spec (length (Network.weights live)) 1);
      [simpl in *; congruence | discriminate].
Qed.

Lemma padded_same_frame a a' : same_frame a a' -> padded a -> padded a'.
Proof.
  intros (H1 & _ & H3 & H4 & _ & _ & _ & _ & _ & H10). unfold padded.
  now rewrite H1, H3, H4, H10.
Qed.

Lemma next_q_raises a e :
  _next_q a = Raised e -> e = IndexError \/ e = ValueError.
Proof.
  unfold _next_q.
  destruct (for_ _ _ _) as [[u | e0] out] eqn:E; [discriminate |].
  intros [= <-].
  eapply (for_raises (fun e => e = IndexError \/ e = ValueError));
    [| exact E].
  intros x s e s' H. eapply next_q_game_raises, H.
Qed.

(** [learn_step], in closed form: the state and the calls at each of the
    points where it can end. *)
Lemma learn_step_run (a : SharedDDPG) (log : list event) :
  let sc := scratch a in
  let log0 := log ++ forward_calls a in
  learn_step (a, log)
  = match _next_q a with
    | Raised e => (Raised e, (a, log0))
    | Returned q_next =>
        match np_zip Qplus (_reward sc) q_next with
        | Raised e => (Raised e, (a, log0))
        | Returned q =>
            let rc := critic_step (_critic_approximator a) (_state sc)
                        (_action sc) q (_state_idxs sc) in
            let c' := Network.with_weights (fit_weights rc)
                        (_critic_approximator a) in
            let log1 := log0 ++ [EvCriticFit (_state sc) (_action sc) q
                                   (_state_idxs sc)] in
            match rc with
            | FitRaised _ =>
                (Raised ApproximatorError, (with_critic c' a, log1))
            | Fitted _ =>
                let rp := actor_step (_actor_approximator a) c' (_state sc)
                            (_state_idxs sc) in
                let p' := Network.with_weights (fit_weights rp)
                            (_actor_approximator a) in
                let log2 := log1 ++ [EvActorFit (_state sc)
                                       (_state_idxs sc)] in
                match rp with
                | FitRaised _ =>
                    (Raised ApproximatorError,
                     (with_actor p' (with_critic c' a), log2))
                | Fitted _ =>
                    let a3 := with_n_updates (S (_n_updates a))
                                (with_actor p' (with_critic c' a)) in
                    let log3 := log2 ++ [EvUpdateTarget] in
                    match soft_update (_tau a) c'
                            (_target_critic_approximator a) with
                    | Raised e => (Raised e, (a3, log3))
                    | Returned tc =>
                        match soft_update (_tau a) p'
                                (_target_actor_approximator a) with
                        | Raised e =>
                            (Raised e, (with_target_critic tc a3, log3))
                        | Returned tp =>
                            (Returned tt,
                             (with_target_actor tp
                                (with_target_critic tc a3), log3))
                        end
                    end
                end
            end
        end
    end.
Proof.
  intros sc log0. subst log0.
  unfold learn_step, call_next_q, approximator_fit, _update_target, bind,
    read, lift, emit, update, ret, raise, forward_calls.
  simpl. fold sc. rewrite <- !app_assoc. simpl.
  destruct (_next_q a) as [q_next | e]; [| reflexivity]. simpl.
  destruct (np_zip Qplus (_reward sc) q_next) as [q | e]; [| reflexivity].
  simpl. rewrite <- ?app_assoc. simpl.
  destruct (critic_step _ _ _ q _) as [wc | wc]; simpl;
    rewrite <- ?app_assoc; simpl; [| reflexivity].
  destruct (actor_step _ _ _ _) as [wa | wa]; simpl;
    rewrite <- ?app_assoc; simpl; [| reflexivity].
  destruct (soft_update _ _ (_target_critic_approximator a)) as [tc | e];
    [| reflexivity].
  simpl.
  destruct (soft_update _ _ (_target_actor_approximator a)) as [tp | e];
    reflexivity.
Qed.

(** [learn_step] touches the networks and the update counter only; it
    raises benign exceptions only; when it returns it has made its calls
    and incremented the counter by one. *)
Lemma learn_step_effect (w : world) :
  let r := learn_step w in
  same_frame (agent w) (agent (snd r))
  /\ (forall e, fst r = Raised e -> benign e)
  /\ (_n_updates (agent (snd r)) = _n_updates (agent w)
      \/ _n_updates (agent (snd r)) = S (_n_updates (agent w)))
  /\ (fst r = Returned tt ->
      _n_updates (agent (snd r)) = S (_n_updates (agent w))
      /\ exists q,
           calls (snd r)
           = calls w ++ forward_calls (agent w)
             ++ [EvCriticFit (_state (scratch (agent w)))
                   (_action (scratch (agent w))) q
                   (_state_idxs (scratch (agent w)));
                 EvActorFit (_state (scratch (agent w)))
                   (_state_idxs (scratch (agent w)));
                 EvUpdateTarget]
           /\ exists q_next,
                _next_q (agent w) = Returned q_next
                /\ np_zip Qplus (_reward (scratch (agent w))) q_next
                   = Returned q).
Proof.
  destruct w as [a log]. intros r. subst r. rewrite learn_step_run.
  unfold agent, calls. cbv zeta. simpl fst.
  destruct (_next_q a) as [q_next | e] eqn:E1; simpl.
  2: { repeat split; auto; try discriminate.
       intros e' [= <-]. apply next_q_raises in E1.
       unfold benign. tauto. }
  destruct (np_zip Qplus _ q_next) as [q | e] eqn:E2; simpl.
  2: { repeat split; auto; try discriminate.
       intros e' [= <-]. apply np_zip_raises in E2. unfold benign. tauto. }
  destruct (critic_step _ _ _ q _) as [wc | wc] eqn:Ec; simpl.
  2: { repeat split; auto; try discriminate.
       intros e' [= <-]. unfold benign. tauto. }
  destruct (actor_step _ _ _ _) as [wa | wa] eqn:Ea; simpl.
  2: { repeat split; auto; try discriminate.
       intros e' [= <-]. unfold benign. tauto. }
  destruct (soft_update _ _ (_target_critic_approximator a)) as [tc | e]
    eqn:E3; simpl.
  2: { repeat split; auto; try discriminate.
       intros e' [= <-]. apply soft_update_raises in E3.
       unfold benign. tauto. }
  destruct (soft_update _ _ (_target_actor_approximator a)) as [tp | e]
    eqn:E4; simpl.
  2: { repeat split; auto; try discriminate.
       intros e' [= <-]. apply soft_update_raises in E4.
       unfold benign. tauto. }
  repeat split; auto; try discriminate.
  exists q. split; [now rewrite <- !app_assoc |]. exists q_next. auto.
Qed.

(** [fit] is the routing phase followed, when it returned and every
    buffer is initialized, by the update cycle. *)
Lemma fit_run (ds : list Sample) (rnd : nat -> nat -> nat) (w : world) :
  fit ds rnd w
  = match route ds w with
    | (Returned _, w1) =>
        if all_initialized (agent w1) then update_cycle rnd w1
        else (Returned tt, w1)
    | (Raised e, w1) => (Raised e, w1)
    end.
Proof.
  unfold fit, bind, read. destruct (route ds w) as [[u | e] w1]; simpl;
    [| reflexivity].
  unfold agent. destruct (all_initialized (fst w1)); reflexivity.
Qed.

Lemma update_cycle_run (rnd : nat -> nat -> nat) (w : world) :
  update_cycle rnd w
  = match for_ (seq 0 (length (_replay_memory (agent w)))) (assemble rnd) w
    with
    | (Returned _, w2) => learn_step w2
    | (Raised e, w2) => (Raised e, w2)
    end.
Proof.
  unfold update_cycle, bind, read. simpl.
  destruct (for_ _ _ w) as [[u | e] w2]; auto.
Qed.

Lemma get_raises n pick m e :
  ReplayMemoryMulty.get n pick m = Raised e ->
  (e = InsufficientDataError /\ ReplayMemoryMulty.initialized m = false)
  \/ e = ValueError.
Proof.
  unfold ReplayMemoryMulty.get.
  destruct (ReplayMemoryMulty.initialized m); simpl.
  - destruct (ReplayMemoryMulty.stored m); [| discriminate].
    intros [= <-]. now right.
  - intros [= <-]. now left.
Qed.

Lemma get_returned n pick m b :
  ReplayMemoryMulty.get n pick m = Returned b ->
  ReplayMemoryMulty.initialized m = true
  /\ b = ReplayMemoryMulty.to_batch (ReplayMemoryMulty.draw n pick m)
  /\ length (ReplayMemoryMulty.draw n pick m) = n.
Proof.
  unfold ReplayMemoryMulty.get, ReplayMemoryMulty.draw.
  destruct (ReplayMemoryMulty.initialized m); simpl; [| discriminate].
  destruct (ReplayMemoryMulty.stored m) as [| t0 l]; [discriminate |].
  intros [= <-]. repeat split. now rewrite length_map, length_seq.
Qed.

Lemma all_initialized_nth a i m :
  all_initialized a = true -> nth_error (_replay_memory a) i = Some m ->
  ReplayMemoryMulty.initialized m = true.
Proof.
  unfold all_initialized. rewrite forallb_forall. intros H Hm.
  apply H. eapply nth_error_In, Hm.
Qed.

Lemma forallb_is_get_app l1 l2 :
  forallb is_get l1 = true -> forallb is_get l2 = true ->
  forallb is_get (l1 ++ l2) = true.
Proof. intros. rewrite forallb_app. now apply andb_true_intro. Qed.

(** One iteration of the assembling loop, from any state: it changes the
    working arrays only, keeps the padding invariant, makes one [get] call
    at most, and raises benign exceptions only when the buffers are
    initialized. *)
Lemma assemble_effect (rnd : nat -> nat -> nat) (i : nat) (w : world) :
  let r := assemble rnd i w in
  agent (snd r) = with_scratch (scratch (agent (snd r))) (agent w)
  /\ (padded (agent w) -> padded (agent (snd r)))
  /\ (forall e, fst r = Raised e -> all_initialized (agent w) = true ->
                benign e)
  /\ (calls (snd r) = calls w
      \/ calls (snd r) = calls w ++ [EvGet i (_batch_size (agent w))])
  /\ (fst r = Returned tt ->
      calls (snd r) = calls w ++ [EvGet i (_batch_size (agent w))]
      /\ exists m,
           nth_error (_replay_memory (agent w)) i = Some m
           /\ ReplayMemoryMulty.get (_batch_size (agent w)) (rnd i) m
              = Returned (batch_of (agent w) rnd i)
           /\ fill (agent w) i (batch_of (agent w) rnd i)
                (scratch (agent w))
              = (Returned tt, scratch (agent (snd r)))).
Proof.
  destruct w as [a log]. intros r. subst r. rewrite assemble_run.
  unfold agent, calls, py_get, batch_of. simpl.
  destruct (nth_error (_replay_memory a) i) as [m |] eqn:Em; simpl.
  2: { rewrite with_scratch_same.
       split; [reflexivity |]. split; [tauto |]. split; [| split].
       - intros e [= <-] _. unfold benign. auto.
       - now left.
       - discriminate. }
  destruct (ReplayMemoryMulty.get _ (rnd i) m) as [b |] eqn:Eg; simpl.
  2: { rewrite with_scratch_same.
       split; [reflexivity |]. split; [tauto |]. split; [| split].
       - intros e0 [= <-] Hall.
         destruct (get_raises _ _ _ _ Eg) as [[_ Hf] | ->].
         + rewrite (all_initialized_nth _ _ _ Hall Em) in Hf. discriminate.
         + unfold benign. auto.
       - now right.
       - discriminate. }
  destruct (get_returned _ _ _ _ Eg) as (_ & -> & _).
  split; [reflexivity |]. split; [| split; [| split]].
  - intros Hp. apply fill_padded. now rewrite with_scratch_same.
  - intros e He Hall.
    destruct (fill a i _ (scratch a)) as [[u | e0] sc'] eqn:Ef;
      simpl in He; [discriminate |].
    injection He as <-. apply fill_raises in Ef. unfold benign. tauto.
  - right. reflexivity.
  - intros He. split; [reflexivity |]. exists m. repeat split; auto.
    destruct (fill a i _ (scratch a)) as [[[] | e0] sc'] eqn:Ef;
      simpl in *; [reflexivity | discriminate].
Qed.

Lemma scratch_only_trans a0 a1 a2 :
  a1 = with_scratch (scratch a1) a0 ->
  a2 = with_scratch (scratch a2) a1 ->
  a2 = with_scratch (scratch a2) a0.
Proof. intros H1 H2. rewrite H2 at 1. rewrite H1. reflexivity. Qed.

Lemma all_initialized_scratch a0 a1 :
  a1 = with_scratch (scratch a1) a0 ->
  all_initialized a1 = all_initialized a0.
Proof. intros ->. reflexivity. Qed.

(** The assembling loop, from any state. *)
Lemma assemble_loop_effect (rnd : nat -> nat -> nat) (n : nat) (w : world) :
  let r := for_ (seq 0 n) (assemble rnd) w in
  agent (snd r) = with_scratch (scratch (agent (snd r))) (agent w)
  /\ (padded (agent w) -> padded (agent (snd r)))
  /\ (forall e, fst r = Raised e -> all_initialized (agent w) = true ->
                benign e)
  /\ (exists l, calls (snd r) = calls w ++ l /\ forallb is_get l = true)
  /\ (fst r = Returned tt ->
      calls (snd r) = calls w ++ get_calls (_batch_size (agent w)) n).
Proof.
  set (B := _batch_size (agent w)).
  set (Inv := fun (done : list nat) (w' : world) =>
    agent w' = with_scratch (scratch (agent w')) (agent w)
    /\ (padded (agent w) -> padded (agent w'))
    /\ calls w' = calls w ++ map (fun i => EvGet i B) done).
  set (Exc := fun (e : exn) (w' : world) =>
    agent w' = with_scratch (scratch (agent w')) (agent w)
    /\ (padded (agent w) -> padded (agent w'))
    /\ (all_initialized (agent w) = true -> benign e)
    /\ exists l, calls w' = calls w ++ l /\ forallb is_get l = true).
  assert (H : hoare (Inv []) (for_ (seq 0 n) (assemble rnd))
                (fun _ => Inv (seq 0 n)) Exc).
  { apply hoare_for. intros done i rest _ w' (H1 & H2 & H3).
    destruct (assemble_effect rnd i w') as (A1 & A2 & A3 & A4 & A5).
    assert (HB : _batch_size (agent w') = B) by (rewrite H1; reflexivity).
    rewrite HB in A4, A5.
    destruct (assemble rnd i w') as [[[] | e] w2]; simpl in *.
    - split; [eapply scratch_only_trans; eassumption |].
      split; [auto |].
      destruct (A5 eq_refl) as [-> _]. rewrite H3, map_app, <- app_assoc.
      reflexivity.
    - split; [eapply scratch_only_trans; eassumption |].
      split; [auto |]. split.
      + intros Hall. apply (A3 e eq_refl).
        now rewrite (all_initialized_scratch _ _ H1).
      + destruct A4 as [-> | ->]; rewrite H3.
        * eexists. split; [reflexivity |].
          apply forallb_forall. intros x Hx.
          apply in_map_iff in Hx as (j & <- & _). reflexivity.
        * eexists. rewrite <- app_assoc. split; [reflexivity |].
          apply forallb_is_get_app; [| reflexivity].
          apply forallb_forall. intros x Hx.
          apply in_map_iff in Hx as (j & <- & _). reflexivity. }
  specialize (H w). simpl.
  assert (H0 : Inv [] w).
  { unfold Inv. simpl. rewrite with_scratch_same, app_nil_r. auto. }
  specialize (H H0).
  destruct (for_ (seq 0 n) (assemble rnd) w) as [[[] | e] w2]; simpl.
  - destruct H as (H1 & H2 & H3).
    split; [exact H1 |]. split; [exact H2 |]. split; [discriminate |].
    split; [| intros _; exact H3].
    eexists. split; [exact H3 |].
    apply forallb_forall. intros x Hx.
    apply in_map_iff in Hx as (j & <- & _). reflexivity.
  - destruct H as (H1 & H2 & H3 & H4).
    split; [exact H1 |]. split; [exact H2 |].
    split; [intros e' [= <-]; exact H3 |].
    split; [exact H4 | discriminate].
Qed.

(** The update cycle, from any state in which it is entered. *)
Lemma update_cycle_effect (rnd : nat -> nat -> nat) (w : world) :
  let r := update_cycle rnd w in
  let a := agent w in
  _replay_memory (agent (snd r)) = _replay_memory a
  /\ (padded a -> padded (agent (snd r)))
  /\ (forall e, fst r = Raised e -> all_initialized a = true -> benign e)
  /\ (_n_updates (agent (snd r)) = _n_updates a
      \/ _n_updates (agent (snd r)) = S (_n_updates a))
  /\ (fst r = Returned tt ->
      _n_updates (agent (snd r)) = S (_n_updates a)
      /\ exists q,
           calls (snd r)
           = calls w
             ++ get_calls (_batch_size a) (length (_replay_memory a))
             ++ forward_calls (with_scratch (scratch (agent (snd r))) a)
             ++ [EvCriticFit (_state (scratch (agent (snd r))))
                   (_action (scratch (agent (snd r)))) q
                   (_state_idxs (scratch (agent (snd r))));
                 EvActorFit (_state (scratch (agent (snd r))))
                   (_state_idxs (scratch (agent (snd r))));
                 EvUpdateTarget]).
Proof.
  intros r a. subst r. rewrite update_cycle_run. fold a.
  destruct (assemble_loop_effect rnd (length (_replay_memory a)) w)
    as (L1 & L2 & L3 & L4 & L5).
  fold a in L1, L2, L3, L5.
  destruct (for_ _ (assemble rnd) w) as [[[] | e] w2]; simpl in *.
  - destruct (learn_step_effect w2) as (S1 & S2 & S3 & S4).
    destruct S1 as (F1 & F2 & F3 & F4 & F5 & F6 & F7 & F8 & F9 & F10).
    assert (Hn : _n_updates (agent w2) = _n_updates a)
      by (rewrite L1; reflexivity).
    assert (Hrm : _replay_memory (agent w2) = _replay_memory a)
      by (rewrite L1; reflexivity).
    split; [congruence |]. split.
    { intros Hp. eapply padded_same_frame; [| apply L2, Hp].
      repeat split; assumption. }
    split; [intros e He _; now apply S2 |].
    split; [rewrite <- Hn; exact S3 |].
    intros He. destruct (S4 He) as (N1 & q & C1 & _).
    split; [congruence |]. exists q.
    assert (Ef : forward_calls (agent w2)
                 = forward_calls (with_scratch (scratch (agent w2)) a))
      by (rewrite <- L1; reflexivity).
    rewrite C1, (L5 eq_refl), <- app_assoc, Ef, F10. reflexivity.
  - split; [rewrite L1; reflexivity |]. split; [exact L2 |].
    split; [intros e' [= <-]; apply L3; reflexivity |].
    split; [left; rewrite L1; reflexivity | discriminate].
Qed.

(** The effect of one [fit] call, from any state. *)
Lemma fit_effect (ds : list Sample) (rnd : nat -> nat -> nat) (w : world) :
  let r1 := route ds w in
  let r := fit ds rnd w in
  (padded (agent w) -> padded (agent (snd r)))
  /\ (forall e, fst r = Raised e -> benign e)
  /\ _replay_memory (agent (snd r)) = _replay_memory (agent (snd r1))
  /\ (_n_updates (agent (snd r)) = _n_updates (agent w)
      \/ _n_updates (agent (snd r)) = S (_n_updates (agent w))).
Proof.
  intros r1 r. subst r r1. rewrite fit_run, route_run. simpl.
  set (a1 := with_replay_memory _ (agent w)).
  destruct (route_outcome _ ds) as [[] | e0] eqn:Eo; simpl.
  2: { split; [tauto |]. split; [| split; [reflexivity | now left]].
       intros e [= <-]. unfold benign.
       destruct (route_outcome_raises _ _ _ Eo) as [[-> _] | [-> _]]; auto. }
  unfold agent, calls. simpl.
  destruct (all_initialized a1) eqn:Hall; simpl.
  2: { split; [tauto |]. split; [discriminate |].
       split; [reflexivity | now left]. }
  destruct (update_cycle_effect rnd (a1, calls w ++ routing_calls ds
              (length (_replay_memory (agent w)))))
    as (U1 & U2 & U3 & U4 & _).
  unfold agent, calls in *. simpl in *.
  split; [intros Hp; apply U2; exact Hp |].
  split; [intros e He; apply (U3 e He Hall) |].
  split; [exact U1 | exact U4].
Qed.

Lemma set_shared_weights_same_frame (bundle : list (list Q))
  (a : SharedDDPG) :
  same_frame a (snd (set_shared_weights bundle a)).
Proof.
  unfold set_shared_weights, bind, lift, gets, modify, py_get.
  destruct bundle as [| w0 [| w1 rest]]; simpl;
    repeat match goal with
      | |- context [Network.set_shared_weights ?x ?y] =>
          destruct (Network.set_shared_weights x y); simpl
      end; repeat split.
Qed.

(** The padding invariant holds in every reachable state. *)
Lemma reachable_padded (w : world) : reachable w -> padded (agent w).
Proof.
  induction 1 as [a log | w ds rnd Hw IH | w bundle Hw IH | w Hw IH
                  | w Hw IH].
  - apply allocate_padded.
  - now apply fit_effect.
  - apply (padded_same_frame _ _ (set_shared_weights_same_frame _ _) IH).
  - apply (padded_same_frame (agent w)); [repeat split | exact IH].
  - apply (padded_same_frame (agent w)); [repeat split | exact IH].
Qed.

Lemma padded_next_padding_holds (a : SharedDDPG) :
  padded a -> next_padding_holds a.
Proof.
  intros (_ & _ & Hn) r i k row Htag Hk Hrow.
  destruct (Hn r row Hrow) as [H1 H2].
  destruct (le_lt_dec (_batch_size a * i) r) as [Hlo |];
    [destruct (le_lt_dec (_batch_size a * i + _batch_size a) r)
       as [| Hhi] |].
  - apply all_zero_skipn, (H2 _ Htag). intros j Hj Heq.
    apply Nat2Z.inj in Heq. subst j. unfold in_block in Hj. lia.
  - apply (H1 i k); [split; assumption | assumption].
  - apply all_zero_skipn, (H2 _ Htag). intros j Hj Heq.
    apply Nat2Z.inj in Heq. subst j. unfold in_block in Hj. lia.
Qed.

(** C4. Padding invariant: in every state that an agent reaches (its
    working arrays allocated zero-filled by [_allocate_memory], then any
    number of [fit] calls and shared-weight operations, whatever their
    outcome), every row of the combined batch tagged with task id [i] is
    exactly zero in all state entries from column [n_input_per_mdp[i]] on
    and in all action entries from column [n_actions_per_head[i]] on; the
    same holds for the next-state rows under their own tags. *)
Theorem padding_invariant (w : world) :
  reachable w ->
  padding_holds (agent w) /\ next_padding_holds (agent w).
Proof.
  intros Hw. apply reachable_padded in Hw. split.
  - now apply padded_padding_holds.
  - now apply padded_next_padding_holds.
Qed.

(* ===================================================================== *)
(** * Properties: routing by task id (C10, C5) *)
(* ===================================================================== *)







(* ===================================================================== *)
(** * Properties: the layout of the combined batch *)
(* ===================================================================== *)

Lemma shaped_spec (a : SharedDDPG) :
  shaped a = true <->
  let n := _batch_size a * _n_games a in
  let sc := scratch a in
  _n_games a = length (_replay_memory a)
  /\ length (_state_idxs sc) = n
  /\ nd_ok n (obs_width a) (_state sc) = true
  /\ matrix_ok n (_max_actions a) (_action sc) = true
  /\ length (_reward sc) = n
  /\ length (_next_state_idxs sc) = n
  /\ nd_ok n (obs_width a) (_next_state sc) = true
  /\ length (_absorbing sc) = n.
Proof.
  unfold shaped. rewrite !andb_true_iff, !Nat.eqb_eq. tauto.
Qed.

Lemma matrix_ok_spec n w m :
  matrix_ok n w m = true <-> ncols m = w /\ length (mrows m) = n.
Proof. unfold matrix_ok. now rewrite andb_true_iff, !Nat.eqb_eq. Qed.

Lemma block_in_range (B G i : nat) : i < G -> B * i + B <= B * G.
Proof. intros. nia. Qed.

Lemma bcast_exact_inv {A} (n : nat) (v v' : list A) :
  length v = n -> bcast n v = Some v' -> v' = v.
Proof. intros H. rewrite bcast_exact by assumption. now intros [= <-]. Qed.

Lemma firstn_app_exact {A} (v t : list A) : firstn (length v) (v ++ t) = v.
Proof.
  rewrite firstn_app, Nat.sub_diag, firstn_all. simpl. apply app_nil_r.
Qed.

(** A returned block assignment with one source row per target row: the
    row at offset [k] of the block holds the [k]-th source row. *)
Lemma set_block_row_holds (B i k n_dim : nat) V m m' x :
  B * i + B <= length (mrows m) ->
  length V = B ->
  set_block (B * i) (B * i + B) n_dim V m = Returned m' ->
  nth_error V k = Some x ->
  row_holds (Nat.min n_dim (ncols m)) x (mrows m') (B * i + k).
Proof.
  intros Hn HV Hs Hx.
  assert (Hk : k < B) by (rewrite <- HV; eapply nth_error_lt, Hx).
  destruct (set_block_returned _ _ _ _ _ _ Hs) as (_ & Hlen & _ & Hin).
  destruct (nth_error (mrows m') (B * i + k)) as [row' |] eqn:Er.
  2: { apply nth_error_None in Er. lia. }
  destruct (Hin _ _ (conj (Nat.le_add_r _ _) (proj1 (Nat.add_lt_mono_l _ _ _) Hk)) Er)
    as (V1 & x1 & v & old & HV1 & Hx1 & Hv & _ & ->).
  destruct (clip_exact (B * i) (B * i + B) (length (mrows m))) as [E1 E2];
    [lia | lia |].
  rewrite E1 in Hx1. rewrite E1 in HV1.
  replace (Nat.max (B * i) (Nat.min (B * i + B) (length (mrows m))) - B * i)
    with B in HV1 by lia.
  apply bcast_exact_inv in HV1; [| assumption]. subst V1.
  replace (B * i + k - B * i) with k in Hx1 by lia.
  rewrite Hx in Hx1. injection Hx1 as <-.
  exists v, (v ++ skipn (Nat.min n_dim (ncols m)) old).
  split; [assumption |]. split; [exact Er |].
  rewrite <- (bcast_length _ _ _ Hv) at 1. apply firstn_app_exact.
Qed.

Lemma row_holds_outside kk x rows rows' r :
  nth_error rows' r = nth_error rows r ->
  row_holds kk x rows r -> row_holds kk x rows' r.
Proof.
  intros E (v & row & H1 & H2 & H3). exists v, row. now rewrite E.
Qed.

Lemma set_block_nd_inv start stop k V a a' :
  set_block_nd start stop k V a = Returned a' ->
  exists m m', a = Nd2 m /\ a' = Nd2 m'
               /\ set_block start stop k V m = Returned m'.
Proof.
  destruct a as [x | v | m]; simpl; try discriminate.
  destruct (set_block start stop k V m) as [m' |] eqn:E; [| discriminate].
  intros [= <-]. eauto.
Qed.

Lemma nth_error_map_some {A B} (f : A -> B) (l : list A) k x :
  nth_error l k = Some x -> nth_error (map f l) k = Some (f x).
Proof. intros H. now rewrite nth_error_map, H. Qed.

Lemma nth_error_repeat_lt {A} (x : A) (n k : nat) :
  k < n -> nth_error (repeat x n) k = Some x.
Proof.
  revert k. induction n as [| n IH]; intros [| k] H; simpl; try lia; auto.
  apply IH. lia.
Qed.

Lemma other_block (B i j k r : nat) :
  j <> i -> k < B -> r = B * j + k -> ~ (B * i <= r < B * i + B).
Proof.
  intros Hne Hk -> [H1 H2].
  assert (j = i); [| contradiction].
  apply (in_block_unique B j i (B * j + k)); unfold in_block; lia.
Qed.

Lemma block_slice_nth {A} (B G i k : nat) (v a a' : list A) :
  i < G -> length a = B * G -> length v = B ->
  set_slice (B * i) (B * i + B) v a = Returned a' ->
  k < B -> nth_error a' (B * i + k) = nth_error v k.
Proof.
  intros Hi Ha Hv Hs Hk. pose proof (block_in_range B G i Hi).
  apply (set_slice_exact_nth (B * i) (B * i + B) v a a' k); auto; lia.
Qed.

(** One returned iteration of the assembling loop on allocated arrays:
    block [i] holds the drawn transitions, the other blocks are as they
    were, and the shapes are kept. *)
Lemma fill_layout (a : SharedDDPG) (i : nat)
  (ts : list ReplayMemoryMulty.Transition) (sc sc' : Scratch) :
  shaped (with_scratch sc a) = true ->
  i < _n_games a ->
  length ts = _batch_size a ->
  fill a i (ReplayMemoryMulty.to_batch ts) sc = (Returned tt, sc') ->
  shaped (with_scratch sc' a) = true
  /\ is_nd2 (_state sc') = true
  /\ is_nd2 (_next_state sc') = true
  /\ block_filled a i ts sc'
  /\ (forall j ts', j <> i -> block_filled a j ts' sc ->
                    block_filled a j ts' sc').
Proof.
  intros Hsh Hi Hts Hf.
  apply shaped_spec in Hsh. simpl in Hsh.
  destruct Hsh as (S0 & S1 & S2 & S3 & S4 & S5 & S6 & S7).
  apply fill_returned in Hf
    as (n_in & n_act & D1 & D2 & H1 & H2 & H3 & H4 & H5 & H6 & H7).
  simpl in *.
  set (B := _batch_size a) in *. set (G := _n_games a) in *.
  pose proof (block_in_range B G i Hi) as Hr.
  apply set_block_nd_inv in H2 as (m2 & m2' & E2 & E2' & H2).
  apply set_block_nd_inv in H6 as (m6 & m6' & E6 & E6' & H6).
  rewrite E2 in S2. rewrite E6 in S6. simpl in S2, S6.
  apply matrix_ok_spec in S2 as [C2 L2].
  apply matrix_ok_spec in S3 as [C3 L3].
  apply matrix_ok_spec in S6 as [C6 L6].
  destruct (set_block_returned _ _ _ _ _ _ H2) as (C2' & L2' & O2 & _).
  destruct (set_block_returned _ _ _ _ _ _ H3) as (C3' & L3' & O3 & _).
  destruct (set_block_returned _ _ _ _ _ _ H6) as (C6' & L6' & O6 & _).
  split; [| split; [| split; [| split]]].
  - apply shaped_spec. simpl. fold B G.
    rewrite (set_slice_length _ _ _ _ _ H1), (set_slice_length _ _ _ _ _ H4),
      (set_slice_length _ _ _ _ _ H5), (set_slice_length _ _ _ _ _ H7).
    rewrite E2', E6'. simpl.
    repeat split; auto; apply matrix_ok_spec; split; congruence.
  - now rewrite E2'.
  - now rewrite E6'.
  - intros k t Hk Ht. simpl. fold B.
    split; [| split; [| split; [| split]]].
    + rewrite (block_slice_nth B G i k _ _ _ Hi S1 (repeat_length _ _) H1 Hk).
      apply nth_error_repeat_lt. exact Hk.
    + rewrite (block_slice_nth B G i k _ _ _ Hi S5 (repeat_length _ _) H5 Hk).
      apply nth_error_repeat_lt. exact Hk.
    + assert (Lr : length (map ReplayMemoryMulty.reward ts) = B)
        by now rewrite length_map.
      rewrite (block_slice_nth B G i k _ _ _ Hi S4 Lr H4 Hk).
      now apply nth_error_map_some.
    + assert (La : length (map b2q (map ReplayMemoryMulty.absorbing ts)) = B)
        by now rewrite !length_map.
      rewrite (block_slice_nth B G i k _ _ _ Hi S7 La H7 Hk).
      apply nth_error_map_some. now apply nth_error_map_some.
    + exists n_in, n_act. split; [exact D1 |]. split; [exact D2 |].
      rewrite E2', E6'. simpl.
      split; [| split].
      * rewrite <- C2. eapply set_block_row_holds; [| | exact H2 |];
          [lia | now rewrite length_map | now apply nth_error_map_some].
      * rewrite <- C3. eapply set_block_row_holds; [| | exact H3 |];
          [lia | now rewrite length_map | now apply nth_error_map_some].
      * rewrite <- C6. eapply set_block_row_holds; [| | exact H6 |];
          [lia | now rewrite length_map | now apply nth_error_map_some].
  - intros j ts' Hne Hb k t Hk Ht.
    destruct (Hb k t Hk Ht) as (B1 & B2 & B3 & B4 & n1 & n2 & B5 & B6
                                & B7 & B8 & B9).
    simpl in *. fold B in B1, B2, B3, B4, B7, B8, B9 |- *.
    pose proof (other_block B i j k _ Hne Hk eq_refl) as Hout.
    split; [| split; [| split; [| split]]].
    + now rewrite (set_slice_outside _ _ _ _ _ _ H1 Hout).
    + now rewrite (set_slice_outside _ _ _ _ _ _ H5 Hout).
    + now rewrite (set_slice_outside _ _ _ _ _ _ H4 Hout).
    + now rewrite (set_slice_outside _ _ _ _ _ _ H7 Hout).
    + exists n1, n2. split; [exact B5 |]. split; [exact B6 |].
      rewrite E2', E6'. rewrite E2 in B7. rewrite E6 in B9. simpl in *.
      split; [| split].
      * eapply row_holds_outside; [apply (O2 _ Hout) | exact B7].
      * eapply row_holds_outside; [apply (O3 _ Hout) | exact B8].
      * eapply row_holds_outside; [apply (O6 _ Hout) | exact B9].
Qed.

Lemma transition_fits_spec (a : SharedDDPG) (i : nat)
  (t : ReplayMemoryMulty.Transition) :
  transition_fits a i t = true <->
  exists n_in n_act,
    nth_error (_n_input_per_mdp a) i = Some n_in
    /\ nth_error (_n_actions_per_head a) i = Some n_act
    /\ length (ReplayMemoryMulty.state t) = Nat.min n_in (obs_width a)
    /\ length (ReplayMemoryMulty.next_state t) = Nat.min n_in (obs_width a)
    /\ length (ReplayMemoryMulty.action t) = Nat.min n_act (_max_actions a).
Proof.
  unfold transition_fits.
  destruct (nth_error (_n_input_per_mdp a) i) as [n_in |];
    destruct (nth_error (_n_actions_per_head a) i) as [n_act |].
  - rewrite !andb_true_iff, !Nat.eqb_eq. split.
    + intros [[H1 H2] H3]. exists n_in, n_act. auto.
    + intros (n1 & n2 & [= <-] & [= <-] & H1 & H2 & H3). auto.
  - split; [discriminate | intros (n1 & n2 & _ & H & _); discriminate].
  - split; [discriminate | intros (n1 & n2 & H & _); discriminate].
  - split; [discriminate | intros (n1 & n2 & H & _); discriminate].
Qed.

(** On allocated two-dimensional arrays, with the widths of task [i]
    declared and transitions of these widths, one iteration of the
    assembling loop returns. *)
Lemma fill_total (a : SharedDDPG) (i : nat)
  (ts : list ReplayMemoryMulty.Transition) (sc : Scratch) (n_in n_act : nat) :
  shaped (with_scratch sc a) = true ->
  i < _n_games a ->
  length ts = _batch_size a ->
  is_nd2 (_state sc) = true ->
  is_nd2 (_next_state sc) = true ->
  nth_error (_n_input_per_mdp a) i = Some n_in ->
  nth_error (_n_actions_per_head a) i = Some n_act ->
  (forall t, In t ts -> transition_fits a i t = true) ->
  exists sc', fill a i (ReplayMemoryMulty.to_batch ts) sc = (Returned tt, sc').
Proof.
  intros Hsh Hi Hts N2 N6 D1 D2 Hfit.
  apply shaped_spec in Hsh. simpl in Hsh.
  destruct Hsh as (S0 & S1 & S2 & S3 & S4 & S5 & S6 & S7).
  set (B := _batch_size a) in *. set (G := _n_games a) in *.
  pose proof (block_in_range B G i Hi) as Hr.
  destruct (_state sc) as [| | m2] eqn:E2; try discriminate.
  destruct (_next_state sc) as [| | m6] eqn:E6; try discriminate.
  simpl in S2, S6.
  apply matrix_ok_spec in S2 as [C2 L2].
  apply matrix_ok_spec in S3 as [C3 L3].
  apply matrix_ok_spec in S6 as [C6 L6].
  assert (W : forall t, In t ts ->
            length (ReplayMemoryMulty.state t) = Nat.min n_in (obs_width a)
            /\ length (ReplayMemoryMulty.next_state t)
               = Nat.min n_in (obs_width a)
            /\ length (ReplayMemoryMulty.action t)
               = Nat.min n_act (_max_actions a)).
  { intros t Ht. apply Hfit, transition_fits_spec in Ht
      as (n1 & n2 & X1 & X2 & X3 & X4 & X5).
    rewrite D1 in X1. rewrite D2 in X2.
    injection X1 as <-. injection X2 as <-. auto. }
  destruct (set_block_exact (B * i) (B * i + B) n_in
              (map ReplayMemoryMulty.state ts) m2) as [m2' H2];
    [lia | lia | rewrite length_map; lia | |].
  { intros x Hx. apply in_map_iff in Hx as (t & <- & Ht).
    rewrite C2. apply (W t Ht). }
  destruct (set_block_exact (B * i) (B * i + B) n_act
              (map ReplayMemoryMulty.action ts) (_action sc)) as [m3' H3];
    [lia | lia | rewrite length_map; lia | |].
  { intros x Hx. apply in_map_iff in Hx as (t & <- & Ht).
    rewrite C3. apply (W t Ht). }
  destruct (set_block_exact (B * i) (B * i + B) n_in
              (map ReplayMemoryMulty.next_state ts) m6) as [m6' H6];
    [lia | lia | rewrite length_map; lia | |].
  { intros x Hx. apply in_map_iff in Hx as (t & <- & Ht).
    rewrite C6. apply (W t Ht). }
  eexists {| _state_idxs := _; _state := Nd2 m2'; _action := m3';
             _reward := _; _next_state_idxs := _; _next_state := Nd2 m6';
             _absorbing := _ |}.
  apply fill_returned. exists n_in, n_act. simpl. fold B.
  rewrite E2, E6. simpl. rewrite H2, H3, H6.
  split; [exact D1 |]. split; [exact D2 |].
  split; [apply set_slice_exact; rewrite ?repeat_length; lia |].
  split; [reflexivity |]. split; [reflexivity |].
  split; [apply set_slice_exact; rewrite ?length_map; lia |].
  split; [apply set_slice_exact; rewrite ?repeat_length; lia |].
  split; [reflexivity |].
  apply set_slice_exact; rewrite ?length_map; lia.
Qed.

Lemma draw_In n pick m t :
  In t (ReplayMemoryMulty.draw n pick m) ->
  In t (ReplayMemoryMulty.stored m).
Proof.
  unfold ReplayMemoryMulty.draw.
  destruct (ReplayMemoryMulty.stored m) as [| t0 l] eqn:E; [tauto |].
  intros H. apply in_map_iff in H as (k & <- & _).
  apply nth_In. apply Nat.mod_upper_bound. discriminate.
Qed.

Lemma get_total n pick m :
  ReplayMemoryMulty.initialized m = true ->
  ReplayMemoryMulty.stored m <> [] ->
  ReplayMemoryMulty.get n pick m
  = Returned (ReplayMemoryMulty.to_batch (ReplayMemoryMulty.draw n pick m)).
Proof.
  intros Hi Hs. unfold ReplayMemoryMulty.get. rewrite Hi. simpl.
  destruct (ReplayMemoryMulty.stored m); [contradiction | reflexivity].
Qed.

Lemma buffer_fits_spec (a : SharedDDPG) (i : nat) :
  buffer_fits a i = true ->
  exists m,
    nth_error (_replay_memory a) i = Some m
    /\ ReplayMemoryMulty.stored m <> []
    /\ (forall t, In t (ReplayMemoryMulty.stored m) ->
                  transition_fits a i t = true).
Proof.
  unfold buffer_fits.
  destruct (nth_error (_replay_memory a) i) as [m |]; [| discriminate].
  rewrite andb_true_iff, negb_true_iff, Nat.eqb_neq, forallb_forall.
  intros [H1 H2]. exists m. repeat split; auto.
  intros E. rewrite E in H1. now apply H1.
Qed.

Lemma cycle_ready_spec (a : SharedDDPG) :
  cycle_ready a = true <->
  shaped a = true
  /\ is_nd2 (_state (scratch a)) = true
  /\ is_nd2 (_next_state (scratch a)) = true
  /\ _n_games a <= length (gamma a)
  /\ (forall i, i < length (_replay_memory a) -> buffer_fits a i = true)
  /\ length (Network.weights (_critic_approximator a))
     = length (Network.weights (_target_critic_approximator a))
  /\ length (Network.weights (_actor_approximator a))
     = length (Network.weights (_target_actor_approximator a)).
Proof.
  unfold cycle_ready.
  rewrite !andb_true_iff, !Nat.eqb_eq, Nat.leb_le, forallb_forall.
  split.
  - intros [[[[[[H1 H2] H3] H4] H5] H6] H7]. repeat split; auto.
    intros i Hi. apply H5, in_seq. lia.
  - intros (H1 & H2 & H3 & H4 & H5 & H6 & H7). repeat split; auto.
    intros i Hi. apply H5. apply in_seq in Hi. lia.
Qed.

Lemma drawn_length (a : SharedDDPG) (rnd : nat -> nat -> nat) (i : nat) m b :
  nth_error (_replay_memory a) i = Some m ->
  ReplayMemoryMulty.get (_batch_size a) (rnd i) m = Returned b ->
  length (drawn a rnd i) = _batch_size a
  /\ batch_of a rnd i = ReplayMemoryMulty.to_batch (drawn a rnd i).
Proof.
  intros Hm Hg. unfold drawn, batch_of. rewrite Hm.
  destruct (get_returned _ _ _ _ Hg) as (_ & _ & Hl). auto.
Qed.

(** The assembling loop on allocated arrays. When it returns, block [i]
    holds, for every task [i], the transitions drawn from buffer [i];
    under [cycle_ready], with initialized buffers, it does return. *)
Lemma assemble_loop_layout (rnd : nat -> nat -> nat) (w : world) :
  let a := agent w in
  let r := for_ (seq 0 (length (_replay_memory a))) (assemble rnd) w in
  shaped a = true ->
  (fst r = Returned tt ->
   shaped (agent (snd r)) = true
   /\ forall j, j < length (_replay_memory a) ->
        length (drawn a rnd j) = _batch_size a
        /\ block_filled a j (drawn a rnd j) (scratch (agent (snd r))))
  /\ (cycle_ready a = true -> all_initialized a = true ->
      fst r = Returned tt /\ cycle_ready (agent (snd r)) = true).
Proof.
  intros a r Hsh. subst r.
  set (G := length (_replay_memory a)).
  set (Inv := fun (done : list nat) (w' : world) =>
    agent w' = with_scratch (scratch (agent w')) a
    /\ shaped (agent w') = true
    /\ (cycle_ready a = true -> cycle_ready (agent w') = true)
    /\ forall j, In j done ->
         length (drawn a rnd j) = _batch_size a
         /\ block_filled a j (drawn a rnd j) (scratch (agent w'))).
  set (Exc := fun (e : exn) (w' : world) =>
    ~ (cycle_ready a = true /\ all_initialized a = true)).
  assert (HG : _n_games a = G) by (apply shaped_spec in Hsh; tauto).
  assert (H : hoare (Inv []) (for_ (seq 0 G) (assemble rnd))
                (fun _ => Inv (seq 0 G)) Exc).
  { apply hoare_for. intros done i rest Hseq w' (I1 & I2 & I3 & I4).
    assert (Hi : i < G).
    { assert (X : In i (seq 0 G)) by (rewrite Hseq; apply in_elt).
      apply in_seq in X. lia. }
    assert (Hnd : ~ In i done).
    { pose proof (seq_NoDup G 0) as ND. rewrite Hseq in ND.
      apply NoDup_remove_2 in ND. intros X. apply ND.
      apply in_or_app. now left. }
    destruct (assemble_effect rnd i w') as (A1 & _ & _ & _ & A5).
    assert (Erm : _replay_memory (agent w') = _replay_memory a)
      by (rewrite I1; reflexivity).
    assert (EB : _batch_size (agent w') = _batch_size a)
      by (rewrite I1; reflexivity).
    assert (Ebo : batch_of (agent w') rnd i = batch_of a rnd i)
      by (unfold batch_of; now rewrite Erm, EB).
    assert (Efill : forall b sc, fill (agent w') i b sc = fill a i b sc)
      by (intros; rewrite I1; reflexivity).
    destruct (assemble rnd i w') as [[[] | e] w2] eqn:Ea; simpl in *.
    - destruct (A5 eq_refl) as (_ & m & Hm & Hget & Hfill).
      rewrite Erm in Hm. rewrite EB, Ebo in Hget. rewrite Ebo, Efill in Hfill.
      destruct (drawn_length a rnd i m _ Hm Hget) as [Hl Hb].
      rewrite Hb in Hfill.
      assert (Hsh' : shaped (with_scratch (scratch (agent w')) a) = true)
        by (rewrite <- I1; exact I2).
      destruct (fill_layout a i _ _ _ Hsh' ltac:(lia) Hl Hfill)
        as (F1 & F2 & F3 & F4 & F5).
      assert (E2 : agent w2 = with_scratch (scratch (agent w2)) a)
        by (eapply scratch_only_trans; eassumption).
      split; [exact E2 |]. split; [rewrite E2; exact F1 |]. split.
      + intros Hr. specialize (I3 Hr).
        apply cycle_ready_spec in Hr. apply cycle_ready_spec in I3.
        apply cycle_ready_spec. rewrite E2. simpl.
        destruct Hr as (R1 & R2 & R3 & R4 & R5 & R6 & R7).
        repeat split; auto.
      + intros j Hj. apply in_app_or in Hj as [Hj | [<- | []]].
        * destruct (I4 j Hj) as [L Bf]. split; [exact L |].
          apply F5; [| exact Bf]. intros ->. contradiction.
        * split; [exact Hl | exact F4].
    - intros [Hr Hall].
      specialize (I3 Hr). apply cycle_ready_spec in I3.
      destruct I3 as (R1 & R2 & R3 & R4 & R5 & R6 & R7).
      rewrite Erm in R5. fold G in R5.
      destruct (buffer_fits_spec _ _ (R5 i Hi)) as (m & Hm & Hne & Hfit).
      assert (Hinit : ReplayMemoryMulty.initialized m = true).
      { rewrite Erm in Hm.
        apply (all_initialized_nth a i m Hall Hm). }
      pose proof (get_total (_batch_size (agent w')) (rnd i) m Hinit Hne)
        as Hget.
      assert (Hlen : length (ReplayMemoryMulty.draw
                               (_batch_size (agent w')) (rnd i) m)
                     = _batch_size (agent w')).
      { now destruct (get_returned _ _ _ _ Hget) as (_ & _ & ?). }
      assert (Ht0 : exists n_in n_act,
                nth_error (_n_input_per_mdp (agent w')) i = Some n_in
                /\ nth_error (_n_actions_per_head (agent w')) i
                   = Some n_act).
      { destruct (ReplayMemoryMulty.stored m) as [| t0 l] eqn:Est;
          [exfalso; apply Hne; reflexivity |].
        assert (X : transition_fits (agent w') i t0 = true)
          by (apply Hfit; now left).
        apply transition_fits_spec in X as (n_in & n_act & D1 & D2 & _).
        eauto. }
      destruct Ht0 as (n_in & n_act & D1 & D2).
      assert (P1 : shaped (with_scratch (scratch (agent w')) (agent w'))
                   = true) by (now rewrite with_scratch_same).
      assert (P2 : i < _n_games (agent w')) by (rewrite I1; simpl; lia).
      assert (P3 : forall t,
                In t (ReplayMemoryMulty.draw (_batch_size (agent w'))
                        (rnd i) m) ->
                transition_fits (agent w') i t = true)
        by (intros t Ht; eapply Hfit, draw_In, Ht).
      destruct (fill_total (agent w') i _ _ n_in n_act P1 P2 Hlen R2 R3
                  D1 D2 P3) as [sc' Hf].
      destruct w' as [a' log']. rewrite assemble_run in Ea.
      unfold agent, py_get in *. simpl in *.
      rewrite Hm, Hget, Hf in Ea. discriminate. }
  assert (H0 : Inv [] w).
  { unfold Inv. fold a. rewrite with_scratch_same.
    repeat split; auto; contradiction. }
  specialize (H w H0). fold G.
  destruct (for_ (seq 0 G) (assemble rnd) w) as [[[] | e] w2]; simpl.
  - destruct H as (I1 & I2 & I3 & I4). split.
    + intros _. split; [exact I2 |]. intros j Hj. apply I4, in_seq. lia.
    + intros Hr _. split; [reflexivity | now apply I3].
  - split; [discriminate |]. intros Hr Hall. exfalso. apply H. auto.
Qed.

(* ===================================================================== *)
(** * Properties: the bootstrapped target (C2) *)
(* ===================================================================== *)

Lemma slice_length {A} (s e : nat) (a : list A) :
  s <= e -> e <= length a -> length (slice s e a) = e - s.
Proof.
  intros. unfold slice. rewrite length_firstn, length_skipn. lia.
Qed.

Lemma slice_nth {A} (s e k : nat) (a : list A) :
  k < e - s -> nth_error (slice s e a) k = nth_error a (s + k).
Proof.
  intros H. unfold slice. rewrite nth_error_firstn.
  destruct (Nat.ltb_spec k (e - s)); [| lia]. apply nth_error_skipn.
Qed.

Lemma slice_splice {A} (s e : nat) (a v : list A) :
  s <= e -> e <= length a -> length v = e - s ->
  slice s e (firstn s a ++ v ++ skipn e a) = v.
Proof.
  intros H1 H2 H3. unfold slice.
  rewrite skipn_app, length_firstn, Nat.min_l by lia.
  rewrite skipn_all2 by (rewrite length_firstn; lia).
  rewrite Nat.sub_diag. simpl.
  rewrite <- H3. apply firstn_app_exact.
Qed.

Lemma np_zip_exact op (a b : list Q) :
  length a = length b ->
  np_zip op a b = Returned (map (fun p => op (fst p) (snd p)) (combine a b)).
Proof. intros H. unfold np_zip. now rewrite H, Nat.eqb_refl. Qed.

(** One iteration of the loop of [_next_q] on arrays of the allocated
    length: it returns exactly when task [i] has a discount factor, and
    then it has discounted and masked block [i], and only block [i]. *)
Lemma next_q_game_spec (a : SharedDDPG) (q out : list Q) (i : nat) :
  let B := _batch_size a in
  let n := B * _n_games a in
  length out = n -> length q = n ->
  length (_absorbing (scratch a)) = n ->
  i < _n_games a ->
  match next_q_game a q i out with
  | (Returned _, out') =>
      length out' = n
      /\ (forall r, ~ (B * i <= r < B * i + B) ->
            nth_error out' r = nth_error out r)
      /\ discounted a q out' i
  | (Raised e, _) => nth_error (gamma a) i = None
  end.
Proof.
  intros B n Lo Lq La Hi.
  pose proof (block_in_range B (_n_games a) i Hi) as Hr. fold n in Hr.
  unfold next_q_game, bind, lift, gets, modify, ret, py_get. simpl. fold B.
  destruct (nth_error (gamma a) i) as [g |] eqn:Eg; simpl; [| reflexivity].
  set (s := B * i) in *. set (e := s + B) in *.
  set (ab := _absorbing (scratch a)) in *.
  set (v := map (fun x => (x * g)%Q) (slice s e q)).
  assert (Lv : length v = e - s).
  { unfold v. rewrite length_map. apply slice_length; lia. }
  rewrite (set_slice_exact s e v out) by lia. simpl.
  set (out1 := firstn s out ++ v ++ skipn e out).
  assert (L1 : length out1 = n).
  { unfold out1. rewrite splice_length; lia. }
  assert (Hq : forall k, k < B ->
            exists qv abv, nth_error q (s + k) = Some qv
                           /\ nth_error ab (s + k) = Some abv
                           /\ nth_error v k = Some (qv * g)%Q).
  { intros k Hk.
    destruct (nth_error q (s + k)) as [qv |] eqn:E1;
      [| apply nth_error_None in E1; lia].
    destruct (nth_error ab (s + k)) as [abv |] eqn:E2;
      [| apply nth_error_None in E2; lia].
    exists qv, abv. repeat split.
    unfold v. rewrite nth_error_map, slice_nth by lia. now rewrite E1. }
  destruct (np_any (slice s e ab)) eqn:Ea; simpl.
  - assert (Ls : slice s e out1 = v) by (apply slice_splice; lia).
    rewrite Ls.
    set (mask := map (fun x => (1 - x)%Q) (slice s e ab)).
    assert (Lm : length mask = e - s).
    { unfold mask. rewrite length_map. apply slice_length; lia. }
    rewrite (np_zip_exact Qmult v mask) by lia. simpl.
    set (v2 := map (fun p => (fst p * snd p)%Q) (combine v mask)).
    assert (L2 : length v2 = e - s).
    { unfold v2. rewrite length_map, length_combine. lia. }
    rewrite (set_slice_exact s e v2 out1) by lia. simpl.
    split; [rewrite splice_length; lia |]. split.
    + intros r Hout.
      destruct (le_lt_dec s r) as [Hlo |].
      * rewrite splice_nth_hi by lia. unfold out1.
        apply splice_nth_hi; lia.
      * rewrite splice_nth_lo by lia. unfold out1.
        apply splice_nth_lo; lia.
    + intros k Hk. fold B s e ab. rewrite Ea.
      destruct (Hq k Hk) as (qv & abv & Q1 & Q2 & Q3).
      exists qv, g, abv. repeat split; auto.
      rewrite splice_nth_mid by lia.
      replace (s + k - s) with k by lia. unfold v2.
      erewrite nth_error_map_combine; [reflexivity | exact Q3 |].
      unfold mask. rewrite nth_error_map, slice_nth by lia.
      now rewrite Q2.
  - split; [exact L1 |]. split.
    + intros r Hout. unfold out1.
      destruct (le_lt_dec s r) as [Hlo |].
      * apply splice_nth_hi; lia.
      * apply splice_nth_lo; lia.
    + intros k Hk. fold B s e ab. rewrite Ea.
      destruct (Hq k Hk) as (qv & abv & Q1 & Q2 & Q3).
      exists qv, g, abv. repeat split; auto.
      unfold out1. rewrite splice_nth_mid by lia.
      now replace (s + k - s) with k by lia.
Qed.

Lemma discounted_outside (a : SharedDDPG) (q out out' : list Q) (i j : nat) :
  j <> i ->
  (forall r, ~ (_batch_size a * i <= r < _batch_size a * i + _batch_size a) ->
     nth_error out' r = nth_error out r) ->
  discounted a q out j -> discounted a q out' j.
Proof.
  intros Hne Hout Hd k Hk.
  destruct (Hd k Hk) as (qv & g & abv & H1 & H2 & H3 & H4).
  exists qv, g, abv. repeat split; auto.
  rewrite Hout; [exact H4 |].
  eapply other_block; [exact Hne | exact Hk | reflexivity].
Qed.

(** [_next_q] on allocated arrays, with one target value per row: it
    returns exactly when every task has a discount factor, and its result
    is discounted and masked block by block. *)
Lemma next_q_spec (a : SharedDDPG) :
  shaped a = true ->
  length (target_q a) = _batch_size a * _n_games a ->
  match _next_q a with
  | Returned out =>
      length out = _batch_size a * _n_games a
      /\ forall i, i < _n_games a -> discounted a (target_q a) out i
  | Raised e => ~ (_n_games a <= length (gamma a))
  end.
Proof.
  intros Hsh Lq. apply shaped_spec in Hsh.
  destruct Hsh as (_ & _ & _ & _ & _ & _ & _ & La).
  set (n := _batch_size a * _n_games a) in *.
  set (Inv := fun (done : list nat) (out : list Q) =>
    length out = n
    /\ forall i, In i done -> discounted a (target_q a) out i).
  set (Exc := fun (e : exn) (out : list Q) =>
    ~ (_n_games a <= length (gamma a))).
  assert (H : hoare (Inv []) (for_ (seq 0 (_n_games a))
                                (next_q_game a (target_q a)))
                (fun _ => Inv (seq 0 (_n_games a))) Exc).
  { apply hoare_for. intros done i rest Hseq out (I1 & I2).
    assert (Hi : i < _n_games a).
    { assert (X : In i (seq 0 (_n_games a))) by (rewrite Hseq; apply in_elt).
      apply in_seq in X. lia. }
    assert (Hnd : ~ In i done).
    { pose proof (seq_NoDup (_n_games a) 0) as ND. rewrite Hseq in ND.
      apply NoDup_remove_2 in ND. intros X. apply ND.
      apply in_or_app. now left. }
    pose proof (next_q_game_spec a (target_q a) out i I1 Lq La Hi) as Hs.
    destruct (next_q_game a (target_q a) i out) as [[[] | e] out'].
    - destruct Hs as (S1 & S2 & S3). split; [exact S1 |].
      intros j Hj. apply in_app_or in Hj as [Hj | [<- | []]].
      + eapply discounted_outside; [| exact S2 | apply I2, Hj].
        intros ->. contradiction.
      + exact S3.
    - intros Hle. apply nth_error_None in Hs. lia. }
  unfold _next_q. fold n.
  assert (H0 : Inv [] (np_zeros n)).
  { split; [apply repeat_length | intros i []]. }
  specialize (H _ H0).
  destruct (for_ _ _ (np_zeros n)) as [[[] | e] out].
  - destruct H as [H1 H2]. split; [exact H1 |].
    intros i Hi. apply H2, in_seq. lia.
  - exact H.
Qed.

(* ===================================================================== *)
(** * Properties: the update barrier and the update cycle (C1, C9, C2) *)
(* ===================================================================== *)

Lemma target_q_length (a : SharedDDPG) :
  one_value_per_row critic_forward ->
  shaped a = true ->
  length (target_q a) = _batch_size a * _n_games a.
Proof.
  intros Hc Hsh. unfold target_q. rewrite Hc.
  apply shaped_spec in Hsh. tauto.
Qed.

(** A [learn_step] that returns: both [fit] calls returned, the live
    networks hold the weights that they left, the counter was incremented,
    and each target network is the blend of its old weights with the new
    live ones. *)
Lemma learn_step_returned (a : SharedDDPG) (log : list event) :
  let sc := scratch a in
  let tau := _tau a in
  let blend l t :=
    map (fun p => (tau * fst p + (1 - tau) * snd p)%Q) (combine l t) in
  fst (learn_step (a, log)) = Returned tt ->
  exists q_next q wc wa,
    _next_q a = Returned q_next
    /\ np_zip Qplus (_reward sc) q_next = Returned q
    /\ critic_step (_critic_approximator a) (_state sc) (_action sc) q
         (_state_idxs sc) = Fitted wc
    /\ actor_step (_actor_approximator a)
         (Network.with_weights wc (_critic_approximator a))
         (_state sc) (_state_idxs sc) = Fitted wa
    /\ length wc = length (Network.weights (_target_critic_approximator a))
    /\ length wa = length (Network.weights (_target_actor_approximator a))
    /\ learn_step (a, log)
       = (Returned tt,
          (with_target_actor
             (Network.with_weights
                (blend wa (Network.weights (_target_actor_approximator a)))
                (_target_actor_approximator a))
             (with_target_critic
                (Network.with_weights
                   (blend wc
                      (Network.weights (_target_critic_approximator a)))
                   (_target_critic_approximator a))
                (with_n_updates (S (_n_updates a))
                   (with_actor
                      (Network.with_weights wa (_actor_approximator a))
                      (with_critic
                         (Network.with_weights wc (_critic_approximator a))
                         a)))),
           log ++ forward_calls a
             ++ [EvCriticFit (_state sc) (_action sc) q (_state_idxs sc);
                 EvActorFit (_state sc) (_state_idxs sc);
                 EvUpdateTarget])).
Proof.
  intros sc tau blend. subst blend tau.
  pose proof (learn_step_run a log) as Hrun. cbv zeta in Hrun. fold sc in Hrun.
  rewrite Hrun. clear Hrun.
  destruct (_next_q a) as [q_next | e] eqn:E1; [| discriminate].
  destruct (np_zip Qplus (_reward sc) q_next) as [q | e] eqn:E2;
    [| discriminate].
  destruct (critic_step (_critic_approximator a) (_state sc) (_action sc) q
              (_state_idxs sc)) as [wc | wc] eqn:Ec; [| discriminate].
  simpl fit_weights.
  destruct (actor_step (_actor_approximator a)
              (Network.with_weights wc (_critic_approximator a))
              (_state sc) (_state_idxs sc)) as [wa | wa] eqn:Ea;
    [| discriminate].
  simpl fit_weights.
  destruct (soft_update _ _ (_target_critic_approximator a)) as [tc | e]
    eqn:E3; [| discriminate].
  destruct (soft_update _ _ (_target_actor_approximator a)) as [tp | e]
    eqn:E4; [| discriminate].
  intros _.
  apply soft_update_returned in E3 as [L3 ->].
  apply soft_update_returned in E4 as [L4 ->].
  exists q_next, q, wc, wa.
  split; [reflexivity |]. split; [exact E2 |]. split; [exact Ec |].
  split; [exact Ea |]. split; [exact L3 |]. split; [exact L4 |].
  rewrite <- !app_assoc. reflexivity.
Qed.

(** [learn_step] on allocated, assembled arrays. *)
Lemma learn_step_shaped (w : world) :
  let a := agent w in
  let r := learn_step w in
  one_value_per_row critic_forward ->
  shaped a = true ->
  (fst r = Returned tt ->
   exists q out,
     calls (snd r)
     = calls w ++ forward_calls a
       ++ [EvCriticFit (_state (scratch a)) (_action (scratch a)) q
             (_state_idxs (scratch a));
           EvActorFit (_state (scratch a)) (_state_idxs (scratch a));
           EvUpdateTarget]
     /\ _next_q a = Returned out
     /\ (forall i, i < _n_games a -> discounted a (target_q a) out i)
     /\ forall k rw o,
          nth_error (_reward (scratch a)) k = Some rw ->
          nth_error out k = Some o ->
          nth_error q k = Some (rw + o)%Q)
  /\ (critic_step_keeps_size critic_step ->
      actor_step_keeps_size actor_step ->
      critic_step_returns critic_step ->
      actor_step_returns actor_step ->
      cycle_ready a = true -> fst r = Returned tt).
Proof.
  intros a r Hc Hsh. subst r.
  pose proof (target_q_length a Hc Hsh) as Lq.
  pose proof (next_q_spec a Hsh Lq) as Hn.
  assert (Lr : length (_reward (scratch a)) = _batch_size a * _n_games a).
  { apply shaped_spec in Hsh. tauto. }
  split.
  - intros Hret.
    destruct (learn_step_effect w) as (_ & _ & _ & S4).
    destruct (S4 Hret) as (_ & q & C1 & out & E1 & E2).
    fold a in C1, E1, E2. rewrite E1 in Hn. destruct Hn as [Lo Hd].
    exists q, out. split; [exact C1 |]. split; [exact E1 |].
    split; [exact Hd |].
    rewrite np_zip_exact in E2 by lia. injection E2 as <-.
    intros k rw o Hrw Ho.
    now rewrite (nth_error_map_combine _ _ _ k rw o Hrw Ho).
  - intros Hcs Has Hcr Har Hr. apply cycle_ready_spec in Hr.
    destruct Hr as (_ & _ & _ & R4 & _ & R6 & R7).
    destruct w as [a0 log]. unfold agent in a. simpl in a. subst a.
    rewrite learn_step_run.
    destruct (_next_q a0) as [out | e]; [| contradiction].
    destruct Hn as [Lo _].
    rewrite np_zip_exact by lia. cbv zeta.
    match goal with
    | |- context [critic_step ?n ?s ?ac ?q ?idx] =>
        pose proof (Hcr n s ac q idx) as Xc;
        pose proof (Hcs n s ac q idx) as Yc;
        destruct (critic_step n s ac q idx) as [wc | wc];
        [| discriminate Xc]
    end.
    simpl fit_weights in *.
    match goal with
    | |- context [actor_step ?n ?c ?s ?idx] =>
        pose proof (Har n c s idx) as Xa;
        pose proof (Has n c s idx) as Ya;
        destruct (actor_step n c s idx) as [wa | wa];
        [| discriminate Xa]
    end.
    simpl fit_weights in *.
    rewrite soft_update_returns by (simpl; rewrite Yc; exact R6).
    rewrite soft_update_returns by (simpl; rewrite Ya; exact R7).
    reflexivity.
Qed.

(** An update cycle that returns, from any state: the calls that it has
    made, and the agent that it leaves. *)
Lemma update_cycle_returned (rnd : nat -> nat -> nat) (w : world) :
  let a := agent w in
  let r := update_cycle rnd w in
  let sc' := scratch (agent (snd r)) in
  let mid := with_scratch sc' a in
  let tau := _tau a in
  let blend l t :=
    map (fun p => (tau * fst p + (1 - tau) * snd p)%Q) (combine l t) in
  fst r = Returned tt ->
  exists q_next q wc wa,
    _next_q mid = Returned q_next
    /\ np_zip Qplus (_reward sc') q_next = Returned q
    /\ critic_step (_critic_approximator a) (_state sc') (_action sc') q
         (_state_idxs sc') = Fitted wc
    /\ actor_step (_actor_approximator a)
         (Network.with_weights wc (_critic_approximator a))
         (_state sc') (_state_idxs sc') = Fitted wa
    /\ length wc = length (Network.weights (_target_critic_approximator a))
    /\ length wa = length (Network.weights (_target_actor_approximator a))
    /\ calls (snd r)
       = calls w
         ++ get_calls (_batch_size a) (length (_replay_memory a))
         ++ forward_calls mid
         ++ [EvCriticFit (_state sc') (_action sc') q (_state_idxs sc');
             EvActorFit (_state sc') (_state_idxs sc');
             EvUpdateTarget]
    /\ agent (snd r)
       = with_target_actor
           (Network.with_weights
              (blend wa (Network.weights (_target_actor_approximator a)))
              (_target_actor_approximator a))
           (with_target_critic
              (Network.with_weights
                 (blend wc
                    (Network.weights (_target_critic_approximator a)))
                 (_target_critic_approximator a))
              (with_n_updates (S (_n_updates a))
                 (with_actor
                    (Network.with_weights wa (_actor_approximator a))
                    (with_critic
                       (Network.with_weights wc (_critic_approximator a))
                       mid)))).
Proof.
  intros a r sc' mid tau blend. subst blend tau mid sc' r.
  rewrite update_cycle_run. fold a.
  destruct (assemble_loop_effect rnd (length (_replay_memory a)) w)
    as (F1 & _ & _ & _ & F5). fold a in F1, F5.
  destruct (for_ _ (assemble rnd) w) as [[[] | e] [a2 log2]];
    [| discriminate].
  unfold agent, calls in F1, F5. simpl in F1, F5.
  intros Hret.
  destruct (learn_step_returned a2 log2 Hret)
    as (q_next & q & wc & wa & N1 & N2 & N3 & N4 & N5 & N6 & N7).
  rewrite N7. unfold agent, calls. simpl fst. simpl snd.
  assert (Esc : forall x y z u v,
            scratch (with_target_actor x (with_target_critic y
              (with_n_updates z (with_actor u (with_critic v a2)))))
            = scratch a2) by reflexivity.
  rewrite Esc.
  assert (Emid : with_scratch (scratch a2) a = a2)
    by (symmetry; exact F1).
  rewrite Emid.
  assert (En : (_critic_approximator a2 = _critic_approximator a)
               /\ (_actor_approximator a2 = _actor_approximator a)
               /\ (_target_critic_approximator a2
                   = _target_critic_approximator a)
               /\ (_target_actor_approximator a2
                   = _target_actor_approximator a)
               /\ _tau a2 = _tau a /\ _n_updates a2 = _n_updates a).
  { rewrite F1. repeat split; reflexivity. }
  destruct En as (E1 & E2 & E3 & E4 & E5 & E6).
  rewrite E1, E2, E3, E4 in *. rewrite E5, E6.
  exists q_next, q, wc, wa.
  repeat (split; [assumption |]).
  split; [| reflexivity].
  rewrite (F5 eq_refl), <- app_assoc. unfold forward_calls.
  rewrite ?E4. reflexivity.
Qed.

(** The update cycle on allocated arrays. *)
Lemma update_cycle_shaped (rnd : nat -> nat -> nat) (w : world) :
  let a := agent w in
  let r := update_cycle rnd w in
  let a' := agent (snd r) in
  let mid := with_scratch (scratch a') a in
  one_value_per_row critic_forward ->
  shaped a = true ->
  (fst r = Returned tt ->
   shaped a' = true
   /\ (forall i, i < length (_replay_memory a) ->
         length (drawn a rnd i) = _batch_size a
         /\ block_filled a i (drawn a rnd i) (scratch a'))
   /\ exists q out,
        calls (snd r)
        = calls w
          ++ get_calls (_batch_size a) (length (_replay_memory a))
          ++ forward_calls mid
          ++ [EvCriticFit (_state (scratch a')) (_action (scratch a')) q
                (_state_idxs (scratch a'));
              EvActorFit (_state (scratch a')) (_state_idxs (scratch a'));
              EvUpdateTarget]
        /\ _next_q mid = Returned out
        /\ (forall i, i < _n_games a -> discounted mid (target_q mid) out i)
        /\ forall k rw o,
             nth_error (_reward (scratch a')) k = Some rw ->
             nth_error out k = Some o ->
             nth_error q k = Some (rw + o)%Q)
  /\ (critic_step_keeps_size critic_step ->
      actor_step_keeps_size actor_step ->
      critic_step_returns critic_step ->
      actor_step_returns actor_step ->
      cycle_ready a = true -> all_initialized a = true ->
      fst r = Returned tt).
Proof.
  intros a r a' mid Hc Hsh. subst mid a' r. rewrite update_cycle_run. fold a.
  destruct (assemble_loop_layout rnd w Hsh) as [L1 L2]. fold a in L1, L2.
  destruct (assemble_loop_effect rnd (length (_replay_memory a)) w)
    as (F1 & _ & _ & _ & F5). fold a in F1, F5.
  destruct (for_ _ (assemble rnd) w) as [[[] | e] w2]; simpl in *.
  2: { split; [discriminate |]. intros _ _ _ _ Hr Hall.
       now destruct (L2 Hr Hall). }
  destruct (L1 eq_refl) as [Hsh2 Hb].
  destruct (learn_step_shaped w2 Hc Hsh2) as [S1 S2].
  destruct (learn_step_effect w2) as (Fr & _).
  destruct Fr as (_ & _ & _ & _ & _ & _ & _ & _ & _ & Fsc).
  assert (Emid : with_scratch (scratch (agent (snd (learn_step w2)))) a
                 = agent w2).
  { rewrite Fsc. symmetry. exact F1. }
  split.
  - intros Hret. destruct (S1 Hret) as (q & out & C1 & N1 & N2 & N3).
    rewrite Emid. rewrite Fsc. split.
    { apply shaped_spec. apply shaped_spec in Hsh2.
      destruct (learn_step_effect w2) as (Fr & _).
      destruct Fr as (X1 & X2 & X3 & X4 & X5 & X6 & X7 & X8 & X9 & X10).
      rewrite X1, X2, X5, X7, X9, X10. exact Hsh2. }
    split; [exact Hb |].
    exists q, out. split.
    { assert (Eta : _target_actor_approximator (agent w2)
                    = _target_actor_approximator a)
        by (rewrite F1; reflexivity).
      rewrite C1, (F5 eq_refl), <- app_assoc. unfold forward_calls.
      rewrite Eta. reflexivity. }
    split; [exact N1 |]. split; [| exact N3].
    intros i Hi. apply N2. rewrite F1. exact Hi.
  - intros Hcs Has Hcr Har Hr Hall. destruct (L2 Hr Hall) as [_ Hr2].
    now apply S2.
Qed.

Lemma route_shaped (ds : list Sample) (w : world) :
  shaped (agent w) = true -> shaped (agent (snd (route ds w))) = true.
Proof.
  intros H. rewrite route_run. simpl.
  apply shaped_spec in H. apply shaped_spec. simpl.
  now rewrite routed_memory_length.
Qed.

Lemma route_frame (ds : list Sample) (w : world) :
  agent (snd (route ds w))
  = with_replay_memory (_replay_memory (agent (snd (route ds w)))) (agent w).
Proof. rewrite route_run. reflexivity. Qed.

(** With the barrier open, [fit] is the update cycle on the state that the
    routing phase leaves. *)
Lemma fit_open_run (ds : list Sample) (rnd : nat -> nat -> nat) (w : world) :
  fst (route ds w) = Returned tt ->
  all_initialized (agent (snd (route ds w))) = true ->
  fit ds rnd w = update_cycle rnd (snd (route ds w)).
Proof.
  intros Hret Hall. rewrite fit_run.
  destruct (route ds w) as [[[] | e] w1]; simpl in *;
    [now rewrite Hall | discriminate].
Qed.

(** C1. For every dataset and every state: (routing) when the ids of the
    dataset are task ids, the routing phase returns and hands every
    transition to the buffer of its task id, one [add] per task present;
    (barrier closed) when the routing raised or some buffer is not
    initialized after it, [fit] does nothing more: it makes no [get], no
    approximator call, and leaves the four networks and the update counter
    as they were; (barrier open) when every buffer is initialized, [fit]
    runs the update cycle, and a cycle that returns has made, in this
    order, one [get] of [batch_size] transitions per task in task order,
    the forward passes of the target actor and of the target critic on the
    next states, the critic's [fit] on the assembled states and actions
    and the target [q], the actor's [fit] on the assembled states, and the
    target update; afterwards the critic and the actor hold the weights
    that their [fit] calls left, the actor's [fit] having seen the updated
    critic, every parameter of each target network is
    [tau * live + (1 - tau) * old_target] for the new live weights,
    [_n_updates] has grown by exactly one and the buffers are as the
    routing left them; the cycle does return under [cycle_ready] and the
    contracts of the approximator. In no case does [fit] raise
    [InsufficientDataError]: no [get] reaches an uninitialized buffer. *)
Theorem fit_barrier (ds : list Sample) (rnd : nat -> nat -> nat) (w : world) :
  let a := agent w in
  let n := length (_replay_memory a) in
  let r1 := route ds w in
  let w1 := snd r1 in
  let r := fit ds rnd w in
  let a' := agent (snd r) in
  let sc' := scratch a' in
  (valid_task_ids n ds = true ->
   fst r1 = Returned tt
   /\ calls w1 = calls w ++ routing_calls ds n
   /\ forall i m, nth_error (_replay_memory a) i = Some m ->
        nth_error (_replay_memory (agent w1)) i
        = Some (if occurs i ds
                then ReplayMemoryMulty.add (sub_batch ds (Z.of_nat i)) m
                else m))
  /\ (fst r1 <> Returned tt \/ all_initialized (agent w1) = false ->
      r = r1
      /\ calls (snd r) = calls w ++ routing_calls ds n
      /\ forallb is_add (routing_calls ds n) = true
      /\ _n_updates a' = _n_updates a
      /\ _critic_approximator a' = _critic_approximator a
      /\ _actor_approximator a' = _actor_approximator a
      /\ _target_critic_approximator a' = _target_critic_approximator a
      /\ _target_actor_approximator a' = _target_actor_approximator a)
  /\ (fst r1 = Returned tt -> all_initialized (agent w1) = true ->
      r = update_cycle rnd w1
      /\ (fst r = Returned tt ->
          _n_updates a' = S (_n_updates a)
          /\ _replay_memory a' = _replay_memory (agent w1)
          /\ exists q_next q wc wa,
               calls (snd r)
               = calls w1 ++ get_calls (_batch_size a) n
                 ++ [EvTargetActor (_next_state sc') (_next_state_idxs sc');
                     EvTargetCritic (_next_state sc')
                       (actor_forward (_target_actor_approximator a)
                          (_next_state sc') (_next_state_idxs sc'))
                       (_next_state_idxs sc');
                     EvCriticFit (_state sc') (_action sc') q
                       (_state_idxs sc');
                     EvActorFit (_state sc') (_state_idxs sc');
                     EvUpdateTarget]
               /\ _next_q (with_scratch sc' (agent w1)) = Returned q_next
               /\ np_zip Qplus (_reward sc') q_next = Returned q
               /\ critic_step (_critic_approximator a) (_state sc')
                    (_action sc') q (_state_idxs sc') = Fitted wc
               /\ _critic_approximator a'
                  = Network.with_weights wc (_critic_approximator a)
               /\ actor_step (_actor_approximator a)
                    (_critic_approximator a') (_state sc')
                    (_state_idxs sc') = Fitted wa
               /\ _actor_approximator a'
                  = Network.with_weights wa (_actor_approximator a)
               /\ _target_critic_approximator a'
                  = Network.with_weights
                      (Network.weights (_target_critic_approximator a'))
                      (_target_critic_approximator a)
               /\ _target_actor_approximator a'
                  = Network.with_weights
                      (Network.weights (_target_actor_approximator a'))
                      (_target_actor_approximator a)
               /\ soft_updated (_tau a) wc
                    (Network.weights (_target_critic_approximator a))
                    (Network.weights (_target_critic_approximator a'))
               /\ soft_updated (_tau a) wa
                    (Network.weights (_target_actor_approximator a))
                    (Network.weights (_target_actor_approximator a')))
      /\ (one_value_per_row critic_forward ->
          critic_step_keeps_size critic_step ->
          actor_step_keeps_size actor_step ->
          critic_step_returns critic_step ->
          actor_step_returns actor_step ->
          cycle_ready (agent w1) = true -> fst r = Returned tt))
  /\ fst r <> Raised InsufficientDataError
  /\ fst r <> Raised InvalidTaskIdError.
Proof.
  intros a n r1 w1 r a' sc'.
  assert (Hrun : r = match r1 with
                     | (Returned _, w1) =>
                         if all_initialized (agent w1)
                         then update_cycle rnd w1 else (Returned tt, w1)
                     | (Raised e, w1) => (Raised e, w1)
                     end) by apply fit_run.
  assert (Hr1 : r1 = (route_outcome n ds,
                      (with_replay_memory
                         (routed_memory ds (_replay_memory a)) a,
                       calls w ++ routing_calls ds n))) by apply route_run.
  assert (Hadds : forallb is_add (routing_calls ds n) = true).
  { apply forallb_forall. intros x Hx. unfold routing_calls in Hx.
    apply in_map_iff in Hx as (g & <- & _). reflexivity. }
  assert (Hben : forall e, fst r = Raised e -> benign e)
    by (intros e; apply fit_effect).
  split; [| split; [| split; [| split]]].
  - intros Hv. subst w1. rewrite Hr1. simpl.
    rewrite (proj1 (route_all_resolvable _ _ (valid_ids_resolvable _ _ Hv))).
    split; [reflexivity |]. split; [reflexivity |].
    intros i m Hm. now apply routed_memory_valid.
  - intros Hclosed.
    assert (E : r = r1).
    { rewrite Hrun. subst w1. destruct r1 as [[[] | e] w1']; simpl in *.
      - destruct Hclosed as [Hc | Hc]; [contradiction |].
        now rewrite Hc.
      - reflexivity. }
    split; [exact E |]. subst a' sc'. rewrite E, Hr1. simpl.
    repeat (split; [auto |]). reflexivity.
  - intros Hret Hall.
    assert (E : r = update_cycle rnd w1) by (now apply fit_open_run).
    split; [exact E |].
    assert (Ea1 : agent w1
                  = with_replay_memory (routed_memory ds (_replay_memory a))
                      a).
    { subst w1. now rewrite Hr1. }
    assert (EG : length (_replay_memory (agent w1)) = n).
    { rewrite Ea1. simpl. apply routed_memory_length. }
    split.
    + intros Hok. subst a' sc'. rewrite E in Hok |- *.
      destruct (update_cycle_returned rnd w1 Hok)
        as (q_next & q & wc & wa & N1 & N2 & N3 & N4 & N5 & N6 & N7 & N8).
      rewrite EG in N7.
      set (sc := scratch (agent (snd (update_cycle rnd w1)))) in *.
      rewrite N8. rewrite Ea1 in N1, N3, N4, N5, N6, N7 |- *.
      simpl in N3, N4, N5, N6, N7 |- *.
      split; [reflexivity |]. split; [reflexivity |].
      exists q_next, q, wc, wa.
      split; [exact N7 |]. split; [exact N1 |]. split; [exact N2 |].
      split; [exact N3 |]. split; [reflexivity |].
      split; [exact N4 |]. split; [reflexivity |].
      split; [reflexivity |]. split; [reflexivity |].
      split; now apply blend_soft_updated.
    + intros Hc Hcs Has Hcr Har Hready. rewrite E.
      apply update_cycle_shaped; auto.
      apply cycle_ready_spec in Hready. tauto.
  - intros Hx. specialize (Hben _ Hx). unfold benign in Hben.
    destruct Hben as [H | [H | [H | H]]]; discriminate.
  - intros Hx. specialize (Hben _ Hx). unfold benign in Hben.
    destruct Hben as [H | [H | [H | H]]]; discriminate.
Qed.





(* ===================================================================== *)
(** * Properties: edge cases of [fit] *)
(* ===================================================================== *)

Lemma route_empty (w : world) : route [] w = (Returned tt, w).
Proof. reflexivity. Qed.

(** X1. A call of [fit] with an empty dataset adds nothing to any buffer
    and makes no [add] call, but it is not a no-op: when every buffer is
    initialized it runs a full update cycle on the transitions already
    stored, and a cycle that returns has incremented [_n_updates] and left
    the buffers as they were. *)
Theorem fit_empty_dataset (rnd : nat -> nat -> nat) (w : world) :
  route [] w = (Returned tt, w)
  /\ fit [] rnd w
     = (if all_initialized (agent w) then update_cycle rnd w
        else (Returned tt, w))
  /\ (all_initialized (agent w) = true ->
      fst (fit [] rnd w) = Returned tt ->
      _n_updates (agent (snd (fit [] rnd w))) = S (_n_updates (agent w))
      /\ _replay_memory (agent (snd (fit [] rnd w)))
         = _replay_memory (agent w)).
Proof.
  assert (E : fit [] rnd w
              = (if all_initialized (agent w) then update_cycle rnd w
                 else (Returned tt, w))).
  { rewrite fit_run, route_empty. reflexivity. }
  split; [apply route_empty |]. split; [exact E |].
  intros Hall Hret. rewrite E, Hall in *.
  destruct (update_cycle_effect rnd w) as (U1 & _ & _ & _ & U5).
  split; [exact (proj1 (U5 Hret)) | exact U1].
Qed.

Lemma allocate_is_nd2 (a0 : SharedDDPG) :
  is_nd2 (_state (scratch (_allocate_memory a0))) = false
  <-> (_batch_size a0 * _n_games a0 = 1 \/ obs_width a0 = 1).
Proof.
  unfold _allocate_memory. simpl. unfold squeezed_zeros.
  destruct (Nat.eqb_spec (_batch_size a0 * _n_games a0) 1) as [E1 | E1];
    destruct (Nat.eqb_spec (obs_width a0) 1) as [E2 | E2]; simpl;
    split; intros H; auto; try discriminate; destruct H; contradiction.
Qed.

(** X2. [_allocate_memory] squeezes the state array, so the array has
    fewer than two axes exactly when [batch_size * n_games = 1] or the
    observation has a single component. On such an agent every [fit] call
    that reaches the update cycle fails: the first two-index assignment
    [self._state[start:stop, :k] = game_state] raises [IndexError], after
    the [get] on the first buffer, and before any approximator call or
    counter increment. *)
Theorem fit_on_squeezed_state (ds : list Sample) (rnd : nat -> nat -> nat)
  (w : world) (m : ReplayMemoryMulty.t) (k : nat) :
  let a1 := agent (snd (route ds w)) in
  let r := fit ds rnd w in
  shaped (agent w) = true ->
  is_nd2 (_state (scratch (agent w))) = false ->
  fst (route ds w) = Returned tt ->
  all_initialized a1 = true ->
  nth_error (_replay_memory a1) 0 = Some m ->
  ReplayMemoryMulty.stored m <> [] ->
  nth_error (_n_input_per_mdp (agent w)) 0 = Some k ->
  (forall a0, is_nd2 (_state (scratch (_allocate_memory a0))) = false
              <-> (_batch_size a0 * _n_games a0 = 1 \/ obs_width a0 = 1))
  /\ fst r = Raised IndexError
  /\ calls (snd r)
     = calls (snd (route ds w)) ++ [EvGet 0 (_batch_size (agent w))]
  /\ _n_updates (agent (snd r)) = _n_updates (agent w)
  /\ _critic_approximator (agent (snd r)) = _critic_approximator (agent w)
  /\ _actor_approximator (agent (snd r)) = _actor_approximator (agent w).
Proof.
  intros a1 r Hsh Hnd Hret Hall Hm Hst Hk.
  split; [exact allocate_is_nd2 |].
  subst r. rewrite (fit_open_run ds rnd w Hret Hall), update_cycle_run.
  pose proof (route_frame ds w) as Fr.
  pose proof (route_shaped ds w Hsh) as Hsh1.
  fold a1 in Fr, Hsh1 |- *.
  destruct (snd (route ds w)) as [a1' log1] eqn:Ew1.
  unfold agent in a1. simpl in a1. subst a1. simpl agent in *.
  pose proof (all_initialized_nth a1' 0 m Hall Hm) as Hini.
  apply shaped_spec in Hsh1. destruct Hsh1 as (G1 & L1 & _).
  destruct (_replay_memory a1') as [| m0 rest] eqn:Erm; [discriminate |].
  simpl in Hm. injection Hm as ->.
  assert (Esc : scratch a1' = scratch (agent w)) by (rewrite Fr; reflexivity).
  assert (EB : _batch_size a1' = _batch_size (agent w))
    by (rewrite Fr; reflexivity).
  assert (Ed : _n_input_per_mdp a1' = _n_input_per_mdp (agent w))
    by (rewrite Fr; reflexivity).
  assert (Efill : fst (fill a1' 0
                         (ReplayMemoryMulty.to_batch
                            (ReplayMemoryMulty.draw (_batch_size a1')
                               (rnd 0) m))
                         (scratch a1')) = Raised IndexError).
  { unfold fill, bind, lift, sassign, py_get.
    rewrite Nat.mul_0_r. simpl Nat.add.
    rewrite set_slice_exact;
      [| lia | rewrite L1, G1; simpl; nia | rewrite repeat_length; lia].
    rewrite Ed, Hk. simpl. rewrite Esc.
    destruct (_state (scratch (agent w))); [reflexivity | reflexivity |].
    discriminate Hnd. }
  assert (Eloop : exists sc',
             for_ (seq 0 (length (m :: rest))) (assemble rnd) (a1', log1)
             = (Raised IndexError,
                (with_scratch sc' a1',
                 log1 ++ [EvGet 0 (_batch_size a1')]))).
  { simpl length. simpl seq. simpl for_. unfold bind.
    rewrite assemble_run, Erm. unfold py_get. simpl nth_error.
    cbv iota beta. rewrite (get_total _ _ _ Hini Hst).
    destruct (fill a1' 0 _ (scratch a1')) as [o sc'] eqn:Ef.
    simpl in Efill. subst o. simpl. now exists sc'. }
  destruct Eloop as [sc' ->]. simpl.
  rewrite EB. split; [reflexivity |]. split; [reflexivity |].
  rewrite Fr. simpl. auto.
Qed.

Lemma add_keeps_initialized (d : list Sample) (m : ReplayMemoryMulty.t) :
  ReplayMemoryMulty.initialized m = true ->
  ReplayMemoryMulty.initialized (ReplayMemoryMulty.add d m) = true.
Proof. intros H. unfold ReplayMemoryMulty.add. simpl. now rewrite H. Qed.

Lemma update_at_forallb {A} (p : A -> bool) (f : A -> A) (j : nat)
  (l : list A) :
  (forall x, p x = true -> p (f x) = true) ->
  forallb p l = true -> forallb p (update_at j f l) = true.
Proof.
  intros Hf. revert j. induction l as [| x l IH]; intros j H;
    [now destruct j |].
  simpl in H. apply andb_true_iff in H as [Hx Hl].
  destruct j; simpl; apply andb_true_iff; auto.
Qed.

Lemma routed_memory_initialized (ds : list Sample)
  (rm : list ReplayMemoryMulty.t) :
  forallb ReplayMemoryMulty.initialized rm = true ->
  forallb ReplayMemoryMulty.initialized (routed_memory ds rm) = true.
Proof.
  unfold routed_memory.
  generalize (routed_ids (length rm) ds) as games.
  intros games. revert rm.
  induction games as [| g games IH]; intros rm H; [exact H |].
  simpl. apply IH. unfold route_add.
  apply update_at_forallb; [| exact H].
  intros x. apply add_keeps_initialized.
Qed.

(** With the barrier open before the call, it is open after it, and a
    call that returns has made one update. *)
Lemma fit_open_step (ds : list Sample) (rnd : nat -> nat -> nat)
  (w : world) :
  all_initialized (agent w) = true ->
  all_initialized (agent (snd (fit ds rnd w))) = true
  /\ all_initialized (agent (snd (route ds w))) = true
  /\ (fst (fit ds rnd w) = Returned tt ->
      _n_updates (agent (snd (fit ds rnd w))) = S (_n_updates (agent w))).
Proof.
  intros Hall.
  assert (H1 : all_initialized (agent (snd (route ds w))) = true).
  { rewrite route_run. unfold all_initialized. simpl.
    now apply routed_memory_initialized. }
  destruct (fit_effect ds rnd w) as (_ & _ & Erm & _).
  split; [| split; [exact H1 |]].
  - unfold all_initialized in *. now rewrite Erm.
  - intros Hret.
    assert (Hr : fst (route ds w) = Returned tt).
    { rewrite fit_run in Hret.
      destruct (route ds w) as [[[] | e] w1]; [reflexivity |].
      discriminate Hret. }
    rewrite (fit_open_run ds rnd w Hr H1) in *.
    destruct (update_cycle_effect rnd (snd (route ds w)))
      as (_ & _ & _ & _ & U5).
    rewrite (proj1 (U5 Hret)). rewrite route_run. reflexivity.
Qed.

(** X3. The update barrier never closes again. Once every buffer is
    initialized, it stays so after any [fit] call, whatever its outcome
    (the routing only calls [add], and the update cycle does not touch the
    buffers); hence every later [fit] call that returns has run one update
    cycle and incremented [_n_updates] by one. *)
Theorem barrier_stays_open (ds : list Sample) (rnd : nat -> nat -> nat)
  (w : world) :
  all_initialized (agent w) = true ->
  all_initialized (agent (snd (fit ds rnd w))) = true
  /\ all_initialized (agent (snd (route ds w))) = true
  /\ (fst (fit ds rnd w) = Returned tt ->
      _n_updates (agent (snd (fit ds rnd w))) = S (_n_updates (agent w))).
Proof.
  intros Hall. destruct (fit_open_step ds rnd w Hall) as (H1 & H2 & H3).
  split; [exact H1 |]. split; [exact H2 | exact H3].
Qed.

(** X29. The update counter counts the [fit] calls. In a sequence of
    [fit] calls that starts with every buffer initialized and runs to its
    end, every call makes one update: [_n_updates] grows by the number of
    calls, and the barrier is still open at the end. *)
Theorem n_updates_counts_fits
  (steps : list (list Sample * (nat -> nat -> nat))) (w : world) :
  all_initialized (agent w) = true ->
  fst (fits steps w) = Returned tt ->
  _n_updates (agent (snd (fits steps w)))
  = _n_updates (agent w) + length steps
  /\ all_initialized (agent (snd (fits steps w))) = true.
Proof.
  unfold fits. revert w.
  induction steps as [| [ds rnd] steps IH]; intros w Hall Hret.
  - simpl. split; [lia | exact Hall].
  - cbn [for_ fst snd] in Hret |- *. unfold bind in Hret |- *.
    destruct (fit_open_step ds rnd w Hall) as (H1 & _ & H3).
    destruct (fit ds rnd w) as [[[] | e] w1]; [| discriminate Hret].
    simpl in H1, H3. destruct (IH w1 H1 Hret) as [I1 I2].
    split; [| exact I2]. rewrite I1, (H3 eq_refl). simpl. lia.
Qed.

(* ===================================================================== *)
(** * Properties: the order and the completeness of the routing *)
(* ===================================================================== *)

Lemma sorted_ext (l1 l2 : list Z) :
  StronglySorted Z.lt l1 -> StronglySorted Z.lt l2 ->
  (forall x, In x l1 <-> In x l2) -> l1 = l2.
Proof.
  intros S1. revert l2. induction S1 as [| x l1 S1 IH F1]; intros l2 S2 H.
  - destruct l2 as [| y l2]; [reflexivity |].
    destruct (proj2 (H y) (or_introl eq_refl)).
  - destruct S2 as [| y l2 S2 F2].
    + destruct (proj1 (H x) (or_introl eq_refl)).
    + rewrite Forall_forall in F1, F2.
      assert (Exy : x = y).
      { destruct (proj1 (H x) (or_introl eq_refl)) as [E | Hx]; [auto |].
        destruct (proj2 (H y) (or_introl eq_refl)) as [E | Hy]; [auto |].
        specialize (F1 _ Hy). specialize (F2 _ Hx). lia. }
      subst y. f_equal. apply IH; [exact S2 |].
      intros z. split; intros Hz.
      * destruct (proj1 (H z) (or_intror Hz)) as [E | Hz']; [| exact Hz'].
        subst z. specialize (F1 _ Hz). lia.
      * destruct (proj2 (H z) (or_intror Hz)) as [E | Hz']; [| exact Hz'].
        subst z. specialize (F2 _ Hz). lia.
Qed.

Lemma present_sorted (p : nat -> bool) (s n : nat) :
  StronglySorted Z.lt (map Z.of_nat (filter p (seq s n))).
Proof.
  revert s. induction n as [| n IH]; intros s; simpl; [constructor |].
  destruct (p s); simpl; [| apply IH].
  constructor; [apply IH |].
  apply Forall_forall. intros z Hz.
  apply in_map_iff in Hz as (i & <- & Hi).
  apply filter_In in Hi as [Hi _]. apply in_seq in Hi. lia.
Qed.

Lemma tasks_present (n : nat) (ds : list Sample) :
  valid_task_ids n ds = true ->
  np_unique (map task_of ds)
  = map Z.of_nat (filter (fun i => occurs i ds) (seq 0 n)).
Proof.
  intros Hv. apply sorted_ext.
  - apply np_unique_sorted.
  - apply present_sorted.
  - intros x. rewrite np_unique_In. split.
    + intros Hx. pose proof Hx as Hx'.
      apply in_map_iff in Hx as (d & <- & Hd).
      apply valid_task_ids_spec with (d := d) in Hv; [| exact Hd].
      destruct Hv as [Hv _].
      apply in_map_iff. exists (Z.to_nat (task_of d)). split; [lia |].
      apply filter_In. split; [apply in_seq; lia |].
      apply occurs_spec. now rewrite Z2Nat.id by lia.
    + intros Hx. apply in_map_iff in Hx as (i & <- & Hi).
      apply filter_In in Hi as [_ Hi]. now apply occurs_spec.
Qed.

(** X4. The [add] calls of [fit] are made in ascending task order,
    whatever the order of the dataset: with task ids in [0 .. G-1], there
    is exactly one call for each task that has a transition in the dataset,
    tasks taken in increasing order, and the call for task [i] carries the
    transitions of task [i] in dataset order. *)
Theorem routing_in_task_order (ds : list Sample) (w : world) :
  let n := length (_replay_memory (agent w)) in
  valid_task_ids n ds = true ->
  fst (route ds w) = Returned tt
  /\ calls (snd (route ds w))
     = calls w
       ++ map (fun i => EvAdd i (sub_batch ds (Z.of_nat i)))
            (filter (fun i => occurs i ds) (seq 0 n)).
Proof.
  intros n Hv. rewrite route_run. fold n. simpl.
  destruct (route_all_resolvable _ _ (valid_ids_resolvable _ _ Hv))
    as [Eo Ei].
  rewrite Eo. split; [reflexivity |].
  unfold calls. simpl. f_equal. unfold routing_calls. rewrite Ei.
  rewrite (tasks_present _ _ Hv), map_map.
  apply map_ext_in. intros i Hi.
  apply filter_In in Hi as [Hi Ho]. apply in_seq in Hi.
  apply occurs_spec, in_map_iff in Ho as (d & Ed & Hd).
  apply valid_task_ids_spec with (d := d) in Hv; [| exact Hd].
  destruct Hv as [Hr Hf]. rewrite Ed in Hr, Hf.
  unfold position. rewrite (py_index_valid _ _ Hr Hf).
  now rewrite Nat2Z.id.
Qed.

Lemma sub_batch_other (d : Sample) (ds : list Sample) (g : Z) :
  task_of d <> g -> sub_batch (d :: ds) g = sub_batch ds g.
Proof.
  intros H. unfold sub_batch. simpl.
  destruct (Z.eqb_spec (task_of d) g); [contradiction | reflexivity].
Qed.

Lemma flat_map_sub_batch_other (d : Sample) (ds : list Sample)
  (keys : list Z) :
  ~ In (task_of d) keys ->
  flat_map (sub_batch (d :: ds)) keys = flat_map (sub_batch ds) keys.
Proof.
  induction keys as [| g keys IH]; intros H; [reflexivity |].
  cbn [flat_map]. rewrite IH by (intros H'; apply H; now right).
  rewrite sub_batch_other; [reflexivity |].
  intros E. apply H. now left.
Qed.

Lemma sub_batches_partition (ds : list Sample) (keys : list Z) :
  NoDup keys -> (forall d, In d ds -> In (task_of d) keys) ->
  Permutation (flat_map (sub_batch ds) keys) ds.
Proof.
  intros Hnd. induction ds as [| d ds IH]; intros Hin.
  - replace (flat_map (sub_batch []) keys) with (@nil Sample);
      [constructor |].
    clear. induction keys; simpl; auto.
  - destruct (in_split _ _ (Hin d (or_introl eq_refl))) as (k1 & k2 & E).
    subst keys. destruct (NoDup_remove _ _ _ Hnd) as [_ Hnot].
    assert (H1 : ~ In (task_of d) k1)
      by (intros H; apply Hnot, in_or_app; auto).
    assert (H2 : ~ In (task_of d) k2)
      by (intros H; apply Hnot, in_or_app; auto).
    assert (IH' : Permutation
                    (flat_map (sub_batch ds) (k1 ++ task_of d :: k2)) ds).
    { apply IH. intros d' Hd'. apply Hin. now right. }
    rewrite flat_map_app in IH' |- *. simpl in IH' |- *.
    rewrite (flat_map_sub_batch_other d ds k1 H1).
    rewrite (flat_map_sub_batch_other d ds k2 H2).
    unfold sub_batch at 2. simpl. rewrite Z.eqb_refl.
    fold (sub_batch ds (task_of d)).
    rewrite <- app_comm_cons.
    apply Permutation_sym, Permutation_cons_app, Permutation_sym.
    exact IH'.
Qed.

(** X5. The routing neither loses nor duplicates a transition: when every
    task id of the dataset selects a buffer, the transitions carried by
    the [add] calls of a [fit] call are, taken together, a permutation of
    the dataset. *)
Theorem routing_partitions_dataset (ds : list Sample) (w : world) :
  let n := length (_replay_memory (agent w)) in
  has_unindexable_id n ds = false ->
  calls (snd (route ds w)) = calls w ++ routing_calls ds n
  /\ Permutation (flat_map added (routing_calls ds n)) ds.
Proof.
  intros n Hok. split; [rewrite route_run; reflexivity |].
  assert (Hres : forallb (resolvable n) (np_unique (map task_of ds)) = true)
    by (rewrite forallb_resolvable_unique, Hok; reflexivity).
  unfold routing_calls. rewrite (proj2 (route_all_resolvable _ _ Hres)).
  rewrite flat_map_concat_map, map_map. simpl.
  rewrite <- flat_map_concat_map.
  apply sub_batches_partition; [apply np_unique_NoDup |].
  intros d Hd. apply np_unique_In. now apply in_map.
Qed.

(* ===================================================================== *)
(** * Properties: a failing target update *)
(* ===================================================================== *)

(** X7. [_update_target] is not atomic and checks sizes only through
    numpy's broadcasting. When the target critic has neither as many
    parameters as the live critic nor a single one, the in-place addition
    raises [ValueError] and nothing has changed; when the critic pair
    matches but the actor pair does not, the target critic has already
    been updated when the [ValueError] is raised. *)
Theorem update_target_size_mismatch (w : world) :
  let a := agent w in
  let c := Network.weights (_critic_approximator a) in
  let tc := Network.weights (_target_critic_approximator a) in
  let p := Network.weights (_actor_approximator a) in
  let tp := Network.weights (_target_actor_approximator a) in
  (length tc <> length c -> length tc <> 1 ->
   _update_target w = (Raised ValueError, w))
  /\ (length c = length tc -> length tp <> length p -> length tp <> 1 ->
      exists tc',
        _update_target w
        = (Raised ValueError,
           (with_target_critic
              (Network.with_weights tc' (_target_critic_approximator a)) a,
            calls w))
        /\ soft_updated (_tau a) c tc tc').
Proof.
  intros a c tc p tp.
  assert (Hraise : forall tau live target,
             length (Network.weights target)
             <> length (Network.weights live) ->
             length (Network.weights target) <> 1 ->
             soft_update tau live target = Raised ValueError).
  { intros tau live target H1 H2.
    unfold soft_update, np_iadd, bcast, Network.get_weights.
    rewrite !length_map.
    destruct (Nat.eqb_spec (length (Network.weights target))
                (length (Network.weights live))) as [E | _];
      [contradiction |].
    destruct (Network.weights target) as [| x [| y rest]]; simpl in *;
      [reflexivity | contradiction | reflexivity]. }
  split.
  - intros H1 H2. unfold _update_target, bind, read, lift, update. simpl.
    fold a. rewrite (Hraise _ _ _ H1 H2). now destruct w.
  - intros Hc H1 H2.
    exists (map (fun q => (_tau a * fst q + (1 - _tau a) * snd q)%Q)
              (combine c tc)).
    split; [| now apply blend_soft_updated].
    unfold _update_target, bind, read, lift, update. simpl. fold a.
    rewrite (soft_update_returns _ _ _ Hc). simpl.
    rewrite (Hraise _ _ _ H1 H2). reflexivity.
Qed.

(* ===================================================================== *)
(** * Properties: [_next_q] beyond the update cycle *)
(* ===================================================================== *)

Lemma np_any_false (l : list Q) (k : nat) (x : Q) :
  np_any l = false -> nth_error l k = Some x -> (x == 0)%Q.
Proof.
  unfold np_any. revert k. induction l as [| y l IH]; intros [| k] H Hk;
    simpl in *; try discriminate.
  - injection Hk as ->. apply orb_false_iff in H as [H _].
    apply negb_false_iff in H. now apply Qeq_bool_iff.
  - apply orb_false_iff in H as [_ H]. now apply (IH k).
Qed.

(** X8. The test [np.any(absorbing[start:stop])] of [_next_q] is an
    optimisation only: with or without an absorbing row in the block,
    every entry of the result is
    [q * gamma_i * (1 - absorbing)] for its own row. On allocated arrays,
    with one discount factor per task, [_next_q] returns an array of
    [batch_size * n_games] such entries. *)
Theorem next_q_mask_uniform (a : SharedDDPG) :
  let B := _batch_size a in
  one_value_per_row critic_forward ->
  shaped a = true ->
  _n_games a <= length (gamma a) ->
  exists out,
    _next_q a = Returned out
    /\ length out = B * _n_games a
    /\ forall i k, i < _n_games a -> k < B ->
         exists qv g abv o,
           nth_error (target_q a) (B * i + k) = Some qv
           /\ nth_error (gamma a) i = Some g
           /\ nth_error (_absorbing (scratch a)) (B * i + k) = Some abv
           /\ nth_error out (B * i + k) = Some o
           /\ (o == qv * g * (1 - abv))%Q.
Proof.
  intros B Hc Hsh Hg.
  pose proof (next_q_spec a Hsh (target_q_length a Hc Hsh)) as H.
  destruct (_next_q a) as [out | e]; [| contradiction].
  destruct H as [L H]. exists out. split; [reflexivity |].
  split; [exact L |]. intros i k Hi Hk.
  destruct (H i Hi k Hk) as (qv & g & abv & H1 & H2 & H3 & H4).
  fold B in H1, H3, H4.
  destruct (np_any (slice (B * i) (B * i + B) (_absorbing (scratch a))))
    eqn:Eany.
  - exists qv, g, abv, (qv * g * (1 - abv))%Q.
    split; [exact H1 |]. split; [exact H2 |]. split; [exact H3 |].
    split; [exact H4 | reflexivity].
  - exists qv, g, abv, (qv * g)%Q.
    split; [exact H1 |]. split; [exact H2 |]. split; [exact H3 |].
    split; [exact H4 |].
    assert (E0 : (abv == 0)%Q).
    { apply (np_any_false _ k _ Eany). rewrite slice_nth by lia. exact H3. }
    rewrite E0. ring.
Qed.

Lemma next_q_game_no_gamma (a : SharedDDPG) (q out : list Q) (i : nat) :
  nth_error (gamma a) i = None ->
  next_q_game a q i out = (Raised IndexError, out).
Proof.
  intros H. unfold next_q_game, bind, lift, py_get. now rewrite H.
Qed.

Lemma next_q_prefix (a : SharedDDPG) (q : list Q) (n s : nat)
  (out : list Q) :
  length out = _batch_size a * _n_games a ->
  length q = _batch_size a * _n_games a ->
  length (_absorbing (scratch a)) = _batch_size a * _n_games a ->
  s + n <= length (gamma a) -> s + n <= _n_games a ->
  exists out',
    for_ (seq s n) (next_q_game a q) out = (Returned tt, out')
    /\ length out' = _batch_size a * _n_games a.
Proof.
  intros Lo Lq La. revert s out Lo.
  induction n as [| n IH]; intros s out Lo Hg HG.
  - exists out. split; [reflexivity | exact Lo].
  - cbn [seq for_]. unfold bind.
    pose proof (next_q_game_spec a q out s Lo Lq La ltac:(lia)) as Hs.
    destruct (next_q_game a q s out) as [[[] | e] out1].
    + destruct Hs as (L1 & _). apply IH; [exact L1 | lia | lia].
    + assert (s < length (gamma a)) by lia.
      apply nth_error_None in Hs. lia.
Qed.

Lemma for_app {S A} (xs ys : list A) (body : A -> M S unit) (s : S) :
  for_ (xs ++ ys) body s
  = match for_ xs body s with
    | (Returned _, s') => for_ ys body s'
    | (Raised e, s') => (Raised e, s')
    end.
Proof.
  revert s. induction xs as [| x xs IH]; intros s; simpl; [reflexivity |].
  unfold bind. destruct (body x s) as [[[] | e] s1]; [apply IH | reflexivity].
Qed.

(** X9. [_next_q] reads one discount factor per task from
    [mdp_info.gamma]: on allocated arrays, when [gamma] holds fewer
    entries than there are tasks, [_next_q] raises [IndexError] (at the
    first task that has none), and so does the update cycle of [fit]: the
    buffers were sampled and the two forward passes of the target networks
    were made, but no [fit] call on an approximator and no target update;
    the agent is exactly as it was when the cycle reached [_next_q]. *)
Theorem next_q_short_gamma (a : SharedDDPG) :
  let sc := scratch a in
  one_value_per_row critic_forward ->
  shaped a = true ->
  length (gamma a) < _n_games a ->
  _next_q a = Raised IndexError
  /\ forall log,
       learn_step (a, log)
       = (Raised IndexError,
          (a, log ++ [EvTargetActor (_next_state sc) (_next_state_idxs sc);
                      EvTargetCritic (_next_state sc)
                        (actor_forward (_target_actor_approximator a)
                           (_next_state sc) (_next_state_idxs sc))
                        (_next_state_idxs sc)])).
Proof.
  intros sc Hc Hsh Hg.
  assert (E : _next_q a = Raised IndexError).
  { unfold _next_q.
    pose proof (target_q_length a Hc Hsh) as Lq.
    assert (La : length (_absorbing (scratch a))
                 = _batch_size a * _n_games a)
      by (apply shaped_spec in Hsh; tauto).
    assert (Eseq : seq 0 (_n_games a)
                   = seq 0 (length (gamma a))
                     ++ seq (length (gamma a))
                          (_n_games a - length (gamma a))).
    { rewrite <- seq_app. f_equal. lia. }
    rewrite Eseq, for_app.
    destruct (next_q_prefix a (target_q a) (length (gamma a)) 0
                (np_zeros (_batch_size a * _n_games a)))
      as (out' & -> & _); auto; try lia.
    { unfold np_zeros. now rewrite repeat_length. }
    destruct (_n_games a - length (gamma a)) as [| d] eqn:Ed; [lia |].
    cbn [seq for_]. unfold bind.
    rewrite next_q_game_no_gamma; [reflexivity |].
    apply nth_error_None. lia. }
  split; [exact E |]. intros log. rewrite learn_step_run, E. reflexivity.
Qed.

(* ===================================================================== *)
(** * Properties: importing a short or a mismatched weight bundle *)
(* ===================================================================== *)

(** X10. [set_shared_weights] reads exactly [weights[0]] and
    [weights[1]] and is not atomic. An empty list raises [IndexError] and
    changes nothing; a one-element list whose element the critic accepts
    raises [IndexError] after the critic has been overwritten; a bundle
    that the critic accepts and the actor rejects leaves the critic
    overwritten and the actor as it was; elements beyond the second are
    ignored. *)
Theorem set_shared_weights_partial (a : SharedDDPG) (w0 w1 : list Q)
  (rest : list (list Q)) :
  set_shared_weights [] a = (Raised IndexError, a)
  /\ (forall c,
        Network.set_shared_weights w0 (_critic_approximator a) = Returned c ->
        set_shared_weights [w0] a = (Raised IndexError, with_critic c a))
  /\ (forall e,
        Network.set_shared_weights w0 (_critic_approximator a) = Raised e ->
        set_shared_weights (w0 :: w1 :: rest) a = (Raised e, a))
  /\ (forall c e,
        Network.set_shared_weights w0 (_critic_approximator a) = Returned c ->
        Network.set_shared_weights w1 (_actor_approximator a) = Raised e ->
        set_shared_weights (w0 :: w1 :: rest) a
        = (Raised e, with_critic c a))
  /\ set_shared_weights (w0 :: w1 :: rest) a = set_shared_weights [w0; w1] a.
Proof.
  unfold set_shared_weights, bind, lift, gets, modify, py_get. simpl.
  split; [reflexivity |]. split; [intros c ->; reflexivity |].
  split; [intros e ->; reflexivity |].
  split; [| reflexivity].
  intros c e -> H. simpl. now rewrite H.
Qed.

(* ===================================================================== *)
(** * Properties: construction and reloading of the agent *)
(* ===================================================================== *)

Lemma allocate_shaped (a : SharedDDPG) :
  _n_games a = length (_replay_memory a) ->
  shaped (_allocate_memory a) = true.
Proof.
  intros HG. apply shaped_spec. unfold _allocate_memory. simpl.
  unfold np_zeros. rewrite !repeat_length.
  assert (Hnd : forall n w, nd_ok n w (squeezed_zeros n w) = true).
  { intros n w. unfold squeezed_zeros.
    destruct (n =? 1), (w =? 1); try reflexivity.
    apply matrix_ok_spec. simpl. now rewrite repeat_length. }
  repeat split; auto.
  apply matrix_ok_spec. simpl. now rewrite repeat_length.
Qed.

(** X11. A constructed agent. When [n_actions_per_head] is not empty and
    each target network is built with as many parameters as its live
    network, [__init__] returns an agent whose live networks are the ones
    built, whose target networks hold exactly the weights of the live
    ones, whose update counter is 0, with one empty replay buffer per game
    and zero-filled working arrays of [batch_size * n_games] rows, which
    satisfy the padding invariant. *)
Theorem init_fresh_agent (args : Init.Args) :
  Init.n_actions_per_head args <> [] ->
  length (Network.weights (Init.actor args))
  = length (Network.weights (Init.target_actor args)) ->
  length (Network.weights (Init.critic args))
  = length (Network.weights (Init.target_critic args)) ->
  exists a,
    __init__ args = Returned a
    /\ _critic_approximator a = Init.critic args
    /\ _actor_approximator a = Init.actor args
    /\ Network.weights (_target_critic_approximator a)
       = Network.weights (Init.critic args)
    /\ Network.weights (_target_actor_approximator a)
       = Network.weights (Init.actor args)
    /\ _n_updates a = 0
    /\ length (_replay_memory a) = Init.n_games args
    /\ (forall m, In m (_replay_memory a) -> ReplayMemoryMulty.stored m = [])
    /\ shaped a = true
    /\ padded a.
Proof.
  intros Hh Ha Hc. unfold __init__.
  destruct (Init.n_actions_per_head args) as [| h0 heads] eqn:Eh;
    [contradiction |].
  cbn [py_max]. unfold Network.set_weights, Network.get_weights.
  rewrite Ha, Hc, !Nat.eqb_refl.
  eexists. split; [reflexivity |].
  split; [reflexivity |]. split; [reflexivity |].
  split; [reflexivity |]. split; [reflexivity |]. split; [reflexivity |].
  split; [simpl; apply repeat_length |].
  split; [simpl; intros m Hm; apply repeat_spec in Hm; now subst m |].
  split; [apply allocate_shaped; simpl; now rewrite repeat_length |].
  apply allocate_padded.
Qed.

Lemma shape_lt_fst (s t : shape) :
  (shape_lt s t = true -> fst s <= fst t)
  /\ (shape_lt s t = false -> fst t <= fst s).
Proof.
  unfold shape_lt. cbn [tuple_lt].
  destruct (Nat.ltb_spec (fst s) (fst t)) as [H | H]; simpl.
  - split; [lia | discriminate].
  - destruct (Nat.eqb_spec (fst s) (fst t)) as [E | E]; simpl.
    + split; lia.
    + split; [discriminate | lia].
Qed.

Lemma max_from_spec (best : shape) (l : list shape) :
  In (max_from best l) (best :: l)
  /\ forall s, In s (best :: l) -> fst s <= fst (max_from best l).
Proof.
  revert best. induction l as [| item l IH]; intros best.
  - simpl. split; [now left |]. intros s [<- | []]. lia.
  - cbn [max_from].
    destruct (IH (if shape_lt best item then item else best)) as [I1 I2].
    destruct (shape_lt_fst best item) as [Lt Ge].
    destruct (shape_lt best item) eqn:E.
    + split.
      * destruct I1 as [<- | I1]; [right; now left | right; now right].
      * intros s [<- | [<- | Hs]].
        -- specialize (I2 item (or_introl eq_refl)). specialize (Lt eq_refl).
           lia.
        -- apply I2. now left.
        -- apply I2. now right.
    + split.
      * destruct I1 as [<- | I1]; [now left | right; now right].
      * intros s [<- | [<- | Hs]].
        -- apply I2. now left.
        -- specialize (I2 best (or_introl eq_refl)). specialize (Ge eq_refl).
           lia.
        -- apply I2. now right.
Qed.

(** X12. The widths of a constructed agent fit its arrays.
    [max(n_actions_per_head)[0]] compares the shape tuples
    lexicographically, and yet [_max_actions] is the largest first
    component: every head's action count is at most [_max_actions], which
    is itself the count of some head, so that no column slice
    [:n_actions_per_head[i][0]] of the action array is clipped. Without
    [n_input_per_mdp], every task gets the observation width of
    [mdp_info]. An empty [n_actions_per_head] makes the construction fail
    with [ValueError]. *)
Theorem init_widths_fit (args : Init.Args) (a : SharedDDPG) :
  __init__ args = Returned a ->
  (forall i n, nth_error (_n_actions_per_head a) i = Some n ->
               n <= _max_actions a /\ Nat.min n (_max_actions a) = n)
  /\ In (_max_actions a) (_n_actions_per_head a)
  /\ (Init.n_input_per_mdp args = None ->
      _n_input_per_mdp a = repeat (obs_width a) (_n_games a))
  /\ (forall args', Init.n_actions_per_head args' = [] ->
                    __init__ args' = Raised ValueError).
Proof.
  intros H. unfold __init__ in H.
  destruct (Init.n_actions_per_head args) as [| h0 heads] eqn:Eh;
    [discriminate |].
  cbn [py_max] in H.
  destruct (Network.set_weights _ (Init.target_actor args)) as [ta | e];
    [| discriminate].
  destruct (Network.set_weights _ (Init.target_critic args)) as [tc | e];
    [| discriminate].
  injection H as <-. simpl.
  destruct (max_from_spec h0 heads) as [M1 M2].
  split; [| split; [| split]].
  - intros i n Hn.
    assert (n <= fst (max_from h0 heads)); [| lia].
    destruct i as [| i]; simpl in Hn.
    + injection Hn as <-. apply M2. now left.
    + apply nth_error_In, in_map_iff in Hn as (s & <- & Hs).
      apply M2. now right.
  - destruct M1 as [<- | M1]; [now left |].
    right. now apply in_map.
  - intros ->. rewrite map_repeat. reflexivity.
  - intros args' E. unfold __init__. now rewrite E.
Qed.

(** X13. [_post_load] rebuilds the working arrays from the configuration
    alone: whatever the arrays held before (they are not saved with the
    agent), the reloaded agent has the zero-filled arrays of a new one,
    which satisfy the padding invariant, while the buffers, the update
    counter, the critic and both target networks are kept and the actor is
    the policy's approximator. *)
Theorem post_load_reallocates (p : Network.t) (a : SharedDDPG)
  (sc : Scratch) :
  let a' := _post_load p a in
  scratch (_post_load p (with_scratch sc a)) = scratch a'
  /\ scratch a' = scratch (_allocate_memory a)
  /\ _actor_approximator a' = p
  /\ _critic_approximator a' = _critic_approximator a
  /\ _target_critic_approximator a' = _target_critic_approximator a
  /\ _target_actor_approximator a' = _target_actor_approximator a
  /\ _replay_memory a' = _replay_memory a
  /\ _n_updates a' = _n_updates a
  /\ padding_holds a' /\ next_padding_holds a'
  /\ (_n_games a = length (_replay_memory a) -> shaped a' = true).
Proof.
  intros a'. subst a'. unfold _post_load.
  repeat (split; [reflexivity |]).
  split; [apply padded_padding_holds, allocate_padded |].
  split; [apply padded_next_padding_holds, allocate_padded |].
  intros HG. now apply allocate_shaped.
Qed.

(* ===================================================================== *)
(** * Properties: the loss of the actor *)
(* ===================================================================== *)

Lemma sum_nonneg (l : list Q) :
  (forall x, In x l -> (0 <= x)%Q) -> (0 <= fold_right Qplus 0 l)%Q.
Proof.
  induction l as [| x l IH]; intros H; simpl; [lra |].
  specialize (IH (fun y Hy => H y (or_intror Hy))).
  pose proof (H x (or_introl eq_refl)). lra.
Qed.

Lemma sum_nonpos (l : list Q) :
  (forall x, In x l -> (x <= 0)%Q) -> (fold_right Qplus 0 l <= 0)%Q.
Proof.
  induction l as [| x l IH]; intros H; simpl; [lra |].
  specialize (IH (fun y Hy => H y (or_intror Hy))).
  pose proof (H x (or_introl eq_refl)). lra.
Qed.

(** X14. The loss that the actor minimises is the negated mean of the
    values that the critic gives to the actor's own actions, so its sign
    is opposite to theirs: on a batch with at least one row it is a
    number, which is not positive when no value of the critic is
    negative, and not negative when no value is positive; on an empty
    batch it is [nan]. *)
Theorem actor_loss_sign (critic : Network.t) (arg : list (list Q))
  (state : ndarray) (idxs : list Z) :
  let q := critic_forward critic state arg idxs in
  one_value_per_row critic_forward ->
  (idxs <> [] ->
   exists v, ActorLoss_forward critic arg state idxs = Some v
             /\ ((forall x, In x q -> (0 <= x)%Q) -> (v <= 0)%Q)
             /\ ((forall x, In x q -> (x <= 0)%Q) -> (0 <= v)%Q))
  /\ (idxs = [] -> ActorLoss_forward critic arg state idxs = None).
Proof.
  intros q Hrow. subst q. unfold ActorLoss_forward. cbv zeta.
  pose proof (Hrow critic state arg idxs) as L.
  pose proof (sum_nonneg (critic_forward critic state arg idxs)) as Hs1.
  pose proof (sum_nonpos (critic_forward critic state arg idxs)) as Hs2.
  destruct (critic_forward critic state arg idxs) as [| q0 q] eqn:Eq.
  - split; [| reflexivity]. intros Hne. destruct idxs; [contradiction |].
    discriminate L.
  - split; [| intros ->; discriminate L]. intros _.
    cbn [mean option_map]. eexists. split; [reflexivity |].
    set (n := inject_Z (Z.of_nat (length (q0 :: q)))) in *.
    set (s := fold_right Qplus 0%Q (q0 :: q)) in *.
    assert (Hn : (0 < n)%Q).
    { subst n. change 0%Q with (inject_Z 0). rewrite <- Zlt_Qlt.
      simpl length. lia. }
    split; intros Hb.
    + assert (H1 : (0 <= s / n)%Q)
        by (apply Qle_shift_div_l; [exact Hn | specialize (Hs1 Hb); lra]).
      lra.
    + assert (H2 : (s / n <= 0)%Q)
        by (apply Qle_shift_div_r; [exact Hn | specialize (Hs2 Hb); lra]).
      lra.
Qed.

(* ===================================================================== *)
(** * Properties: transfer, failures and dataset order *)
(* ===================================================================== *)

(** X26. Transfer of the shared weights between two agents (lines
    162-164 of the runner import what another run exported). When the
    shared parts of [src] and [dst] have the same sizes,
    [dst.set_shared_weights(src.get_shared_weights())] returns, the shared
    weights of [dst] become those of [src], and everything else in [dst]
    is kept: the per-task parameters of its critic and actor, its target
    networks, buffers, counter and working arrays. *)
Theorem transfer_shared_weights (src dst : SharedDDPG) :
  length (Network.get_shared_weights (_critic_approximator src))
  = length (Network.get_shared_weights (_critic_approximator dst)) ->
  length (Network.get_shared_weights (_actor_approximator src))
  = length (Network.get_shared_weights (_actor_approximator dst)) ->
  exists dst',
    set_shared_weights (get_shared_weights src) dst = (Returned tt, dst')
    /\ get_shared_weights dst' = get_shared_weights src
    /\ Network.unselect (Network.shared_mask (_critic_approximator dst'))
         (Network.weights (_critic_approximator dst'))
       = Network.unselect (Network.shared_mask (_critic_approximator dst))
           (Network.weights (_critic_approximator dst))
    /\ Network.unselect (Network.shared_mask (_actor_approximator dst'))
         (Network.weights (_actor_approximator dst'))
       = Network.unselect (Network.shared_mask (_actor_approximator dst))
           (Network.weights (_actor_approximator dst))
    /\ same_frame dst dst'
    /\ _target_critic_approximator dst' = _target_critic_approximator dst
    /\ _target_actor_approximator dst' = _target_actor_approximator dst
    /\ _n_updates dst' = _n_updates dst.
Proof.
  intros Hc Ha.
  destruct (set_shared_weights_frame dst _ _ Hc Ha)
    as (dst' & E & G & U1 & U2).
  exists dst'. unfold get_shared_weights at 1. cbv zeta.
  split; [exact E |]. split; [exact G |].
  split; [exact U1 |]. split; [exact U2 |].
  pose proof (set_shared_weights_same_frame (get_shared_weights src) dst)
    as F.
  unfold get_shared_weights in F at 1. cbv zeta in F. rewrite E in F.
  split; [exact F |].
  revert E. unfold set_shared_weights, bind, lift, gets, modify, py_get.
  simpl. destruct (Network.set_shared_weights _ (_critic_approximator dst));
    simpl; [| discriminate].
  destruct (Network.set_shared_weights _ (_actor_approximator dst));
    simpl; [| discriminate].
  intros [= <-]. repeat split; reflexivity.
Qed.

Lemma assemble_raises (rnd : nat -> nat -> nat) (i : nat) (w w' : world)
  (e : exn) :
  assemble rnd i w = (Raised e, w') ->
  e = IndexError \/ e = ValueError \/ e = InsufficientDataError.
Proof.
  destruct w as [a log]. rewrite assemble_run. unfold py_get.
  destruct (nth_error (_replay_memory a) i) as [m |];
    [| intros [= <- _]; auto].
  destruct (ReplayMemoryMulty.get _ (rnd i) m) as [b | e0] eqn:Eg.
  - destruct (fill a i b (scratch a)) as [[u | e0] sc'] eqn:Ef; simpl;
      [discriminate |].
    intros [= <- _]. apply fill_raises in Ef. tauto.
  - intros [= <- _]. destruct (get_raises _ _ _ _ Eg) as [[-> _] | ->]; auto.
Qed.

Lemma forallb_no_fit_add (ds : list Sample) (n : nat) :
  forallb no_fit_call (routing_calls ds n) = true.
Proof.
  apply forallb_forall. intros x Hx. unfold routing_calls in Hx.
  apply in_map_iff in Hx as (g & <- & _). reflexivity.
Qed.

Lemma forallb_no_fit_get (l : list event) :
  forallb is_get l = true -> forallb no_fit_call l = true.
Proof.
  intros H. apply forallb_forall. intros x Hx.
  rewrite forallb_forall in H. unfold no_fit_call.
  now rewrite (H x Hx), orb_true_r.
Qed.

(** X27. What a failed [fit] leaves. When each target network has as many
    parameters as its live network and a [fit] call on an approximator
    keeps the number of parameters, a [fit] call that raises has not run
    the target update and has not counted an update: both target networks
    and [_n_updates] are exactly as they were. If the exception is not the
    approximator's, no [fit] call on an approximator was made: the calls
    are [add], [get] and forward passes only, and the critic and the actor
    are as they were too. If it is the approximator's, then either the
    critic's [fit] raised, the critic holding what that call left and the
    actor being as it was, or the critic's [fit] returned and the actor's
    raised, the critic being updated and the actor holding what its call
    left. *)
Theorem failed_fit_keeps_targets (ds : list Sample)
  (rnd : nat -> nat -> nat) (w : world) (e : exn) :
  let a := agent w in
  let r := fit ds rnd w in
  let a' := agent (snd r) in
  critic_step_keeps_size critic_step ->
  actor_step_keeps_size actor_step ->
  length (Network.weights (_critic_approximator a))
  = length (Network.weights (_target_critic_approximator a)) ->
  length (Network.weights (_actor_approximator a))
  = length (Network.weights (_target_actor_approximator a)) ->
  fst r = Raised e ->
  _target_critic_approximator a' = _target_critic_approximator a
  /\ _target_actor_approximator a' = _target_actor_approximator a
  /\ _n_updates a' = _n_updates a
  /\ exists l,
       calls (snd r) = calls w ++ l
       /\ (e <> ApproximatorError ->
           forallb no_fit_call l = true
           /\ _critic_approximator a' = _critic_approximator a
           /\ _actor_approximator a' = _actor_approximator a)
       /\ (e = ApproximatorError ->
           exists l0 st ac q idx wc,
             forallb no_fit_call l0 = true
             /\ _critic_approximator a'
                = Network.with_weights wc (_critic_approximator a)
             /\ ((l = l0 ++ [EvCriticFit st ac q idx]
                  /\ critic_step (_critic_approximator a) st ac q idx
                     = FitRaised wc
                  /\ _actor_approximator a' = _actor_approximator a)
                 \/ (exists wa,
                       l = l0 ++ [EvCriticFit st ac q idx; EvActorFit st idx]
                       /\ critic_step (_critic_approximator a) st ac q idx
                          = Fitted wc
                       /\ actor_step (_actor_approximator a)
                            (_critic_approximator a') st idx
                          = FitRaised wa
                       /\ _actor_approximator a'
                          = Network.with_weights wa
                              (_actor_approximator a)))).
Proof.
  intros a r a' Hcs Has Hc Hp Hr. subst a' r. rewrite fit_run in Hr |- *.
  pose proof (route_run ds w) as Er. cbv zeta in Er.
  pose proof (forallb_no_fit_add ds (length (_replay_memory (agent w))))
    as Hadds.
  destruct (route ds w) as [[[] | e1] w1].
  2: { injection Er as Eo ->. simpl in Hr |- *. injection Hr as ->. fold a.
       repeat (split; [reflexivity |]). eexists. split; [reflexivity |].
       split.
       - intros _. repeat split. exact Hadds.
       - intros ->. symmetry in Eo.
         destruct (route_outcome_raises _ _ _ Eo) as [[X _] | [X _]];
           discriminate X. }
  injection Er as _ Ew1.
  destruct (all_initialized (agent w1)); [| discriminate Hr].
  rewrite update_cycle_run in Hr |- *.
  destruct (assemble_loop_effect rnd (length (_replay_memory (agent w1))) w1)
    as (F1 & _ & _ & (l & Cl & Gl) & _).
  destruct (for_ _ (assemble rnd) w1) as [[[] | e2] w2] eqn:Eloop;
    simpl in F1, Cl, Hr |- *.
  2: { injection Hr as ->. rewrite F1, Ew1. simpl. fold a.
       repeat (split; [reflexivity |]).
       exists (routing_calls ds (length (_replay_memory (agent w))) ++ l).
       rewrite Cl, Ew1. simpl. rewrite app_assoc. split; [reflexivity |].
       split.
       - intros _. repeat split. rewrite forallb_app, Hadds. simpl.
         now apply forallb_no_fit_get.
       - intros ->. exfalso.
         assert (X : ApproximatorError = IndexError
                     \/ ApproximatorError = ValueError
                     \/ ApproximatorError = InsufficientDataError).
         { eapply (for_raises
                     (fun e => e = IndexError \/ e = ValueError
                               \/ e = InsufficientDataError));
             [| exact Eloop].
           intros x s0 e0 s' H. eapply assemble_raises, H. }
         destruct X as [X | [X | X]]; discriminate X. }
  destruct w2 as [a2 log2]. unfold agent, calls in F1, Cl. simpl in F1, Cl.
  assert (Ea2 : _critic_approximator a2 = _critic_approximator a
                /\ _actor_approximator a2 = _actor_approximator a
                /\ _target_critic_approximator a2
                   = _target_critic_approximator a
                /\ _target_actor_approximator a2
                   = _target_actor_approximator a
                /\ _n_updates a2 = _n_updates a).
  { rewrite F1, Ew1. simpl. fold a. repeat split; reflexivity. }
  destruct Ea2 as (A1 & A2 & A3 & A4 & A5).
  set (l1 := routing_calls ds (length (_replay_memory (agent w))) ++ l).
  assert (Hlog : log2 = calls w ++ l1).
  { subst l1. rewrite Cl, Ew1. simpl. now rewrite app_assoc. }
  assert (Hl1 : forallb no_fit_call l1 = true).
  { subst l1. rewrite forallb_app, Hadds. simpl.
    now apply forallb_no_fit_get. }
  assert (Hfw : forallb no_fit_call (l1 ++ forward_calls a2) = true).
  { rewrite forallb_app, Hl1. reflexivity. }
  pose proof (learn_step_run a2 log2) as Hrun. cbv zeta in Hrun.
  rewrite Hrun in Hr |- *. clear Hrun.
  unfold agent, calls. rewrite Hlog.
  destruct (_next_q a2) as [q_next | e3] eqn:E3.
  2: { injection Hr as ->. simpl. rewrite A3, A4, A5.
       repeat (split; [reflexivity |]).
       exists (l1 ++ forward_calls a2). rewrite app_assoc.
       split; [reflexivity |]. split.
       - intros _. auto.
       - intros ->. apply next_q_raises in E3.
         destruct E3; discriminate. }
  destruct (np_zip Qplus (_reward (scratch a2)) q_next) as [q | e4] eqn:E4.
  2: { injection Hr as ->. simpl. rewrite A3, A4, A5.
       repeat (split; [reflexivity |]).
       exists (l1 ++ forward_calls a2). rewrite app_assoc.
       split; [reflexivity |]. split.
       - intros _. auto.
       - intros ->. apply np_zip_raises in E4. discriminate. }
  pose proof (Hcs (_critic_approximator a2) (_state (scratch a2))
                (_action (scratch a2)) q (_state_idxs (scratch a2))) as Yc.
  destruct (critic_step (_critic_approximator a2) (_state (scratch a2))
              (_action (scratch a2)) q (_state_idxs (scratch a2)))
    as [wc | wc] eqn:Ec; simpl fit_weights in *.
  2: { injection Hr as <-. simpl. rewrite A1, A2, A3, A4, A5.
       repeat (split; [reflexivity |]).
       eexists. rewrite <- !app_assoc. split; [reflexivity |].
       split; [intros X; now contradiction X |]. intros _.
       exists (l1 ++ forward_calls a2), (_state (scratch a2)),
         (_action (scratch a2)), q, (_state_idxs (scratch a2)), wc.
       split; [exact Hfw |]. split; [reflexivity |]. left.
       split; [now rewrite <- !app_assoc |].
       split; [now rewrite <- A1 | reflexivity]. }
  match type of Hr with
  | context [actor_step ?n ?c ?st ?idx] =>
      pose proof (Has n c st idx) as Ya;
      destruct (actor_step n c st idx) as [wa | wa] eqn:Ea;
      simpl fit_weights in *
  end.
  2: { injection Hr as <-. simpl. rewrite A1, A2, A3, A4, A5.
       repeat (split; [reflexivity |]).
       eexists. rewrite <- !app_assoc. split; [reflexivity |].
       split; [intros X; now contradiction X |]. intros _.
       exists (l1 ++ forward_calls a2), (_state (scratch a2)),
         (_action (scratch a2)), q, (_state_idxs (scratch a2)), wc.
       split; [exact Hfw |]. split; [reflexivity |]. right.
       exists wa. split; [now rewrite <- !app_assoc |].
       split; [now rewrite <- A1 |].
       split; [now rewrite <- A1, <- A2 | reflexivity]. }
  rewrite soft_update_returns in Hr
    by (simpl; rewrite Yc, A1, A3; exact Hc).
  rewrite soft_update_returns in Hr
    by (simpl; rewrite Ya, A2, A4; exact Hp).
  discriminate Hr.
Qed.

Lemma existsb_same_elements {A} (p : A -> bool) (l l' : list A) :
  (forall x, In x l <-> In x l') -> existsb p l = existsb p l'.
Proof.
  intros H. destruct (existsb p l') eqn:E.
  - apply existsb_exists in E as (x & Hx & Hp).
    apply existsb_exists. exists x. split; [now apply H | exact Hp].
  - destruct (existsb p l) eqn:E'; [| reflexivity].
    apply existsb_exists in E' as (x & Hx & Hp).
    assert (X : existsb p l' = true)
      by (apply existsb_exists; exists x; split; [now apply H | exact Hp]).
    congruence.
Qed.

Lemma forallb_same_elements {A} (p : A -> bool) (l l' : list A) :
  (forall x, In x l <-> In x l') -> forallb p l = forallb p l'.
Proof.
  intros H. destruct (forallb p l') eqn:E.
  - rewrite forallb_forall in E. apply forallb_forall.
    intros x Hx. apply E. now apply H.
  - destruct (forallb p l) eqn:E'; [| reflexivity].
    rewrite forallb_forall in E'.
    assert (X : forallb p l' = true)
      by (apply forallb_forall; intros x Hx; apply E'; now apply H).
    congruence.
Qed.

Lemma sub_batch_In (ds : list Sample) (g : Z) :
  In g (map task_of ds) <-> sub_batch ds g <> [].
Proof.
  unfold sub_batch. split.
  - intros H Hnil. apply in_map_iff in H as (d & <- & Hd).
    assert (Hin : In d (filter (fun d0 => (task_of d0 =? task_of d)%Z) ds)).
    { apply filter_In. split; [exact Hd | apply Z.eqb_refl]. }
    rewrite Hnil in Hin. destruct Hin.
  - intros H.
    destruct (filter (fun d => (task_of d =? g)%Z) ds) as [| d r] eqn:E;
      [contradiction |].
    assert (Hin : In d (filter (fun d => (task_of d =? g)%Z) ds))
      by (rewrite E; now left).
    apply filter_In in Hin as [Hd Hg]. apply Z.eqb_eq in Hg. subst g.
    now apply in_map.
Qed.

(** X28. [fit] does not depend on how the tasks are interleaved in the
    dataset. Two datasets that hold, for every task id, the same
    transitions in the same relative order give the same call: the same
    [add] calls in the same order, the same buffers, and the same result
    of the whole [fit]. *)
Theorem fit_ignores_interleaving (ds ds' : list Sample)
  (rnd : nat -> nat -> nat) (w : world) :
  (forall g, sub_batch ds g = sub_batch ds' g) ->
  route ds w = route ds' w /\ fit ds rnd w = fit ds' rnd w.
Proof.
  intros H.
  assert (Hin : forall x, In x (map task_of ds) <-> In x (map task_of ds')).
  { intros x. rewrite !sub_batch_In. now rewrite H. }
  assert (Eu : np_unique (map task_of ds) = np_unique (map task_of ds')).
  { apply sorted_ext; try apply np_unique_sorted.
    intros x. rewrite !np_unique_In. apply Hin. }
  assert (Ef : as_float64 (map task_of ds) = as_float64 (map task_of ds')).
  { unfold as_float64.
    rewrite (existsb_same_elements fits_int64 _ _ Hin).
    rewrite (existsb_same_elements only_uint64 _ _ Hin).
    now rewrite (forallb_same_elements _ _ _ Hin). }
  assert (Er : route ds w = route ds' w).
  { rewrite !route_run.
    unfold route_outcome, routed_memory, routing_calls, routed_ids.
    rewrite Eu, Ef. f_equal. f_equal.
    - f_equal.
      generalize (if as_float64 (map task_of ds') then []
                  else handled (length (_replay_memory (agent w)))
                         (np_unique (map task_of ds'))) as games.
      generalize (_replay_memory (agent w)) as rm.
      intros rm games. revert rm.
      induction games as [| g games IH]; intros rm; [reflexivity |].
      simpl. unfold route_add at 2 4. rewrite H. apply IH.
    - f_equal. apply map_ext. intros g. now rewrite H. }
  split; [exact Er |]. now rewrite !fit_run, Er.
Qed.

End Agent.

(* ===================================================================== *)
(** * Properties: the runner loop (C7, C8) *)
(* ===================================================================== *)

Section RunnerProperties.

Variable learn : Z -> SharedDDPG -> SharedDDPG.
Variable evaluate : Z -> SharedDDPG -> list Q.

(** The agent on which epoch [n] is evaluated. *)
Lemma epoch_run (args : Runner.Args) (n : Z) (s : Runner.state) :
  let a' := learn n (if Runner.unfreeze_due args n
                     then unfreeze_shared_weights (Runner.the_agent s)
                     else Runner.the_agent s) in
  let sum := Runner.np_sum (evaluate n a') in
  let tracked := Runner.truthy (Runner.save_shared args)
                 && Runner.ge_best sum (Runner.best_score_sum s) in
  Runner.epoch learn evaluate args n s
  = (Returned tt,
     {| Runner.the_agent := a';
        Runner.best_score_sum :=
          if tracked then Some sum else Runner.best_score_sum s;
        Runner.best_weights :=
          if tracked then Some (get_shared_weights a')
          else Runner.best_weights s;
        Runner.trace :=
          Runner.trace s
          ++ (if Runner.unfreeze_due args n then [Runner.Unfreeze n] else [])
          ++ [Runner.Learn n; Runner.Evaluate n]
          ++ (if tracked then [Runner.Export n] else [])
          ++ (if Runner.save args then [Runner.LogAgent n] else []) |}).
Proof.
  intros a' sum tracked. subst a' sum tracked.
  unfold Runner.epoch, Runner.track_best, Runner.unfreeze_due.
  unfold bind, Runner.log, Runner.on_agent, Runner.set_best, modify, gets, ret.
  destruct s as [a bs bw tr]. simpl.
  destruct ((n >=? Runner.unfreeze_epoch args)%Z
            && (Runner.unfreeze_epoch args >? 0)%Z); simpl;
    destruct (Runner.truthy (Runner.save_shared args)); simpl;
    try destruct (Runner.ge_best _ bs); simpl;
    destruct (Runner.save args); simpl;
    rewrite <- ?app_assoc; simpl; reflexivity.
Qed.

Lemma schedule_app (l1 l2 : list Runner.event) :
  Runner.schedule (l1 ++ l2) = Runner.schedule l1 ++ Runner.schedule l2.
Proof. apply filter_app. Qed.

Lemma is_dump_app (l1 l2 : list Runner.event) :
  existsb Runner.is_dump (l1 ++ l2)
  = existsb Runner.is_dump l1 || existsb Runner.is_dump l2.
Proof. apply existsb_app. Qed.

(** The epochs of the loop, from any state: they return, follow the
    schedule, and write no dump. *)
Lemma epochs_run (args : Runner.Args) (ns : list Z) (s : Runner.state) :
  exists s',
    for_ ns (Runner.epoch learn evaluate args) s = (Returned tt, s')
    /\ Runner.schedule (Runner.trace s')
       = Runner.schedule (Runner.trace s)
         ++ flat_map (fun n => (if Runner.unfreeze_due args n
                                then [Runner.Unfreeze n] else [])
                               ++ [Runner.Learn n]) ns
    /\ existsb Runner.is_dump (Runner.trace s')
       = existsb Runner.is_dump (Runner.trace s)
    /\ (Runner.truthy (Runner.save_shared args) = false ->
        Runner.best_weights s' = Runner.best_weights s).
Proof.
  revert s. induction ns as [| n ns IH]; intros s.
  - exists s. simpl. rewrite app_nil_r. auto.
  - simpl. unfold bind. rewrite epoch_run.
    destruct (IH (snd (Runner.epoch learn evaluate args n s)))
      as (s' & E & Hs & Hd & Hb).
    rewrite epoch_run in E, Hs, Hd, Hb. simpl in E, Hs, Hd, Hb.
    exists s'. split; [exact E |]. split; [| split].
    + rewrite Hs. rewrite !schedule_app, <- !app_assoc. f_equal.
      destruct (Runner.unfreeze_due args n); simpl;
        destruct (_ && _); simpl; destruct (Runner.save args); reflexivity.
    + rewrite Hd. rewrite !is_dump_app.
      destruct (Runner.unfreeze_due args n); simpl;
        destruct (_ && _); simpl; destruct (Runner.save args); simpl;
        now rewrite ?orb_false_r.
    + intros Hf. rewrite (Hb Hf), Hf. reflexivity.
Qed.

Lemma count_unfreeze_schedule (tr : list Runner.event) :
  Runner.count_unfreeze (Runner.schedule tr) = Runner.count_unfreeze tr.
Proof.
  unfold Runner.count_unfreeze, Runner.schedule.
  induction tr as [| e tr IH]; simpl; auto.
  destruct e; simpl; auto.
Qed.

Lemma count_freeze_schedule (tr : list Runner.event) :
  Runner.count_freeze (Runner.schedule tr) = Runner.count_freeze tr.
Proof.
  unfold Runner.count_freeze, Runner.schedule.
  induction tr as [| e tr IH]; simpl; auto.
  destruct e; simpl; auto.
Qed.

(** The number of unfreeze calls among the epochs [lo .. lo+k-1]. *)
Lemma count_unfreeze_range (args : Runner.Args) (lo : Z) (k : nat) :
  (1 <= lo)%Z ->
  Runner.count_unfreeze
    (flat_map (fun n => (if Runner.unfreeze_due args n
                         then [Runner.Unfreeze n] else [])
                        ++ [Runner.Learn n])
       (map (fun j => (lo + Z.of_nat j)%Z) (seq 0 k)))
  = if (Runner.unfreeze_epoch args >? 0)%Z
    then Z.to_nat (Z.min (Z.of_nat k)
                     (lo + Z.of_nat k - Z.max lo (Runner.unfreeze_epoch args)))
    else O.
Proof.
  intros Hlo. revert lo Hlo. induction k as [| k IH]; intros lo Hlo.
  - unfold Runner.count_unfreeze. simpl.
    destruct (_ >? 0)%Z; [| reflexivity]. lia.
  - rewrite <- cons_seq, <- seq_shift. cbn [map flat_map].
    rewrite map_map.
    assert (E : map (fun j => (lo + Z.of_nat (S j))%Z) (seq 0 k)
                = map (fun j => (lo + 1 + Z.of_nat j)%Z) (seq 0 k)).
    { apply map_ext. intros j. lia. }
    rewrite E. clear E.
    unfold Runner.count_unfreeze in *. rewrite filter_app, length_app.
    rewrite filter_app, length_app. rewrite (IH (lo + 1)%Z) by lia.
    unfold Runner.unfreeze_due. rewrite Z.add_0_r.
    destruct (Z.gtb_spec (Runner.unfreeze_epoch args) 0);
      destruct (Z.geb_spec lo (Runner.unfreeze_epoch args)); simpl; lia.
Qed.

Lemma py_range_from_one (n : Z) :
  Runner.py_range 1 (n + 1)
  = map (fun j => (1 + Z.of_nat j)%Z) (seq 0 (Z.to_nat n)).
Proof. unfold Runner.py_range. now replace (n + 1 - 1)%Z with n by lia. Qed.

(** The whole loop, when the evaluation frequency is not zero. *)
Lemma loop_run (args : Runner.Args) (s : Runner.state) :
  Runner.evaluation_frequency_of args <> 0%Z ->
  exists s',
    Runner.loop learn evaluate args s
    = (Returned tt,
       {| Runner.the_agent := Runner.the_agent s';
          Runner.best_score_sum := Runner.best_score_sum s';
          Runner.best_weights := Runner.best_weights s';
          Runner.trace :=
            Runner.trace s'
            ++ (if Runner.truthy (Runner.save_shared args)
                then [Runner.Dump (Runner.best_weights s')] else []) |})
    /\ Runner.schedule (Runner.trace s')
       = Runner.schedule (Runner.trace s) ++ Runner.loop_schedule args
    /\ existsb Runner.is_dump (Runner.trace s')
       = existsb Runner.is_dump (Runner.trace s)
    /\ (Runner.truthy (Runner.save_shared args) = false ->
        Runner.best_weights s' = None).
Proof.
  intros Hef. unfold Runner.loop, Runner.loop_schedule, Runner.n_epochs.
  unfold bind at 1.
  set (s1 := snd ((if (Runner.unfreeze_epoch args >? 0)%Z
                   then bind (Runner.log Runner.Freeze)
                          (fun _ => Runner.on_agent freeze_shared_weights)
                   else ret tt) s)).
  assert (E1 : (if (Runner.unfreeze_epoch args >? 0)%Z
                then bind (Runner.log Runner.Freeze)
                       (fun _ => Runner.on_agent freeze_shared_weights)
                else ret tt) s = (Returned tt, s1)).
  { subst s1. destruct (_ >? 0)%Z; reflexivity. }
  rewrite E1.
  assert (T1 : Runner.trace s1
               = Runner.trace s
                 ++ (if (Runner.unfreeze_epoch args >? 0)%Z
                     then [Runner.Freeze] else [])).
  { subst s1. destruct (_ >? 0)%Z; simpl; [reflexivity |].
    now rewrite app_nil_r. }
  unfold bind at 1. unfold Runner.set_best at 1. unfold modify at 1.
  unfold bind at 1. unfold lift at 1. unfold Runner.floordiv.
  destruct (Z.eqb_spec (Runner.evaluation_frequency_of args) 0);
    [contradiction |].
  set (s2 := {| Runner.the_agent := Runner.the_agent s1;
                Runner.best_score_sum := None;
                Runner.best_weights := None;
                Runner.trace := Runner.trace s1 |}).
  destruct (epochs_run args
              (Runner.py_range 1
                 (Runner.max_steps_of args
                  / Runner.evaluation_frequency_of args + 1)) s2)
    as (s3 & E3 & H3 & D3 & B3).
  unfold bind at 1. rewrite E3.
  exists s3. split; [| split; [| split]].
  - destruct (Runner.truthy (Runner.save_shared args)); simpl.
    + reflexivity.
    + rewrite app_nil_r. now destruct s3.
  - rewrite H3. simpl. rewrite T1, schedule_app, <- app_assoc.
    f_equal. f_equal. now destruct (_ >? 0)%Z.
  - rewrite D3. simpl. rewrite T1, is_dump_app.
    destruct (_ >? 0)%Z; simpl; now rewrite orb_false_r.
  - intros Hf. now rewrite (B3 Hf).
Qed.

(** C7, as the code has it. In a run whose unfreeze threshold [T] is
    positive, the shared weights are frozen once, before the first learning
    epoch, and [unfreeze_shared_weights()] is called at the start of every
    epoch whose counter is at or beyond the threshold: first at epoch [T],
    right before its learning phase, then again at each later epoch, that
    is [N - T + 1] times in a run of [N >= T] epochs and never when
    [N < T]; the repeated calls change nothing, the operation being
    idempotent. With a threshold of 0 or less there is neither a freeze nor
    an unfreeze. *)
Theorem unfreeze_schedule (args : Runner.Args) (a : SharedDDPG) :
  Runner.evaluation_frequency_of args <> 0%Z ->
  let r := Runner.run learn evaluate args a in
  let T := Runner.unfreeze_epoch args in
  fst r = Returned tt
  /\ Runner.schedule (Runner.trace (snd r)) = Runner.loop_schedule args
  /\ Runner.count_freeze (Runner.trace (snd r))
     = (if (T >? 0)%Z then 1%nat else 0%nat)
  /\ Runner.count_unfreeze (Runner.trace (snd r))
     = (if (T >? 0)%Z then Z.to_nat (Runner.n_epochs args - T + 1)
        else 0%nat)
  /\ (forall b, unfreeze_shared_weights (unfreeze_shared_weights b)
                = unfreeze_shared_weights b).
Proof.
  intros Hef r T. subst r. unfold Runner.run.
  destruct (loop_run args (Runner.start a) Hef) as (s' & E & Hs & _ & _).
  rewrite E. simpl.
  assert (Hsched : Runner.schedule
                     (Runner.trace s'
                      ++ (if Runner.truthy (Runner.save_shared args)
                          then [Runner.Dump (Runner.best_weights s')]
                          else []))
                   = Runner.loop_schedule args).
  { rewrite schedule_app, Hs. simpl.
    destruct (Runner.truthy _); simpl; now rewrite app_nil_r. }
  split; [reflexivity |]. split; [exact Hsched |].
  split; [| split; [| reflexivity]].
  - rewrite <- count_freeze_schedule, Hsched.
    unfold Runner.loop_schedule, Runner.count_freeze.
    rewrite filter_app, length_app. fold T.
    assert (Z0 : length (filter (fun e => match e with
                                          | Runner.Freeze => true
                                          | _ => false
                                          end)
                           (flat_map
                              (fun n => (if Runner.unfreeze_due args n
                                         then [Runner.Unfreeze n] else [])
                                        ++ [Runner.Learn n])
                              (Runner.py_range 1 (Runner.n_epochs args + 1))))
                 = 0%nat).
    { induction (Runner.py_range 1 (Runner.n_epochs args + 1)) as [| n l IH];
        simpl; auto.
      rewrite filter_app, length_app, IH.
      destruct (Runner.unfreeze_due args n); reflexivity. }
    rewrite Z0. destruct (T >? 0)%Z; reflexivity.
  - rewrite <- count_unfreeze_schedule, Hsched.
    unfold Runner.loop_schedule. fold T.
    assert (Hc : forall l1 l2, Runner.count_unfreeze (l1 ++ l2)
                 = (Runner.count_unfreeze l1 + Runner.count_unfreeze l2)%nat).
    { intros. unfold Runner.count_unfreeze.
      now rewrite filter_app, length_app. }
    rewrite Hc, py_range_from_one, count_unfreeze_range by lia. fold T.
    destruct (Z.gtb_spec T 0); [| reflexivity].
    unfold Runner.count_unfreeze. cbn [filter length Nat.add]. lia.
Qed.

Lemma ge_best_tie (x : Q) :
  Runner.ge_best x (Some x) = true /\ Runner.ge_best x None = true.
Proof.
  split; [| reflexivity]. simpl. apply Qle_bool_iff, Qle_refl.
Qed.

(** C8, as the code has it. Best-snapshot tracking is active only when
    saving the shared weights is requested ([save_shared] non-empty). Then,
    after the evaluation of every learning epoch, if the sum of the
    per-task returns is greater than or equal to the best sum so far
    ([-inf] when the loop starts), the best sum becomes this sum and the
    stored bundle is replaced by a freshly exported one, so that ties also
    replace; otherwise both are kept; and at run end the stored bundle is
    persisted, as the last call of the run. When saving is not requested,
    nothing is tracked and nothing is persisted. The initial evaluation of
    epoch 0 takes no part in the tracking. *)
Theorem best_snapshot_tracking (args : Runner.Args) :
  (forall n s,
     let r := Runner.epoch learn evaluate args n s in
     let a' := Runner.the_agent (snd r) in
     let sum := Runner.np_sum (evaluate n a') in
     fst r = Returned tt
     /\ (if Runner.truthy (Runner.save_shared args)
            && Runner.ge_best sum (Runner.best_score_sum s)
         then Runner.best_score_sum (snd r) = Some sum
              /\ Runner.best_weights (snd r) = Some (get_shared_weights a')
         else Runner.best_score_sum (snd r) = Runner.best_score_sum s
              /\ Runner.best_weights (snd r) = Runner.best_weights s))
  /\ (forall x, Runner.ge_best x (Some x) = true
                /\ Runner.ge_best x None = true)
  /\ (forall a,
        Runner.evaluation_frequency_of args <> 0%Z ->
        let r := Runner.run learn evaluate args a in
        fst r = Returned tt
        /\ (if Runner.truthy (Runner.save_shared args)
            then exists tr,
                   Runner.trace (snd r)
                   = tr ++ [Runner.Dump (Runner.best_weights (snd r))]
                   /\ existsb Runner.is_dump tr = false
            else existsb Runner.is_dump (Runner.trace (snd r)) = false
                 /\ Runner.best_weights (snd r) = None)).
Proof.
  split; [| split].
  - intros n s r a' sum. subst sum a' r. rewrite epoch_run. simpl.
    split; [reflexivity |]. destruct (_ && _); auto.
  - apply ge_best_tie.
  - intros a Hef r. subst r. unfold Runner.run.
    destruct (loop_run args (Runner.start a) Hef) as (s' & E & _ & Hd & Hb).
    rewrite E. simpl. split; [reflexivity |].
    simpl in Hd.
    destruct (Runner.truthy (Runner.save_shared args)).
    + exists (Runner.trace s'). auto.
    + rewrite app_nil_r. auto.
Qed.

(* ===================================================================== *)
(** * Properties: failing, empty and complete runs *)
(* ===================================================================== *)

Lemma loop_entry_run (args : Runner.Args) (s : Runner.state) :
  loop_entry args s
  = {| Runner.the_agent :=
         if (Runner.unfreeze_epoch args >? 0)%Z
         then freeze_shared_weights (Runner.the_agent s)
         else Runner.the_agent s;
       Runner.best_score_sum := None;
       Runner.best_weights := None;
       Runner.trace :=
         Runner.trace s
         ++ (if (Runner.unfreeze_epoch args >? 0)%Z
             then [Runner.Freeze] else []) |}.
Proof.
  unfold loop_entry, bind, Runner.log, Runner.on_agent, Runner.set_best,
    modify, ret.
  destruct (Runner.unfreeze_epoch args >? 0)%Z; simpl; [reflexivity |].
  now rewrite app_nil_r.
Qed.

Lemma epochs_return (args : Runner.Args) (ns : list Z) (s : Runner.state) :
  fst (for_ ns (Runner.epoch learn evaluate args) s) = Returned tt.
Proof.
  destruct (epochs_run args ns s) as (s' & E & _). now rewrite E.
Qed.

Lemma py_range_to_nat (n : Z) :
  Runner.py_range 1 (n + 1)
  = Runner.py_range 1 (Z.of_nat (Z.to_nat n) + 1).
Proof.
  unfold Runner.py_range. f_equal. f_equal. lia.
Qed.

(** The loop, from the state of line 185, in terms of its entry state and
    of its epochs. *)
Lemma loop_explicit (args : Runner.Args) (s : Runner.state) :
  Runner.loop learn evaluate args s
  = if (Runner.evaluation_frequency_of args =? 0)%Z
    then (Raised ZeroDivisionError, loop_entry args s)
    else
      let s3 := snd (for_ (Runner.py_range 1 (Runner.n_epochs args + 1))
                       (Runner.epoch learn evaluate args)
                       (loop_entry args s)) in
      (Returned tt,
       with_trace
         (Runner.trace s3
          ++ (if Runner.truthy (Runner.save_shared args)
              then [Runner.Dump (Runner.best_weights s3)] else []))
         s3).
Proof.
  unfold Runner.loop, Runner.n_epochs, loop_entry.
  unfold bind, Runner.log, Runner.on_agent, Runner.set_best, modify, ret,
    lift, gets, Runner.floordiv, with_trace.
  destruct (Runner.unfreeze_epoch args >? 0)%Z; simpl;
    destruct (Z.eqb_spec (Runner.evaluation_frequency_of args) 0) as [E | E];
    simpl; try reflexivity.
  all: match goal with
       | |- context [for_ ?ns ?body ?s2] =>
           pose proof (epochs_return args ns s2) as Hret;
           destruct (for_ ns body s2) as [o s3]
       end.
  all: simpl in Hret; subst o; simpl.
  all: destruct (Runner.truthy (Runner.save_shared args)); simpl;
    [reflexivity | rewrite app_nil_r; now destruct s3].
Qed.

Lemma run_explicit (args : Runner.Args) (a : SharedDDPG) :
  Runner.evaluation_frequency_of args <> 0%Z ->
  let s3 := after_epochs learn evaluate args a
              (Z.to_nat (Runner.n_epochs args)) in
  Runner.run learn evaluate args a
  = (Returned tt,
     with_trace
       (Runner.trace s3
        ++ (if Runner.truthy (Runner.save_shared args)
            then [Runner.Dump (Runner.best_weights s3)] else []))
       s3).
Proof.
  intros Hef s3. unfold Runner.run. rewrite loop_explicit.
  destruct (Z.eqb_spec (Runner.evaluation_frequency_of args) 0);
    [contradiction |].
  cbv zeta. subst s3. unfold after_epochs.
  now rewrite <- py_range_to_nat.
Qed.

Lemma after_epochs_S (args : Runner.Args) (a : SharedDDPG) (k : nat) :
  after_epochs learn evaluate args a (S k)
  = snd (Runner.epoch learn evaluate args (Z.of_nat (S k))
           (after_epochs learn evaluate args a k)).
Proof.
  unfold after_epochs. rewrite !py_range_from_one, !Nat2Z.id.
  rewrite seq_S, map_app, for_app. cbn [map Nat.add].
  match goal with
  | |- context [for_ (map ?f (seq 0 k)) ?body ?s0] =>
      pose proof (epochs_return args (map f (seq 0 k)) s0) as Hret;
      destruct (for_ (map f (seq 0 k)) body s0) as [o s1]
  end.
  simpl in Hret. subst o. cbn [for_ snd]. unfold bind.
  replace (1 + Z.of_nat k)%Z with (Z.of_nat (S k)) by lia.
  destruct (Runner.epoch learn evaluate args (Z.of_nat (S k)) s1)
    as [[[] | e] s2]; reflexivity.
Qed.

(** X15. The number of epochs is [max_steps // evaluation_frequency]:
    outside debug mode an evaluation frequency of 0 makes the run fail with
    [ZeroDivisionError] at line 193, after the shared weights were frozen
    (when the unfreeze threshold is positive) and before any learning
    epoch or dump; with any other frequency, and always in debug mode, the
    run returns. *)
Theorem run_zero_frequency (args : Runner.Args) (a : SharedDDPG) :
  let r := Runner.run learn evaluate args a in
  let T := Runner.unfreeze_epoch args in
  (fst r = Raised ZeroDivisionError
   <-> Runner.debug args = false
       /\ Runner.evaluation_frequency args = 0%Z)
  /\ (fst r = Raised ZeroDivisionError \/ fst r = Returned tt)
  /\ (fst r = Raised ZeroDivisionError ->
      Runner.trace (snd r)
      = Runner.Evaluate 0 :: (if (T >? 0)%Z then [Runner.Freeze] else [])
      /\ Runner.the_agent (snd r)
         = (if (T >? 0)%Z then freeze_shared_weights a else a)
      /\ Runner.best_weights (snd r) = None).
Proof.
  intros r T. subst r. unfold Runner.run. rewrite loop_explicit.
  unfold Runner.evaluation_frequency_of.
  destruct (Runner.debug args) eqn:Ed; simpl.
  - split; [split; [discriminate | intros [H _]; discriminate H] |].
    split; [now right | discriminate].
  - destruct (Z.eqb_spec (Runner.evaluation_frequency args) 0) as [E | E].
    + split; [split; auto |]. split; [now left |]. intros _.
      rewrite loop_entry_run. simpl. auto.
    + split; [split; [discriminate | intros [_ H]; contradiction] |].
      split; [now right | discriminate].
Qed.

(** X16. A run without a learning epoch ([max_steps // evaluation_frequency]
    is 0 or negative) returns after the initial evaluation alone; when
    saving the shared weights is requested it persists [None], no bundle
    having been exported. *)
Theorem run_without_epoch (args : Runner.Args) (a : SharedDDPG) :
  let r := Runner.run learn evaluate args a in
  let T := Runner.unfreeze_epoch args in
  Runner.evaluation_frequency_of args <> 0%Z ->
  (Runner.n_epochs args <= 0)%Z ->
  fst r = Returned tt
  /\ Runner.trace (snd r)
     = Runner.Evaluate 0
       :: (if (T >? 0)%Z then [Runner.Freeze] else [])
       ++ (if Runner.truthy (Runner.save_shared args)
           then [Runner.Dump None] else [])
  /\ Runner.the_agent (snd r)
     = (if (T >? 0)%Z then freeze_shared_weights a else a)
  /\ Runner.best_weights (snd r) = None.
Proof.
  intros r T Hef Hn. subst r. rewrite (run_explicit args a Hef). cbv zeta.
  replace (Z.to_nat (Runner.n_epochs args)) with 0%nat by lia.
  unfold after_epochs. simpl Z.of_nat.
  change (Runner.py_range 1 (0 + 1)) with (@nil Z). simpl for_.
  unfold ret. simpl snd. rewrite loop_entry_run. simpl.
  split; [reflexivity |]. split; [| split; reflexivity].
  reflexivity.
Qed.

Lemma after_epochs_0 (args : Runner.Args) (a : SharedDDPG) :
  after_epochs learn evaluate args a 0
  = {| Runner.the_agent :=
         if (Runner.unfreeze_epoch args >? 0)%Z
         then freeze_shared_weights a else a;
       Runner.best_score_sum := None;
       Runner.best_weights := None;
       Runner.trace :=
         Runner.Evaluate 0
         :: (if (Runner.unfreeze_epoch args >? 0)%Z
             then [Runner.Freeze] else []) |}.
Proof.
  unfold after_epochs. simpl Z.of_nat.
  change (Runner.py_range 1 (0 + 1)) with (@nil Z). simpl for_.
  unfold ret. simpl snd. now rewrite loop_entry_run.
Qed.

(** One more epoch, in terms of the quantities of the run. *)
Lemma after_epochs_step (args : Runner.Args) (a : SharedDDPG) (k : nat) :
  let s := after_epochs learn evaluate args a k in
  let n := Z.of_nat (S k) in
  let sum := score_at learn evaluate args a (S k) in
  let a' := agent_at learn evaluate args a (S k) in
  let tracked := Runner.truthy (Runner.save_shared args)
                 && Runner.ge_best sum (Runner.best_score_sum s) in
  after_epochs learn evaluate args a (S k)
  = {| Runner.the_agent := a';
       Runner.best_score_sum :=
         if tracked then Some sum else Runner.best_score_sum s;
       Runner.best_weights :=
         if tracked then Some (get_shared_weights a')
         else Runner.best_weights s;
       Runner.trace :=
         Runner.trace s
         ++ (if Runner.unfreeze_due args n then [Runner.Unfreeze n] else [])
         ++ [Runner.Learn n; Runner.Evaluate n]
         ++ (if tracked then [Runner.Export n] else [])
         ++ (if Runner.save args then [Runner.LogAgent n] else []) |}.
Proof.
  intros s n sum a' tracked. subst tracked a' sum.
  unfold score_at, agent_at. subst s n.
  rewrite after_epochs_S, epoch_run. reflexivity.
Qed.

Lemma activity_app (l1 l2 : list Runner.event) :
  activity (l1 ++ l2) = activity l1 ++ activity l2.
Proof. apply filter_app. Qed.

Lemma py_range_S (k : nat) :
  Runner.py_range 1 (Z.of_nat (S k) + 1)
  = Runner.py_range 1 (Z.of_nat k + 1) ++ [Z.of_nat (S k)].
Proof.
  rewrite !py_range_from_one, !Nat2Z.id, seq_S, map_app.
  cbn [map Nat.add]. do 3 f_equal. lia.
Qed.

Lemma activity_after_epochs (args : Runner.Args) (a : SharedDDPG) (k : nat) :
  activity (Runner.trace (after_epochs learn evaluate args a k))
  = Runner.Evaluate 0
    :: flat_map (epoch_activity args) (Runner.py_range 1 (Z.of_nat k + 1)).
Proof.
  induction k as [| k IH].
  - rewrite after_epochs_0. simpl.
    now destruct (Runner.unfreeze_epoch args >? 0)%Z.
  - rewrite after_epochs_step. cbv zeta. cbn [Runner.trace].
    rewrite activity_app, IH, py_range_S, flat_map_app. simpl. f_equal.
    f_equal. unfold epoch_activity.
    destruct (Runner.unfreeze_due args _), (_ && _), (Runner.save args);
      reflexivity.
Qed.

(** X17. Every run that returns has the same skeleton, whatever the
    scores: after the initial evaluation, each epoch [n = 1 .. N] makes
    one learning call, then one evaluation, then one [log_agent] call
    exactly when [--save] is set, in increasing epoch order, where [N] is
    [max_steps // evaluation_frequency]; in debug mode [N] is 20, whatever
    the command line says. *)
Theorem run_activity (args : Runner.Args) (a : SharedDDPG) :
  let r := Runner.run learn evaluate args a in
  Runner.evaluation_frequency_of args <> 0%Z ->
  fst r = Returned tt
  /\ activity (Runner.trace (snd r))
     = Runner.Evaluate 0
       :: flat_map (epoch_activity args)
            (Runner.py_range 1 (Runner.n_epochs args + 1))
  /\ (Runner.debug args = true -> Runner.n_epochs args = 20%Z).
Proof.
  intros r Hef. subst r. rewrite (run_explicit args a Hef). cbv zeta.
  split; [reflexivity |]. split.
  - cbn [snd with_trace Runner.trace].
    rewrite activity_app, activity_after_epochs, <- py_range_to_nat.
    destruct (Runner.truthy (Runner.save_shared args)); simpl;
      now rewrite app_nil_r.
  - intros Hd. unfold Runner.n_epochs, Runner.max_steps_of,
      Runner.evaluation_frequency_of. now rewrite Hd.
Qed.

(** The tracking, with saving requested: before any epoch nothing is
    stored; after epoch [k >= 1] the best sum is the greatest sum of the
    epochs [1 .. k], and the stored bundle is the one exported at the last
    epoch that reached it. *)
Lemma tracking_invariant (args : Runner.Args) (a : SharedDDPG) (k : nat) :
  let s := after_epochs learn evaluate args a k in
  let score := score_at learn evaluate args a in
  Runner.truthy (Runner.save_shared args) = true ->
  (k = 0%nat /\ Runner.best_score_sum s = None
   /\ Runner.best_weights s = None)
  \/ exists m,
       (1 <= m <= k)%nat
       /\ Runner.best_score_sum s = Some (score m)
       /\ Runner.best_weights s
          = Some (get_shared_weights (agent_at learn evaluate args a m))
       /\ (forall j, (1 <= j <= k)%nat -> score j <= score m)
       /\ (forall j, (m < j <= k)%nat -> score j < score m).
Proof.
  intros s score Hsave. subst s. induction k as [| k IH].
  - left. rewrite after_epochs_0. auto.
  - right. rewrite after_epochs_step. cbv zeta. rewrite Hsave.
    cbn [andb Runner.best_score_sum Runner.best_weights].
    fold score.
    destruct IH as [(-> & B1 & B2) | (m & Hm & B1 & B2 & Hmax & Hlast)].
    + rewrite B1. cbn [Runner.ge_best]. exists 1%nat.
      split; [lia |]. split; [reflexivity |]. split; [reflexivity |].
      split.
      * intros j Hj. replace j with 1%nat by lia. apply Qle_refl.
      * intros j Hj. lia.
    + rewrite B1. cbn [Runner.ge_best].
      destruct (Qle_bool (score m) (score (S k))) eqn:E.
      * apply Qle_bool_iff in E. exists (S k).
        split; [lia |]. split; [reflexivity |]. split; [reflexivity |].
        split.
        -- intros j Hj. destruct (Nat.eq_dec j (S k)) as [-> | Hne].
           ++ apply Qle_refl.
           ++ apply Qle_trans with (score m); [| exact E].
              apply Hmax. lia.
        -- intros j Hj. lia.
      * assert (Hlt : score (S k) < score m).
        { apply Qnot_le_lt. intros H. apply Qle_bool_iff in H.
          rewrite H in E. discriminate E. }
        exists m. split; [lia |]. split; [reflexivity |].
        split; [exact B2 |]. split.
        -- intros j Hj. destruct (Nat.eq_dec j (S k)) as [-> | Hne].
           ++ now apply Qlt_le_weak.
           ++ apply Hmax. lia.
        -- intros j Hj. destruct (Nat.eq_dec j (S k)) as [-> | Hne].
           ++ exact Hlt.
           ++ apply Hlast. lia.
Qed.

(** X18. What a run persists. With saving requested and at least one
    epoch, the bundle dumped at the end of the run is the one exported at
    the last epoch [k] whose sum of per-task returns is the greatest of
    the run: no epoch has a greater sum and every later epoch has a
    strictly smaller one, a tie being resolved in favour of the later
    epoch. The dump is the last call of the run. *)
Theorem best_is_last_maximum (args : Runner.Args) (a : SharedDDPG) :
  let r := Runner.run learn evaluate args a in
  let N := Z.to_nat (Runner.n_epochs args) in
  let score := score_at learn evaluate args a in
  Runner.truthy (Runner.save_shared args) = true ->
  Runner.evaluation_frequency_of args <> 0%Z ->
  (1 <= Runner.n_epochs args)%Z ->
  exists k,
    (1 <= k <= N)%nat
    /\ Runner.best_score_sum (snd r) = Some (score k)
    /\ Runner.best_weights (snd r)
       = Some (get_shared_weights (agent_at learn evaluate args a k))
    /\ (forall j, (1 <= j <= N)%nat -> score j <= score k)
    /\ (forall j, (k < j <= N)%nat -> score j < score k)
    /\ exists tr,
         Runner.trace (snd r)
         = tr ++ [Runner.Dump
                    (Some (get_shared_weights
                             (agent_at learn evaluate args a k)))].
Proof.
  intros r N score Hsave Hef HN. subst r.
  rewrite (run_explicit args a Hef). cbv zeta. fold N. rewrite Hsave.
  cbn [snd with_trace Runner.best_score_sum Runner.best_weights
       Runner.trace].
  destruct (tracking_invariant args a N Hsave)
    as [(E0 & _) | (m & Hm & B1 & B2 & Hmax & Hlast)]; [subst N; lia |].
  exists m. split; [exact Hm |]. split; [exact B1 |]. split; [exact B2 |].
  split; [exact Hmax |]. split; [exact Hlast |].
  rewrite B2. eexists. reflexivity.
Qed.

Lemma export_in_step (z n : Z) (tr : list Runner.event) (u x s : bool) :
  In (Runner.Export z)
    (tr ++ (if u then [Runner.Unfreeze n] else [])
        ++ [Runner.Learn n; Runner.Evaluate n]
        ++ (if x then [Runner.Export n] else [])
        ++ (if s then [Runner.LogAgent n] else []))
  <-> In (Runner.Export z) tr \/ (x = true /\ z = n).
Proof.
  rewrite !in_app_iff. split.
  - intros [H | [H | [H | [H | H]]]]; [now left | | | |].
    + destruct u; [destruct H as [H | []]; discriminate H | destruct H].
    + destruct H as [H | [H | []]]; discriminate H.
    + destruct x; [| destruct H]. destruct H as [H | []].
      injection H as <-. now right.
    + destruct s; [destruct H as [H | []]; discriminate H | destruct H].
  - intros [H | [-> ->]]; [now left |].
    right. right. right. left. now left.
Qed.

Lemma exports_after_epochs (args : Runner.Args) (a : SharedDDPG) (k : nat)
  (z : Z) :
  let score := score_at learn evaluate args a in
  In (Runner.Export z)
    (Runner.trace (after_epochs learn evaluate args a k))
  <-> Runner.truthy (Runner.save_shared args) = true
      /\ exists j, z = Z.of_nat j /\ (1 <= j <= k)%nat
                   /\ forall i, (1 <= i < j)%nat -> score i <= score j.
Proof.
  intros score. induction k as [| k IH].
  - rewrite after_epochs_0. split.
    + intros [H | H]; [discriminate H |].
      destruct (Runner.unfreeze_epoch args >? 0)%Z;
        [destruct H as [H | []]; discriminate H | destruct H].
    + intros (_ & j & _ & Hj & _). lia.
  - rewrite after_epochs_step. cbv zeta. cbn [Runner.trace].
    rewrite export_in_step, IH. fold score.
    destruct (Runner.truthy (Runner.save_shared args)) eqn:Hsave.
    2: { cbn [andb]. split.
         - intros [[H _] | [H _]]; discriminate H.
         - intros [H _]. discriminate H. }
    cbn [andb].
    assert (Hrec : Runner.ge_best (score (S k))
                     (Runner.best_score_sum
                        (after_epochs learn evaluate args a k)) = true
                   <-> forall i, (1 <= i < S k)%nat -> score i <= score (S k)).
    { destruct (tracking_invariant args a k Hsave)
        as [(-> & B1 & _) | (m & Hm & B1 & _ & Hmax & _)];
        rewrite B1; cbn [Runner.ge_best].
      - split; [intros _ i Hi; lia | reflexivity].
      - rewrite Qle_bool_iff. split.
        + intros H i Hi. apply Qle_trans with (score m); [| exact H].
          apply Hmax. lia.
        + intros H. apply H. lia. }
    split.
    + intros [(_ & j & Ez & Hj & Hr) | [Ht Ez]].
      * split; [reflexivity |]. exists j. split; [exact Ez |].
        split; [lia | exact Hr].
      * split; [reflexivity |]. exists (S k). split; [exact Ez |].
        split; [lia |]. now apply Hrec.
    + intros (_ & j & Ez & Hj & Hr).
      destruct (Nat.eq_dec j (S k)) as [-> | Hne].
      * right. split; [now apply Hrec | exact Ez].
      * left. split; [reflexivity |]. exists j. split; [exact Ez |].
        split; [lia | exact Hr].
Qed.

(** X19. When the shared weights are exported. In a run that returns,
    [agent.get_shared_weights()] is called at epoch [j] exactly when saving
    is requested and the sum of per-task returns of epoch [j] is greater
    than or equal to the sum of every earlier epoch of the run (the initial
    evaluation of epoch 0 not counting): in particular always at epoch 1,
    and never when saving is not requested. *)
Theorem export_at_record_epochs (args : Runner.Args) (a : SharedDDPG)
  (z : Z) :
  let r := Runner.run learn evaluate args a in
  let N := Z.to_nat (Runner.n_epochs args) in
  let score := score_at learn evaluate args a in
  Runner.evaluation_frequency_of args <> 0%Z ->
  In (Runner.Export z) (Runner.trace (snd r))
  <-> Runner.truthy (Runner.save_shared args) = true
      /\ exists j, z = Z.of_nat j /\ (1 <= j <= N)%nat
                   /\ forall i, (1 <= i < j)%nat -> score i <= score j.
Proof.
  intros r N score Hef. subst r. rewrite (run_explicit args a Hef).
  cbv zeta. cbn [snd with_trace Runner.trace]. fold N.
  rewrite in_app_iff, (exports_after_epochs args a N z). fold score.
  split; [| intros H; now left].
  intros [H | H]; [exact H |].
  destruct (Runner.truthy (Runner.save_shared args));
    [destruct H as [H | []]; discriminate H | destruct H].
Qed.

(** X30. What the learning phases see. The agent of the end of epoch [k]
    is the result of the learning phase of epoch [k] on the agent of the
    end of epoch [k - 1], unfrozen first when [k >= unfreeze_epoch > 0].
    With a positive threshold [T], the learning phase of every epoch
    [k >= T] receives an agent whose shared weights are trainable in the
    critic and in the actor, whatever the earlier learning phases did; and
    when the learning phases leave the flags alone, the learning phase of
    every epoch [k < T] receives them frozen. *)
Theorem learn_sees_unfrozen (args : Runner.Args) (a : SharedDDPG) (k : nat) :
  let T := Runner.unfreeze_epoch args in
  let handed := handed_to_learn learn evaluate args a in
  agent_at learn evaluate args a (S k)
  = learn (Z.of_nat (S k)) (handed (S k))
  /\ ((T > 0)%Z -> (Z.of_nat (S k) >= T)%Z ->
      shared_trainable (handed (S k)) = (true, true))
  /\ ((T > 0)%Z ->
      (forall n b, shared_trainable (learn n b) = shared_trainable b) ->
      (Z.of_nat (S k) < T)%Z ->
      shared_trainable (handed (S k)) = (false, false)).
Proof.
  intros T handed.
  assert (Estep : forall j,
             agent_at learn evaluate args a (S j)
             = learn (Z.of_nat (S j))
                 (handed_to_learn learn evaluate args a (S j))).
  { intros j. unfold agent_at at 1. rewrite after_epochs_S, epoch_run.
    cbv zeta. cbn [snd Runner.the_agent]. unfold handed_to_learn.
    replace (S j - 1)%nat with j by lia. reflexivity. }
  split; [apply Estep |]. split.
  - intros HT Hge. subst handed. unfold handed_to_learn, Runner.unfreeze_due.
    fold T.
    destruct (Z.geb_spec (Z.of_nat (S k)) T) as [_ | Hlt]; [| lia].
    destruct (Z.gtb_spec T 0) as [_ | Hle]; [| lia].
    reflexivity.
  - intros HT Hkeep Hlt. subst handed.
    assert (Hfrozen : forall j, (Z.of_nat j < T)%Z ->
               shared_trainable (agent_at learn evaluate args a j)
               = (false, false)).
    { induction j as [| j IH]; intros Hj.
      - unfold agent_at. rewrite after_epochs_0. fold T.
        destruct (Z.gtb_spec T 0) as [_ | Hle]; [reflexivity | lia].
      - rewrite Estep, Hkeep. unfold handed_to_learn, Runner.unfreeze_due.
        fold T.
        destruct (Z.geb_spec (Z.of_nat (S j)) T) as [Hge | _]; [lia |].
        cbn [andb]. replace (S j - 1)%nat with j by lia.
        apply IH. lia. }
    unfold handed_to_learn, Runner.unfreeze_due. fold T.
    destruct (Z.geb_spec (Z.of_nat (S k)) T) as [Hge | _]; [lia |].
    cbn [andb]. replace (S k - 1)%nat with k by lia.
    apply Hfrozen. lia.
Qed.

End RunnerProperties.

(* ===================================================================== *)
(** * Properties: the set-up of the experiment *)
(* ===================================================================== *)

Section SetUp.

Import Experiment.

Local Open Scope nat_scope.

Lemma first_max_from_spec (vals : list nat) (i best : nat)
  (idx : option nat) :
  let r := first_max_from i best idx vals in
  best <= fst r
  /\ (forall v, In v vals -> v <= fst r)
  /\ ((snd r = idx /\ fst r = best)
      \/ exists k,
           snd r = Some (i + k) /\ nth_error vals k = Some (fst r)
           /\ best < fst r
           /\ forall j v, j < k -> nth_error vals j = Some v -> v < fst r).
Proof.
  revert i best idx. induction vals as [| v vals IH]; intros i best idx.
  - simpl. split; [lia |]. split; [intros v [] |]. now left.
  - cbn [first_max_from]. destruct (Nat.ltb_spec best v) as [Hlt | Hge].
    + destruct (IH (S i) v (Some i)) as (I1 & I2 & I3).
      set (r := first_max_from (S i) v (Some i) vals) in *.
      split; [lia |]. split.
      { intros u [<- | Hu]; [exact I1 | now apply I2]. }
      right. destruct I3 as [[E1 E2] | (k & E1 & E2 & E3 & E4)].
      * exists 0. rewrite Nat.add_0_r. split; [exact E1 |].
        split; [simpl; now rewrite E2 |]. split; [lia |].
        intros j u Hj. lia.
      * exists (S k). split; [rewrite E1; f_equal; lia |].
        split; [exact E2 |]. split; [lia |].
        intros [| j] u Hj Hu; simpl in Hu.
        -- injection Hu as <-. exact E3.
        -- apply (E4 j); [lia | exact Hu].
    + destruct (IH (S i) best idx) as (I1 & I2 & I3).
      set (r := first_max_from (S i) best idx vals) in *.
      split; [exact I1 |]. split.
      { intros u [<- | Hu]; [lia | now apply I2]. }
      destruct I3 as [[E1 E2] | (k & E1 & E2 & E3 & E4)].
      * left. now split.
      * right. exists (S k). split; [rewrite E1; f_equal; lia |].
        split; [exact E2 |]. split; [exact E3 |].
        intros [| j] u Hj Hu; simpl in Hu.
        -- injection Hu as <-. lia.
        -- apply (E4 j); [lia | exact Hu].
Qed.

Lemma largest_fold (l : list Mdp) (s : nat) (st : Largest) :
  let r := fold_left largest_step (combine (seq s (length l)) l) st in
  (max_obs_dim r, max_obs_idx r)
  = first_max_from s (max_obs_dim st) (max_obs_idx st)
      (map observation_dim l)
  /\ (max_act_n r, max_act_idx r)
     = first_max_from s (max_act_n st) (max_act_idx st)
         (map (fun m => axes (action_shape m)) l).
Proof.
  revert s st. induction l as [| m l IH]; intros s st.
  - simpl. now destruct st.
  - cbn [length seq combine fold_left map first_max_from].
    destruct (IH (S s) (largest_step st (s, m))) as [I1 I2].
    cbv zeta in I1, I2. rewrite I1, I2.
    unfold largest_step. cbn [fst snd].
    destruct (max_obs_dim st <? observation_dim m);
      destruct (max_act_n st <? axes (action_shape m)) eqn:E;
      cbn [max_obs_dim max_obs_idx max_act_n max_act_idx];
      rewrite ?E; cbn [max_obs_dim max_obs_idx max_act_n max_act_idx];
      split; reflexivity.
Qed.

Lemma largest_obs (mdp : list Mdp) :
  (max_obs_dim (largest mdp), max_obs_idx (largest mdp))
  = first_max_from 0 0 None (map observation_dim mdp).
Proof. exact (proj1 (largest_fold mdp 0 _)). Qed.

Lemma largest_act (mdp : list Mdp) :
  (max_act_n (largest mdp), max_act_idx (largest mdp))
  = first_max_from 0 0 None (map (fun m => axes (action_shape m)) mdp).
Proof. exact (proj2 (largest_fold mdp 0 _)). Qed.

(** What the loop of lines 52-62 leaves in one index: nothing when no
    value is positive, and otherwise the first position of the greatest
    value. *)
Lemma first_max_top (vals : list nat) :
  let r := first_max_from 0 0 None vals in
  (snd r = None /\ forall v, In v vals -> v = 0)
  \/ exists k,
       snd r = Some k /\ nth_error vals k = Some (fst r) /\ 0 < fst r
       /\ (forall v, In v vals -> v <= fst r)
       /\ forall j v, j < k -> nth_error vals j = Some v -> v < fst r.
Proof.
  destruct (first_max_from_spec vals 0 0 None) as (_ & H2 & H3).
  cbv zeta. destruct H3 as [[E1 E2] | (k & E1 & E2 & E3 & E4)].
  - left. split; [exact E1 |]. intros v Hv. specialize (H2 v Hv). lia.
  - right. exists k. simpl in E1. auto.
Qed.

Lemma nth_error_map_inv {A B} (f : A -> B) (l : list A) (k : nat) (y : B) :
  nth_error (map f l) k = Some y ->
  exists x, nth_error l k = Some x /\ f x = y.
Proof.
  rewrite nth_error_map. destruct (nth_error l k) as [x |]; [| discriminate].
  intros [= <-]. now exists x.
Qed.

Lemma act_idx_bound (mdp : list Mdp) (m0 : Mdp) :
  In m0 mdp -> exists j, max_act_idx (largest mdp) = Some j.
Proof.
  intros Hin. pose proof (largest_act mdp) as E.
  destruct (first_max_top (map (fun m => axes (action_shape m)) mdp))
    as [[_ H0] | (k & E1 & _)].
  - specialize (H0 (axes (action_shape m0))). unfold axes in H0.
    assert (S (length (snd (action_shape m0))) = 0); [| discriminate].
    apply H0. apply in_map_iff. now exists m0.
  - exists k. rewrite <- E in E1. exact E1.
Qed.

(** The set-up of lines 52-66, when it succeeds. *)
Lemma make_mdp_info_spec (mdp : list Mdp) (info : MDPInfo) :
  make_mdp_info mdp = Ok info ->
  exists i mo j ma,
    max_obs_idx (largest mdp) = Some i
    /\ nth_error mdp i = Some mo
    /\ max_act_idx (largest mdp) = Some j
    /\ nth_error mdp j = Some ma
    /\ info = {| info_observation_dim := observation_dim mo;
                 info_action_shape := action_shape ma;
                 info_gamma := map mdp_gamma mdp;
                 info_horizon := map mdp_horizon mdp |}
    /\ 0 < observation_dim mo
    /\ (forall m, In m mdp -> observation_dim m <= observation_dim mo)
    /\ (forall k m, k < i -> nth_error mdp k = Some m ->
           observation_dim m < observation_dim mo)
    /\ (forall m, In m mdp ->
           axes (action_shape m) <= axes (action_shape ma))
    /\ (forall k m, k < j -> nth_error mdp k = Some m ->
           axes (action_shape m) < axes (action_shape ma)).
Proof.
  intros H. unfold make_mdp_info in H. cbv zeta in H.
  destruct (max_obs_idx (largest mdp)) as [i |] eqn:Ei; [| discriminate].
  destruct (nth_error mdp i) as [mo |] eqn:Emo; [| discriminate].
  destruct (max_act_idx (largest mdp)) as [j |] eqn:Ej; [| discriminate].
  destruct (nth_error mdp j) as [ma |] eqn:Ema; [| discriminate].
  injection H as <-. exists i, mo, j, ma.
  split; [reflexivity |]. split; [exact Emo |]. split; [reflexivity |].
  split; [exact Ema |]. split; [reflexivity |].
  pose proof (largest_obs mdp) as Eo. pose proof (largest_act mdp) as Ea.
  destruct (first_max_top (map observation_dim mdp))
    as [[X _] | (k & X1 & X2 & X3 & X4 & X5)];
    rewrite <- Eo in *; cbn [fst snd] in *; [congruence |].
  rewrite Ei in X1. injection X1 as <-.
  rewrite nth_error_map, Emo in X2. injection X2 as X2.
  destruct (first_max_top (map (fun m => axes (action_shape m)) mdp))
    as [[Y _] | (k & Y1 & Y2 & Y3 & Y4 & Y5)];
    rewrite <- Ea in *; cbn [fst snd] in *; [congruence |].
  rewrite Ej in Y1. injection Y1 as <-.
  rewrite nth_error_map, Ema in Y2. injection Y2 as Y2.
  rewrite X2, Y2.
  split; [exact X3 |]. split.
  { intros m Hm. apply X4. now apply in_map. }
  split.
  { intros k m Hk Hm. apply (X5 k); [exact Hk |].
    now rewrite nth_error_map, Hm. }
  split.
  { intros m Hm. apply Y4. apply in_map_iff. now exists m. }
  intros k m Hk Hm. apply (Y5 k); [exact Hk |].
  now rewrite nth_error_map, Hm.
Qed.

Lemma make_mdp_info_fails (mdp : list Mdp) :
  (make_mdp_info mdp = Fail UnboundLocalError
   <-> forall m, In m mdp -> observation_dim m = 0)
  /\ (forall f, make_mdp_info mdp = Fail f -> f = UnboundLocalError).
Proof.
  pose proof (largest_obs mdp) as Eo.
  destruct (first_max_top (map observation_dim mdp))
    as [[E1 H0] | (k & E1 & E2 & E3 & E4 & E5)];
    rewrite <- Eo in *; cbn [fst snd] in *.
  - assert (Hall : forall m, In m mdp -> observation_dim m = 0).
    { intros m Hm. apply H0. now apply in_map. }
    unfold make_mdp_info. rewrite E1. cbv zeta.
    split; [tauto |]. now intros f [= <-].
  - apply nth_error_map_inv in E2 as (mo & Emo & Edim).
    destruct (act_idx_bound mdp mo (nth_error_In _ _ Emo)) as [j Ej].
    pose proof (largest_act mdp) as Ea.
    assert (Hj : exists ma, nth_error mdp j = Some ma).
    { destruct (first_max_top (map (fun m => axes (action_shape m)) mdp))
        as [[X _] | (k' & X1 & X2 & _)]; rewrite <- Ea in *;
        cbn [fst snd] in *; [congruence |].
      rewrite Ej in X1. injection X1 as <-.
      apply nth_error_map_inv in X2 as (ma & Hma & _). now exists ma. }
    destruct Hj as [ma Ema].
    unfold make_mdp_info. rewrite E1, Emo, Ej, Ema. cbv zeta.
    split; [| discriminate].
    split; [discriminate |]. intros Hall.
    specialize (Hall mo (nth_error_In _ _ Emo)). lia.
Qed.

(** X20. The observation space of the shared [MDPInfo]. When the set-up
    of lines 52-66 succeeds, the observation space is that of the first
    task whose observation dimension is the greatest: every task's
    dimension is at most the shared one, every earlier task's is strictly
    smaller, and the discount factors and horizons are listed task by
    task. The set-up fails with [UnboundLocalError] exactly when no task
    has a positive observation dimension (in particular with no task at
    all), and in no other way. *)
Theorem mdp_info_observation (mdp : list Mdp) :
  (forall info,
     make_mdp_info mdp = Ok info ->
     exists i mo,
       max_obs_idx (largest mdp) = Some i
       /\ nth_error mdp i = Some mo
       /\ info_observation_dim info = observation_dim mo
       /\ 0 < info_observation_dim info
       /\ (forall m, In m mdp ->
             observation_dim m <= info_observation_dim info)
       /\ (forall j m, j < i -> nth_error mdp j = Some m ->
             observation_dim m < info_observation_dim info)
       /\ info_gamma info = map mdp_gamma mdp
       /\ info_horizon info = map mdp_horizon mdp)
  /\ (make_mdp_info mdp = Fail UnboundLocalError
      <-> forall m, In m mdp -> observation_dim m = 0)
  /\ (forall f, make_mdp_info mdp = Fail f -> f = UnboundLocalError).
Proof.
  split; [| exact (make_mdp_info_fails mdp)].
  intros info H.
  destruct (make_mdp_info_spec mdp info H)
    as (i & mo & j & ma & S1 & S2 & _ & _ & -> & S6 & S7 & S8 & _).
  exists i, mo. cbn. auto 10.
Qed.

(** X21. The action space of the shared [MDPInfo]. The loop of lines
    52-62 compares [len(action_space.shape)], the number of axes of the
    action space, not the number of actions: the action space of the
    shared [MDPInfo] is that of the first task with the most axes. When
    every action space has one axis, it is the action space of the first
    task, whatever the action counts of the other tasks. *)
Theorem mdp_info_action (mdp : list Mdp) (info : MDPInfo) :
  make_mdp_info mdp = Ok info ->
  exists j ma,
    max_act_idx (largest mdp) = Some j
    /\ nth_error mdp j = Some ma
    /\ info_action_shape info = action_shape ma
    /\ (forall m, In m mdp ->
          axes (action_shape m) <= axes (action_shape ma))
    /\ (forall k m, k < j -> nth_error mdp k = Some m ->
          axes (action_shape m) < axes (action_shape ma))
    /\ ((forall m, In m mdp -> snd (action_shape m) = []) ->
        j = 0 /\ nth_error mdp 0 = Some ma).
Proof.
  intros H.
  destruct (make_mdp_info_spec mdp info H)
    as (i & mo & j & ma & _ & _ & S3 & S4 & -> & _ & _ & _ & S9 & S10).
  exists j, ma. cbn.
  split; [exact S3 |]. split; [exact S4 |]. split; [reflexivity |].
  split; [exact S9 |]. split; [exact S10 |].
  intros Hflat.
  assert (Ej : j = 0).
  { destruct j as [| j]; [reflexivity |].
    destruct mdp as [| m0 rest]; [discriminate S4 |].
    pose proof (S10 0 m0 ltac:(lia) eq_refl) as Hlt.
    unfold axes in Hlt.
    rewrite (Hflat m0 (or_introl eq_refl)) in Hlt.
    rewrite (Hflat ma (nth_error_In _ _ S4)) in Hlt. simpl in Hlt. lia. }
  subst j. now split.
Qed.

(** X22. The agent that the experiment builds fits its tasks. When the
    set-up and the construction succeed, the agent has one replay buffer,
    one discount factor, one observation width and one action width per
    task; every observation width is at most the width of the state
    arrays and every action width at most the width of the action array,
    so that no column slice of [fit] is clipped; the working arrays are
    allocated for [batch_size * len(mdp)] rows; and each buffer starts
    empty with the minimum size of lines 78-89, the batch size in debug
    mode. *)
Theorem experiment_agent_fits (args : Runner.Args) (sz : Sizes)
  (mdp : list Mdp) (c tc p tp : Network.t) (a : SharedDDPG) :
  make_agent args sz mdp c tc p tp = Ok a ->
  _n_games a = length mdp
  /\ length (gamma a) = length mdp
  /\ length (_replay_memory a) = length mdp
  /\ _n_input_per_mdp a = map observation_dim mdp
  /\ _n_actions_per_head a = map (fun m => fst (action_shape m)) mdp
  /\ (forall i n, nth_error (_n_input_per_mdp a) i = Some n ->
        Nat.min n (obs_width a) = n)
  /\ (forall i n, nth_error (_n_actions_per_head a) i = Some n ->
        Nat.min n (_max_actions a) = n)
  /\ shaped a = true
  /\ _batch_size a = batch_size sz
  /\ (forall m, In m (_replay_memory a) ->
        ReplayMemoryMulty.stored m = []
        /\ ReplayMemoryMulty.min_size m
           = (if Runner.debug args then batch_size sz
              else initial_replay_size sz)).
Proof.
  intros H. unfold make_agent in H.
  destruct (make_mdp_info mdp) as [info | f] eqn:Ei; [| discriminate].
  destruct (max_action_value mdp) as [hs | f]; [| discriminate].
  destruct (__init__ _) as [a0 | e] eqn:Einit; [| discriminate].
  injection H as ->.
  destruct (make_mdp_info_spec mdp info Ei)
    as (i & mo & j & ma & _ & _ & _ & _ & -> & _ & S7 & _).
  unfold __init__, algorithm_params in Einit.
  cbn [Init.n_actions_per_head Init.n_input_per_mdp Init.n_games
       Init.initial_replay_size Init.max_replay_size Init.actor
       Init.target_actor Init.critic Init.target_critic Init.batch_size
       Init.tau Init.observation_width Init.mdp_gamma
       info_observation_dim info_gamma] in Einit.
  destruct (n_actions_per_head mdp) as [| h0 heads] eqn:Eh;
    [discriminate |].
  cbn [py_max] in Einit.
  destruct (Network.set_weights _ tp) as [ta' | e]; [| discriminate].
  destruct (Network.set_weights _ tc) as [tc' | e]; [| discriminate].
  injection Einit as <-.
  unfold _allocate_memory.
  cbn [_n_games gamma _replay_memory _n_input_per_mdp _n_actions_per_head
       obs_width _max_actions with_scratch _batch_size].
  destruct (max_from_spec h0 heads) as [_ M2].
  split; [reflexivity |]. split; [apply length_map |].
  split; [apply repeat_length |].
  split; [unfold n_input_per_mdp; now rewrite map_map |].
  split.
  { change (fst h0 :: map fst heads) with (map fst (h0 :: heads)).
    rewrite <- Eh. unfold n_actions_per_head. now rewrite map_map. }
  split.
  { intros k n Hn. unfold n_input_per_mdp in Hn. rewrite map_map in Hn.
    apply nth_error_map_inv in Hn as (m & Hm & <-). cbn [fst].
    specialize (S7 m (nth_error_In _ _ Hm)). lia. }
  split.
  { intros k n Hn.
    change (fst h0 :: map fst heads) with (map fst (h0 :: heads)) in Hn.
    apply nth_error_In, in_map_iff in Hn as (s & <- & Hs).
    specialize (M2 s Hs). lia. }
  split.
  { match goal with
    | |- shaped (with_scratch _ ?a0) = true =>
        apply (allocate_shaped a0)
    end.
    simpl. now rewrite repeat_length. }
  split; [reflexivity |].
  intros m Hm. apply repeat_spec in Hm. subst m. split; reflexivity.
Qed.

Lemma insert_unique_q_keeps (z : Q) (l : list Q) (v : Q) :
  In v l -> In v (insert_unique_q z l).
Proof.
  induction l as [| x l IH]; intros H; [destruct H |].
  cbn [insert_unique_q]. destruct (negb (Qle_bool x z)); [now right |].
  destruct (Qeq_bool z x); [exact H |].
  destruct H as [<- | H]; [now left | right; now apply IH].
Qed.

Lemma insert_unique_q_has (z : Q) (l : list Q) :
  exists u, In u (insert_unique_q z l) /\ (z == u)%Q.
Proof.
  induction l as [| x l IH].
  - exists z. split; [now left | reflexivity].
  - cbn [insert_unique_q]. destruct (negb (Qle_bool x z)).
    + exists z. split; [now left | reflexivity].
    + destruct (Qeq_bool z x) eqn:E.
      * exists x. split; [now left | now apply Qeq_bool_iff].
      * destruct IH as (u & Hu & Eu). exists u. split; [now right | exact Eu].
Qed.

Lemma np_unique_q_has (l : list Q) (x : Q) :
  In x l -> exists u, In u (np_unique_q l) /\ (x == u)%Q.
Proof.
  induction l as [| z l IH]; intros H; [destruct H |].
  cbn [np_unique_q fold_right]. fold (np_unique_q l).
  destruct H as [<- | H]; [apply insert_unique_q_has |].
  destruct (IH H) as (u & Hu & Eu). exists u.
  split; [now apply insert_unique_q_keeps | exact Eu].
Qed.

Lemma unique_q_singleton (l : list Q) :
  length (np_unique_q l) = 1 ->
  l <> [] /\ forall x y, In x l -> In y l -> (x == y)%Q.
Proof.
  intros H. split; [intros ->; discriminate H |].
  destruct (np_unique_q l) as [| u [| u' r]] eqn:E; try discriminate H.
  intros x y Hx Hy.
  destruct (np_unique_q_has l x Hx) as (u1 & H1 & E1).
  destruct (np_unique_q_has l y Hy) as (u2 & H2 & E2).
  rewrite E in H1, H2.
  destruct H1 as [<- | []]. destruct H2 as [<- | []].
  now rewrite E1, E2.
Qed.

Lemma bound_of_spec (m : Mdp) :
  match bound_of m with
  | Ok h =>
      (0 <= h)%Q
      /\ (exists rest, action_high m = h :: rest)
      /\ action_low m <> []
      /\ (forall y, In y (action_high m) -> (y == h)%Q)
      /\ (forall x, In x (action_low m) -> (Qabs x == h)%Q)
      /\ row_size (action_shape m) = 1
  | Fail f =>
      f = AssertionError
      \/ (f = Python ValueError
          /\ 1 < row_size (action_shape m)
          /\ length (np_unique_q (action_low m)) = 1
          /\ length (np_unique_q (action_high m)) = 1)
  end.
Proof.
  unfold bound_of.
  destruct (Nat.eqb_spec (length (np_unique_q (action_low m))) 1)
    as [E1 | E1]; [| now left].
  destruct (Nat.eqb_spec (length (np_unique_q (action_high m))) 1)
    as [E2 | E2]; [| now left].
  cbn [negb].
  destruct (unique_q_singleton _ E1) as [N1 U1].
  destruct (unique_q_singleton _ E2) as [N2 U2].
  destruct (action_low m) as [| l0 lows]; [contradiction |].
  destruct (action_high m) as [| h0 highs]; [contradiction |].
  destruct (row_size (action_shape m)) as [| [| k]] eqn:Er; [now left | |].
  2: { right. repeat split; auto. lia. }
  destruct (Qeq_bool (Qabs l0) h0) eqn:E; [| now left].
  apply Qeq_bool_iff in E.
  split; [rewrite <- E; apply Qabs_nonneg |].
  split; [now exists highs |]. split; [discriminate |].
  split; [| split; [| reflexivity]].
  - intros y Hy. apply U2; [exact Hy | now left].
  - intros x Hx. rewrite <- E. apply Qabs_wd. apply U1; [exact Hx | now left].
Qed.

(** X23. The bounds that the policy receives. When the assertions of
    lines 69-71 pass, [max_action_value] holds one entry per task, the
    first upper bound of its action space, and this entry bounds the whole
    action box of the task: it is not negative, every upper bound of the
    task equals it and every lower bound has it as its absolute value; and
    [low[0]] and [high[0]] have a single element. The loop fails at the
    first task whose bounds are not of this form: with [AssertionError],
    or with [ValueError] when the two [np.unique] assertions pass on an
    action space of several axes whose rows [low[0]] have more than one
    element. With action spaces of one axis only, it fails with
    [AssertionError] only. *)
Theorem action_bounds_checked (mdp : list Mdp) :
  (forall hs,
     max_action_value mdp = Ok hs ->
     length hs = length mdp
     /\ forall i m h,
          nth_error mdp i = Some m -> nth_error hs i = Some h ->
          (0 <= h)%Q
          /\ (exists rest, action_high m = h :: rest)
          /\ action_low m <> []
          /\ (forall y, In y (action_high m) -> (y == h)%Q)
          /\ (forall x, In x (action_low m) -> (Qabs x == h)%Q)
          /\ row_size (action_shape m) = 1)
  /\ (forall f,
        max_action_value mdp = Fail f ->
        f = AssertionError
        \/ (f = Python ValueError
            /\ exists m, In m mdp
                 /\ 1 < row_size (action_shape m)
                 /\ length (np_unique_q (action_low m)) = 1
                 /\ length (np_unique_q (action_high m)) = 1))
  /\ ((forall m, In m mdp -> snd (action_shape m) = []) ->
      forall f, max_action_value mdp = Fail f -> f = AssertionError).
Proof.
  assert (Main :
    (forall hs,
       max_action_value mdp = Ok hs ->
       length hs = length mdp
       /\ forall i m h,
            nth_error mdp i = Some m -> nth_error hs i = Some h ->
            (0 <= h)%Q
            /\ (exists rest, action_high m = h :: rest)
            /\ action_low m <> []
            /\ (forall y, In y (action_high m) -> (y == h)%Q)
            /\ (forall x, In x (action_low m) -> (Qabs x == h)%Q)
            /\ row_size (action_shape m) = 1)
    /\ (forall f,
          max_action_value mdp = Fail f ->
          f = AssertionError
          \/ (f = Python ValueError
              /\ exists m, In m mdp
                   /\ 1 < row_size (action_shape m)
                   /\ length (np_unique_q (action_low m)) = 1
                   /\ length (np_unique_q (action_high m)) = 1))).
  { induction mdp as [| m0 mdp [IH1 IH2]].
    - split; [| discriminate]. intros hs [= <-]. split; [reflexivity |].
      intros [| i] m h Hm; discriminate Hm.
    - cbn [max_action_value]. pose proof (bound_of_spec m0) as Hb.
      destruct (bound_of m0) as [h0 | f0].
      2: { split; [discriminate |]. intros f [= <-].
           destruct Hb as [-> | (-> & Hb)]; [now left | right].
           split; [reflexivity |]. exists m0. split; [now left | exact Hb]. }
      destruct (max_action_value mdp) as [hs0 | f1].
      2: { split; [discriminate |]. intros f [= <-].
           destruct (IH2 f1 eq_refl) as [-> | (-> & m & Hm & H)];
             [now left | right].
           split; [reflexivity |]. exists m. split; [now right | exact H]. }
      split; [| discriminate]. intros hs [= <-].
      destruct (IH1 hs0 eq_refl) as [L H]. split; [simpl; now rewrite L |].
      intros [| i] m h Hm Hh; simpl in Hm, Hh.
      + injection Hm as <-. injection Hh as <-. exact Hb.
      + now apply (H i). }
  destruct Main as [M1 M2]. split; [exact M1 |]. split; [exact M2 |].
  intros Hone f Hf.
  destruct (M2 f Hf) as [-> | (_ & m & Hm & Hrow & _)]; [reflexivity |].
  unfold row_size in Hrow. rewrite (Hone m Hm) in Hrow. simpl in Hrow. lia.
Qed.

Lemma join_py_list (s : string) : join (py_list s) = s.
Proof.
  induction s as [| c s IH]; [reflexivity |].
  cbn [py_list join fold_right]. fold (join (py_list s)).
  now rewrite IH.
Qed.

(** X24. The game names survive the command line. [--games] is parsed
    with [type=list], which splits every name into its characters, and
    line 29 joins them again: [domains] is the list of the names as they
    were typed, in order. *)
Theorem domains_round_trip (names : list string) :
  domains (map py_list names) = names
  /\ length (domains (map py_list names)) = length names.
Proof.
  assert (E : domains (map py_list names) = names).
  { unfold domains. rewrite map_map.
    induction names as [| s names IH]; [reflexivity |].
    simpl. now rewrite join_py_list, IH. }
  split; [exact E | now rewrite E].
Qed.

Lemma every_nth {A} (n : nat) (l : list A) (skip k : nat) :
  1 <= n -> nth_error (every n skip l) k = nth_error l (skip + k * n).
Proof.
  intros Hn. revert skip k.
  induction l as [| x l IH]; intros skip k.
  - cbn [every]. now destruct k, (skip + _).
  - cbn [every]. destruct skip as [| s].
    + destruct k as [| k]; [reflexivity |].
      cbn [nth_error]. rewrite IH.
      replace (0 + S k * n) with (S (n - 1 + k * n)) by lia. reflexivity.
    + rewrite IH. reflexivity.
Qed.

Lemma mod_shift (p s n i : nat) :
  0 < S s < n -> (p + S s) mod n = i -> p mod n <> i.
Proof.
  intros Hs H E. subst i.
  pose proof (Nat.div_mod_eq p n) as Hp.
  pose proof (Nat.mod_upper_bound p n ltac:(lia)) as Hb.
  set (q := p / n) in *. set (r := p mod n) in *.
  destruct (Nat.lt_ge_cases (r + S s) n) as [Hlt | Hge].
  - assert (E1 : (p + S s) mod n = r + S s).
    { symmetry. apply (Nat.mod_unique _ n q); [exact Hlt | lia]. }
    lia.
  - assert (E1 : (p + S s) mod n = r + S s - n).
    { symmetry. apply (Nat.mod_unique _ n (S q)); [lia | nia]. }
    lia.
Qed.

Lemma every_round_robin (n i : nat) (l : list Sample) (p skip : nat) :
  1 <= n -> skip < n -> (p + skip) mod n = i ->
  (forall j d, nth_error l j = Some d ->
               task_of d = Z.of_nat ((p + j) mod n)) ->
  every n skip l = sub_batch l (Z.of_nat i).
Proof.
  intros Hn. revert p skip. induction l as [| x l IH]; intros p skip Hs Hi H;
    [reflexivity |].
  assert (Hx : task_of x = Z.of_nat (p mod n)).
  { rewrite (H 0%nat x eq_refl). now rewrite Nat.add_0_r. }
  assert (Hl : forall j d, nth_error l j = Some d ->
                 task_of d = Z.of_nat ((S p + j) mod n)).
  { intros j d Hd. rewrite (H (S j) d Hd). do 2 f_equal. lia. }
  cbn [every]. unfold sub_batch. cbn [filter]. fold (sub_batch l (Z.of_nat i)).
  destruct skip as [| s].
  - rewrite Nat.add_0_r in Hi. rewrite Hx, Hi, Z.eqb_refl. f_equal.
    apply (IH (S p)); [lia | | exact Hl].
    replace (S p + (n - 1)) with (p + 1 * n) by lia.
    now rewrite Nat.Div0.mod_add.
  - destruct (Z.eqb_spec (task_of x) (Z.of_nat i)) as [E | _].
    + rewrite Hx in E. apply Nat2Z.inj in E.
      exfalso. exact (mod_shift p s n i ltac:(lia) Hi E).
    + apply (IH (S p)); [lia | | exact Hl].
      rewrite <- Hi. f_equal. lia.
Qed.

(** X25. The per-task scores are computed on the slices
    [dataset[i::len(mdp)]]. Slice [i] holds, in order, the elements of
    the evaluation dataset at the positions [i, i + n, i + 2n, ...]; so it
    is the set of transitions of task [i] exactly when the dataset
    interleaves the tasks in round-robin order, and then it coincides with
    the sub-batch that [fit] routes to the buffer of task [i]. *)
Theorem evaluation_slices (n : nat) (dataset : list Sample) :
  1 <= n ->
  length (per_task n dataset) = n
  /\ (forall i k, i < n ->
        nth_error (per_task n dataset) i = Some (stride i n dataset)
        /\ nth_error (stride i n dataset) k
           = nth_error dataset (i + k * n))
  /\ ((forall j d, nth_error dataset j = Some d ->
                   task_of d = Z.of_nat (j mod n)) ->
      forall i, i < n ->
        stride i n dataset = sub_batch dataset (Z.of_nat i)).
Proof.
  intros Hn. split; [unfold per_task; now rewrite length_map, length_seq |].
  split.
  - intros i k Hi. split.
    + unfold per_task. rewrite nth_error_map, nth_error_seq.
      destruct (Nat.ltb_spec i n); [reflexivity | lia].
    + apply every_nth. exact Hn.
  - intros Hrr i Hi. unfold stride.
    apply (every_round_robin n i dataset 0 i Hn Hi).
    + now rewrite Nat.add_0_l, Nat.mod_small.
    + intros j d Hd. now rewrite (Hrr j d Hd).
Qed.

End SetUp.

(* ===================================================================== *)
(** * The statements at work on the concrete agent *)
(* ===================================================================== *)

Lemma critic_forward0_rows : one_value_per_row Examples.critic_forward0.
Proof. intros net s act idx. apply length_map. Defined.

Lemma critic_step0_size : critic_step_keeps_size Examples.critic_step0.
Proof. intros net s ac q idx. apply length_map. Defined.

Lemma actor_step0_size : actor_step_keeps_size Examples.actor_step0.
Proof. intros net c s idx. apply length_map. Defined.

Lemma critic_step0_returns : critic_step_returns Examples.critic_step0.
Proof. intros net s ac q idx. reflexivity. Defined.

Lemma actor_step0_returns : actor_step_returns Examples.actor_step0.
Proof. intros net c s idx. reflexivity. Defined.

(** [fit] on the two-task dataset: the barrier opens and one cycle runs.
    The fits add 1 to the weights [[1; 2]] of the critic and [[5; 6]] of
    the actor, and with [tau = 1/2] the first weight of the target critic
    moves from 3 to [(2 + 3) / 2], the second weight of the target actor
    from 8 to [(7 + 8) / 2]. *)
Lemma fit_barrier_witness :
  let r := fit Examples.actor_forward0 Examples.critic_forward0
             Examples.critic_step0 Examples.actor_step0
             Examples.dataset0 Examples.rnd0 Examples.world0 in
  let a' := agent (snd r) in
  valid_task_ids 2 Examples.dataset0 = true
  /\ all_initialized (agent (snd (route Examples.dataset0 Examples.world0)))
     = true
  /\ cycle_ready (agent (snd (route Examples.dataset0 Examples.world0)))
     = true
  /\ fst r = Returned tt
  /\ _n_updates a' = 1%nat
  /\ Network.weights (_critic_approximator a') = [2; 3]
  /\ Network.weights (_actor_approximator a') = [6; 7]
  /\ (exists t,
        nth_error (Network.weights (_target_critic_approximator a')) 0
        = Some t /\ t == 5 # 2)
  /\ (exists t,
        nth_error (Network.weights (_target_actor_approximator a')) 1
        = Some t /\ t == 15 # 2).
Proof.
  intros r a'.
  destruct (fit_barrier Examples.actor_forward0 Examples.critic_forward0
              Examples.critic_step0 Examples.actor_step0
              Examples.dataset0 Examples.rnd0 Examples.world0)
    as (Hroute & _ & Hopen & _).
  assert (Hv : valid_task_ids 2 Examples.dataset0 = true) by reflexivity.
  assert (Ha : all_initialized
                 (agent (snd (route Examples.dataset0 Examples.world0)))
               = true) by reflexivity.
  assert (Hc : cycle_ready
                 (agent (snd (route Examples.dataset0 Examples.world0)))
               = true) by reflexivity.
  destruct (Hroute Hv) as (R1 & _).
  destruct (Hopen R1 Ha) as (_ & Hret & Htotal).
  assert (Hok : fst r = Returned tt).
  { apply Htotal;
      [exact critic_forward0_rows | exact critic_step0_size
       | exact actor_step0_size | exact critic_step0_returns
       | exact actor_step0_returns | exact Hc]. }
  split; [exact Hv |]. split; [exact Ha |]. split; [exact Hc |].
  split; [exact Hok |].
  destruct (Hret Hok)
    as (N & _ & q_next & q & wc & wa & _ & _ & _ & Ec & Ecr & Ea & Eac
        & _ & _ & Sc & Sa).
  fold r a' in N, Ecr, Eac, Sc, Sa.
  injection Ec as <-. injection Ea as <-.
  split; [exact N |].
  split; [rewrite Ecr; reflexivity |].
  split; [rewrite Eac; reflexivity |].
  destruct Sc as [_ Sc]. destruct Sa as [_ Sa].
  split.
  - eexists. split; [apply (Sc 0%nat 2 3); reflexivity |].
    vm_compute. reflexivity.
  - eexists. split; [apply (Sa 1%nat 7 8); reflexivity |].
    vm_compute. reflexivity.
Defined.


(** The soft update of the concrete agent, [tau = 1/2]. *)
Lemma soft_update_rule_witness :
  length [1; 2] = length [3; 4]
  /\ length [5; 6] = length [7; 8]
  /\ exists tc' tp',
       fst (_update_target Examples.world0) = Returned tt
       /\ Network.weights
            (_target_critic_approximator
               (agent (snd (_update_target Examples.world0)))) = tc'
       /\ Network.weights
            (_target_actor_approximator
               (agent (snd (_update_target Examples.world0)))) = tp'
       /\ soft_updated (1 # 2) [1; 2] [3; 4] tc'
       /\ soft_updated (1 # 2) [5; 6] [7; 8] tp'.
Proof.
  split; [reflexivity |]. split; [reflexivity |].
  destruct (soft_update_rule Examples.world0 eq_refl eq_refl)
    as (tc' & tp' & E & Hc & Hp & _).
  exists tc', tp'. rewrite E. simpl.
  split; [reflexivity |]. split; [reflexivity |]. split; [reflexivity |].
  split; [exact Hc | exact Hp].
Defined.

(** The padding property after a [fit] call on the allocated agent. *)
Lemma padding_invariant_witness :
  let w := snd (fit Examples.actor_forward0 Examples.critic_forward0
                  Examples.critic_step0 Examples.actor_step0
                  Examples.dataset0 Examples.rnd0 Examples.world0) in
  reachable Examples.actor_forward0 Examples.critic_forward0
    Examples.critic_step0 Examples.actor_step0 w
  /\ padding_holds (agent w) /\ next_padding_holds (agent w).
Proof.
  intros w.
  assert (Hr : reachable Examples.actor_forward0 Examples.critic_forward0
                 Examples.critic_step0 Examples.actor_step0 w).
  { apply reach_fit. apply reach_allocate. }
  split; [exact Hr |].
  exact (padding_invariant Examples.actor_forward0 Examples.critic_forward0
           Examples.critic_step0 Examples.actor_step0 w Hr).
Defined.





(** Three epochs with threshold 1: one freeze, three unfreeze calls. *)
Lemma unfreeze_schedule_witness :
  let r := Runner.run Examples.learn0 Examples.evaluate0
             Examples.args_unfreeze Examples.agent0 in
  Runner.evaluation_frequency_of Examples.args_unfreeze <> 0%Z
  /\ fst r = Returned tt
  /\ Runner.count_freeze (Runner.trace (snd r)) = 1%nat
  /\ Runner.count_unfreeze (Runner.trace (snd r)) = 3%nat.
Proof.
  intros r.
  assert (Hef : Runner.evaluation_frequency_of Examples.args_unfreeze <> 0%Z)
    by discriminate.
  destruct (unfreeze_schedule Examples.learn0 Examples.evaluate0
              Examples.args_unfreeze Examples.agent0 Hef)
    as (H1 & _ & H3 & H4 & _).
  split; [exact Hef |]. split; [exact H1 |].
  split; [exact H3 | exact H4].
Defined.

(** C7 fails on the code. With threshold 1 and three epochs,
    [unfreeze_shared_weights()] is called at every epoch, three times in
    all, not exactly once. *)
Lemma unfreeze_called_every_epoch :
  let r := Runner.run Examples.learn0 Examples.evaluate0
             Examples.args_unfreeze Examples.agent0 in
  (Runner.unfreeze_epoch Examples.args_unfreeze > 0)%Z
  /\ fst r = Returned tt
  /\ Runner.schedule (Runner.trace (snd r))
     = [Runner.Freeze;
        Runner.Unfreeze 1; Runner.Learn 1;
        Runner.Unfreeze 2; Runner.Learn 2;
        Runner.Unfreeze 3; Runner.Learn 3]
  /\ Runner.count_unfreeze (Runner.trace (snd r)) = 3%nat
  /\ Runner.count_unfreeze (Runner.trace (snd r)) <> 1%nat.
Proof.
  intros r. repeat split; try reflexivity; discriminate.
Qed.

(** The run with saving requested ends with the dump of the best bundle. *)
Lemma best_snapshot_tracking_witness :
  let r := Runner.run Examples.learn0 Examples.evaluate0
             Examples.args_unfreeze Examples.agent0 in
  Runner.evaluation_frequency_of Examples.args_unfreeze <> 0%Z
  /\ fst r = Returned tt
  /\ exists tr,
       Runner.trace (snd r)
       = tr ++ [Runner.Dump (Runner.best_weights (snd r))]
       /\ existsb Runner.is_dump tr = false.
Proof.
  intros r.
  assert (Hef : Runner.evaluation_frequency_of Examples.args_unfreeze <> 0%Z)
    by discriminate.
  destruct (best_snapshot_tracking Examples.learn0 Examples.evaluate0
              Examples.args_unfreeze) as (_ & _ & H).
  destruct (H Examples.agent0 Hef) as [H1 H2].
  split; [exact Hef |]. split; [exact H1 |]. exact H2.
Defined.

(** C8 fails on the code. When saving is not requested, the evaluation of
    epoch 1 gives a sum that is at least the best so far ([-inf]), and yet
    no bundle is stored; and with saving requested but no learning epoch,
    the initial evaluation of epoch 0 stores no bundle either: the run
    persists [None]. *)
Lemma best_not_tracked_without_save :
  let s := Runner.start Examples.agent0 in
  let r := Runner.epoch Examples.learn0 Examples.evaluate0
             Examples.args_no_save 1 s in
  let sum := Runner.np_sum
               (Examples.evaluate0 1 (Runner.the_agent (snd r))) in
  let r0 := Runner.run Examples.learn0 Examples.evaluate0
              Examples.args_no_epoch Examples.agent0 in
  fst r = Returned tt
  /\ Runner.ge_best sum (Runner.best_score_sum s) = true
  /\ Runner.best_weights (snd r) = None
  /\ Runner.best_weights (snd r)
     <> Some (get_shared_weights (Runner.the_agent (snd r)))
  /\ fst r0 = Returned tt
  /\ Runner.trace (snd r0) = [Runner.Evaluate 0; Runner.Dump None].
Proof.
  intros s r sum r0. repeat split; try reflexivity; discriminate.
Qed.

(* ===================================================================== *)
(** * The further properties at work on concrete inputs *)
(* ===================================================================== *)

(** After a first cycle, [fit] with an empty dataset runs a second one. *)
Lemma fit_empty_dataset_witness :
  let fit0 := fit Examples.actor_forward0 Examples.critic_forward0
                Examples.critic_step0 Examples.actor_step0 in
  let w := snd (fit0 Examples.dataset0 Examples.rnd0 Examples.world0) in
  all_initialized (agent w) = true
  /\ fst (fit0 [] Examples.rnd0 w) = Returned tt
  /\ _n_updates (agent (snd (fit0 [] Examples.rnd0 w))) = 2%nat.
Proof.
  intros fit0 w.
  destruct (fit_empty_dataset Examples.actor_forward0
              Examples.critic_forward0 Examples.critic_step0
              Examples.actor_step0 Examples.rnd0 w) as (_ & _ & H).
  assert (Ha : all_initialized (agent w) = true) by reflexivity.
  assert (Hr : fst (fit0 [] Examples.rnd0 w) = Returned tt) by reflexivity.
  split; [exact Ha |]. split; [exact Hr |].
  destruct (H Ha Hr) as [H1 _]. unfold fit0. rewrite H1. reflexivity.
Defined.

(** One task and batch size 1: the first [fit] that reaches the cycle
    raises [IndexError]. *)
Lemma fit_on_squeezed_state_witness :
  let w := (Examples.agent_single, @nil event) in
  let m := ReplayMemoryMulty.add Examples.dataset_single
             (ReplayMemoryMulty.create 1 3) in
  shaped (agent w) = true
  /\ is_nd2 (_state (scratch (agent w))) = false
  /\ fst (route Examples.dataset_single w) = Returned tt
  /\ all_initialized (agent (snd (route Examples.dataset_single w))) = true
  /\ nth_error (_replay_memory
                  (agent (snd (route Examples.dataset_single w)))) 0
     = Some m
  /\ ReplayMemoryMulty.stored m <> []
  /\ nth_error (_n_input_per_mdp (agent w)) 0 = Some 2%nat
  /\ fst (fit Examples.actor_forward0 Examples.critic_forward0
            Examples.critic_step0 Examples.actor_step0
            Examples.dataset_single Examples.rnd0 w)
     = Raised IndexError.
Proof.
  intros w m.
  assert (H1 : shaped (agent w) = true) by reflexivity.
  assert (H2 : is_nd2 (_state (scratch (agent w))) = false) by reflexivity.
  assert (H3 : fst (route Examples.dataset_single w) = Returned tt)
    by reflexivity.
  assert (H4 : all_initialized
                 (agent (snd (route Examples.dataset_single w))) = true)
    by reflexivity.
  assert (H5 : nth_error (_replay_memory
                            (agent (snd (route Examples.dataset_single w))))
                 0 = Some m) by reflexivity.
  assert (H6 : ReplayMemoryMulty.stored m <> []) by discriminate.
  assert (H7 : nth_error (_n_input_per_mdp (agent w)) 0 = Some 2%nat)
    by reflexivity.
  repeat (split; [assumption |]).
  exact (proj1 (proj2 (fit_on_squeezed_state Examples.actor_forward0
                         Examples.critic_forward0 Examples.critic_step0
                         Examples.actor_step0 Examples.dataset_single
                         Examples.rnd0 w m 2%nat H1 H2 H3 H4 H5 H6 H7))).
Defined.

(** Once both buffers are initialized, a later [fit] updates again. *)
Lemma barrier_stays_open_witness :
  let fit0 := fit Examples.actor_forward0 Examples.critic_forward0
                Examples.critic_step0 Examples.actor_step0 in
  let w := snd (fit0 Examples.dataset0 Examples.rnd0 Examples.world0) in
  all_initialized (agent w) = true
  /\ all_initialized
       (agent (snd (fit0 Examples.dataset_single Examples.rnd0 w))) = true.
Proof.
  intros fit0 w.
  assert (Ha : all_initialized (agent w) = true) by reflexivity.
  split; [exact Ha |].
  exact (proj1 (barrier_stays_open Examples.actor_forward0
                  Examples.critic_forward0 Examples.critic_step0
                  Examples.actor_step0 Examples.dataset_single
                  Examples.rnd0 w Ha)).
Defined.

(** The dataset starts with task 1, and yet task 0 is served first. *)
Lemma routing_in_task_order_witness :
  valid_task_ids 2 Examples.dataset0 = true
  /\ calls (snd (route Examples.dataset0 Examples.world0))
     = [EvAdd 0 (sub_batch Examples.dataset0 0);
        EvAdd 1 (sub_batch Examples.dataset0 1)].
Proof.
  assert (Hv : valid_task_ids 2 Examples.dataset0 = true) by reflexivity.
  split; [exact Hv |].
  rewrite (proj2 (routing_in_task_order Examples.dataset0 Examples.world0
                    Hv)).
  reflexivity.
Defined.

(** The four transitions of the dataset are added, each once. *)
Lemma routing_partitions_dataset_witness :
  has_unindexable_id 2 Examples.dataset0 = false
  /\ Permutation (flat_map added (routing_calls Examples.dataset0 2))
       Examples.dataset0.
Proof.
  assert (Hok : has_unindexable_id 2 Examples.dataset0 = false)
    by reflexivity.
  split; [exact Hok |].
  exact (proj2 (routing_partitions_dataset Examples.dataset0
                  Examples.world0 Hok)).
Defined.

(** A target critic of three parameters against a live one of two. *)
Lemma update_target_size_mismatch_witness :
  length [3; 4; 5] <> length [1; 2]
  /\ length [3; 4; 5] <> 1%nat
  /\ _update_target (Examples.agent_mismatch, @nil event)
     = (Raised ValueError, (Examples.agent_mismatch, @nil event)).
Proof.
  assert (H1 : length [3; 4; 5] <> length [1; 2]) by discriminate.
  assert (H2 : length [3; 4; 5] <> 1%nat) by discriminate.
  split; [exact H1 |]. split; [exact H2 |].
  exact (proj1 (update_target_size_mismatch
                  (Examples.agent_mismatch, @nil event)) H1 H2).
Defined.

(** On the allocated agent every entry of [_next_q] is [8 * gamma_i]. *)
Lemma next_q_mask_uniform_witness :
  one_value_per_row Examples.critic_forward0
  /\ shaped Examples.agent0 = true
  /\ (_n_games Examples.agent0 <= length (gamma Examples.agent0))%nat
  /\ exists out,
       _next_q Examples.actor_forward0 Examples.critic_forward0
         Examples.agent0 = Returned out
       /\ length out = 4%nat.
Proof.
  assert (H2 : shaped Examples.agent0 = true) by reflexivity.
  assert (H3 : (_n_games Examples.agent0
                <= length (gamma Examples.agent0))%nat)
    by (vm_compute; lia).
  split; [exact critic_forward0_rows |]. split; [exact H2 |].
  split; [exact H3 |].
  destruct (next_q_mask_uniform Examples.actor_forward0
              Examples.critic_forward0 Examples.agent0
              critic_forward0_rows H2 H3) as (out & E & L & _).
  exists out. split; [exact E | exact L].
Defined.

(** Two tasks and one discount factor: the cycle ends in [_next_q], after
    the two forward passes. *)
Lemma next_q_short_gamma_witness :
  let a := Examples.agent_short_gamma in
  one_value_per_row Examples.critic_forward0
  /\ shaped a = true
  /\ (length (gamma a) < _n_games a)%nat
  /\ _next_q Examples.actor_forward0 Examples.critic_forward0 a
     = Raised IndexError
  /\ exists l,
       learn_step Examples.actor_forward0 Examples.critic_forward0
         Examples.critic_step0 Examples.actor_step0 (a, [])
       = (Raised IndexError, (a, l))
       /\ map is_forward l = [true; true].
Proof.
  intros a.
  assert (H2 : shaped a = true) by reflexivity.
  assert (H3 : (length (gamma a) < _n_games a)%nat) by (vm_compute; lia).
  split; [exact critic_forward0_rows |]. split; [exact H2 |].
  split; [exact H3 |].
  destruct (next_q_short_gamma Examples.actor_forward0
              Examples.critic_forward0 Examples.critic_step0
              Examples.actor_step0 a critic_forward0_rows H2 H3)
    as [E1 E2].
  split; [exact E1 |]. eexists. split; [exact (E2 []) | reflexivity].
Defined.

(** The construction of the concrete agent. *)
Lemma init_fresh_agent_witness :
  Init.n_actions_per_head Examples.init_args <> []
  /\ length (Network.weights (Init.actor Examples.init_args))
     = length (Network.weights (Init.target_actor Examples.init_args))
  /\ length (Network.weights (Init.critic Examples.init_args))
     = length (Network.weights (Init.target_critic Examples.init_args))
  /\ exists a,
       __init__ Examples.init_args = Returned a
       /\ Network.weights (_target_critic_approximator a) = [1; 2]
       /\ shaped a = true.
Proof.
  assert (H1 : Init.n_actions_per_head Examples.init_args <> [])
    by discriminate.
  split; [exact H1 |]. split; [reflexivity |]. split; [reflexivity |].
  destruct (init_fresh_agent Examples.init_args H1 eq_refl eq_refl)
    as (a & E & _ & _ & T & _ & _ & _ & _ & S & _).
  exists a. split; [exact E |]. split; [exact T | exact S].
Defined.

(** The action array of the constructed agent is two columns wide. *)
Lemma init_widths_fit_witness :
  exists a,
    __init__ Examples.init_args = Returned a
    /\ In (_max_actions a) (_n_actions_per_head a)
    /\ forall i n, nth_error (_n_actions_per_head a) i = Some n ->
                   (n <= _max_actions a)%nat.
Proof.
  eexists. split; [reflexivity |].
  match goal with
  | |- In (_max_actions ?a) _ /\ _ =>
      destruct (init_widths_fit Examples.init_args a eq_refl)
        as (H1 & H2 & _)
  end.
  split; [exact H2 |]. intros i n Hn. exact (proj1 (H1 i n Hn)).
Defined.

(** The critic answers 8 on every row: the loss is not positive. *)
Lemma actor_loss_sign_witness :
  one_value_per_row Examples.critic_forward0
  /\ (forall x,
        In x (Examples.critic_forward0 (Examples.net [1; 2]) (Nd0 0)
                [[1]; [1]] [0%Z; 1%Z]) -> 0 <= x)
  /\ [0%Z; 1%Z] <> []
  /\ exists v,
       ActorLoss_forward Examples.critic_forward0 (Examples.net [1; 2])
         [[1]; [1]] (Nd0 0) [0%Z; 1%Z] = Some v
       /\ v <= 0.
Proof.
  assert (Hb : forall x,
             In x (Examples.critic_forward0 (Examples.net [1; 2]) (Nd0 0)
                     [[1]; [1]] [0%Z; 1%Z]) -> 0 <= x).
  { intros x [<- | [<- | []]]; discriminate. }
  assert (Hne : [0%Z; 1%Z] <> []) by discriminate.
  split; [exact critic_forward0_rows |]. split; [exact Hb |].
  split; [exact Hne |].
  destruct (proj1 (actor_loss_sign Examples.critic_forward0
                     (Examples.net [1; 2]) [[1]; [1]] (Nd0 0) [0%Z; 1%Z]
                     critic_forward0_rows) Hne) as (v & E & Hpos & _).
  exists v. split; [exact E | exact (Hpos Hb)].
Defined.

(** The shared weights of the squeezed agent go to the concrete one. *)
Lemma transfer_shared_weights_witness :
  length (Network.get_shared_weights
            (_critic_approximator Examples.agent_single))
  = length (Network.get_shared_weights
              (_critic_approximator Examples.agent0))
  /\ length (Network.get_shared_weights
               (_actor_approximator Examples.agent_single))
     = length (Network.get_shared_weights
                 (_actor_approximator Examples.agent0))
  /\ exists dst',
       set_shared_weights (get_shared_weights Examples.agent_single)
         Examples.agent0 = (Returned tt, dst')
       /\ get_shared_weights dst' = get_shared_weights Examples.agent_single.
Proof.
  split; [reflexivity |]. split; [reflexivity |].
  destruct (transfer_shared_weights Examples.agent_single Examples.agent0
              eq_refl eq_refl) as (dst' & E & G & _).
  exists dst'. split; [exact E | exact G].
Defined.

Lemma actor_step_raising_size :
  actor_step_keeps_size Examples.actor_step_raising.
Proof. intros net c s idx. reflexivity. Defined.

(** The actor's [fit] raises in the first cycle: the critic has been
    updated, the actor, the targets and the counter have not. *)
Lemma failed_fit_keeps_targets_witness :
  let r := fit Examples.actor_forward0 Examples.critic_forward0
             Examples.critic_step0 Examples.actor_step_raising
             Examples.dataset0 Examples.rnd0 Examples.world0 in
  critic_step_keeps_size Examples.critic_step0
  /\ actor_step_keeps_size Examples.actor_step_raising
  /\ fst r = Raised ApproximatorError
  /\ _target_critic_approximator (agent (snd r))
     = _target_critic_approximator Examples.agent0
  /\ _target_actor_approximator (agent (snd r))
     = _target_actor_approximator Examples.agent0
  /\ _n_updates (agent (snd r)) = 0%nat
  /\ Network.weights (_critic_approximator (agent (snd r))) = [2; 3]
  /\ Network.weights (_actor_approximator (agent (snd r))) = [5; 6].
Proof.
  intros r.
  assert (Hr : fst r = Raised ApproximatorError) by reflexivity.
  split; [exact critic_step0_size |].
  split; [exact actor_step_raising_size |].
  split; [exact Hr |].
  destruct (failed_fit_keeps_targets Examples.actor_forward0
              Examples.critic_forward0 Examples.critic_step0
              Examples.actor_step_raising Examples.dataset0 Examples.rnd0
              Examples.world0 ApproximatorError critic_step0_size
              actor_step_raising_size eq_refl eq_refl Hr)
    as (H1 & H2 & H3 & _).
  split; [exact H1 |]. split; [exact H2 |]. split; [exact H3 |].
  split; reflexivity.
Defined.

(** The two interleavings of the same transitions. *)
Lemma fit_ignores_interleaving_witness :
  (forall g, sub_batch Examples.dataset0 g
             = sub_batch Examples.dataset_interleaved g)
  /\ fit Examples.actor_forward0 Examples.critic_forward0
       Examples.critic_step0 Examples.actor_step0
       Examples.dataset0 Examples.rnd0 Examples.world0
     = fit Examples.actor_forward0 Examples.critic_forward0
         Examples.critic_step0 Examples.actor_step0
         Examples.dataset_interleaved Examples.rnd0 Examples.world0.
Proof.
  assert (H : forall g, sub_batch Examples.dataset0 g
                        = sub_batch Examples.dataset_interleaved g).
  { intros g. unfold sub_batch, Examples.dataset0,
      Examples.dataset_interleaved, task_of, Examples.sample.
    cbn [filter fst s_state].
    destruct (Z.eqb_spec 1 g) as [E1 | E1];
      destruct (Z.eqb_spec 0 g) as [E0 | E0]; try reflexivity.
    exfalso. rewrite <- E0 in E1. discriminate E1. }
  split; [exact H |].
  exact (proj2 (fit_ignores_interleaving Examples.actor_forward0
                  Examples.critic_forward0 Examples.critic_step0
                  Examples.actor_step0 Examples.dataset0
                  Examples.dataset_interleaved Examples.rnd0
                  Examples.world0 H)).
Defined.

(** No epoch and saving requested: the run persists [None]. *)
Lemma run_without_epoch_witness :
  let r := Runner.run Examples.learn0 Examples.evaluate0
             Examples.args_no_epoch Examples.agent0 in
  Runner.evaluation_frequency_of Examples.args_no_epoch <> 0%Z
  /\ (Runner.n_epochs Examples.args_no_epoch <= 0)%Z
  /\ fst r = Returned tt
  /\ Runner.trace (snd r) = [Runner.Evaluate 0; Runner.Dump None].
Proof.
  intros r.
  assert (H1 : Runner.evaluation_frequency_of Examples.args_no_epoch <> 0%Z)
    by discriminate.
  assert (H2 : (Runner.n_epochs Examples.args_no_epoch <= 0)%Z)
    by (vm_compute; discriminate).
  split; [exact H1 |]. split; [exact H2 |].
  destruct (run_without_epoch Examples.learn0 Examples.evaluate0
              Examples.args_no_epoch Examples.agent0 H1 H2)
    as (R1 & R2 & _).
  split; [exact R1 | exact R2].
Defined.

(** Three epochs: three learning calls, four evaluations. *)
Lemma run_activity_witness :
  let r := Runner.run Examples.learn0 Examples.evaluate0
             Examples.args_unfreeze Examples.agent0 in
  Runner.evaluation_frequency_of Examples.args_unfreeze <> 0%Z
  /\ activity (Runner.trace (snd r))
     = [Runner.Evaluate 0;
        Runner.Learn 1; Runner.Evaluate 1;
        Runner.Learn 2; Runner.Evaluate 2;
        Runner.Learn 3; Runner.Evaluate 3].
Proof.
  intros r.
  assert (H1 : Runner.evaluation_frequency_of Examples.args_unfreeze <> 0%Z)
    by discriminate.
  split; [exact H1 |].
  destruct (run_activity Examples.learn0 Examples.evaluate0
              Examples.args_unfreeze Examples.agent0 H1) as (_ & R2 & _).
  unfold r. rewrite R2. reflexivity.
Defined.

(** Sums 3, 5, 5 in the epochs 1, 2, 3: the bundle of epoch 3 is kept. *)
Lemma best_is_last_maximum_witness :
  let r := Runner.run Examples.learn0 Examples.evaluate1
             Examples.args_unfreeze Examples.agent0 in
  Runner.truthy (Runner.save_shared Examples.args_unfreeze) = true
  /\ Runner.evaluation_frequency_of Examples.args_unfreeze <> 0%Z
  /\ (1 <= Runner.n_epochs Examples.args_unfreeze)%Z
  /\ exists k,
       (1 <= k <= 3)%nat
       /\ Runner.best_score_sum (snd r)
          = Some (score_at Examples.learn0 Examples.evaluate1
                    Examples.args_unfreeze Examples.agent0 k)
       /\ forall j, (k < j <= 3)%nat ->
            score_at Examples.learn0 Examples.evaluate1
              Examples.args_unfreeze Examples.agent0 j
            < score_at Examples.learn0 Examples.evaluate1
                Examples.args_unfreeze Examples.agent0 k.
Proof.
  intros r.
  assert (H1 : Runner.truthy (Runner.save_shared Examples.args_unfreeze)
               = true) by reflexivity.
  assert (H2 : Runner.evaluation_frequency_of Examples.args_unfreeze <> 0%Z)
    by discriminate.
  assert (H3 : (1 <= Runner.n_epochs Examples.args_unfreeze)%Z)
    by (vm_compute; discriminate).
  split; [exact H1 |]. split; [exact H2 |]. split; [exact H3 |].
  destruct (best_is_last_maximum Examples.learn0 Examples.evaluate1
              Examples.args_unfreeze Examples.agent0 H1 H2 H3)
    as (k & K1 & K2 & _ & _ & K5 & _).
  exists k. split; [exact K1 |]. split; [exact K2 | exact K5].
Defined.

(** Sums 3, 5, 5: every epoch equals or beats the earlier ones, so the
    bundle is exported three times. *)
Lemma export_at_record_epochs_witness :
  let r := Runner.run Examples.learn0 Examples.evaluate1
             Examples.args_unfreeze Examples.agent0 in
  Runner.evaluation_frequency_of Examples.args_unfreeze <> 0%Z
  /\ In (Runner.Export 3) (Runner.trace (snd r))
  /\ exists j, 3%Z = Z.of_nat j /\ (1 <= j <= 3)%nat.
Proof.
  intros r.
  assert (H1 : Runner.evaluation_frequency_of Examples.args_unfreeze <> 0%Z)
    by discriminate.
  assert (H2 : In (Runner.Export 3) (Runner.trace (snd r))).
  { vm_compute. do 13 right. now left. }
  split; [exact H1 |]. split; [exact H2 |].
  destruct (proj1 (export_at_record_epochs Examples.learn0
                     Examples.evaluate1 Examples.args_unfreeze
                     Examples.agent0 3%Z H1) H2)
    as (_ & j & E & Hj & _).
  exists j. split; [exact E | exact Hj].
Defined.

(** The action space of the shared [MDPInfo] is that of the first task,
    with one action, although the second task has two. *)
Lemma mdp_info_action_witness :
  exists info,
    Experiment.make_mdp_info Examples.mdps = Experiment.Ok info
    /\ Experiment.info_observation_dim info = 3%nat
    /\ Experiment.info_action_shape info = (1%nat, [])
    /\ Experiment.max_act_idx (Experiment.largest Examples.mdps)
       = Some 0%nat.
Proof.
  eexists. split; [reflexivity |]. split; [reflexivity |].
  match goal with
  | |- Experiment.info_action_shape ?info = _ /\ _ =>
      destruct (mdp_info_action Examples.mdps info eq_refl)
        as (j & ma & J1 & J2 & J3 & _ & _ & J6)
  end.
  assert (Hflat : forall m, In m Examples.mdps ->
                    snd (Experiment.action_shape m) = []).
  { intros m [<- | [<- | []]]; reflexivity. }
  destruct (J6 Hflat) as [-> J0].
  split; [| exact J1].
  rewrite J3. simpl in J0. injection J0 as <-. reflexivity.
Defined.

(** The agent of the two-task experiment. *)
Lemma experiment_agent_fits_witness :
  exists a,
    Experiment.make_agent Examples.args_unfreeze Examples.sizes
      Examples.mdps (Examples.net [1; 2]) (Examples.net [3; 4])
      (Examples.net [5; 6]) (Examples.net [7; 8]) = Experiment.Ok a
    /\ _n_games a = 2%nat
    /\ length (gamma a) = 2%nat
    /\ shaped a = true.
Proof.
  eexists. split; [reflexivity |].
  match goal with
  | |- _n_games ?a = _ /\ _ =>
      destruct (experiment_agent_fits Examples.args_unfreeze Examples.sizes
                  Examples.mdps (Examples.net [1; 2]) (Examples.net [3; 4])
                  (Examples.net [5; 6]) (Examples.net [7; 8]) a eq_refl)
        as (F1 & F2 & _ & _ & _ & _ & _ & F8 & _)
  end.
  split; [exact F1 |]. split; [exact F2 | exact F8].
Defined.

(** A round-robin evaluation dataset of two tasks. *)
Lemma evaluation_slices_witness :
  (1 <= 2)%nat
  /\ length (per_task 2 Examples.dataset_interleaved) = 2%nat
  /\ nth_error (stride 1 2 Examples.dataset_interleaved) 1
     = nth_error Examples.dataset_interleaved 3.
Proof.
  assert (H : (1 <= 2)%nat) by lia.
  split; [exact H |].
  destruct (evaluation_slices 2 Examples.dataset_interleaved H)
    as (E1 & E2 & _).
  split; [exact E1 |].
  exact (proj2 (E2 1%nat 1%nat ltac:(lia))).
Defined.

(** Two more [fit] calls after the first cycle: three updates in all. *)
Lemma n_updates_counts_fits_witness :
  let fit0 := fit Examples.actor_forward0 Examples.critic_forward0
                Examples.critic_step0 Examples.actor_step0 in
  let fits0 := fits Examples.actor_forward0 Examples.critic_forward0
                 Examples.critic_step0 Examples.actor_step0 in
  let w := snd (fit0 Examples.dataset0 Examples.rnd0 Examples.world0) in
  let steps := [(Examples.dataset_single, Examples.rnd0);
                (@nil Sample, Examples.rnd0)] in
  all_initialized (agent w) = true
  /\ fst (fits0 steps w) = Returned tt
  /\ _n_updates (agent (snd (fits0 steps w))) = 3%nat.
Proof.
  intros fit0 fits0 w steps.
  assert (Ha : all_initialized (agent w) = true) by reflexivity.
  assert (Hr : fst (fits0 steps w) = Returned tt) by reflexivity.
  split; [exact Ha |]. split; [exact Hr |].
  destruct (n_updates_counts_fits Examples.actor_forward0
              Examples.critic_forward0 Examples.critic_step0
              Examples.actor_step0 steps w Ha Hr) as [H _].
  unfold fits0. rewrite H. reflexivity.
Defined.

(** A bundle of one element: the critic is overwritten, then
    [IndexError]. *)
Lemma set_shared_weights_partial_witness :
  exists c,
    Network.set_shared_weights [9]
      (_critic_approximator Examples.agent0) = Returned c
    /\ Network.weights c = [9; 2]
    /\ set_shared_weights [[9]] Examples.agent0
       = (Raised IndexError, with_critic c Examples.agent0).
Proof.
  eexists. split; [reflexivity |]. split; [reflexivity |].
  destruct (set_shared_weights_partial Examples.agent0 [9] [] [])
    as (_ & H & _).
  apply H. reflexivity.
Defined.

(** Reloading the agent after a cycle gives back zero-filled arrays. *)
Lemma post_load_reallocates_witness :
  let w := snd (fit Examples.actor_forward0 Examples.critic_forward0
                  Examples.critic_step0 Examples.actor_step0
                  Examples.dataset0 Examples.rnd0 Examples.world0) in
  _n_games (agent w) = length (_replay_memory (agent w))
  /\ scratch (_post_load (Examples.net [5; 6]) (agent w))
     = scratch Examples.agent0
  /\ shaped (_post_load (Examples.net [5; 6]) (agent w)) = true
  /\ _n_updates (_post_load (Examples.net [5; 6]) (agent w)) = 1%nat.
Proof.
  intros w.
  assert (HG : _n_games (agent w) = length (_replay_memory (agent w)))
    by reflexivity.
  destruct (post_load_reallocates (Examples.net [5; 6]) (agent w)
              (scratch (agent w)))
    as (_ & E2 & _ & _ & _ & _ & _ & E8 & _ & _ & E11).
  split; [exact HG |]. split; [rewrite E2; reflexivity |].
  split; [exact (E11 HG) |]. rewrite E8. reflexivity.
Defined.

(** An evaluation frequency of 0: the run fails after the freeze. *)
Lemma run_zero_frequency_witness :
  let r := Runner.run Examples.learn0 Examples.evaluate0
             Examples.args_zero_frequency Examples.agent0 in
  Runner.debug Examples.args_zero_frequency = false
  /\ Runner.evaluation_frequency Examples.args_zero_frequency = 0%Z
  /\ fst r = Raised ZeroDivisionError
  /\ Runner.trace (snd r) = [Runner.Evaluate 0; Runner.Freeze].
Proof.
  intros r.
  destruct (run_zero_frequency Examples.learn0 Examples.evaluate0
              Examples.args_zero_frequency Examples.agent0)
    as (H1 & _ & H3).
  assert (Hr : fst r = Raised ZeroDivisionError)
    by (apply H1; split; reflexivity).
  split; [reflexivity |]. split; [reflexivity |]. split; [exact Hr |].
  exact (proj1 (H3 Hr)).
Defined.

(** The shared observation space of the two tasks has 3 components. *)
Lemma mdp_info_observation_witness :
  exists info i mo,
    Experiment.make_mdp_info Examples.mdps = Experiment.Ok info
    /\ Experiment.max_obs_idx (Experiment.largest Examples.mdps) = Some i
    /\ nth_error Examples.mdps i = Some mo
    /\ Experiment.info_observation_dim info = Experiment.observation_dim mo
    /\ i = 1%nat.
Proof.
  eexists.
  match goal with
  | |- exists i mo, Experiment.make_mdp_info _ = Experiment.Ok ?info /\ _ =>
      destruct (proj1 (mdp_info_observation Examples.mdps) info eq_refl)
        as (i & mo & H1 & H2 & H3 & _)
  end.
  exists i, mo. split; [reflexivity |]. split; [exact H1 |].
  split; [exact H2 |]. split; [exact H3 |].
  vm_compute in H1. now injection H1.
Defined.

(** The bounds of the two tasks: 1 and 2. A third task with an action
    space of shape [(2, 3)] makes the third assertion raise
    [ValueError]. *)
Lemma action_bounds_checked_witness :
  Experiment.max_action_value Examples.mdps = Experiment.Ok [1; 2]
  /\ length [1; 2] = length Examples.mdps
  /\ Experiment.max_action_value (Examples.mdps ++ [Examples.mdp_two_axes])
     = Experiment.Fail (Experiment.Python ValueError)
  /\ exists m, In m (Examples.mdps ++ [Examples.mdp_two_axes])
               /\ (1 < Experiment.row_size (Experiment.action_shape m))%nat.
Proof.
  assert (E : Experiment.max_action_value Examples.mdps
              = Experiment.Ok [1; 2]) by reflexivity.
  assert (E' : Experiment.max_action_value
                 (Examples.mdps ++ [Examples.mdp_two_axes])
               = Experiment.Fail (Experiment.Python ValueError))
    by reflexivity.
  split; [exact E |].
  split;
    [exact (proj1 (proj1 (action_bounds_checked Examples.mdps) [1; 2] E)) |].
  split; [exact E' |].
  destruct (proj1 (proj2 (action_bounds_checked
                            (Examples.mdps ++ [Examples.mdp_two_axes])))
              _ E') as [X | (_ & m & Hm & Hrow & _)]; [discriminate X |].
  exists m. split; [exact Hm | exact Hrow].
Defined.

(** Two game names. *)
Lemma domains_round_trip_witness :
  domains [py_list "AntBulletEnv-v0"; py_list "HopperBulletEnv-v0"]
  = ["AntBulletEnv-v0"; "HopperBulletEnv-v0"]%string.
Proof.
  exact (proj1 (domains_round_trip
                  ["AntBulletEnv-v0"; "HopperBulletEnv-v0"]%string)).
Defined.

(** Threshold 1: the learning phase of epoch 1 gets trainable shared
    weights although the agent was frozen before the loop. *)
Lemma learn_sees_unfrozen_witness :
  (Runner.unfreeze_epoch Examples.args_unfreeze > 0)%Z
  /\ (Z.of_nat 1 >= Runner.unfreeze_epoch Examples.args_unfreeze)%Z
  /\ shared_trainable
       (agent_at Examples.learn0 Examples.evaluate0 Examples.args_unfreeze
          Examples.agent0 0) = (false, false)
  /\ shared_trainable
       (handed_to_learn Examples.learn0 Examples.evaluate0
          Examples.args_unfreeze Examples.agent0 1) = (true, true).
Proof.
  assert (H1 : (Runner.unfreeze_epoch Examples.args_unfreeze > 0)%Z)
    by reflexivity.
  assert (H2 : (Z.of_nat 1 >= Runner.unfreeze_epoch Examples.args_unfreeze)%Z)
    by (vm_compute; discriminate).
  split; [exact H1 |]. split; [exact H2 |]. split; [reflexivity |].
  destruct (learn_sees_unfrozen Examples.learn0 Examples.evaluate0
              Examples.args_unfreeze Examples.agent0 0) as (_ & H & _).
  exact (H H1 H2).
Defined.
